(* ===== verification/_CoqProject ===== *)
-Q . S2P
Prelude.v
Absl.v
Headers.v
Host.v
Framework.v
Rules.v
ThirdParty.v
HeaderSamples.v
ResponseSamples.v
Auth.v
Cookies.v
Bodies.v
UrlSamples.v
YamlProto.v
Pb.v
Gtest.v
Expect.v
Inputs.v
Vm.v
Runner.v
Verified.v
Suites.v
Bench.v
BenchRuns.v
Main.v
LuaApi.v
LuaMethods.v
LuaStream.v
LuaInv.v
LuaProps.v
LuaBindings.v
LuaRegister.v
LuaPlugin.v
LuaStubs.v
