(* ===== verification/Prelude.v ===== *)
(** * A verification library for the C++ Wasm plugins of this repository

    The repository holds plugins for HTTP streams: C++ classes compiled to Wasm
    modules, which a proxy loads and calls when the headers or a part of the
    body of a request or a response arrive, and a test framework that plays
    the proxy.  This library models the framework, the sample plugins and the
    Lua plugin, and proves what they promise.

    ** How the parts interact

    A plugin is a set of callbacks ([onConfigure], [onRequestHeaders],
    [onResponseBody], ...).  A callback runs to its end while it calls the host
    (reads and writes headers, buffers and properties, sends a local response,
    logs), and returns a status that lets the stream go on or stops it.  Here a
    callback is a program, a term of [Host.Prog]: a tree of host calls.  There
    are two hosts:

    - Framework.v is the concrete one, plugins/test/framework.cc and
      framework.h: the state of [TestHttpContext], its header map (a
      [std::map] with a caseless order, Headers.v), its buffer, one definition
      for each host call ([fw_getHeaderMapValue], ...) and one for each phase
      ([SendRequestHeaders], ...);
    - Host.v has the abstract one: [HostView] is what a plugin can observe and
      [interp] the contract of every call; [wp] is total correctness against
      this contract ([False] for a trap or for a call outside of the contract).

    The soundness theorems of Framework.v (a refinement) say that what is proved
    of a callback with [wp] holds of its runs in the framework.  The plugins are
    verified with [wp] and the rules of Rules.v only.

    ** The files

    - Prelude.v: bytes, [std::string] operations, integers at their width,
      decimal texts, list lemmas, the rewrite database [svc].
    - Absl.v: the functions of Abseil that the sources call, an interface
      ([Absl], its laws [AbslOk]) with a reference instance.
    - Headers.v: [Headers] of framework.h as an ordered list, its abstraction to
      a finite map from lower-case names ([hmap]).
    - Host.v, Framework.v, Rules.v: see above.
    - ThirdParty.v: interfaces of RE2, Boost.URL, OpenSSL and jwt_verify_lib,
      with the documented behaviour the plugins rely on as laws, and stand-ins
      that show the laws can hold.
    - HeaderSamples.v, ResponseSamples.v, Auth.v, Cookies.v, Bodies.v,
      UrlSamples.v: the plugins of plugins/samples, one Module for each
      plugin.cc; a record for the fields of the root or stream context where it
      has any, a definition for each callback and helper.
    - YamlProto.v: test/yaml_proto_converter.cpp over the descriptors of
      test/runner.proto.  Pb.v: the messages of runner.proto as records.
    - Gtest.v: functions that report failures.  Expect.v, Inputs.v, Runner.v:
      test/dynamic_test.cc, the expectations, the inputs and [TestBody].
      Vm.v: the VM and its plugin in test/framework.cc and the fixture of
      native tests.  Verified.v: what a test asks of a plugin, on the abstract
      host alone.  Suites.v: tests.textpb of ten samples, as data.
      Bench.v: the additional streams of the benchmarks.
      BenchRuns.v: the inputs, the statistics and the three benchmarks.
      Main.v: test/runner_main.cc, the configuration of a run, the
      registration of tests and benchmarks, and the exit status.
    - LuaApi.v: samples/lua/envoy_lua_api.cc, the objects a script works with.
    - LuaMethods.v: envoy_lua_api.h, the calls that each class declares, and
      the methods that only report that they are missing.
    - LuaStream.v: samples/lua/lua_state.cc, coroutine.cc, lua_plugin.cc: the
      coroutine of a stream as a state that the events of the stream change.
      LuaInv.v: runs against any host and the invariant of the coroutine.
      LuaProps.v: what the end of the stream, the waits and the configuration
      do.
    - LuaBindings.v: envoy_lua_api_registration.cc, the tables of the classes
      and a script's method call [x:key(args)] through them.  LuaRegister.v:
      the order of the registration, the Lua code of envoy_lua_api_shims.h, the
      scoped global of lua_state.h, closures as globals, [pairs] over headers.
    - LuaPlugin.v: the contexts of lua_plugin.h as the plugin of a VM that the
      runner loads: the composition of the plugin, the framework, the runner
      and the benchmarks.
    - LuaStubs.v: proxy_wasm_test_stubs.cc and .h, the host calls that the unit
      tests of the Lua plugin are linked against, the lifetime of their mock and
      the memory its actions write.

    ** What the theorems show

    - Framework: soundness of [wp] for the four phases; the header map stays
      ordered; reading and writing back pairs is the identity; reads of buffers
      are safe on 32-bit ranges; no phase runs after a local response.
    - Requests and responses: which header, path or local response every
      handler yields, on every branch, the errors included; configuration loops
      end and compute the set, the map or the record that the text denotes.
    - Authentication: exactly the requests with a valid signature, cookie or
      token pass; the text that is signed is ambiguous in one sample.
    - Cookies: what is set, kept and deleted; a session cookie that was set is
      recognised; a rebuilt header parses to what was kept.
    - Bodies: the edits of a body equal a declarative rewriting of its text
      (one pass for URLs, insertion at the places of the original text).
    - The runner: a test passes exactly if every phase of the stream meets its
      expectation ([TestBody_spec]); a plugin passes a test if [wp] proves of its
      handlers, phase after phase, what the test asks ([verified_test_passes]),
      so that the suites shipped with ten samples pass
      ([shipped_tests_pass]); bodies are cut without loss; a
      YAML suite is well-typed and is what its tree denotes; an additional stream
      goes through its life over and over; a benchmark uses no stream that is
      not there, and among whatever additional streams measures a plugin whose
      streams live without an error; the program exits with zero exactly if
      every test meets its expectations on every engine.
    - Lua: the invariant of the coroutine over all histories of events, for
      every host and every script; the end of a stream ends the script, and its
      last event lets the stream go on or answers it; body
      buffering; the check of mutations after the headers were passed on; the
      order of sandbox and script in the configuration; the method calls of a
      script are the calls of the coroutine's model, and give it no other
      object than the handle, headers and bodies; the function that reads any
      metatable is gone before a configured script runs; in the runner, no
      stream of a configured script makes its VM fail, and a test of the script
      in the README passes exactly if it expects the value that is added;
      a stub of the unit tests never calls a mock that is gone, and a mocked
      body can be read back exactly if no NUL is in it before its last byte.

    Some theorems state behaviour that differs from a comment or a README (the
    lost body of a local response, an ambiguous signature, the headers object
    without a check, a missing entry point, immediate responses in body phases,
    the input of benchmarks, the views of ab_testing that outlive what they
    view, the TLS connection that no script can reach, the mocked bodies with a
    NUL); their comments say so.

    ** Modelling conventions

    Integers are in [Z]; where the sources wrap or compare against limits, so do
    the definitions ([wrap64], [parse_int_in]).  A [string_view] that a call
    returns is the text (in ab_testing also whether its characters are still
    there); a null [WasmData] is [None], and its use a [Trap].
    [std::map] and [std::unordered_map] are ordered lists where their order
    shows, and finite maps where it does not.  The order in which the host lists
    headers is open ([interp] allows every permutation).  A log line is the
    text that the source passes; a source location that the macros of the SDK
    may put before it is left out.  What the VM's host makes of the status that
    a handler returns is open ([abi_headers_status]); the theorem on the shipped
    suites asks of it that a stream stops after a local response
    ([reply_stops]).

    Loops are structural where the sources iterate over a list.  Fuel: the
    splitting functions of Absl.v and [pem_lines] of LuaApi.v take the length of
    their text, which each round shortens; [find_all] and [rewrite_matches] take
    one more than the length of the body, since a match is not empty;
    [Advance] takes one more than the rounds that can
    only change the next action; [pieces] takes the length of a body or the
    number of cuts; [RunToCompletion] takes a bound on how often a script waits
    ([waits_within]), and traps without fuel, so that its theorems, which
    exclude traps, show that it ends.

    ** What is not modelled

    gtest and the benchmark library, which run what is registered with them and
    choose the number of rounds, the interpreter, LuaBridge and the VM with its
    calls into the root context ([Plugin], [WasmHost]) are parameters: a script
    is the tree of its calls into the API, a VM is what its calls yield.  The
    parsing of the command line, the traces that are printed for debugging, the
    platforms other than Linux in the resident set, the unit tests (gmock makes
    the methods of their mocks) and the code in other languages are left out.  Trees of YAML are
    finite: a cyclic alias has no model. *)

From stdpp Require Export base gmap sets list strings fin_maps sorting.
From Stdlib Require Export Ascii ZArith Lia.
From Stdlib Require Import Strings.Byte DecimalString DecimalZ.
From Stdlib Require DecimalFacts DecimalPos.

(** ** Byte strings

    A [std::string], [std::string_view] or [absl::string_view] is the list of
    its bytes.  The literals of the sources are written as string literals in
    [str_scope]. *)

Abbreviation str := (list ascii).

Declare Scope str_scope.
Delimit Scope str_scope with str.


Inductive str_literal : Type :=
  | lit_nil
  | lit_cons (c : ascii) (l : str_literal).

Fixpoint literal_of_bytes (l : list byte) : str_literal :=
  match l with
  | [] => lit_nil
  | b :: l => lit_cons (ascii_of_byte b) (literal_of_bytes l)
  end.

Fixpoint bytes_of_literal (s : str_literal) : option (list byte) :=
  match s with
  | lit_nil => Some []
  | lit_cons c l => (byte_of_ascii c ::.) <$> bytes_of_literal l
  end.

#[warnings="-via-type-mismatch"]
String Notation list literal_of_bytes bytes_of_literal
  (via str_literal mapping [[nil] => lit_nil, [cons] => lit_cons]) : str_scope.

#[export] Instance str_eq_dec : EqDecision str := _.
#[export] Instance str_countable : Countable str := _.

(** ** Characters (the C locale) *)

Definition code (c : ascii) : Z := Z.of_N (N_of_ascii c).
Definition of_code (n : Z) : ascii := ascii_of_N (Z.to_N n).

Definition in_range (lo hi : ascii) (c : ascii) : bool :=
  (code lo <=? code c)%Z && (code c <=? code hi)%Z.

Definition is_digit : ascii -> bool := in_range "0" "9".
Definition is_upper : ascii -> bool := in_range "A" "Z".
Definition is_lower : ascii -> bool := in_range "a" "z".
Definition is_alpha (c : ascii) : bool := is_upper c || is_lower c.

(** [std::isalnum] in the C locale. *)
Definition is_alnum (c : ascii) : bool := is_alpha c || is_digit c.

(** The six white-space characters of the C locale. *)
Definition is_space (c : ascii) : bool :=
  bool_decide (c ∈ (" "%char :: map ascii_of_nat [9; 10; 11; 12; 13])).

Definition to_lower (c : ascii) : ascii :=
  if is_upper c then of_code (code c + 32)%Z else c.

Definition lower (s : str) : str := map to_lower s.

Definition zero : ascii := ascii_of_nat 0.
Definition nl : str := [ascii_of_nat 10].
Definition dquote : str := [ascii_of_nat 34].

(** ** [std::string] *)

(** [s.compare(0, p.size(), p) == 0] *)
Fixpoint starts_with (p s : str) : bool :=
  match p, s with
  | [], _ => true
  | _ :: _, [] => false
  | a :: p, b :: s => bool_decide (a = b) && starts_with p s
  end.

(** [s.find(p)]; [npos] is [None]. *)
Fixpoint find (p s : str) : option nat :=
  if starts_with p s then Some 0
  else match s with
       | [] => None
       | _ :: s => S <$> find p s
       end.

Definition contains (p s : str) : bool := bool_decide (is_Some (find p s)).

(** [s.substr(pos, len)] for [pos <= s.size()]; [len = None] is [npos]. *)
Definition substr (s : str) (pos : nat) (len : option nat) : str :=
  match len with
  | Some n => take n (drop pos s)
  | None => drop pos s
  end.

(** [s.find_first_of(set, pos)] *)
Definition find_first_of (set s : str) (pos : nat) : option nat :=
  (λ p, pos + p.1) <$> list_find (.∈ set) (drop pos s).

(** [s.insert(pos, t)] and [s.replace(pos, len, t)] for [pos <= s.size()]. *)
Definition insert_at (s : str) (pos : nat) (t : str) : str :=
  take pos s ++ t ++ drop pos s.

Definition replace_at (s : str) (pos len : nat) (t : str) : str :=
  take pos s ++ t ++ drop (pos + len) s.

(** [s.size()] as the integer the sources compare and print. *)
Definition size_of (s : str) : Z := Z.of_nat (length s).

(** [std::to_string] *)
Definition to_string (z : Z) : str :=
  String.list_ascii_of_string (NilEmpty.string_of_int (Z.to_int z)).

(** [s] glued with [sep] between consecutive pieces. *)
Fixpoint join (sep : str) (l : list str) : str :=
  match l with
  | [] => []
  | [s] => s
  | s :: l => s ++ sep ++ join sep l
  end.

(** [s] cut at every white-space character, and its non-empty pieces. *)
Fixpoint split_spaces (s : str) : list str :=
  match s with
  | [] => [[]]
  | c :: s =>
      if is_space c then [] :: split_spaces s
      else match split_spaces s with [] => [[c]] | p :: l => (c :: p) :: l end
  end.

Definition words (s : str) : list str := filter (.≠ []) (split_spaces s).

(** ** Machine integers *)

Definition wrap64 (z : Z) : Z := (z mod 2 ^ 64)%Z.

(** A wider integer converted to [int]. *)
Definition to_int (z : Z) : Z :=
  let z := (z mod 2 ^ 32)%Z in if (2 ^ 31 <=? z)%Z then (z - 2 ^ 32)%Z else z.

Definition int32_min : Z := (- 2 ^ 31)%Z.
Definition int32_max : Z := (2 ^ 31 - 1)%Z.
Definition int64_min : Z := (- 2 ^ 63)%Z.
Definition int64_max : Z := (2 ^ 63 - 1)%Z.

(** ** Automation *)

Create HintDb svc discriminated.
Create Rewrite HintDb svc.

(** Split the [if]s and [match]es of the goal, closing impossible branches. *)
Ltac split_cases := repeat (case_match; simplify_eq/=; try done).

(** ** Lemmas on characters and strings *)

Lemma code_range c : (0 <= code c < 256)%Z.
Proof. unfold code. destruct c as [[] [] [] [] [] [] [] []]; cbv; split; congruence. Qed.

Lemma to_lower_idem c : to_lower (to_lower c) = to_lower c.
Proof. destruct c as [[] [] [] [] [] [] [] []]; reflexivity. Qed.

Lemma lower_idem s : lower (lower s) = lower s.
Proof. unfold lower. rewrite map_map. apply map_ext, to_lower_idem. Qed.

Lemma lower_app s t : lower (s ++ t) = lower s ++ lower t.
Proof. apply map_app. Qed.

Lemma starts_with_spec p s : starts_with p s = true <-> exists t, s = p ++ t.
Proof.
  revert s; induction p as [|a p IH]; intros [|b s]; simpl.
  - split; [by exists []|done].
  - split; [by exists (b :: s)|done].
  - split; [done|by intros [? ?]].
  - rewrite andb_true_iff, bool_decide_eq_true, IH. split.
    + intros [-> [t ->]]. by exists t.
    + intros [t [= -> ->]]. eauto.
Qed.

Lemma starts_with_app p s : starts_with p (p ++ s) = true.
Proof. apply starts_with_spec. eauto. Qed.

Lemma find_Some p s n :
  find p s = Some n -> s = take n s ++ p ++ drop (n + length p) s /\ n + length p <= length s.
Proof.
  revert n; induction s as [|a s IH]; intros n; simpl.
  - destruct p; simpl; [|done]. intros [= <-]. split; [done|simpl; lia].
  - destruct (starts_with p (a :: s)) eqn:Hp.
    + intros [= <-]. apply starts_with_spec in Hp as [t Ht].
      change (S (length s)) with (length (a :: s)). rewrite Ht, length_app.
      simpl. rewrite drop_app_length. split; [done|lia].
    + destruct (find p s) as [m|] eqn:Hm; simpl; [|done]. intros [= <-].
      destruct (IH _ eq_refl) as [Heq Hle]. simpl. split; [congruence|lia].
Qed.

(** [find] returns the first occurrence. *)
Lemma find_Some_first p s n m :
  find p s = Some n -> m < n -> starts_with p (drop m s) = false.
Proof.
  revert n m; induction s as [|a s IH]; intros n m; simpl.
  - destruct (starts_with p []); naive_solver lia.
  - destruct (starts_with p (a :: s)) eqn:Hp; [intros [= <-]; lia|].
    destruct (find p s) as [k|] eqn:Hk; simpl; [|done]. intros [= <-] Hlt.
    destruct m as [|m]; [done|]. simpl. apply (IH k); [done|lia].
Qed.

Lemma find_None p s m : find p s = None -> starts_with p (drop m s) = false.
Proof.
  revert m; induction s as [|a s IH]; intros m; simpl.
  - destruct (starts_with p []) eqn:?; [done|]. by rewrite drop_nil.
  - destruct (starts_with p (a :: s)) eqn:Hp; [done|].
    destruct (find p s) eqn:Hk; simpl; [done|]. intros _.
    destruct m as [|m]; [done|]. simpl. by apply IH.
Qed.

Lemma contains_spec p s : contains p s = true <-> exists a b, s = a ++ p ++ b.
Proof.
  unfold contains. rewrite bool_decide_eq_true. split.
  - intros [n Hn]. apply find_Some in Hn as [-> _]. eauto.
  - intros (a & b & ->). destruct (find p (a ++ p ++ b)) eqn:Hf; [by eexists|].
    apply (find_None _ _ (length a)) in Hf.
    by rewrite drop_app_length, starts_with_app in Hf.
Qed.

(** Bounds of [find_first_of]: the first position at or after [pos]. *)
Lemma find_first_of_Some set s pos n :
  find_first_of set s pos = Some n ->
  pos <= n < length s /\ (exists c, s !! n = Some c /\ c ∈ set) /\
  Forall (.∉ set) (take (n - pos) (drop pos s)).
Proof.
  unfold find_first_of. destruct (list_find _ _) as [[i c]|] eqn:Hf; [|done].
  simpl. intros [= <-]. apply list_find_Some in Hf as (Hi & Hc & Hlt).
  rewrite lookup_drop in Hi. pose proof (lookup_lt_Some _ _ _ Hi). split; [lia|].
  split; [eauto|]. replace (pos + i - pos) with i by lia.
  apply Forall_lookup. intros j x Hj.
  apply lookup_take_Some in Hj as [Hj ?]. by apply (Hlt j x).
Qed.

Lemma find_first_of_None set s pos :
  find_first_of set s pos = None -> Forall (.∉ set) (drop pos s).
Proof.
  unfold find_first_of. intros Hf.
  destruct (list_find _ _) eqn:Hl; [done|]. by apply list_find_None in Hl.
Qed.

Lemma split_spaces_app a c b :
  Forall (λ x, is_space x = false) a -> is_space c = true ->
  split_spaces (a ++ c :: b) = a :: split_spaces b.
Proof.
  intros Ha Hc. induction Ha as [|x a Hx Ha IH]; simpl; [by rewrite Hc|].
  by rewrite Hx, IH.
Qed.

Lemma split_spaces_free a :
  Forall (λ x, is_space x = false) a -> split_spaces a = [a].
Proof.
  intros Ha. induction Ha as [|x a Hx Ha IH]; simpl; [done|]. by rewrite Hx, IH.
Qed.

(** The first word ends at the first white space. *)
Lemma words_app a c b :
  Forall (λ x, is_space x = false) a -> is_space c = true ->
  words (a ++ c :: b) = (if decide (a = []) then [] else [a]) ++ words b.
Proof.
  intros Ha Hc. unfold words. rewrite split_spaces_app, filter_cons by done.
  destruct (decide (a = [])) as [->|Hne]; [done|]. by rewrite decide_True.
Qed.

Lemma words_free a : a <> [] -> Forall (λ x, is_space x = false) a -> words a = [a].
Proof.
  intros Hne Ha. unfold words. rewrite split_spaces_free by done.
  by rewrite filter_cons_True.
Qed.

Lemma to_string_inj z1 z2 : to_string z1 = to_string z2 -> z1 = z2.
Proof.
  unfold to_string. intros H.
  apply (f_equal String.string_of_list_ascii) in H.
  rewrite !String.string_of_list_ascii_of_string in H.
  apply (f_equal NilEmpty.int_of_string) in H. rewrite !NilEmpty.isi in H.
  injection H as H. apply DecimalZ.to_int_inj in H. done.
Qed.

Lemma join_cons sep s l : l <> [] -> join sep (s :: l) = s ++ sep ++ join sep l.
Proof. by destruct l. Qed.

Lemma concat_two (a b : str) : concat [a; b] = a ++ b.
Proof. simpl. by rewrite app_nil_r. Qed.

Lemma concat_three (a b c : str) : concat [a; b; c] = a ++ b ++ c.
Proof. simpl. by rewrite app_nil_r. Qed.

Lemma size_zero s : (size_of s =? 0)%Z = bool_decide (s = []).
Proof. by destruct s. Qed.

(** The classes of status codes: C's division rounds towards zero. *)
Lemma quot_hundred c n :
  (0 < n)%Z -> Z.quot c 100 = n <-> (n * 100 <= c < (n + 1) * 100)%Z.
Proof.
  intros Hn. destruct (Z.le_gt_cases 0 c).
  - rewrite Z.quot_div_nonneg by lia. pose proof (Z.div_mod c 100).
    pose proof (Z.mod_pos_bound c 100). lia.
  - pose proof (Z.quot_le_mono c 0 100). change (Z.quot 0 100) with 0%Z in *. lia.
Qed.

Lemma wrap64_id z : (0 <= z < 2 ^ 64)%Z -> wrap64 z = z.
Proof. apply Z.mod_small. Qed.

Lemma to_int_id z : (0 <= z < 2 ^ 31)%Z -> to_int z = z.
Proof.
  intros Hz. unfold to_int. rewrite Z.mod_small by lia.
  destruct (Z.leb_spec (2 ^ 31) z); lia.
Qed.

(** ** Decimal numbers *)

Definition uint_str (d : Decimal.uint) : str :=
  String.list_ascii_of_string (NilEmpty.string_of_uint d).

Lemma uint_str_digits d : Forall (λ c, is_digit c = true) (uint_str d).
Proof. induction d; simpl; constructor; done. Qed.

Lemma uint_str_length d : length (uint_str d) = Decimal.nb_digits d.
Proof. induction d; simpl; f_equal; done. Qed.

Lemma of_uint_acc_ge d acc :
  (Z.pos acc * 10 ^ Z.of_nat (Decimal.nb_digits d) <= Z.pos (Pos.of_uint_acc d acc))%Z.
Proof.
  revert acc. induction d; intros acc; cbn [Decimal.nb_digits Pos.of_uint_acc];
    [simpl; lia|..]; rewrite Nat2Z.inj_succ, Z.pow_succ_r by lia;
    (etrans; [|apply IHd]); nia.
Qed.

Lemma to_uint_bound p :
  (10 ^ (Z.of_nat (Decimal.nb_digits (Pos.to_uint p)) - 1) <= Z.pos p)%Z.
Proof.
  pose proof (DecimalPos.Unsigned.of_to p) as Hp.
  pose proof (DecimalPos.Unsigned.to_of (Pos.to_uint p)) as Hn.
  rewrite Hp in Hn. simpl in Hn.
  destruct (Pos.to_uint p) as [|d|d|d|d|d|d|d|d|d|d] eqn:Hu;
    try (cbn [Pos.of_uint] in Hp; injection Hp as <-; cbn [Decimal.nb_digits];
         rewrite Nat2Z.inj_succ; unfold Z.succ; rewrite Z.add_simpl_r;
         (etrans; [|apply of_uint_acc_ge]); nia); [done|].
  exfalso. unfold Decimal.unorm in Hn.
  destruct (Decimal.nzhead (Decimal.D0 d)) eqn:Hz; try discriminate.
  - injection Hn as ->. discriminate.
  - by apply DecimalFacts.nzhead_nonzero in Hz.
Qed.

Lemma to_string_nonneg z :
  (0 < z)%Z -> exists d, to_string z = uint_str d /\
    (10 ^ (Z.of_nat (Decimal.nb_digits d) - 1) <= z)%Z.
Proof.
  intros Hz. destruct z as [|p|p]; [lia| |lia]. exists (Pos.to_uint p).
  split; [done|apply to_uint_bound].
Qed.

Lemma to_string_digits z : (0 <= z)%Z -> Forall (λ c, is_digit c = true) (to_string z).
Proof.
  intros Hz. destruct (decide (z = 0)%Z) as [->|Hne]; [by repeat constructor|].
  destruct (to_string_nonneg z) as (d & -> & _); [lia|]. apply uint_str_digits.
Qed.

Lemma to_string_length z n :
  (0 <= z < 10 ^ n)%Z -> (1 <= n)%Z -> (size_of (to_string z) <= n)%Z.
Proof.
  intros Hz Hn. destruct (decide (z = 0)%Z) as [->|Hne]; [done|].
  destruct (to_string_nonneg z) as (d & -> & Hd); [lia|].
  unfold size_of. rewrite uint_str_length.
  destruct (Z.le_gt_cases (Z.of_nat (Decimal.nb_digits d)) n) as [|Hgt]; [done|].
  exfalso. assert (10 ^ n <= 10 ^ (Z.of_nat (Decimal.nb_digits d) - 1))%Z; [|lia].
  apply Z.pow_le_mono_r; lia.
Qed.

Lemma to_string_ne z : to_string z <> [].
Proof.
  unfold to_string. destruct z as [|p|p]; [done| |done]. cbn [Z.to_int NilEmpty.string_of_int].
  intros Hn. pose proof (DecimalPos.Unsigned.of_to p) as Hp.
  by destruct (Pos.to_uint p).
Qed.

Lemma find_fresh c p s : c ∉ s -> find (c :: p) s = None.
Proof.
  induction s as [|x s IH]; simpl; [done|]. intros Hc.
  rewrite bool_decide_false by set_solver. simpl. rewrite IH by set_solver. done.
Qed.

(** ** Filters *)

Lemma filter_same {A} (P : A -> Prop) `{!forall x, Decision (P x)} l :
  length l <= length (filter P l) -> filter P l = l.
Proof.
  induction l as [|x l IH]; [done|]. rewrite filter_cons. case_decide; simpl; intros Hl.
  - f_equal. apply IH. lia.
  - pose proof (length_filter P l). lia.
Qed.

Lemma filter_all {A} (P : A -> Prop) `{!forall x, Decision (P x)} l :
  Forall P l -> filter P l = l.
Proof.
  intros Hl. induction Hl as [|x l Hx Hl IH]; [done|]. rewrite filter_cons_True by done.
  by f_equal.
Qed.

#[export] Hint Rewrite lower_idem lower_app starts_with_app : svc.
