(* ===== verification/Absl.v ===== *)
(** * The Abseil string library, as an interface

    Abseil is a dependency of the sources and not part of them: the class
    [Absl] lists the functions the sources call, and every definition of the
    development that uses them takes an instance as an argument.  [AbslOk]
    states the documented behaviour of these functions, by means of the small
    reference functions below ([split_on], [strip], [parse_int], ...), whose
    properties the components share.  [absl_ref] is one concrete instance; it
    discharges [AbslOk], so that no hypothesis of the development is empty,
    and it is the instance the witnesses evaluate. *)

From S2P Require Import Prelude.

(** ** Reference functions *)

(** The maximal pieces of [s] free of [c]. *)
Fixpoint split_on (c : ascii) (s : str) : list str :=
  match s with
  | [] => [[]]
  | x :: s =>
      if decide (x = c) then [] :: split_on c s
      else match split_on c s with
           | [] => [[x]]
           | p :: l => (x :: p) :: l
           end
  end.

(** [s] around the first [c]. *)
Fixpoint cut_at (c : ascii) (s : str) : option (str * str) :=
  match s with
  | [] => None
  | x :: s =>
      if decide (x = c) then Some ([], s)
      else (λ p, (x :: p.1, p.2)) <$> cut_at c s
  end.

Fixpoint split_by_fuel (fuel : nat) (d s : str) : list str :=
  match fuel, find d s with
  | S fuel, Some i => take i s :: split_by_fuel fuel d (drop (i + length d) s)
  | _, _ => [s]
  end.

(** [s] cut at the occurrences of the non-empty [d], from left to right. *)
Definition split_by (d s : str) : list str := split_by_fuel (length s) d s.

Fixpoint strip_left (s : str) : str :=
  match s with
  | [] => []
  | c :: t => if is_space c then strip_left t else s
  end.

Definition strip (s : str) : str := reverse (strip_left (reverse (strip_left s))).

Definition digits_value (s : str) : Z :=
  fold_left (λ n c, (n * 10 + (code c - 48))%Z) s 0%Z.

Definition parse_digits (s : str) : option Z :=
  match s with
  | [] => None
  | _ => if forallb is_digit s then Some (digits_value s) else None
  end.

(** An optional sign and decimal digits, surrounded by white space. *)
Definition parse_int (s : str) : option Z :=
  match strip s with
  | "-"%char :: t => Z.opp <$> parse_digits t
  | "+"%char :: t => parse_digits t
  | t => parse_digits t
  end.

Definition parse_int_in (lo hi : Z) (s : str) : option Z :=
  n ← parse_int s; if decide (lo <= n <= hi)%Z then Some n else None.

Definition hex_digit (n : Z) : ascii :=
  if (n <? 10)%Z then of_code (n + 48) else of_code (n + 87).

Definition to_hex (s : str) : str :=
  flat_map (λ c, [hex_digit (code c / 16); hex_digit (code c mod 16)]) s.

Definition hex_value (c : ascii) : option Z :=
  if is_digit c then Some (code c - 48)%Z
  else if in_range "a" "f" c then Some (code c - 87)%Z
  else if in_range "A" "F" c then Some (code c - 55)%Z
  else None.

Fixpoint of_hex (s : str) : option str :=
  match s with
  | [] => Some []
  | a :: b :: s =>
      x ← hex_value a; y ← hex_value b; t ← of_hex s;
      Some (of_code (16 * x + y) :: t)
  | _ => None
  end.

(** The first two pieces of a split, the missing ones empty. *)
Definition first_two (l : list str) : str * str :=
  (default [] (l !! 0), default [] (l !! 1)).

(** ** The interface *)

Class Absl : Type := {
  StrCat : list str -> str;
  AlphaNum : Z -> str;                          (* an integer argument of StrCat *)
  StrJoin : list str -> str -> str;
  StrSplit : str -> ascii -> list str;          (* StrSplit(s, 'c') *)
  StrSplitSkipEmpty : str -> ascii -> list str; (* StrSplit(s, 'c', SkipEmpty()) *)
  StrSplitBy : str -> str -> list str;          (* StrSplit(s, "d") *)
  StrSplitMax1 : str -> ascii -> list str;      (* StrSplit(s, MaxSplits('c', 1)) *)
  SplitPair : list str -> str * str;            (* a split converted to std::pair *)
  StartsWith : str -> str -> bool;              (* text, prefix *)
  StartsWithIgnoreCase : str -> str -> bool;
  EqualsIgnoreCase : str -> str -> bool;
  StrContains : str -> str -> bool;             (* haystack, needle *)
  StrContainsIgnoreCase : str -> str -> bool;
  AsciiStrToLower : str -> str;
  StripAsciiWhitespace : str -> str;
  StripLeadingAsciiWhitespace : str -> str;
  StripPrefix : str -> str -> str;              (* text, prefix *)
  StripSuffix : str -> str -> str;              (* text, suffix *)
  SimpleAtoi32 : str -> option Z;               (* SimpleAtoi to int *)
  SimpleAtoi64 : str -> option Z;               (* SimpleAtoi to int64_t *)
  StrReplaceAll : str -> list (str * str) -> str;
  BytesToHexString : str -> str;
  HexStringToBytes : str -> option str;
  Base64Unescape : str -> option str;
  WebSafeBase64Escape : str -> str;
}.

Class AbslOk (A : Absl) : Prop := {
  StrCat_ok l : StrCat l = concat l;
  AlphaNum_ok z : AlphaNum z = to_string z;
  StrJoin_ok l sep : StrJoin l sep = join sep l;
  StrSplit_ok s c : StrSplit s c = split_on c s;
  StrSplitSkipEmpty_ok s c : StrSplitSkipEmpty s c = filter (.≠ []) (split_on c s);
  StrSplitBy_ok s d : d <> [] -> StrSplitBy s d = split_by d s;
  StrSplitMax1_ok s c :
    StrSplitMax1 s c = match cut_at c s with Some (a, b) => [a; b] | None => [s] end;
  SplitPair_ok l : SplitPair l = first_two l;
  StartsWith_ok s p : StartsWith s p = starts_with p s;
  StartsWithIgnoreCase_ok s p :
    StartsWithIgnoreCase s p = starts_with (lower p) (lower s);
  EqualsIgnoreCase_ok s t : EqualsIgnoreCase s t = bool_decide (lower s = lower t);
  StrContains_ok s p : StrContains s p = contains p s;
  StrContainsIgnoreCase_ok s p :
    StrContainsIgnoreCase s p = contains (lower p) (lower s);
  AsciiStrToLower_ok s : AsciiStrToLower s = lower s;
  StripAsciiWhitespace_ok s : StripAsciiWhitespace s = strip s;
  StripLeadingAsciiWhitespace_ok s : StripLeadingAsciiWhitespace s = strip_left s;
  StripPrefix_ok s p : StripPrefix s p = if starts_with p s then drop (length p) s else s;
  StripSuffix_ok s p :
    StripSuffix s p = if starts_with (reverse p) (reverse s)
                      then take (length s - length p) s else s;
  SimpleAtoi32_ok s : SimpleAtoi32 s = parse_int_in int32_min int32_max s;
  SimpleAtoi64_ok s : SimpleAtoi64 s = parse_int_in int64_min int64_max s;
  BytesToHexString_ok s : BytesToHexString s = to_hex s;
  HexStringToBytes_ok s : HexStringToBytes s = of_hex s;
}.

Create Rewrite HintDb absl.
#[export] Hint Rewrite @StrCat_ok @AlphaNum_ok @StrJoin_ok @StrSplit_ok @StrSplitSkipEmpty_ok
  @StrSplitMax1_ok @SplitPair_ok @StartsWith_ok @StartsWithIgnoreCase_ok
  @EqualsIgnoreCase_ok @StrContains_ok @StrContainsIgnoreCase_ok
  @AsciiStrToLower_ok @StripAsciiWhitespace_ok @StripLeadingAsciiWhitespace_ok
  @StripPrefix_ok @StripSuffix_ok
  @SimpleAtoi32_ok @SimpleAtoi64_ok @BytesToHexString_ok @HexStringToBytes_ok
  using (exact _) : absl.

(** Replace the library calls of the goal by the reference functions. *)
Ltac absl := autorewrite with absl in *.

(** ** [absl::Status] *)

Inductive StatusCode : Type :=
  | kOk | kCancelled | kUnknown | kInvalidArgument | kDeadlineExceeded | kNotFound
  | kAlreadyExists | kPermissionDenied | kResourceExhausted | kFailedPrecondition
  | kAborted | kOutOfRange | kUnimplemented | kInternal | kUnavailable | kDataLoss
  | kUnauthenticated.

#[export] Instance StatusCode_eq_dec : EqDecision StatusCode.
Proof. solve_decision. Defined.

Record Status : Type := mkStatus { status_code : StatusCode; status_message : str }.

Definition OkStatus : Status := mkStatus kOk [].
Definition InternalError : str -> Status := mkStatus kInternal.
Definition InvalidArgumentError : str -> Status := mkStatus kInvalidArgument.
Definition FailedPreconditionError : str -> Status := mkStatus kFailedPrecondition.
Definition NotFoundError : str -> Status := mkStatus kNotFound.
Definition UnimplementedError : str -> Status := mkStatus kUnimplemented.
Definition AbortedError : str -> Status := mkStatus kAborted.

(** An error or a value. *)
Abbreviation StatusOr A := (Status + A)%type.

(** ** A concrete instance *)

(** Left-to-right replacement, at each position by the first matching key. *)
Fixpoint replace_all_fuel (fuel : nat) (s : str) (l : list (str * str)) : str :=
  match fuel, s with
  | S fuel, c :: t =>
      match list_find (λ kv, starts_with kv.1 s = true) l with
      | Some (_, (k, v)) => v ++ replace_all_fuel fuel (drop (length k) s) l
      | None => c :: replace_all_fuel fuel t l
      end
  | _, _ => s
  end.

(** Six bits per character; [n] bits of [acc] are pending. *)
Definition base64_digit (special : str) (n : Z) : ascii :=
  if (n <? 26)%Z then of_code (n + 65)
  else if (n <? 52)%Z then of_code (n + 71)
  else if (n <? 62)%Z then of_code (n - 4)
  else default "="%char (special !! Z.to_nat (n - 62)).

Fixpoint base64_encode (special : str) (acc n : Z) (s : str) : str :=
  match s with
  | [] =>
      if (n =? 0)%Z then []
      else [base64_digit special (Z.land (Z.shiftl acc (6 - n)) 63)]
  | c :: s =>
      let acc := (acc * 256 + code c)%Z in
      if (n =? 4)%Z then
        base64_digit special (Z.land (Z.shiftr acc 6) 63)
          :: base64_digit special (Z.land acc 63) :: base64_encode special 0 0 s
      else
        base64_digit special (Z.land (Z.shiftr acc (n + 2)) 63)
          :: base64_encode special (acc mod 2 ^ (n + 2)) (n + 2) s
  end.

Definition base64_value (c : ascii) : option Z :=
  if is_upper c then Some (code c - 65)%Z
  else if is_lower c then Some (code c - 71)%Z
  else if is_digit c then Some (code c + 4)%Z
  else if decide (c = "+"%char) then Some 62%Z
  else if decide (c = "/"%char) then Some 63%Z
  else None.

Fixpoint base64_decode (acc n : Z) (s : str) : option str :=
  match s with
  | [] => Some []
  | c :: s =>
      if decide (c = "="%char) then
        if forallb (λ d, bool_decide (d = "="%char)) s then Some [] else None
      else
        v ← base64_value c;
        let acc := (acc * 64 + v)%Z in
        let n := (n + 6)%Z in
        if (8 <=? n)%Z then
          (of_code (Z.shiftr acc (n - 8)) ::.) <$>
            base64_decode (acc mod 2 ^ (n - 8)) (n - 8) s
        else base64_decode acc n s
  end.

Definition absl_ref : Absl := {|
  StrCat := mjoin;
  AlphaNum := to_string;
  StrJoin l sep := join sep l;
  StrSplit s c := split_on c s;
  StrSplitSkipEmpty s c := filter (.≠ []) (split_on c s);
  StrSplitBy s d := split_by d s;
  StrSplitMax1 s c := match cut_at c s with Some (a, b) => [a; b] | None => [s] end;
  SplitPair := first_two;
  StartsWith s p := starts_with p s;
  StartsWithIgnoreCase s p := starts_with (lower p) (lower s);
  EqualsIgnoreCase s t := bool_decide (lower s = lower t);
  StrContains s p := contains p s;
  StrContainsIgnoreCase s p := contains (lower p) (lower s);
  AsciiStrToLower := lower;
  StripAsciiWhitespace := strip;
  StripLeadingAsciiWhitespace := strip_left;
  StripPrefix s p := if starts_with p s then drop (length p) s else s;
  StripSuffix s p :=
    if starts_with (reverse p) (reverse s) then take (length s - length p) s else s;
  SimpleAtoi32 := parse_int_in int32_min int32_max;
  SimpleAtoi64 := parse_int_in int64_min int64_max;
  StrReplaceAll s l := replace_all_fuel (length s) s l;
  BytesToHexString := to_hex;
  HexStringToBytes := of_hex;
  Base64Unescape := base64_decode 0 0;
  WebSafeBase64Escape := base64_encode "-_"%str 0 0;
|}.

#[export] Instance absl_ref_ok : AbslOk absl_ref.
Proof. split; try done. intros l. induction l; simpl; [done|]. by f_equal. Qed.

(** ** Lemmas *)

Lemma split_on_ne c s : split_on c s <> [].
Proof. destruct s; simpl; [done|]. case_decide; [done|]. by destruct (split_on c s). Qed.

(** Splitting loses nothing ... *)
Lemma join_split_on c s : join [c] (split_on c s) = s.
Proof.
  induction s as [|x s IH]; simpl; [done|].
  case_decide as Hx; [subst x|].
  - rewrite join_cons by apply split_on_ne. simpl. by rewrite IH.
  - destruct (split_on c s) as [|p [|q l]] eqn:Hs; simpl in *; congruence.
Qed.

(** ... and no piece contains the separator. *)
Lemma split_on_free c s : Forall (c ∉.) (split_on c s).
Proof.
  induction s as [|x s IH]; simpl; [repeat constructor; apply not_elem_of_nil|].
  case_decide as Hx; [constructor; [apply not_elem_of_nil|done]|].
  assert (x <> c) by done. destruct (split_on c s) as [|p l].
  - constructor; [|done]. by apply not_elem_of_cons; split; [|apply not_elem_of_nil].
  - apply Forall_cons in IH as [??].
    constructor; [|done]. by apply not_elem_of_cons.
Qed.

Lemma split_on_free_id c s : c ∉ s -> split_on c s = [s].
Proof.
  induction s as [|x s IH]; simpl; [done|]. intros Hc.
  rewrite decide_False by set_solver. rewrite IH by set_solver. done.
Qed.

Lemma split_on_app c a b : c ∉ a -> split_on c (a ++ c :: b) = a :: split_on c b.
Proof.
  induction a as [|x a IH]; intros Hc; simpl.
  - by rewrite decide_True.
  - rewrite decide_False by set_solver. by rewrite IH by set_solver.
Qed.

(** The two facts above determine the split: [join] is undone by it. *)
Lemma split_on_join c l :
  l <> [] -> Forall (c ∉.) l -> split_on c (join [c] l) = l.
Proof.
  intros Hne Hl. induction Hl as [|p l Hp Hl IH]; [done|].
  destruct l as [|q l]; [by apply split_on_free_id|].
  rewrite join_cons by done. cbn [app]. rewrite split_on_app by done. by rewrite IH.
Qed.

Lemma cut_at_app c a b : c ∉ a -> cut_at c (a ++ c :: b) = Some (a, b).
Proof.
  induction a as [|x a IH]; intros Hc; simpl.
  - by rewrite decide_True.
  - apply not_elem_of_cons in Hc as [??].
    by rewrite decide_False, IH by done.
Qed.

Lemma cut_at_inv c s a b : cut_at c s = Some (a, b) -> s = a ++ c :: b /\ c ∉ a.
Proof.
  revert a; induction s as [|x s IH]; intros a; simpl; [done|].
  case_decide as Hx; [subst x; intros [= <- <-]; split; [done|apply not_elem_of_nil]|].
  destruct (cut_at c s) as [[a' b']|]; simpl; [|done]. intros [= <- <-].
  destruct (IH a') as [-> ?]; [done|].
  split; [done|]. by apply not_elem_of_cons.
Qed.

Lemma cut_at_None c s : cut_at c s = None <-> c ∉ s.
Proof.
  split.
  - intros Hn Hc. apply list_elem_of_split_l in Hc as (a & b & -> & Ha).
    by rewrite cut_at_app in Hn.
  - intros Hc. destruct (cut_at c s) as [[a b]|] eqn:Hs; [|done].
    apply cut_at_inv in Hs as [-> _]. set_solver.
Qed.

Lemma strip_left_spec s :
  exists l, s = l ++ strip_left s /\ Forall (is_space) l /\
    (forall c, head (strip_left s) = Some c -> is_space c = false).
Proof.
  induction s as [|c s (l & Hl & Hf & Hh)]; simpl; [by exists []|].
  destruct (is_space c) eqn:Hc.
  - exists (c :: l). simpl. rewrite <- Hl. split_and!; [done| |done].
    constructor; [by rewrite Hc|done].
  - exists []. split_and!; [done|constructor|]. simpl. congruence.
Qed.

Lemma strip_left_id s :
  (forall c, head s = Some c -> is_space c = false) -> strip_left s = s.
Proof. destruct s as [|c s]; simpl; [done|]. intros H. by rewrite (H c). Qed.

(** A string whose first and last characters are not white space. *)
Definition trimmed (s : str) : Prop :=
  (forall c, head s = Some c -> is_space c = false) /\
  (forall c, last s = Some c -> is_space c = false).

Lemma strip_id s : trimmed s -> strip s = s.
Proof.
  intros [Hh Hl]. unfold strip. rewrite (strip_left_id s) by done.
  rewrite strip_left_id; [apply reverse_involutive|].
  intros c. rewrite head_reverse. apply Hl.
Qed.

(** The part of [s] before the first [c], or all of it. *)
Definition before (c : ascii) (s : str) : str :=
  match cut_at c s with Some (a, _) => a | None => s end.

Lemma find_char_before c s : substr s 0 (find [c] s) = before c s.
Proof.
  unfold before, substr. rewrite drop_0.
  induction s as [|x s IH]; simpl; [done|].
  rewrite andb_true_r. destruct (decide (x = c)) as [->|Hne].
  - by rewrite bool_decide_true.
  - rewrite bool_decide_false by done.
    destruct (find [c] s) as [i|], (cut_at c s) as [[a b]|]; simpl in *; congruence.
Qed.

Lemma before_spec c s : (c ∉ before c s) /\ (s = before c s \/ (exists t, s = before c s ++ c :: t)).
Proof.
  unfold before. destruct (cut_at c s) as [[a b]|] eqn:Hs.
  - apply cut_at_inv in Hs as [-> ?]. eauto.
  - apply cut_at_None in Hs. auto.
Qed.

Lemma strip_left_head s c : head (strip_left s) = Some c -> is_space c = false.
Proof. destruct (strip_left_spec s) as (_ & _ & _ & Hh). apply Hh. Qed.

(** Stripping removes a suffix and a prefix of white space. *)
Lemma strip_left_strip s : exists t, strip_left s = strip s ++ t.
Proof.
  unfold strip. destruct (strip_left_spec (reverse (strip_left s))) as (l & Hl & _).
  exists (reverse l). rewrite <- reverse_app, <- Hl. by rewrite reverse_involutive.
Qed.

Lemma strip_trimmed s : trimmed (strip s).
Proof.
  split; intros c Hc.
  - apply (strip_left_head s). destruct (strip_left_strip s) as [t ->].
    by destruct (strip s); simplify_eq/=.
  - unfold strip in Hc. rewrite last_reverse in Hc. by apply strip_left_head in Hc.
Qed.

Lemma strip_elem c s : c ∈ strip s -> c ∈ s.
Proof.
  intros Hc. destruct (strip_left_strip s) as [t Ht].
  destruct (strip_left_spec s) as (l & Hl & _). rewrite Hl, Ht. set_solver.
Qed.

Lemma strip_space s : strip (" "%char :: s) = strip s.
Proof. done. Qed.
