(* ===== verification/Headers.v ===== *)
(** * The header map of the test framework (framework.h)

    [TestHttpContext::Headers] is a [std::map] from strings to strings ordered
    by a case-insensitive comparison.  A [std::map] is the list of its entries
    in key order; the comparison itself is Boost's, hence the class
    [Caseless].  [headers_map] abstracts such a list to a finite map keyed by
    lower-case names, and the lemmas of this file show that on ordered lists
    the operations of the framework implement those of the finite map. *)

From S2P Require Import Prelude Absl.

(** ** [boost::ilexicographical_compare] *)

Class Caseless : Type := { ilexicographical_compare : str -> str -> bool }.

(** A strict order that compares names up to letter case. *)
Class CaselessOk (C : Caseless) : Prop := {
  ilex_irrefl a : ilexicographical_compare a a = false;
  ilex_trans a b c :
    ilexicographical_compare a b = true -> ilexicographical_compare b c = true ->
    ilexicographical_compare a c = true;
  ilex_total a b :
    ilexicographical_compare a b = false -> ilexicographical_compare b a = false ->
    lower a = lower b;
  ilex_lower a b :
    ilexicographical_compare a b = ilexicographical_compare (lower a) (lower b);
}.

(** One such order: by the codes of the lower-case characters. *)
Fixpoint code_compare (a b : str) : bool :=
  match a, b with
  | _, [] => false
  | [], _ :: _ => true
  | x :: a, y :: b =>
      if (code x <? code y)%Z then true
      else if (code y <? code x)%Z then false else code_compare a b
  end.

Definition caseless_ref : Caseless :=
  {| ilexicographical_compare a b := code_compare (lower a) (lower b) |}.

Lemma code_inj a b : code a = code b -> a = b.
Proof.
  unfold code. intros H%N2Z.inj.
  by rewrite <- (ascii_N_embedding a), <- (ascii_N_embedding b), H.
Qed.

Lemma code_compare_irrefl a : code_compare a a = false.
Proof. induction a as [|x a IH]; simpl; [done|]. by rewrite Z.ltb_irrefl. Qed.

Lemma code_compare_trans a b c :
  code_compare a b = true -> code_compare b c = true -> code_compare a c = true.
Proof.
  revert b c; induction a as [|x a IH]; intros [|y b] [|z c]; simpl; try done.
  destruct (Z.ltb_spec (code x) (code y)), (Z.ltb_spec (code y) (code z)),
    (Z.ltb_spec (code x) (code z)); try done; try lia.
  all: destruct (Z.ltb_spec (code y) (code x)), (Z.ltb_spec (code z) (code y)),
    (Z.ltb_spec (code z) (code x)); try done; try lia.
  apply IH.
Qed.

Lemma code_compare_total a b :
  code_compare a b = false -> code_compare b a = false -> a = b.
Proof.
  revert b; induction a as [|x a IH]; intros [|y b]; simpl; try done.
  destruct (Z.ltb_spec (code x) (code y)), (Z.ltb_spec (code y) (code x));
    try done; try lia.
  intros. f_equal; [apply code_inj; lia|by apply IH].
Qed.

#[export] Instance caseless_ref_ok : CaselessOk caseless_ref.
Proof.
  split; simpl; eauto using code_compare_irrefl, code_compare_trans, code_compare_total.
  intros a b. by rewrite !lower_idem.
Qed.

(** ** The map *)

Abbreviation headers := (list (str * str)).

Section headers.
Context `{Caseless} `{Absl}.

(** [struct caseless_compare] *)
Definition caseless_compare (a b : str) : bool := ilexicographical_compare a b.

(** [find(key)] *)
Fixpoint headers_find (key : str) (m : headers) : option (str * str) :=
  match m with
  | [] => None
  | (k, v) :: m =>
      if caseless_compare key k || caseless_compare k key
      then headers_find key m else Some (k, v)
  end.

(** [operator[](key) = f(old value)]: the value of an absent key is empty,
    and an existing entry keeps the spelling of its key. *)
Fixpoint headers_update (key : str) (f : str -> str) (m : headers) : headers :=
  match m with
  | [] => [(key, f [])]
  | (k, v) :: m' =>
      if caseless_compare key k then (key, f []) :: m
      else if caseless_compare k key then (k, v) :: headers_update key f m'
      else (k, f v) :: m'
  end.

(** [headers[key] = value] *)
Definition headers_set (key value : str) : headers -> headers :=
  headers_update key (λ _, value).

(** [Headers::InsertOrAppend] *)
Definition InsertOrAppend (key value : str) : headers -> headers :=
  headers_update key (λ val,
    if decide (val = []) then value else StrCat [val; ", "%str; value]).

(** [erase(key)] *)
Fixpoint headers_erase (key : str) (m : headers) : headers :=
  match m with
  | [] => []
  | (k, v) :: m =>
      if caseless_compare key k || caseless_compare k key
      then (k, v) :: headers_erase key m else m
  end.

(** A [Headers] built by inserting pairs one by one. *)
Definition headers_of_pairs (op : str -> str -> headers -> headers)
    (l : list (str * str)) : headers :=
  fold_left (λ m kv, op kv.1 kv.2 m) l [].
End headers.

(** ** Header maps as finite maps *)

(** Lower-case name to spelling and value. *)
Abbreviation hmap := (gmap str (str * str)).

Definition hm_get (key : str) (m : hmap) : option str := snd <$> m !! lower key.

Definition hm_update (key : str) (f : str -> str) (m : hmap) : hmap :=
  match m !! lower key with
  | Some (k, v) => <[lower key := (k, f v)]> m
  | None => <[lower key := (key, f [])]> m
  end.

Definition hm_set (key value : str) : hmap -> hmap := hm_update key (λ _, value).

Definition hm_append (key value : str) : hmap -> hmap :=
  hm_update key (λ val, if decide (val = []) then value else val ++ ", "%str ++ value).

Definition hm_erase (key : str) (m : hmap) : hmap := delete (lower key) m.

Definition headers_map (m : headers) : hmap :=
  list_to_map ((λ kv, (lower kv.1, kv)) <$> m).

(** ** Laws of the finite maps *)

Lemma hm_get_update_eq k k' f m :
  lower k = lower k' -> hm_get k' (hm_update k f m) = Some (f (default [] (hm_get k m))).
Proof.
  unfold hm_get, hm_update. intros <-.
  destruct (m !! lower k) as [[??]|]; simpl; by rewrite lookup_insert_eq.
Qed.

Lemma hm_get_update_ne k k' f m :
  lower k <> lower k' -> hm_get k' (hm_update k f m) = hm_get k' m.
Proof.
  unfold hm_get, hm_update. intros ?.
  destruct (m !! lower k) as [[??]|]; simpl; by rewrite lookup_insert_ne.
Qed.

Lemma hm_get_set_eq k k' v m : lower k = lower k' -> hm_get k' (hm_set k v m) = Some v.
Proof. intros. unfold hm_set. by rewrite hm_get_update_eq. Qed.

Lemma hm_get_set_ne k k' v m :
  lower k <> lower k' -> hm_get k' (hm_set k v m) = hm_get k' m.
Proof. apply hm_get_update_ne. Qed.

Lemma hm_get_erase_eq k k' m : lower k = lower k' -> hm_get k' (hm_erase k m) = None.
Proof. unfold hm_get, hm_erase. intros <-. by rewrite lookup_delete_eq. Qed.

Lemma hm_get_erase_ne k k' m :
  lower k <> lower k' -> hm_get k' (hm_erase k m) = hm_get k' m.
Proof. intros. unfold hm_get, hm_erase. by rewrite lookup_delete_ne. Qed.

(** Two spellings of one name read the same entry. *)
#[export] Instance hm_get_proper :
  Proper ((λ a b, lower a = lower b) ==> (=) ==> (=)) hm_get.
Proof. intros a b Hab m ? <-. unfold hm_get. by rewrite Hab. Qed.

#[export] Hint Rewrite hm_get_set_eq hm_get_set_ne hm_get_erase_eq hm_get_erase_ne
  using (first [reflexivity | discriminate | done]) : svc.

(** Header maps as the host builds them: entries under their own name. *)
Definition hm_wf (m : hmap) : Prop := map_Forall (λ i kv, i = lower kv.1) m.

Lemma hm_wf_update k f m : hm_wf m -> hm_wf (hm_update k f m).
Proof.
  intros Hm. unfold hm_update. destruct (m !! lower k) as [[k' x]|] eqn:Hk.
  - apply map_Forall_insert_2; [|done]. by apply (Hm _ _ Hk).
  - by apply map_Forall_insert_2.
Qed.

Lemma hm_wf_erase k m : hm_wf m -> hm_wf (hm_erase k m).
Proof. apply map_Forall_delete. Qed.

(** The entries of one name among the pairs of a map: at most one. *)
Lemma entries_of_name key m l :
  hm_wf m -> l ≡ₚ (map_to_list m).*2 ->
  filter (λ kv, lower kv.1 = lower key) l = option_list (m !! lower key).
Proof.
  intros Hm Hl.
  assert (filter (λ kv, lower kv.1 = lower key) l ≡ₚ option_list (m !! lower key)) as Hp.
  { rewrite Hl. clear l Hl. induction m as [|i kv m Hi IH] using map_ind.
    - by rewrite lookup_empty.
    - apply map_Forall_insert in Hm as [Hikv Hm]; [|done].
      specialize (IH Hm). subst i.
      etrans; [apply filter_Permutation, fmap_Permutation, map_to_list_insert, Hi|].
      rewrite fmap_cons, filter_cons. simpl.
      destruct (decide (lower kv.1 = lower key)) as [Heq|Hne].
      + rewrite <- Heq in *. rewrite lookup_insert_eq, IH, Hi. done.
      + by rewrite lookup_insert_ne. }
  destruct (m !! lower key); simpl in *.
  - by apply Permutation_singleton_r.
  - by apply Permutation_nil_r.
Qed.

(** The pairs of a map, each entry changed by [g], make up the map with its
    entries changed. *)
Lemma headers_map_pairs (g : str * str -> str * str) m l :
  hm_wf m -> (forall kv, lower (g kv).1 = lower kv.1) -> l ≡ₚ (map_to_list m).*2 ->
  headers_map (g <$> l) = g <$> m /\ NoDup ((λ kv, lower kv.1) <$> (g <$> l)).
Proof.
  intros Hm Hg Hl.
  assert ((λ kv, (lower kv.1, kv)) <$> (g <$> (map_to_list m).*2) =
          prod_map id g <$> map_to_list m) as Heq.
  { rewrite <- !list_fmap_compose. apply list_fmap_ext. intros i [k kv] Hi.
    apply list_elem_of_lookup_2, elem_of_map_to_list in Hi.
    unfold prod_map, compose. simpl. rewrite Hg. f_equal. symmetry. apply (Hm _ _ Hi). }
  assert (NoDup ((λ kv, lower kv.1) <$> (g <$> l))) as Hnd.
  { rewrite Hl. replace (λ kv : str * str, lower kv.1)
      with (fst ∘ (λ kv : str * str, (lower kv.1, kv))) by done.
    rewrite list_fmap_compose, Heq, <- list_fmap_compose.
    rewrite (list_fmap_ext _ fst) by (by intros ? []). apply NoDup_fst_map_to_list. }
  split; [|done]. unfold headers_map.
  rewrite (list_to_map_proper _ ((λ kv, (lower kv.1, kv)) <$> (g <$> (map_to_list m).*2))).
  - rewrite Heq, list_to_map_fmap, list_to_map_to_list. done.
  - by rewrite <- list_fmap_compose.
  - by rewrite Hl.
Qed.

Lemma headers_map_snoc l kv :
  NoDup ((λ kv, lower kv.1) <$> (l ++ [kv])) ->
  headers_map (l ++ [kv]) = hm_append kv.1 kv.2 (headers_map l).
Proof.
  rewrite fmap_app. intros (_ & Hl & _)%NoDup_app.
  assert (headers_map l !! lower kv.1 = None) as Hn.
  { apply not_elem_of_list_to_map_1. rewrite <- list_fmap_compose. intros Hin.
    by apply (Hl _ Hin), list_elem_of_singleton. }
  unfold hm_append, hm_update. rewrite Hn. unfold headers_map at 1.
  rewrite fmap_app. simpl. rewrite list_to_map_snoc.
  - by destruct kv.
  - by apply not_elem_of_list_to_map_2.
Qed.

(** ** The ordered lists implement the finite maps *)

Section refinement.
Context `{!Caseless} `{!CaselessOk _}.
Implicit Types m : headers.

Definition key_before (a b : str * str) : Prop := caseless_compare a.1 b.1 = true.

(** The invariant of the [std::map]: strictly increasing keys. *)
Definition ordered m : Prop := StronglySorted key_before m.

Lemma compare_equiv a b :
  caseless_compare a b || caseless_compare b a = false <-> lower a = lower b.
Proof.
  unfold caseless_compare. rewrite orb_false_iff. split.
  - intros [??]. by apply ilex_total.
  - intros Heq. by rewrite (ilex_lower a b), (ilex_lower b a), Heq, !ilex_irrefl.
Qed.

Lemma compare_trans a b c :
  caseless_compare a b = true -> caseless_compare b c = true ->
  caseless_compare a c = true.
Proof. apply ilex_trans. Qed.

Lemma compare_lt_ne a b : caseless_compare a b = true -> lower a <> lower b.
Proof. intros Hlt Heq%compare_equiv. by rewrite Hlt in Heq. Qed.

Lemma compare_eq_l a a' b :
  lower a = lower a' -> caseless_compare a b = caseless_compare a' b.
Proof. unfold caseless_compare. intros Heq. by rewrite ilex_lower, Heq, <- ilex_lower. Qed.

(** The three outcomes of comparing two keys. *)
Lemma compare_cases a b :
  (caseless_compare a b = true) \/
  (caseless_compare a b = false /\ caseless_compare b a = true) \/
  (caseless_compare a b = false /\ caseless_compare b a = false /\ lower a = lower b).
Proof.
  destruct (caseless_compare a b) eqn:H1, (caseless_compare b a) eqn:H2; auto.
  right; right. split_and!; try done. apply compare_equiv. by rewrite H1, H2.
Qed.

Lemma ordered_cons k v m :
  ordered ((k, v) :: m) <-> ordered m /\ Forall (key_before (k, v)) m.
Proof.
  split; [intros Ho; by inversion Ho|]. intros [??]. by constructor.
Qed.

Lemma headers_map_cons k v m :
  headers_map ((k, v) :: m) = <[lower k := (k, v)]> (headers_map m).
Proof. done. Qed.

Lemma headers_find_map key m : headers_find key m = headers_map m !! lower key.
Proof.
  induction m as [|[k v] m IH]; simpl; [done|].
  rewrite headers_map_cons. destruct (caseless_compare key k || _) eqn:Hc.
  - rewrite lookup_insert_ne, IH; [done|].
    intros Heq. assert (lower key = lower k) as ?%compare_equiv by done. congruence.
  - apply compare_equiv in Hc. by rewrite Hc, lookup_insert_eq.
Qed.

Lemma headers_map_before k m : Forall (key_before k) m -> headers_map m !! lower k.1 = None.
Proof.
  destruct k as [k v]. intros Hm. rewrite <- headers_find_map.
  induction Hm as [|[k' v'] m Hk Hm IH]; simpl; [done|].
  unfold key_before in Hk. simpl in Hk. by rewrite Hk.
Qed.

Lemma before_trans k k' v v' m :
  caseless_compare k k' = true -> Forall (key_before (k', v')) m ->
  Forall (key_before (k, v)) m.
Proof. intros Hk Hm. apply (Forall_impl _ _ _ Hm). intros x. by apply compare_trans. Qed.

Lemma before_update k0 k f m :
  caseless_compare k0.1 k = true -> Forall (key_before k0) m ->
  Forall (key_before k0) (headers_update k f m).
Proof.
  intros Hk Hm. induction Hm as [|[k' v'] m Hk' Hm IH]; simpl.
  - by repeat constructor.
  - repeat case_match; repeat constructor; done.
Qed.

Lemma headers_update_ordered k f m : ordered m -> ordered (headers_update k f m).
Proof.
  induction m as [|[k' v'] m IH]; intros Ho; simpl; [by repeat constructor|].
  destruct (compare_cases k k') as [H1|[[H1 H2]|(H1 & H2 & _)]]; rewrite H1, ?H2.
  - apply ordered_cons. split; [done|]. apply ordered_cons in Ho as [??].
    constructor; [done|]. by eapply before_trans.
  - apply ordered_cons in Ho as [??]. apply ordered_cons. split; [by apply IH|].
    by apply before_update.
  - apply ordered_cons in Ho as [??]. by apply ordered_cons.
Qed.

Lemma headers_map_update k f m :
  ordered m -> headers_map (headers_update k f m) = hm_update k f (headers_map m).
Proof.
  induction m as [|[k' v'] m IH]; intros Ho; simpl.
  { unfold hm_update, headers_map. simpl. by rewrite lookup_empty. }
  pose proof Ho as [Hm Hb]%ordered_cons.
  unfold hm_update. rewrite headers_map_cons.
  destruct (compare_cases k k') as [H1|[[H1 H2]|(H1 & H2 & Heq)]]; rewrite H1, ?H2.
  - rewrite lookup_insert_ne by by apply not_eq_sym, compare_lt_ne.
    rewrite (headers_map_before (k, [])); [done|]. by eapply before_trans.
  - rewrite lookup_insert_ne by by apply compare_lt_ne.
    rewrite headers_map_cons, IH by done. unfold hm_update.
    assert (lower k' <> lower k) by by apply compare_lt_ne.
    destruct (headers_map m !! lower k) as [[??]|]; by rewrite insert_insert_ne.
  - by rewrite Heq, lookup_insert_eq, insert_insert_eq, headers_map_cons.
Qed.

Lemma headers_set_ordered k v m : ordered m -> ordered (headers_set k v m).
Proof. apply headers_update_ordered. Qed.

Lemma headers_map_set k v m :
  ordered m -> headers_map (headers_set k v m) = hm_set k v (headers_map m).
Proof. apply headers_map_update. Qed.

Lemma headers_erase_before k0 k m :
  Forall (key_before k0) m -> Forall (key_before k0) (headers_erase k m).
Proof.
  intros Hm. induction Hm as [|[k' v'] m Hk' Hm IH]; simpl; [done|].
  case_match; [|done]. by constructor.
Qed.

Lemma headers_erase_ordered k m : ordered m -> ordered (headers_erase k m).
Proof.
  induction m as [|[k' v'] m IH]; simpl; [done|]. intros [Ho Hb]%ordered_cons.
  case_match; [|done]. apply ordered_cons.
  split; [by apply IH|by apply headers_erase_before].
Qed.

Lemma headers_map_erase k m :
  ordered m -> headers_map (headers_erase k m) = hm_erase k (headers_map m).
Proof.
  unfold hm_erase. induction m as [|[k' v'] m IH]; simpl; [done|].
  intros [Ho Hb]%ordered_cons. rewrite headers_map_cons.
  destruct (caseless_compare k k' || _) eqn:Hc.
  - rewrite headers_map_cons, IH by done. rewrite delete_insert_ne; [done|].
    intros Heq. assert (lower k = lower k') as ?%compare_equiv by done. congruence.
  - apply compare_equiv in Hc. rewrite Hc, delete_insert_id; [done|].
    by apply (headers_map_before (k', v')).
Qed.

(** The entries of the list, in some order. *)
Lemma ordered_NoDup m : ordered m -> NoDup ((λ kv, lower kv.1) <$> m).
Proof.
  induction m as [|[k v] m IH]; simpl; [constructor|].
  intros [Ho Hb]%ordered_cons. constructor; [|by apply IH].
  intros ([k' v'] & Heq & Hin)%list_elem_of_fmap. simpl in Heq.
  rewrite Forall_forall in Hb. specialize (Hb _ Hin). unfold key_before in Hb.
  by apply compare_lt_ne in Hb.
Qed.

Lemma ordered_pairs m : ordered m -> (map_to_list (headers_map m)).*2 ≡ₚ m.
Proof.
  intros Ho. unfold headers_map. rewrite map_to_list_to_map.
  - rewrite <- list_fmap_compose. by rewrite list_fmap_id.
  - rewrite <- list_fmap_compose. by apply ordered_NoDup.
Qed.

(** An ordered list is determined by its finite map. *)
Lemma ordered_ext m1 m2 :
  ordered m1 -> ordered m2 -> headers_map m1 = headers_map m2 -> m1 = m2.
Proof.
  intros H1 H2 Heq. eapply StronglySorted_unique_strong; [|exact H1|exact H2|].
  - intros [k1 v1] [k2 v2] _ _ Ha Hb. exfalso.
    assert (caseless_compare k1 k1 = true) as Hc by by eapply compare_trans.
    unfold caseless_compare in Hc. by rewrite ilex_irrefl in Hc.
  - by rewrite <- (ordered_pairs m1), <- (ordered_pairs m2), Heq.
Qed.
End refinement.

#[export] Hint Resolve headers_update_ordered headers_set_ordered headers_erase_ordered : svc.

(** [InsertOrAppend] joins the values of one name, as RFC 9110 asks. *)
Section append.
Context `{!Caseless} `{!CaselessOk _} `{!Absl} `{!AbslOk _}.

Lemma InsertOrAppend_ordered k v m : ordered m -> ordered (InsertOrAppend k v m).
Proof. apply headers_update_ordered. Qed.

Lemma headers_map_append k v m :
  ordered m -> headers_map (InsertOrAppend k v m) = hm_append k v (headers_map m).
Proof.
  intros Ho. unfold InsertOrAppend. rewrite headers_map_update by done.
  unfold hm_append, hm_update.
  repeat case_match; absl; simpl; rewrite ?app_nil_r; done.
Qed.

(** Inserting pairs one by one yields an ordered map. *)
Lemma headers_of_pairs_ordered op l :
  (forall k v m, ordered m -> ordered (op k v m)) -> ordered (headers_of_pairs op l).
Proof.
  intros Hop. unfold headers_of_pairs.
  assert (forall m, ordered m -> ordered (fold_left (λ m kv, op kv.1 kv.2 m) l m)) as Hf.
  { induction l as [|[k v] l IH]; simpl; auto. }
  apply Hf. constructor.
Qed.
End append.

#[export] Hint Resolve InsertOrAppend_ordered : svc.
