(* ===== verification/Host.v ===== *)
(** * The Proxy-Wasm host, seen from a plugin

    A plugin is C++ code that runs between two calls of the host into it: a
    handler is invoked, performs host calls through the Proxy-Wasm SDK and
    returns a status.  Handlers are modelled as programs over the host calls
    ([Prog]), with [Trap] for the undefined behaviour of a null dereference,
    and [wp] is their total-correctness semantics against an abstract host
    whose state is a [HostView].  [Framework] provides a concrete host and
    proves that it implements this one. *)

From S2P Require Import Prelude Absl Headers.

(** ** The names the sources use from the SDK *)

Inductive WasmResult : Type :=
  | Ok | NotFound | BadArgument | InvalidMemoryAccess | OtherResult (n : Z).

Inductive WasmHeaderMapType : Type :=
  | RequestHeaders | RequestTrailers | ResponseHeaders | ResponseTrailers.

Inductive WasmBufferType : Type :=
  | HttpRequestBody | HttpResponseBody | PluginConfiguration.

Inductive LogLevel : Type := Ltrace | Ldebug | Linfo | Lwarn | Lerror | Lcritical.

Module FilterHeadersStatus.
Inductive t : Type :=
  | Continue | StopIteration | ContinueAndEndStream | StopAllIterationAndWatermark.
End FilterHeadersStatus.

Module FilterDataStatus.
Inductive t : Type :=
  | Continue | StopIterationAndBuffer | StopIterationAndWatermark
  | StopIterationNoBuffer.
End FilterDataStatus.

Module FilterTrailersStatus.
Inductive t : Type := Continue | StopIteration.
End FilterTrailersStatus.

#[export] Instance WasmResult_eq_dec : EqDecision WasmResult.
Proof. solve_decision. Defined.
#[export] Instance WasmHeaderMapType_eq_dec : EqDecision WasmHeaderMapType.
Proof. solve_decision. Defined.
#[export] Instance WasmBufferType_eq_dec : EqDecision WasmBufferType.
Proof. solve_decision. Defined.
#[export] Instance FilterHeadersStatus_eq_dec : EqDecision FilterHeadersStatus.t.
Proof. solve_decision. Defined.
#[export] Instance FilterDataStatus_eq_dec : EqDecision FilterDataStatus.t.
Proof. solve_decision. Defined.

Definition map_type_code (t : WasmHeaderMapType) : nat :=
  match t with
  | RequestHeaders => 0 | RequestTrailers => 1
  | ResponseHeaders => 2 | ResponseTrailers => 3
  end.

Definition map_type_of_code (n : nat) : option WasmHeaderMapType :=
  [RequestHeaders; RequestTrailers; ResponseHeaders; ResponseTrailers] !! n.

#[export] Instance WasmHeaderMapType_countable : Countable WasmHeaderMapType.
Proof. refine (inj_countable map_type_code map_type_of_code _). by intros []. Defined.

Definition buffer_type_code (b : WasmBufferType) : nat :=
  match b with HttpRequestBody => 0 | HttpResponseBody => 1 | PluginConfiguration => 2 end.

Definition buffer_type_of_code (n : nat) : option WasmBufferType :=
  [HttpRequestBody; HttpResponseBody; PluginConfiguration] !! n.

#[export] Instance WasmBufferType_countable : Countable WasmBufferType.
Proof. refine (inj_countable buffer_type_code buffer_type_of_code _). by intros []. Defined.

(** The outcome of a host call that returns data. *)
Inductive HostResult (A : Type) : Type :=
  | Done (a : A)
  | Failed (r : WasmResult).
Arguments Done {A}.
Arguments Failed {A}.

(** ** Host calls and programs *)

Inductive HostCall : Type :=
  | GetHeaderMapValue (t : WasmHeaderMapType) (key : str)
  | GetHeaderMapPairs (t : WasmHeaderMapType)
  | AddHeaderMapValue (t : WasmHeaderMapType) (key value : str)
  | ReplaceHeaderMapValue (t : WasmHeaderMapType) (key value : str)
  | RemoveHeaderMapValue (t : WasmHeaderMapType) (key : str)
  | SetHeaderMapPairs (t : WasmHeaderMapType) (pairs : list (str * str))
  | GetBufferBytes (b : WasmBufferType) (start length : Z)
  | SetBuffer (b : WasmBufferType) (start length : Z) (data : str)
  | GetBufferStatus (b : WasmBufferType)
  | GetProperty (path : list str)
  | SendLocalResponse (code : Z) (details body : str) (pairs : list (str * str))
  | WriteLog (level : LogLevel) (message : str)
  | GetCurrentTime
  | GetRandom.

Definition answer (c : HostCall) : Type :=
  match c with
  | GetHeaderMapValue _ _ | GetBufferBytes _ _ _ | GetProperty _ => HostResult str
  | GetHeaderMapPairs _ => HostResult (list (str * str))
  | GetBufferStatus _ => HostResult Z
  | AddHeaderMapValue _ _ _ | ReplaceHeaderMapValue _ _ _ | RemoveHeaderMapValue _ _
  | SetHeaderMapPairs _ _ | SetBuffer _ _ _ _ | SendLocalResponse _ _ _ _ => WasmResult
  | WriteLog _ _ => unit
  | GetCurrentTime | GetRandom => Z
  end.

Inductive Prog (A : Type) : Type :=
  | Ret (a : A)
  | Trap
  | Call (c : HostCall) (k : answer c -> Prog A).
Arguments Ret {A}.
Arguments Trap {A}.
Arguments Call {A}.

Fixpoint prog_bind {A B} (f : A -> Prog B) (p : Prog A) : Prog B :=
  match p with
  | Ret a => f a
  | Trap => Trap
  | Call c k => Call c (λ r, prog_bind f (k r))
  end.

#[export] Instance Prog_ret : MRet Prog := @Ret.
#[export] Instance Prog_bind : MBind Prog := @prog_bind.

Definition call (c : HostCall) : Prog (answer c) := Call c Ret.

(** ** The abstract host *)

Record LocalResponse : Type := mkLocalResponse {
  lr_code : Z;
  lr_details : str;
  lr_body : str;
  lr_headers : hmap;
}.

(** What a plugin can observe of its stream.  [maps] and [buffers] hold the
    header maps and bodies the current callback gives access to. *)
Record HostView : Type := mkHostView {
  maps : gmap WasmHeaderMapType hmap;
  buffers : gmap WasmBufferType str;
  properties : list str -> option str;
  can_respond : bool;
  response : option LocalResponse;
  logs : list (LogLevel * str);
  now : Z;
}.

Definition with_maps (m : gmap WasmHeaderMapType hmap) (v : HostView) : HostView :=
  mkHostView m (buffers v) (properties v) (can_respond v) (response v) (logs v) (now v).
Definition with_map (t : WasmHeaderMapType) (m : hmap) (v : HostView) : HostView :=
  with_maps (<[t := m]> (maps v)) v.
Definition with_buffer (b : WasmBufferType) (s : str) (v : HostView) : HostView :=
  mkHostView (maps v) (<[b := s]> (buffers v)) (properties v) (can_respond v)
    (response v) (logs v) (now v).
Definition with_log (l : LogLevel) (s : str) (v : HostView) : HostView :=
  mkHostView (maps v) (buffers v) (properties v) (can_respond v) (response v)
    (logs v ++ [(l, s)]) (now v).
Definition with_response (r : LocalResponse) (m : gmap WasmHeaderMapType hmap)
    (v : HostView) : HostView :=
  mkHostView m (buffers v) (properties v) (can_respond v) (Some r) (logs v) (now v).

(** The headers of a local response: the last value of a repeated name. *)
Definition hm_of_pairs (l : list (str * str)) : hmap :=
  fold_left (λ m kv, hm_set kv.1 kv.2 m) l ∅.

(** The headers of [setHeaderMapPairs]: repeated names are joined. *)
Definition hm_of_pairs_append (l : list (str * str)) : hmap :=
  fold_left (λ m kv, hm_append kv.1 kv.2 m) l ∅.

(** A mutation of header map [t]: refused, without effect, outside the
    callbacks that expose [t].  Once a local response has replaced the headers
    the contract says nothing of further mutations: a verified handler
    performs none. *)
Definition mutate (t : WasmHeaderMapType) (f : hmap -> hmap) (v : HostView)
    (post : WasmResult -> HostView -> Prop) : Prop :=
  match response v, maps v !! t with
  | Some _, _ => False
  | None, Some m => post Ok (with_map t (f m) v)
  | None, None => forall r, r <> Ok -> post r v
  end.

(** The host's contract: [post] holds of every answer and next state the host
    may choose.  [False] marks calls the contract does not cover: a range
    outside of a buffer or of the 32-bit address space of the VM, or a
    property path with an empty or NUL-containing segment. *)
Definition interp (c : HostCall) (v : HostView) : (answer c -> HostView -> Prop) -> Prop :=
  match c with
  | GetHeaderMapValue t key => λ post,
      match maps v !! t ≫= hm_get key with
      | Some x => post (Done x) v
      | None => forall r, r <> Ok -> post (Failed r) v
      end
  | GetHeaderMapPairs t => λ post,
      match maps v !! t with
      | Some m => forall l, l ≡ₚ (map_to_list m).*2 -> post (Done l) v
      | None => forall r, r <> Ok -> post (Failed r) v
      end
  | AddHeaderMapValue t key value => mutate t (hm_append key value) v
  | ReplaceHeaderMapValue t key value => mutate t (hm_set key value) v
  | RemoveHeaderMapValue t key => mutate t (hm_erase key) v
  | SetHeaderMapPairs t pairs => mutate t (λ _, hm_of_pairs_append pairs) v
  | GetBufferBytes b start len => λ post,
      match buffers v !! b with
      | Some s =>
          if decide (0 <= start < 2 ^ 32 /\ 0 <= len < 2 ^ 32 /\
                     start + len <= size_of s)%Z
          then post (Done (substr s (Z.to_nat start) (Some (Z.to_nat len)))) v
          else False
      | None => forall r, r <> Ok -> post (Failed r) v
      end
  | SetBuffer b start len data => λ post,
      match buffers v !! b with
      | Some s =>
          if decide (b <> PluginConfiguration /\ 0 <= start /\ 0 <= len)%Z
          then post Ok (with_buffer b
                 (replace_at s (min (Z.to_nat start) (length s)) (Z.to_nat len) data) v)
          else False
      | None => forall r, r <> Ok -> post r v
      end
  | GetBufferStatus b => λ post,
      match buffers v !! b with
      | Some s => post (Done (size_of s)) v
      | None => forall r, r <> Ok -> post (Failed r) v
      end
  | GetProperty path => λ post,
      if decide (Forall (λ p, p <> [] /\ zero ∉ p) path) then
        match properties v path with
        | Some x => post (Done x) v
        | None => forall r, r <> Ok -> post (Failed r) v
        end
      else False
  | SendLocalResponse code details body pairs => λ post,
      if can_respond v
      then forall m, post Ok
             (with_response (mkLocalResponse code details body (hm_of_pairs pairs)) m v)
      else forall r, r <> Ok -> post r v
  | WriteLog l s => λ post, post tt (with_log l s v)
  | GetCurrentTime => λ post, post (now v) v
  | GetRandom => λ post, forall r, (0 <= r < 2 ^ 64)%Z -> post r v
  end.

(** Total correctness: [p] does not trap, and [post] holds at the end. *)
Fixpoint wp {A} (p : Prog A) (post : A -> HostView -> Prop) (v : HostView) : Prop :=
  match p with
  | Ret a => post a v
  | Trap => False
  | Call c k => interp c v (λ r, wp (k r) post)
  end.

Section wp.
Implicit Types v : HostView.

Lemma mutate_mono t f v (P Q : WasmResult -> HostView -> Prop) :
  (forall r v', P r v' -> Q r v') -> mutate t f v P -> mutate t f v Q.
Proof. unfold mutate. intros HPQ. repeat case_match; naive_solver. Qed.

Lemma interp_mono c v (P Q : answer c -> HostView -> Prop) :
  (forall r v', P r v' -> Q r v') -> interp c v P -> interp c v Q.
Proof.
  intros HPQ. destruct c; simpl; eauto using mutate_mono;
    repeat case_match; eauto.
Qed.

Lemma wp_mono {A} (p : Prog A) (P Q : A -> HostView -> Prop) v :
  (forall a v', P a v' -> Q a v') -> wp p P v -> wp p Q v.
Proof.
  intros HPQ. revert v. induction p as [a| |c k IH]; intros v; simpl; auto.
  apply interp_mono. intros r v'. apply IH.
Qed.

Lemma wp_bind {A B} (p : Prog A) (f : A -> Prog B) Q v :
  wp (p ≫= f) Q v <-> wp p (λ a, wp (f a) Q) v.
Proof.
  revert v. induction p as [a| |c k IH]; intros v; simpl; [done..|].
  split; apply interp_mono; intros r v'; apply IH.
Qed.

Lemma wp_bind_2 {A B} (p : Prog A) (f : A -> Prog B) Q v :
  wp p (λ a, wp (f a) Q) v -> wp (p ≫= f) Q v.
Proof. apply wp_bind. Qed.
End wp.

(** ** The SDK *)

(** [WasmData]: [data()] may be null; [view()] and [toString()] of a null
    pointer are empty. *)
Record WasmData : Type := mkWasmData { data : option str }.
Definition view (d : WasmData) : str := default [] (data d).
Definition toString (d : WasmData) : str := view d.

(** [std::unique_ptr<WasmData>]; dereferencing null is undefined. *)
Definition WasmDataPtr : Type := option WasmData.
Definition deref {A} (p : option A) : Prog A :=
  match p with Some d => Ret d | None => Trap end.

(** What the SDK builds from the outcome of a host call. *)
Class Sdk : Type := {
  header_ptr : HostResult str -> WasmDataPtr;
  buffer_ptr : HostResult str -> WasmDataPtr;
  property_ptr : HostResult str -> option WasmDataPtr;
  pairs_ptr : HostResult (list (str * str)) -> option (list (str * str));
}.

(** Data that was found is there; what stands for a missing header or buffer
    is a null pointer or a [WasmData] without data. *)
Definition no_data (p : WasmDataPtr) : Prop := p = None \/ p = Some (mkWasmData None).

Class SdkOk (S : Sdk) : Prop := {
  header_ptr_done s : header_ptr (Done s) = Some (mkWasmData (Some s));
  header_ptr_failed r : r <> Ok -> no_data (header_ptr (Failed r));
  buffer_ptr_done s : s <> [] -> buffer_ptr (Done s) = Some (mkWasmData (Some s));
  buffer_ptr_empty : exists d, buffer_ptr (Done []) = Some d /\ view d = [];
  buffer_ptr_failed r : r <> Ok -> no_data (buffer_ptr (Failed r));
  property_ptr_done s : property_ptr (Done s) = Some (Some (mkWasmData (Some s)));
  property_ptr_failed r : r <> Ok -> property_ptr (Failed r) = None;
  pairs_ptr_done l : pairs_ptr (Done l) = Some l;
}.

(** Some sources rely on more: that a missing header is never a null pointer. *)
Class SdkNonNull (S : Sdk) : Prop :=
  header_ptr_nonnull : forall r, header_ptr (Failed r) <> None.

Section sdk.
Context `{Sdk}.

Definition getHeaderMapValue (t : WasmHeaderMapType) (key : str) : Prog WasmDataPtr :=
  r ← call (GetHeaderMapValue t key); mret (header_ptr r).
Definition getRequestHeader : str -> Prog WasmDataPtr := getHeaderMapValue RequestHeaders.
Definition getResponseHeader : str -> Prog WasmDataPtr := getHeaderMapValue ResponseHeaders.

Definition addRequestHeader (k v : str) : Prog WasmResult :=
  call (AddHeaderMapValue RequestHeaders k v).
Definition addResponseHeader (k v : str) : Prog WasmResult :=
  call (AddHeaderMapValue ResponseHeaders k v).
Definition replaceRequestHeader (k v : str) : Prog WasmResult :=
  call (ReplaceHeaderMapValue RequestHeaders k v).
Definition replaceResponseHeader (k v : str) : Prog WasmResult :=
  call (ReplaceHeaderMapValue ResponseHeaders k v).
Definition removeRequestHeader (k : str) : Prog WasmResult :=
  call (RemoveHeaderMapValue RequestHeaders k).
Definition removeResponseHeader (k : str) : Prog WasmResult :=
  call (RemoveHeaderMapValue ResponseHeaders k).
Definition getResponseHeaderPairs : Prog (option (list (str * str))) :=
  r ← call (GetHeaderMapPairs ResponseHeaders); mret (pairs_ptr r).
Definition setResponseHeaderPairs (l : list (str * str)) : Prog WasmResult :=
  call (SetHeaderMapPairs ResponseHeaders l).
Definition getBufferBytes (b : WasmBufferType) (start len : Z) : Prog WasmDataPtr :=
  r ← call (GetBufferBytes b start len); mret (buffer_ptr r).
Definition setBuffer (b : WasmBufferType) (start len : Z) (s : str) : Prog WasmResult :=
  call (SetBuffer b start len s).
Definition getProperty (path : list str) : Prog (option WasmDataPtr) :=
  r ← call (GetProperty path); mret (property_ptr r).
Definition sendLocalResponse (code : Z) (details body : str)
    (pairs : list (str * str)) : Prog WasmResult :=
  call (SendLocalResponse code details body pairs).
Definition LOG (l : LogLevel) (s : str) : Prog unit := call (WriteLog l s).
Definition LOG_DEBUG : str -> Prog unit := LOG Ldebug.
Definition LOG_INFO : str -> Prog unit := LOG Linfo.
Definition LOG_WARN : str -> Prog unit := LOG Lwarn.
Definition LOG_ERROR : str -> Prog unit := LOG Lerror.
End sdk.

(** An SDK that returns a [WasmData] without data for what is missing. *)
Definition sdk_ref : Sdk := {|
  header_ptr r := match r with
                  | Done s => Some (mkWasmData (Some s))
                  | Failed _ => Some (mkWasmData None) end;
  buffer_ptr r := match r with
                  | Done s => Some (mkWasmData (Some s))
                  | Failed _ => None end;
  property_ptr r := match r with
                    | Done s => Some (Some (mkWasmData (Some s)))
                    | Failed _ => None end;
  pairs_ptr r := match r with Done l => Some l | Failed _ => None end;
|}.

#[export] Instance sdk_ref_ok : SdkOk sdk_ref.
Proof.
  split; try done; unfold no_data; simpl; auto. eexists; split; done.
Qed.

#[export] Instance sdk_ref_nonnull : SdkNonNull sdk_ref.
Proof. done. Qed.

(** And one that returns a null pointer. *)
Definition sdk_null : Sdk := {|
  header_ptr r := match r with
                  | Done s => Some (mkWasmData (Some s))
                  | Failed _ => None end;
  buffer_ptr r := match r with
                  | Done s => Some (mkWasmData (Some s))
                  | Failed _ => None end;
  property_ptr r := match r with
                    | Done s => Some (Some (mkWasmData (Some s)))
                    | Failed _ => None end;
  pairs_ptr r := match r with Done l => Some l | Failed _ => None end;
|}.

Lemma sdk_null_ok : SdkOk sdk_null.
Proof. split; try done; unfold no_data; simpl; auto. eexists; split; done. Qed.
