(* ===== verification/Framework.v ===== *)
(** * The test framework's HTTP context (framework.h, framework.cc)

    [TestHttpContext] is the host the samples' tests run on.  Its operations
    are translated one by one; [exec] dispatches a host call to them and
    [fw_refines] shows that the result is an implementation of the abstract
    host of [Host], so that what is proved of a plugin by [wp] holds when the
    framework runs it ([run_sound]). *)

From S2P Require Import Prelude Absl Headers Host.

(** ** What the framework inherits from the Proxy-Wasm host library *)

Class HostAbi : Type := {
  (** [proxy_get_buffer_bytes] on a buffer of a given size and [copyTo]. *)
  abi_read : Z -> (Z -> Z -> option (HostResult str)) -> Z -> Z -> HostResult str;
  (** [proxy_get_buffer_bytes] on a [BufferBase] with given contents. *)
  abi_read_base : str -> Z -> Z -> HostResult str;
  (** The result of [proxy_set_buffer_bytes] on a [BufferBase]. *)
  abi_write_base : WasmResult;
  (** The result when [getBuffer] returns null. *)
  abi_no_buffer : WasmResult;
  (** [WasmBase::copyToPointerSize] *)
  copyToPointerSize : str -> bool;
  (** The path string that the SDK passes for a list of segments. *)
  encode_path : list str -> str;
  (** [WasmVm::cmpLogLevel] *)
  cmpLogLevel : LogLevel -> bool;
  (** The gRPC status of a local response without one. *)
  default_grpc_status : Z;
  (** The random numbers that the VM is fed, in order. *)
  entropy : nat -> Z;
  (** The status [ContextBase::on*Headers] and [ContextBase::on*Body] return
      for the one of the handler, given whether it sent a local response. *)
  abi_headers_status : bool -> FilterHeadersStatus.t -> FilterHeadersStatus.t;
  abi_data_status : bool -> FilterDataStatus.t -> FilterDataStatus.t;
  (** What a [std::string] holds after it was moved from. *)
  moved_from : str -> str;
}.

Class HostAbiOk (A : HostAbi) : Prop := {
  abi_read_ok size copy start len s :
    (0 <= start)%Z -> (0 <= len)%Z -> (start + len <= size)%Z ->
    copy start len = Some (Done s) -> abi_read size copy start len = Done s;
  abi_read_base_ok c start len :
    (0 <= start)%Z -> (0 <= len)%Z -> (start + len <= size_of c)%Z ->
    abi_read_base c start len =
      Done (substr c (Z.to_nat start) (Some (Z.to_nat len)));
  abi_no_buffer_ok : abi_no_buffer <> Ok;
  copyToPointerSize_ok s : copyToPointerSize s = true;
  encode_path_ok path :
    Forall (λ p, p <> [] /\ zero ∉ p) path ->
    filter (.≠ []) (split_on zero (encode_path path)) = path;
  entropy_ok n : (0 <= entropy n < 2 ^ 64)%Z;
  abi_continue_ok :
    abi_headers_status false FilterHeadersStatus.Continue = FilterHeadersStatus.Continue;
}.

(** ** [class Buffer] *)

(** [Buffer::size] *)
Definition Buffer_size (owned_string_buffer : str) : Z := size_of owned_string_buffer.

(** [Buffer::copyTo]; [None] is a read outside of the string, which the
    wrap-around of [start + length] makes possible. *)
Definition Buffer_copyTo `{HostAbi} (owned_string_buffer : str) (start len : Z)
    : option (HostResult str) :=
  if (size_of owned_string_buffer <? wrap64 (start + len))%Z
  then Some (Failed InvalidMemoryAccess)
  else if decide (start + len <= size_of owned_string_buffer)%Z then
    let s := substr owned_string_buffer (Z.to_nat start) (Some (Z.to_nat len)) in
    if copyToPointerSize s then Some (Done s) else Some (Failed InvalidMemoryAccess)
  else None.

(** [Buffer::copyFrom] *)
Definition Buffer_copyFrom (owned_string_buffer : str) (start len : Z) (data : str)
    : WasmResult * str :=
  let start :=
    if (size_of owned_string_buffer <? start)%Z
    then size_of owned_string_buffer else start in
  (Ok, replace_at owned_string_buffer (Z.to_nat start) (Z.to_nat len) data).

Arguments Buffer_copyTo : simpl never.
Arguments Buffer_copyFrom : simpl never.

(** ** [class TestHttpContext] *)

Inductive CallbackType : Type :=
  | CbNone | CbRequestHeaders | CbRequestBody | CbResponseHeaders | CbResponseBody.

#[export] Instance CallbackType_eq_dec : EqDecision CallbackType.
Proof. solve_decision. Defined.

Record Result : Type := mkResult {
  header_status : FilterHeadersStatus.t;
  r_headers : headers;
  body_status : FilterDataStatus.t;
  r_body : str;
  http_code : Z;
  grpc_code : Z;
  r_details : str;
}.

(** [Result{}] and [Result{.headers = headers}] *)
Definition result_of_headers (m : headers) : Result :=
  mkResult FilterHeadersStatus.Continue m FilterDataStatus.Continue [] 0 0 [].
Definition empty_result : Result := result_of_headers [].

(** The fields of the context.  [phase] is [None] for
    [WasmHeaderMapType(-1)]; [cfg_properties], [plugin_config] and
    [clock_time] do not change. *)
Record TestHttpContext : Type := mkContext {
  cfg_properties : list (str * str);
  plugin_config : str;
  clock_time : Z;
  phase_logs : list str;
  logging_bytes : Z;
  logging_entries : Z;
  torn_down : bool;
  phase : option WasmHeaderMapType;
  result : Result;
  sent_local_response : bool;
  body_buffer : str;
  current_callback : CallbackType;
  draws : nat;
}.

Definition set_result (r : Result) (s : TestHttpContext) : TestHttpContext :=
  mkContext (cfg_properties s) (plugin_config s) (clock_time s) (phase_logs s)
    (logging_bytes s) (logging_entries s) (torn_down s) (phase s) r
    (sent_local_response s) (body_buffer s) (current_callback s) (draws s).
Definition set_headers (m : headers) (s : TestHttpContext) : TestHttpContext :=
  let r := result s in
  set_result (mkResult (header_status r) m (body_status r) (r_body r)
    (http_code r) (grpc_code r) (r_details r)) s.
Definition set_body (b : str) (s : TestHttpContext) : TestHttpContext :=
  mkContext (cfg_properties s) (plugin_config s) (clock_time s) (phase_logs s)
    (logging_bytes s) (logging_entries s) (torn_down s) (phase s) (result s)
    (sent_local_response s) b (current_callback s) (draws s).
Definition set_phase (p : option WasmHeaderMapType) (s : TestHttpContext) : TestHttpContext :=
  mkContext (cfg_properties s) (plugin_config s) (clock_time s) (phase_logs s)
    (logging_bytes s) (logging_entries s) (torn_down s) p (result s)
    (sent_local_response s) (body_buffer s) (current_callback s) (draws s).
Definition set_callback (c : CallbackType) (s : TestHttpContext) : TestHttpContext :=
  mkContext (cfg_properties s) (plugin_config s) (clock_time s) (phase_logs s)
    (logging_bytes s) (logging_entries s) (torn_down s) (phase s) (result s)
    (sent_local_response s) (body_buffer s) c (draws s).
Definition set_logs (l : list str) (b e : Z) (s : TestHttpContext) : TestHttpContext :=
  mkContext (cfg_properties s) (plugin_config s) (clock_time s) l
    b e (torn_down s) (phase s) (result s)
    (sent_local_response s) (body_buffer s) (current_callback s) (draws s).
Definition set_sent (b : bool) (s : TestHttpContext) : TestHttpContext :=
  mkContext (cfg_properties s) (plugin_config s) (clock_time s) (phase_logs s)
    (logging_bytes s) (logging_entries s) (torn_down s) (phase s) (result s)
    b (body_buffer s) (current_callback s) (draws s).
Definition set_draws (n : nat) (s : TestHttpContext) : TestHttpContext :=
  mkContext (cfg_properties s) (plugin_config s) (clock_time s) (phase_logs s)
    (logging_bytes s) (logging_entries s) (torn_down s) (phase s) (result s)
    (sent_local_response s) (body_buffer s) (current_callback s) n.
Definition set_torn_down (s : TestHttpContext) : TestHttpContext :=
  mkContext (cfg_properties s) (plugin_config s) (clock_time s) (phase_logs s)
    (logging_bytes s) (logging_entries s) true (phase s) (result s)
    (sent_local_response s) (body_buffer s) (current_callback s) (draws s).

Definition clear_phase_logs (s : TestHttpContext) : TestHttpContext :=
  set_logs [] (logging_bytes s) (logging_entries s) s.

(** The buffers a plugin can name. *)
Inductive BufferRef : Type := PluginConfigBuffer | BodyBuffer.

Section context.
Context `{Caseless} `{Absl} `{HostAbi}.
Implicit Types s : TestHttpContext.

(** [TestContext::getBuffer], the one of the root context. *)
Definition root_getBuffer (b : WasmBufferType) : option BufferRef :=
  match b with
  | PluginConfiguration => Some PluginConfigBuffer
  | _ => None
  end.

(** [TestHttpContext::getBuffer]; [None] is [nullptr]. *)
Definition getBuffer (b : WasmBufferType) s : option BufferRef :=
  match b with
  | PluginConfiguration => root_getBuffer b
  | HttpRequestBody =>
      if decide (current_callback s = CbRequestBody) then Some BodyBuffer else None
  | HttpResponseBody =>
      if decide (current_callback s = CbResponseBody) then Some BodyBuffer else None
  end.

Definition fw_getHeaderMapSize (t : WasmHeaderMapType) s : HostResult Z :=
  if decide (phase s = Some t) then Done (Z.of_nat (length (r_headers (result s))))
  else Failed BadArgument.

Definition fw_getHeaderMapValue (t : WasmHeaderMapType) (key : str) s : HostResult str :=
  if decide (phase s = Some t) then
    match headers_find key (r_headers (result s)) with
    | None => Failed NotFound
    | Some (_, value) => Done value
    end
  else Failed BadArgument.

Definition fw_addHeaderMapValue (t : WasmHeaderMapType) (key value : str) s
    : WasmResult * TestHttpContext :=
  if decide (phase s = Some t)
  then (Ok, set_headers (InsertOrAppend key value (r_headers (result s))) s)
  else (BadArgument, s).

Definition fw_replaceHeaderMapValue (t : WasmHeaderMapType) (key value : str) s
    : WasmResult * TestHttpContext :=
  if decide (phase s = Some t)
  then (Ok, set_headers (headers_set key value (r_headers (result s))) s)
  else (BadArgument, s).

Definition fw_removeHeaderMapValue (t : WasmHeaderMapType) (key : str) s
    : WasmResult * TestHttpContext :=
  if decide (phase s = Some t)
  then (Ok, set_headers (headers_erase key (r_headers (result s))) s)
  else (BadArgument, s).

Definition fw_getHeaderMapPairs (t : WasmHeaderMapType) s : HostResult (list (str * str)) :=
  if decide (phase s = Some t) then Done (r_headers (result s)) else Failed BadArgument.

Definition fw_setHeaderMapPairs (t : WasmHeaderMapType) (pairs : list (str * str)) s
    : WasmResult * TestHttpContext :=
  if decide (phase s = Some t) then
    (Ok, fold_left (λ s kv, (fw_addHeaderMapValue t kv.1 kv.2 s).2) pairs (set_headers [] s))
  else (BadArgument, s).

(** [TestHttpContext::getProperty], on the encoded path. *)
Definition fw_getProperty (path : str) s : HostResult str :=
  let translated_path := StrJoin (StrSplitSkipEmpty path zero) "."%str in
  match list_find (λ p, p.1 = translated_path) (cfg_properties s) with
  | Some (_, (_, value)) => Done value
  | None => Failed NotFound
  end.

Definition fw_sendLocalResponse (response_code : Z) (body_text : str)
    (additional_headers : list (str * str)) (grpc_status : Z) (details : str) s
    : WasmResult * TestHttpContext :=
  if decide (current_callback s <> CbRequestHeaders /\
             current_callback s <> CbResponseHeaders /\
             current_callback s <> CbRequestBody)
  then (BadArgument, s)
  else
    (Ok, set_result (mkResult (header_status (result s))
           (headers_of_pairs headers_set additional_headers)
           (body_status (result s)) body_text response_code grpc_status details)
           (set_sent true s)).

(** [TestContext::log] *)
Definition fw_log (level : LogLevel) (message : str) s : TestHttpContext :=
  set_logs (if cmpLogLevel level then phase_logs s ++ [message] else phase_logs s)
    (logging_bytes s + size_of message) (logging_entries s + 1) s.

Definition getCurrentTimeNanoseconds s : Z := clock_time s.
Definition getMonotonicTimeNanoseconds s : Z := clock_time s.

(** Dispatch of a host call. *)
Definition exec (c : HostCall) s : answer c * TestHttpContext :=
  match c return answer c * TestHttpContext with
  | GetHeaderMapValue t key => (fw_getHeaderMapValue t key s, s)
  | GetHeaderMapPairs t => (fw_getHeaderMapPairs t s, s)
  | AddHeaderMapValue t key value => fw_addHeaderMapValue t key value s
  | ReplaceHeaderMapValue t key value => fw_replaceHeaderMapValue t key value s
  | RemoveHeaderMapValue t key => fw_removeHeaderMapValue t key s
  | SetHeaderMapPairs t pairs => fw_setHeaderMapPairs t pairs s
  | GetBufferBytes b start len =>
      (match getBuffer b s with
       | None => Failed abi_no_buffer
       | Some PluginConfigBuffer => abi_read_base (plugin_config s) start len
       | Some BodyBuffer =>
           abi_read (size_of (body_buffer s)) (Buffer_copyTo (body_buffer s)) start len
       end, s)
  | SetBuffer b start len data =>
      match getBuffer b s with
      | None => (abi_no_buffer, s)
      | Some PluginConfigBuffer => (abi_write_base, s)
      | Some BodyBuffer =>
          let '(r, body) := Buffer_copyFrom (body_buffer s) start len data in
          (r, set_body body s)
      end
  | GetBufferStatus b =>
      (match getBuffer b s with
       | None => Failed abi_no_buffer
       | Some PluginConfigBuffer => Done (size_of (plugin_config s))
       | Some BodyBuffer => Done (Buffer_size (body_buffer s))
       end, s)
  | GetProperty path => (fw_getProperty (encode_path path) s, s)
  | SendLocalResponse code details body pairs =>
      fw_sendLocalResponse code body pairs default_grpc_status details s
  | WriteLog level message => (tt, fw_log level message s)
  | GetCurrentTime => (getCurrentTimeNanoseconds s, s)
  | GetRandom => (entropy (draws s), set_draws (S (draws s)) s)
  end.

(** A handler run by the framework; [None] is a trap of the VM. *)
Fixpoint run {A} (p : Prog A) s : option (A * TestHttpContext) :=
  match p with
  | Ret a => Some (a, s)
  | Trap => None
  | Call c k => let '(r, s) := exec c s in run (k r) s
  end.
End context.

(** ** The phases of a stream

    [h] is the plugin's handler, given the number of headers or bytes and
    [end_of_stream]; [St] is the type of the plugin's own stream fields. *)

Section phases.
Context `{Caseless} `{Absl} `{HostAbi} {St : Type}.
Implicit Types s : TestHttpContext.

Definition set_header_status (x : FilterHeadersStatus.t) (r : Result) : Result :=
  mkResult x (r_headers r) (body_status r) (r_body r) (http_code r) (grpc_code r)
    (r_details r).
Definition set_body_result (x : FilterDataStatus.t) (body : str) (r : Result) : Result :=
  mkResult (header_status r) (r_headers r) x body (http_code r) (grpc_code r)
    (r_details r).

Definition SendRequestHeaders (h : Z -> bool -> Prog (FilterHeadersStatus.t * St))
    (m : headers) s : option (Result * St * TestHttpContext) :=
  let s := clear_phase_logs s in
  let s := set_result (result_of_headers m) s in
  let s := set_phase (Some RequestHeaders) s in
  let s := set_callback CbRequestHeaders s in
  '(st, x, s) ← run (h (Z.of_nat (length m)) false) s;
  let s := set_result (set_header_status
             (abi_headers_status (sent_local_response s) st) (result s)) s in
  let s := set_phase None s in
  Some (result s, x, s).

(** [None] in the place of the plugin's fields: its handler was not called. *)
Definition SendResponseHeaders (h : Z -> bool -> Prog (FilterHeadersStatus.t * St))
    (m : headers) s : option (Result * option St * TestHttpContext) :=
  let s := clear_phase_logs s in
  let s := set_result empty_result s in
  if sent_local_response s then Some (empty_result, None, s)
  else
    let s := set_result (result_of_headers m) s in
    let s := set_phase (Some ResponseHeaders) s in
    let s := set_callback CbResponseHeaders s in
    '(st, x, s) ← run (h (Z.of_nat (length m)) false) s;
    let s := set_result (set_header_status
               (abi_headers_status (sent_local_response s) st) (result s)) s in
    let s := set_phase None s in
    Some (result s, Some x, s).

Definition SendRequestBody (h : Z -> bool -> Prog (FilterDataStatus.t * St))
    (body : str) (end_of_stream : bool) s : option (Result * option St * TestHttpContext) :=
  let s := clear_phase_logs s in
  let s := set_result empty_result s in
  if sent_local_response s then Some (empty_result, None, s)
  else
    let s := set_body body s in
    let s := set_callback CbRequestBody s in
    '(st, x, s) ← run (h (size_of body) end_of_stream) s;
    let r := set_body_result (abi_data_status (sent_local_response s) st)
               (body_buffer s) (result s) in
    let s := set_body (moved_from (body_buffer s)) s in
    Some (r, Some x, set_result r s).

Definition SendResponseBody (h : Z -> bool -> Prog (FilterDataStatus.t * St))
    (body : str) (end_of_stream : bool) s : option (Result * option St * TestHttpContext) :=
  let s := clear_phase_logs s in
  let s := set_result empty_result s in
  if sent_local_response s then Some (empty_result, None, s)
  else
    let s := set_body body s in
    let s := set_callback CbResponseBody s in
    '(st, x, s) ← run (h (size_of body) end_of_stream) s;
    let r := set_body_result (abi_data_status (sent_local_response s) st)
               (body_buffer s) (result s) in
    let s := set_body (moved_from (body_buffer s)) s in
    Some (r, Some x, set_result r s).

(** [TestHttpContext::TearDown]; [onDone] and [onDelete] are the plugin's. *)
Definition TearDown (onDone onDelete : Prog unit) s : option TestHttpContext :=
  if torn_down s then Some s
  else
    let s := clear_phase_logs s in
    '(_, s) ← run onDone s;
    '(_, s) ← run onDelete s;
    Some (set_torn_down s).
End phases.

(** ** The framework implements the abstract host *)

Definition path_ok (path : list str) : Prop := Forall (λ p, p <> [] /\ zero ∉ p) path.

Section refinement.
Context `{!Caseless} `{!CaselessOk _} `{!Absl} `{!AbslOk _} `{!HostAbi} `{!HostAbiOk _}.
Implicit Types s : TestHttpContext.
Implicit Types v : HostView.

Definition visible_buffer (b : WasmBufferType) s : option str :=
  match getBuffer b s with
  | Some PluginConfigBuffer => Some (plugin_config s)
  | Some BodyBuffer => Some (body_buffer s)
  | None => None
  end.

Definition responds_in (c : CallbackType) : bool :=
  bool_decide (c = CbRequestHeaders \/ c = CbResponseHeaders \/ c = CbRequestBody).

Definition response_rel s (r : option LocalResponse) : Prop :=
  if sent_local_response s
  then r = Some (mkLocalResponse (http_code (result s)) (r_details (result s))
                   (r_body (result s)) (headers_map (r_headers (result s))))
  else r = None.

(** The state of a context and what a plugin sees of it. *)
Record fw_rel s v : Prop := {
  rel_ordered : ordered (r_headers (result s));
  rel_maps : maps v = match phase s with
                      | Some t => {[ t := headers_map (r_headers (result s)) ]}
                      | None => ∅ end;
  rel_buffers b : buffers v !! b = visible_buffer b s;
  rel_properties path : path_ok path ->
    properties v path =
      (λ p, p.2.2) <$> list_find (λ p, p.1 = join "."%str path) (cfg_properties s);
  rel_can_respond : can_respond v = responds_in (current_callback s);
  rel_response : response_rel s (response v);
  rel_logs : phase_logs s = (filter (λ l, cmpLogLevel l.1 = true) (logs v)).*2;
  rel_now : now v = clock_time s;
}.

(** One call: the framework's answer and next state are among those the
    abstract host allows. *)
Definition implements (c : HostCall) : Prop :=
  forall s v (post : answer c -> HostView -> Prop),
    fw_rel s v -> interp c v post ->
    exists v', fw_rel (exec c s).2 v' /\ post (exec c s).1 v'.

Lemma rel_map_lookup s v t :
  fw_rel s v ->
  maps v !! t = if decide (phase s = Some t)
                then Some (headers_map (r_headers (result s))) else None.
Proof.
  intros Hr. rewrite (rel_maps _ _ Hr). destruct (phase s) as [t'|].
  - destruct (decide (Some t' = Some t)) as [[= ->]|Hne].
    + apply lookup_singleton_eq.
    + apply lookup_singleton_ne. congruence.
  - by rewrite decide_False, lookup_empty.
Qed.

(** A mutation of the open header map, by matching operations on the
    ordered list and on the finite map. *)
Lemma implements_mutate t (f : hmap -> hmap) (g : headers -> headers) s v
    (post : WasmResult -> HostView -> Prop) :
  (forall m, ordered m -> ordered (g m) /\ headers_map (g m) = f (headers_map m)) ->
  fw_rel s v -> mutate t f v post ->
  let '(r, s') := if decide (phase s = Some t)
                  then (Ok, set_headers (g (r_headers (result s))) s)
                  else (BadArgument, s) in
  exists v', fw_rel s' v' /\ post r v'.
Proof.
  intros Hg Hr. unfold mutate. rewrite (rel_map_lookup _ _ t Hr).
  pose proof (rel_response _ _ Hr) as Hresp. unfold response_rel in Hresp.
  destruct (response v) eqn:Hv; [done|].
  destruct (decide (phase s = Some t)) as [Hp|Hp].
  - intros Hpost. eexists. split; [|exact Hpost].
    destruct (Hg (r_headers (result s))) as [Ho Hm]; [apply (rel_ordered _ _ Hr)|].
    destruct Hr; split; simpl; try done.
    + rewrite rel_maps0, Hp, <- Hm. apply insert_singleton_eq.
    + unfold response_rel in *. simpl. rewrite Hv. by destruct (sent_local_response s).
  - intros Hpost. exists v. split; [done|]. by apply Hpost.
Qed.

Lemma implements_get t key : implements (GetHeaderMapValue t key).
Proof.
  intros s v post Hr. simpl. unfold fw_getHeaderMapValue.
  rewrite (rel_map_lookup _ _ t Hr).
  destruct (decide (phase s = Some t)); simpl; [|naive_solver].
  rewrite headers_find_map. unfold hm_get.
  destruct (_ !! lower key) as [[k x]|]; simpl; naive_solver.
Qed.

Lemma implements_pairs t : implements (GetHeaderMapPairs t).
Proof.
  intros s v post Hr. simpl. unfold fw_getHeaderMapPairs.
  rewrite (rel_map_lookup _ _ t Hr).
  destruct (decide (phase s = Some t)); simpl; [|naive_solver].
  intros Hpost. exists v. split; [done|]. apply Hpost.
  symmetry. apply ordered_pairs, (rel_ordered _ _ Hr).
Qed.

Lemma implements_add t k x : implements (AddHeaderMapValue t k x).
Proof.
  intros s v post Hr Hpost. simpl in *. unfold fw_addHeaderMapValue.
  eapply implements_mutate in Hpost; [|intros m Hm|exact Hr].
  - by destruct (decide _); apply Hpost.
  - by split; [apply InsertOrAppend_ordered|apply headers_map_append].
Qed.

Lemma implements_replace t k x : implements (ReplaceHeaderMapValue t k x).
Proof.
  intros s v post Hr Hpost. simpl in *. unfold fw_replaceHeaderMapValue.
  eapply implements_mutate in Hpost; [|intros m Hm|exact Hr].
  - by destruct (decide _); apply Hpost.
  - by split; [apply headers_set_ordered|apply headers_map_set].
Qed.

Lemma implements_remove t k : implements (RemoveHeaderMapValue t k).
Proof.
  intros s v post Hr Hpost. simpl in *. unfold fw_removeHeaderMapValue.
  eapply implements_mutate in Hpost; [|intros m Hm|exact Hr].
  - by destruct (decide _); apply Hpost.
  - by split; [apply headers_erase_ordered|apply headers_map_erase].
Qed.

(** The loop of [setHeaderMapPairs] as a fold over the headers. *)
Lemma setHeaderMapPairs_fold t pairs s :
  phase s = Some t ->
  fold_left (λ s kv, (fw_addHeaderMapValue t kv.1 kv.2 s).2) pairs (set_headers [] s) =
  set_headers (headers_of_pairs InsertOrAppend pairs) s.
Proof.
  intros Hp. unfold headers_of_pairs. generalize (@nil (str * str)). revert pairs.
  induction pairs as [|[k x] pairs IH]; intros m; simpl; [done|].
  rewrite <- IH. f_equal. unfold fw_addHeaderMapValue. by rewrite decide_True.
Qed.

Lemma headers_map_of_pairs op hop l :
  (forall k x m, ordered m ->
     ordered (op k x m) /\ headers_map (op k x m) = hop k x (headers_map m)) ->
  headers_map (headers_of_pairs op l) = fold_left (λ m kv, hop kv.1 kv.2 m) l ∅.
Proof.
  intros Hop. unfold headers_of_pairs.
  assert (forall m, ordered m ->
    headers_map (fold_left (λ m kv, op kv.1 kv.2 m) l m) =
    fold_left (λ m kv, hop kv.1 kv.2 m) l (headers_map m)) as Hf.
  { induction l as [|[k x] l IH]; intros m Hm; simpl; [done|].
    destruct (Hop k x m Hm) as [? Heq]. by rewrite IH, Heq. }
  rewrite Hf by constructor. done.
Qed.

Lemma implements_set_pairs t pairs : implements (SetHeaderMapPairs t pairs).
Proof.
  intros s v post Hr Hpost. simpl in *. unfold fw_setHeaderMapPairs.
  eapply (implements_mutate _ _ (λ _, headers_of_pairs InsertOrAppend pairs))
    in Hpost; [|intros m Hm|exact Hr].
  - destruct (decide _); [|by apply Hpost]. rewrite setHeaderMapPairs_fold by done.
    by apply Hpost.
  - split; [apply headers_of_pairs_ordered; eauto with svc|].
    apply headers_map_of_pairs. intros. split; [eauto with svc|by apply headers_map_append].
Qed.

Lemma copyTo_ok b start len :
  (0 <= start < 2 ^ 32)%Z -> (0 <= len < 2 ^ 32)%Z -> (start + len <= size_of b)%Z ->
  Buffer_copyTo b start len =
    Some (Done (substr b (Z.to_nat start) (Some (Z.to_nat len)))).
Proof.
  intros. unfold Buffer_copyTo. rewrite wrap64_id by lia.
  rewrite (proj2 (Z.ltb_ge _ _)) by lia. rewrite decide_True by lia.
  by rewrite copyToPointerSize_ok.
Qed.

Lemma implements_read b start len : implements (GetBufferBytes b start len).
Proof.
  intros s v post Hr. simpl. rewrite (rel_buffers _ _ Hr). unfold visible_buffer.
  destruct (getBuffer b s) as [[]|]; simpl.
  - case_decide as Hd; [|done]. destruct Hd as (? & ? & ?).
    rewrite abi_read_base_ok by lia. eauto.
  - case_decide as Hd; [|done]. destruct Hd as (? & ? & ?).
    erewrite abi_read_ok by (try apply copyTo_ok; lia). eauto.
  - intros Hpost. exists v. split; [done|]. apply Hpost, abi_no_buffer_ok.
Qed.

(** Where [Buffer::copyFrom] writes: at [start], but not past the end. *)
Lemma copyFrom_position b start :
  (0 <= start)%Z ->
  Z.to_nat (if (size_of b <? start)%Z then size_of b else start) =
  min (Z.to_nat start) (length b).
Proof.
  intros. unfold size_of. destruct (Z.ltb_spec (Z.of_nat (length b)) start); lia.
Qed.

Lemma implements_write b start len d : implements (SetBuffer b start len d).
Proof.
  intros s v post Hr. simpl. rewrite (rel_buffers _ _ Hr). unfold visible_buffer.
  destruct (getBuffer b s) as [[]|] eqn:Hb; simpl.
  - case_decide as Hd; [|done]. destruct Hd as [Hne _].
    destruct b; simpl in Hb; by try case_decide.
  - case_decide as Hd; [|done]. destruct Hd as (Hne & ? & ?). intros Hpost.
    eexists. rewrite copyFrom_position by done. split; [|exact Hpost].
    destruct Hr; split; simpl; try done.
    intros b'. unfold visible_buffer. simpl.
    destruct (decide (b' = b)) as [->|Hb'].
    + rewrite lookup_insert_eq. change (getBuffer b (set_body _ s)) with (getBuffer b s).
      by rewrite Hb.
    + rewrite lookup_insert_ne, rel_buffers0 by done. unfold visible_buffer.
      change (getBuffer b' (set_body _ s)) with (getBuffer b' s).
      destruct b, b'; simpl in *; repeat case_decide; try done; congruence.
  - intros Hpost. exists v. split; [done|]. apply Hpost, abi_no_buffer_ok.
Qed.

Lemma implements_status b : implements (GetBufferStatus b).
Proof.
  intros s v post Hr. simpl. rewrite (rel_buffers _ _ Hr). unfold visible_buffer.
  destruct (getBuffer b s) as [[]|]; simpl; intros Hpost; exists v; split; try done.
  apply Hpost, abi_no_buffer_ok.
Qed.

Lemma implements_property path : implements (GetProperty path).
Proof.
  intros s v post Hr. simpl. case_decide as Hp; [|done].
  rewrite (rel_properties _ _ Hr) by done. unfold fw_getProperty. absl.
  rewrite encode_path_ok by done.
  destruct (list_find _ _) as [[i [k x]]|]; simpl; naive_solver.
Qed.

Lemma implements_respond code details body pairs :
  implements (SendLocalResponse code details body pairs).
Proof.
  intros s v post Hr. simpl. rewrite (rel_can_respond _ _ Hr).
  unfold fw_sendLocalResponse, responds_in.
  destruct (decide (_ /\ _ /\ _)) as [Hd|Hd]; rewrite bool_decide_decide;
    destruct (decide (_ \/ _ \/ _)) as [Hc|Hc]; simpl; try tauto.
  - intros Hpost. exists v. split; [done|]. by apply Hpost.
  - intros Hpost. eexists. split; [|apply Hpost].
    destruct Hr; split; simpl; try done.
    + apply headers_of_pairs_ordered. eauto with svc.
    + unfold response_rel. simpl. repeat f_equal. symmetry. unfold hm_of_pairs.
      apply headers_map_of_pairs. intros. split; [eauto with svc|by apply headers_map_set].
Qed.

Lemma implements_log l m : implements (WriteLog l m).
Proof.
  intros s v post Hr Hpost. simpl in *. eexists. split; [|exact Hpost].
  destruct Hr; split; simpl; try done.
  rewrite filter_app, fmap_app, rel_logs0, filter_cons. simpl.
  case_decide as Hl; [rewrite Hl; done|].
  destruct (cmpLogLevel l); [done|]. by rewrite app_nil_r.
Qed.

Lemma implements_random : implements GetRandom.
Proof.
  intros s v post Hr Hpost. simpl in *. exists v. split; [|apply Hpost, entropy_ok].
  destruct Hr; split; done.
Qed.

Lemma fw_refines_call c : implements c.
Proof.
  destruct c; auto using implements_get, implements_pairs, implements_add,
    implements_replace, implements_remove, implements_set_pairs, implements_read,
    implements_write, implements_status, implements_property, implements_respond, implements_log,
    implements_random.
  intros s v post Hr Hpost. simpl in *. exists v. unfold getCurrentTimeNanoseconds.
  by rewrite <- (rel_now _ _ Hr).
Qed.

Lemma run_wp {A} (p : Prog A) s v (Q : A -> HostView -> Prop) :
  fw_rel s v -> wp p Q v ->
  exists a s' v', run p s = Some (a, s') /\ fw_rel s' v' /\ Q a v'.
Proof.
  revert s v. induction p as [a| |c k IH]; intros s v Hr Hwp; simpl in *.
  - eauto 10.
  - done.
  - destruct (fw_refines_call c _ _ _ Hr Hwp) as (v' & Hr' & Hwp').
    destruct (exec c s) as [r s']. by eapply IH.
Qed.

(** ** Phases *)

(** What a plugin sees of a context at the start of a callback. *)
Definition host_view s : HostView := mkHostView
  (match phase s with Some t => {[ t := headers_map (r_headers (result s)) ]} | None => ∅ end)
  (match current_callback s with
   | CbRequestBody => {[ PluginConfiguration := plugin_config s; HttpRequestBody := body_buffer s ]}
   | CbResponseBody => {[ PluginConfiguration := plugin_config s; HttpResponseBody := body_buffer s ]}
   | _ => {[ PluginConfiguration := plugin_config s ]}
   end)
  (λ path, (λ p, p.2.2) <$> list_find (λ p, p.1 = join "."%str path) (cfg_properties s))
  (responds_in (current_callback s))
  (if sent_local_response s
   then Some (mkLocalResponse (http_code (result s)) (r_details (result s))
          (r_body (result s)) (headers_map (r_headers (result s))))
   else None)
  [] (clock_time s).

Lemma host_view_rel s :
  ordered (r_headers (result s)) -> phase_logs s = [] -> fw_rel s (host_view s).
Proof.
  intros Ho Hl. split; simpl; try done.
  - intros b. unfold visible_buffer, getBuffer. by destruct (current_callback s), b.
  - unfold response_rel. simpl. by destruct (sent_local_response s).
Qed.

(** The context in which the handler of a header phase runs. *)
Definition enter_headers (t : WasmHeaderMapType) (c : CallbackType) (m : headers) s :=
  set_callback c (set_phase (Some t)
    (set_result (result_of_headers m) (clear_phase_logs s))).
Definition enter_body (c : CallbackType) (body : str) s :=
  set_callback c (set_body body (set_result empty_result (clear_phase_logs s))).

(** What the result of a header phase has to do with the final state of the
    abstract host. *)
Definition headers_result (t : WasmHeaderMapType) (status : FilterHeadersStatus.t)
    v (r : Result) : Prop :=
  header_status r = abi_headers_status (bool_decide (is_Some (response v))) status /\
  match response v with
  | None => maps v !! t = Some (headers_map (r_headers r)) /\ http_code r = 0%Z
  | Some lr => lr = mkLocalResponse (http_code r) (r_details r) (r_body r)
                      (headers_map (r_headers r))
  end.

(** Calls change neither the phase nor the callback. *)
Lemma exec_frame c s :
  phase (exec c s).2 = phase s /\ current_callback (exec c s).2 = current_callback s /\
  (sent_local_response (exec c s).2 = false ->
   sent_local_response s = false /\ http_code (result (exec c s).2) = http_code (result s)).
Proof.
  destruct c; simpl; try (split_and!; done).
  1-3: unfold fw_addHeaderMapValue, fw_replaceHeaderMapValue, fw_removeHeaderMapValue;
    case_decide; done.
  - unfold fw_setHeaderMapPairs. case_decide; [|done]. by rewrite setHeaderMapPairs_fold.
  - by destruct (getBuffer b s) as [[]|].
  - unfold fw_sendLocalResponse. by case_decide.
Qed.

Lemma run_frame {A} (p : Prog A) s a s' :
  run p s = Some (a, s') ->
  phase s' = phase s /\ current_callback s' = current_callback s /\
  (sent_local_response s' = false ->
   sent_local_response s = false /\ http_code (result s') = http_code (result s)).
Proof.
  revert s. induction p as [x| |c k IH]; intros s; simpl; [by intros [= _ <-]|done|].
  pose proof (exec_frame c s) as (Hp & Hc & Hs). destruct (exec c s) as [r s1].
  simpl in *. intros Hrun. destruct (IH _ _ Hrun) as (-> & -> & Hs').
  split_and!; try done.
  intros Hsent. destruct (Hs' Hsent) as [? ->]. by apply Hs.
Qed.

Lemma headers_result_rel {A} (p : Prog (FilterHeadersStatus.t * A)) t c m s st x s' v' :
  run p (enter_headers t c m s) = Some (st, x, s') -> fw_rel s' v' ->
  headers_result t st v' (set_header_status
    (abi_headers_status (sent_local_response s') st) (result s')).
Proof.
  intros Hrun Hrel.
  pose proof (run_frame _ _ _ _ Hrun) as (Hp & _ & Hcode). simpl in Hp, Hcode.
  pose proof (rel_response _ _ Hrel) as Hresp. unfold response_rel in Hresp.
  pose proof (rel_maps _ _ Hrel) as Hmaps.
  unfold headers_result. destruct (sent_local_response s').
  - by rewrite Hresp.
  - rewrite Hresp, Hmaps, Hp. simpl. split_and!; try done.
    + apply lookup_singleton_eq.
    + by destruct Hcode.
Qed.

Lemma run_headers {A} (p : Prog (FilterHeadersStatus.t * A)) t c m s
    (Q : FilterHeadersStatus.t * A -> HostView -> Prop) :
  ordered m -> wp p Q (host_view (enter_headers t c m s)) ->
  exists st x s' v', run p (enter_headers t c m s) = Some (st, x, s') /\
    Q (st, x) v' /\
    headers_result t st v' (set_header_status
      (abi_headers_status (sent_local_response s') st) (result s')).
Proof.
  intros Hm Hwp. eapply run_wp in Hwp as ([st x] & s' & v' & Hrun & Hrel & HQ);
    [|by apply host_view_rel].
  exists st, x, s', v'. split_and!; try done. by eapply headers_result_rel.
Qed.

(** C1. Soundness of reasoning about a plugin with [wp]: if its request
    header handler satisfies [Q] on the abstract host, then
    [SendRequestHeaders] returns (it neither traps nor fails), the handler
    ends in a state [v'] allowed by [Q], and the headers, the code and the
    body of the result are those of [v']. *)
Theorem SendRequestHeaders_sound {St} (h : Z -> bool -> Prog (FilterHeadersStatus.t * St))
    m s (Q : FilterHeadersStatus.t * St -> HostView -> Prop) :
  ordered m ->
  wp (h (Z.of_nat (length m)) false) Q
    (host_view (enter_headers RequestHeaders CbRequestHeaders m s)) ->
  exists r st x s' v', SendRequestHeaders h m s = Some (r, x, s') /\
    Q (st, x) v' /\ headers_result RequestHeaders st v' r.
Proof.
  intros Hm Hwp. eapply run_headers in Hwp as (st & x & s' & v' & Hrun & HQ & Hr); [|done].
  unfold SendRequestHeaders. unfold enter_headers in Hrun. rewrite Hrun. simpl. eauto 10.
Qed.

(** Soundness of [wp] for response headers: in a stream that sent no local
    response before, [SendResponseHeaders] returns, its handler ends in a
    state that [wp] allows, and the result shows that state. *)
Theorem SendResponseHeaders_sound {St} (h : Z -> bool -> Prog (FilterHeadersStatus.t * St))
    m s (Q : FilterHeadersStatus.t * St -> HostView -> Prop) :
  ordered m -> sent_local_response s = false ->
  wp (h (Z.of_nat (length m)) false) Q
    (host_view (enter_headers ResponseHeaders CbResponseHeaders m s)) ->
  exists r st x s' v', SendResponseHeaders h m s = Some (r, Some x, s') /\
    Q (st, x) v' /\ headers_result ResponseHeaders st v' r.
Proof.
  intros Hm Hs Hwp. eapply run_headers in Hwp as (st & x & s' & v' & Hrun & HQ & Hr); [|done].
  unfold SendResponseHeaders. unfold enter_headers in Hrun. simpl. rewrite Hs.
  unfold set_result, clear_phase_logs, set_logs in *. simpl in *. rewrite Hrun.
  simpl. eauto 10.
Qed.

(** Soundness of [wp] for response bodies: the handler runs on a buffer that holds exactly the
    chunk, and the body of the result is what the handler left in the
    buffer. *)
Theorem SendResponseBody_sound {St} (h : Z -> bool -> Prog (FilterDataStatus.t * St))
    body e s (Q : FilterDataStatus.t * St -> HostView -> Prop) :
  sent_local_response s = false ->
  wp (h (size_of body) e) Q (host_view (enter_body CbResponseBody body s)) ->
  exists r st x s' v', SendResponseBody h body e s = Some (r, Some x, s') /\
    Q (st, x) v' /\ buffers v' !! HttpResponseBody = Some (r_body r) /\
    body_status r = abi_data_status (sent_local_response s') st.
Proof.
  intros Hs Hwp. eapply run_wp in Hwp as ([st x] & s' & v' & Hrun & Hrel & HQ);
    [|apply host_view_rel; [constructor|done]].
  unfold SendResponseBody. unfold enter_body in Hrun. simpl. rewrite Hs.
  rewrite Hrun. simpl. do 5 eexists. split; [done|]. split; [done|]. simpl.
  rewrite (rel_buffers _ _ Hrel). unfold visible_buffer, getBuffer.
  pose proof (run_frame _ _ _ _ Hrun) as (_ & -> & _). done.
Qed.

(** C3. Soundness of [wp] for request bodies, whose handlers may send a local
    response; the body of that response is lost: the result has its code, and
    the contents of the buffer for a body. *)
Theorem SendRequestBody_sound {St} (h : Z -> bool -> Prog (FilterDataStatus.t * St))
    body e s (Q : FilterDataStatus.t * St -> HostView -> Prop) :
  sent_local_response s = false ->
  wp (h (size_of body) e) Q (host_view (enter_body CbRequestBody body s)) ->
  exists r st x s' v', SendRequestBody h body e s = Some (r, Some x, s') /\
    Q (st, x) v' /\ buffers v' !! HttpRequestBody = Some (r_body r) /\
    body_status r = abi_data_status (sent_local_response s') st /\
    (forall lr, response v' = Some lr -> http_code r = lr_code lr).
Proof.
  intros Hs Hwp. eapply run_wp in Hwp as ([st x] & s' & v' & Hrun & Hrel & HQ);
    [|apply host_view_rel; [constructor|done]].
  unfold SendRequestBody. unfold enter_body in Hrun. simpl. rewrite Hs.
  rewrite Hrun. simpl. do 5 eexists. split; [done|]. split; [done|]. simpl.
  rewrite (rel_buffers _ _ Hrel). unfold visible_buffer, getBuffer.
  pose proof (run_frame _ _ _ _ Hrun) as (_ & -> & _). split_and!; [done..|].
  intros lr Hlr. pose proof (rel_response _ _ Hrel) as Hresp. unfold response_rel in Hresp.
  rewrite Hlr in Hresp. by destruct (sent_local_response s'); simplify_eq/=.
Qed.
End refinement.

(** ** Further properties of the context *)

Section properties.
Context `{!Caseless} `{!CaselessOk _} `{!Absl} `{!AbslOk _} `{!HostAbi} `{!HostAbiOk _}.
Implicit Types s : TestHttpContext.

(** Once a local response was sent, no later phase calls the plugin:
    each returns an empty result and leaves the flag set, whatever its
    handler, headers or body. *)
Theorem no_phase_after_local_response {St}
    (h : Z -> bool -> Prog (FilterHeadersStatus.t * St))
    (b : Z -> bool -> Prog (FilterDataStatus.t * St)) m body e s :
  sent_local_response s = true ->
  exists s', sent_local_response s' = true /\ draws s' = draws s /\
    SendResponseHeaders h m s = Some (empty_result, None, s') /\
    SendRequestBody b body e s = Some (empty_result, None, s') /\
    SendResponseBody b body e s = Some (empty_result, None, s').
Proof.
  intros Hs. unfold SendResponseHeaders, SendRequestBody, SendResponseBody. simpl.
  rewrite Hs. eexists. split_and!; [|..|done|done|done]; done.
Qed.

Lemma append_fresh k v m :
  Forall (λ p, caseless_compare p.1 k = true) m -> ordered m ->
  InsertOrAppend k v m = m ++ [(k, v)].
Proof.
  unfold InsertOrAppend. intros Hm Ho. induction m as [|[k' v'] m IH]; simpl; [done|].
  apply Forall_cons in Hm as [Hk Hm]. apply ordered_cons in Ho as [Ho _]. simpl in Hk.
  destruct (compare_cases k k') as [Hlt|[[Hlt _]|(_ & Heq & _)]].
  - exfalso. assert (caseless_compare k k = true) as Hkk by by eapply compare_trans.
    unfold caseless_compare in Hkk. by rewrite ilex_irrefl in Hkk.
  - rewrite Hlt, Hk. by rewrite IH.
  - congruence.
Qed.

Lemma ordered_snoc m k v :
  ordered (m ++ [(k, v)]) ->
  ordered m /\ Forall (λ p, caseless_compare p.1 k = true) m.
Proof.
  induction m as [|[k' v'] m IH]; [by repeat constructor|].
  intros [Ho Hb]%ordered_cons. apply IH in Ho as [Ho Hm].
  apply Forall_app in Hb as [Hb Hk]. apply Forall_cons in Hk as [Hk _]. split.
  - by apply ordered_cons.
  - by constructor.
Qed.

(** Writing back the pairs that were read leaves the headers as they
    are: [setHeaderMapPairs] undoes [getHeaderMapPairs]. *)
Theorem setHeaderMapPairs_getHeaderMapPairs t s :
  ordered (r_headers (result s)) -> phase s = Some t ->
  exists pairs, fw_getHeaderMapPairs t s = Done pairs /\
    fw_setHeaderMapPairs t pairs s = (Ok, s).
Proof.
  intros Ho Hp. unfold fw_getHeaderMapPairs, fw_setHeaderMapPairs.
  rewrite decide_True by done. eexists. split; [done|]. rewrite decide_True by done.
  rewrite setHeaderMapPairs_fold by done.
  replace (headers_of_pairs InsertOrAppend (r_headers (result s)))
    with (r_headers (result s)); [by destruct s as [? ? ? ? ? ? ? ? []]|].
  induction (r_headers (result s)) as [|[k v] m IH] using rev_ind; [done|].
  apply ordered_snoc in Ho as [Ho Hm]. unfold headers_of_pairs in *.
  rewrite fold_left_app, <- IH by done. simpl. by rewrite append_fresh.
Qed.

(** Every host call keeps the headers of the context ordered without
    duplicate names (up to case), the invariant of the [std::map]. *)
Theorem exec_ordered c s :
  ordered (r_headers (result s)) -> ordered (r_headers (result (exec c s).2)).
Proof.
  intros Ho. destruct c; simpl; try done.
  - unfold fw_addHeaderMapValue. case_decide; simpl; eauto with svc.
  - unfold fw_replaceHeaderMapValue. case_decide; simpl; eauto with svc.
  - unfold fw_removeHeaderMapValue. case_decide; simpl; eauto with svc.
  - unfold fw_setHeaderMapPairs. case_decide; [|done].
    rewrite setHeaderMapPairs_fold by done. simpl.
    apply headers_of_pairs_ordered. eauto with svc.
  - by destruct (getBuffer b s) as [[]|].
  - unfold fw_sendLocalResponse. case_decide; simpl; [done|].
    apply headers_of_pairs_ordered. eauto with svc.
Qed.

(** [Buffer::copyTo] is memory safe for every range of the 32-bit VM:
    it answers with exactly the requested bytes, or with
    [InvalidMemoryAccess] when the range ends beyond the buffer. *)
Theorem Buffer_copyTo_32bit b start len :
  (0 <= start < 2 ^ 32)%Z -> (0 <= len < 2 ^ 32)%Z ->
  Buffer_copyTo b start len =
    Some (if (start + len <=? size_of b)%Z
          then Done (substr b (Z.to_nat start) (Some (Z.to_nat len)))
          else Failed InvalidMemoryAccess).
Proof.
  intros. unfold Buffer_copyTo. rewrite wrap64_id by lia.
  destruct (Z.leb_spec (start + len) (size_of b)).
  - rewrite (proj2 (Z.ltb_ge _ _)) by lia. rewrite decide_True by lia.
    by rewrite copyToPointerSize_ok.
  - by rewrite (proj2 (Z.ltb_lt _ _)) by lia.
Qed.

(** The check of [copyTo] alone does not make it safe for every [size_t]. *)
Lemma Buffer_copyTo_wraps b :
  (size_of b < 2 ^ 32)%Z -> Buffer_copyTo b (2 ^ 64 - 1) 1 = None.
Proof.
  intros Hb. unfold Buffer_copyTo, wrap64.
  change ((2 ^ 64 - 1 + 1) mod 2 ^ 64)%Z with 0%Z.
  rewrite (proj2 (Z.ltb_ge _ _)) by (unfold size_of; lia).
  by rewrite decide_False by lia.
Qed.
End properties.

(** ** A concrete host library, and the properties at concrete inputs *)

Definition abi_ref : HostAbi := {|
  abi_read _ copy start len :=
    match copy start len with Some r => r | None => Failed InvalidMemoryAccess end;
  abi_read_base c start len := Done (substr c (Z.to_nat start) (Some (Z.to_nat len)));
  abi_write_base := BadArgument;
  abi_no_buffer := NotFound;
  copyToPointerSize _ := true;
  encode_path := join [zero];
  cmpLogLevel _ := true;
  default_grpc_status := (-1)%Z;
  entropy n := wrap64 (Z.of_nat n);
  abi_headers_status sent st :=
    if sent then FilterHeadersStatus.StopAllIterationAndWatermark else st;
  abi_data_status sent st := if sent then FilterDataStatus.StopIterationNoBuffer else st;
  moved_from _ := [];
|}.

#[export] Instance abi_ref_ok : HostAbiOk abi_ref.
Proof.
  split; try done.
  - intros size copy start len s _ _ _ Hc. simpl. by rewrite Hc.
  - intros path Hp. simpl. destruct (decide (path = [])) as [->|Hne]; [done|].
    rewrite split_on_join; [|done|].
    + clear Hne. induction Hp as [|p l [Hp _] _ IH]; [done|].
      rewrite filter_cons_True by done. by f_equal.
    + apply (Forall_impl _ _ _ Hp). by intros p [_ Hz].
  - intros n. apply Z.mod_pos_bound. lia.
Qed.

Section witnesses.
#[local] Existing Instances caseless_ref absl_ref abi_ref sdk_ref.

Definition demo_context : TestHttpContext :=
  mkContext [("source.address", "192.0.2.1")]%str "config"%str 1000000 [] 0 0 false None
    empty_result false [] CbNone 0.
Definition demo_headers : headers := [("Cookie", "a"); ("hello", "x")]%str.

(** A handler that appends a header. *)
Definition demo_onHeaders (t : WasmHeaderMapType) (n : Z) (e : bool)
    : Prog (FilterHeadersStatus.t * unit) :=
  _ ← call (AddHeaderMapValue t "Hello"%str (to_string n));
  mret (FilterHeadersStatus.Continue, tt).

(** A handler that replaces a body, or answers a request with it. *)
Definition demo_onBody (b : WasmBufferType) (n : Z) (e : bool)
    : Prog (FilterDataStatus.t * unit) :=
  _ ← call (SetBuffer b 0 n "new"%str);
  _ ← call (SendLocalResponse 403 [] "denied"%str []);
  mret (FilterDataStatus.Continue, tt).

Lemma demo_ordered : ordered demo_headers.
Proof. repeat constructor. Qed.

Lemma SendRequestHeaders_sound_witness :
  exists r st x s' v',
    SendRequestHeaders (demo_onHeaders RequestHeaders) demo_headers demo_context
      = Some (r, x, s') /\
    hm_get "hello"%str (default ∅ (maps v' !! RequestHeaders)) = Some "x, 2"%str /\
    headers_result RequestHeaders st v' r.
Proof.
  destruct (SendRequestHeaders_sound (demo_onHeaders RequestHeaders) demo_headers
    demo_context (λ _ v, hm_get "hello"%str (default ∅ (maps v !! RequestHeaders))
      = Some "x, 2"%str) demo_ordered) as (r & st & x & s' & v' & ? & ? & ?).
  - vm_compute. reflexivity.
  - by exists r, st, x, s', v'.
Defined.

Lemma SendResponseHeaders_sound_witness :
  exists r st x s' v',
    SendResponseHeaders (demo_onHeaders ResponseHeaders) demo_headers demo_context
      = Some (r, Some x, s') /\
    hm_get "hello"%str (default ∅ (maps v' !! ResponseHeaders)) = Some "x, 2"%str /\
    headers_result ResponseHeaders st v' r.
Proof.
  destruct (SendResponseHeaders_sound (demo_onHeaders ResponseHeaders) demo_headers
    demo_context (λ _ v, hm_get "hello"%str (default ∅ (maps v !! ResponseHeaders))
      = Some "x, 2"%str) demo_ordered eq_refl) as (r & st & x & s' & v' & ? & ? & ?).
  - vm_compute. reflexivity.
  - by exists r, st, x, s', v'.
Defined.

Lemma SendResponseBody_sound_witness :
  exists r s', SendResponseBody (demo_onBody HttpResponseBody) "old"%str true demo_context
      = Some (r, Some tt, s') /\ r_body r = "new"%str.
Proof.
  destruct (SendResponseBody_sound (demo_onBody HttpResponseBody) "old"%str true
    demo_context (λ _ v, buffers v !! HttpResponseBody = Some "new"%str) eq_refl)
    as (r & st & [] & s' & v' & Heq & HQ & Hb & _).
  - vm_compute. reflexivity.
  - exists r, s'. split; [done|]. pose proof (eq_trans (eq_sym HQ) Hb) as Hn. by injection Hn.
Defined.

(** The response said "denied"; the result has code 403 and the buffer. *)
Lemma SendRequestBody_sound_witness :
  exists r s', SendRequestBody (demo_onBody HttpRequestBody) "old"%str true demo_context
      = Some (r, Some tt, s') /\ r_body r = "new"%str /\ http_code r = 403%Z.
Proof.
  destruct (SendRequestBody_sound (demo_onBody HttpRequestBody) "old"%str true
    demo_context (λ _ v, buffers v !! HttpRequestBody = Some "new"%str /\
      exists lr, response v = Some lr /\ lr_code lr = 403%Z) eq_refl)
    as (r & st & [] & s' & v' & Heq & (HQ & lr & Hlr & Hcode) & Hb & _ & Hresp).
  - vm_compute. intros m. split; [reflexivity|]. eexists. split; reflexivity.
  - exists r, s'. split_and!; [done| |by rewrite <- Hcode; apply Hresp].
    pose proof (eq_trans (eq_sym HQ) Hb) as Hn. by injection Hn.
Defined.

Lemma no_phase_after_local_response_witness :
  exists s', SendResponseHeaders (demo_onHeaders ResponseHeaders) demo_headers
      (set_sent true demo_context) = Some (empty_result, None, s').
Proof.
  destruct (no_phase_after_local_response (demo_onHeaders ResponseHeaders)
    (demo_onBody HttpRequestBody) demo_headers "b"%str true
    (set_sent true demo_context) eq_refl) as (s' & _ & _ & ? & _).
  by exists s'.
Defined.

Lemma setHeaderMapPairs_getHeaderMapPairs_witness :
  exists pairs, length pairs = 2 /\
    fw_setHeaderMapPairs RequestHeaders pairs
      (enter_headers RequestHeaders CbRequestHeaders demo_headers demo_context) =
    (Ok, enter_headers RequestHeaders CbRequestHeaders demo_headers demo_context).
Proof.
  destruct (setHeaderMapPairs_getHeaderMapPairs RequestHeaders
    (enter_headers RequestHeaders CbRequestHeaders demo_headers demo_context)
    demo_ordered eq_refl) as (pairs & Hp & ?).
  exists pairs. split; [by injection Hp as <-|done].
Defined.

Lemma exec_ordered_witness :
  ordered (r_headers (result (exec (AddHeaderMapValue RequestHeaders "B"%str "1"%str)
    (enter_headers RequestHeaders CbRequestHeaders demo_headers demo_context)).2)).
Proof. apply exec_ordered, demo_ordered. Defined.

Lemma Buffer_copyTo_32bit_witness :
  Buffer_copyTo "abcdef"%str 2 3 = Some (Done "cde"%str) /\
  Buffer_copyTo "abcdef"%str 2 5 = Some (Failed InvalidMemoryAccess).
Proof.
  split; [rewrite (Buffer_copyTo_32bit "abcdef"%str 2 3)|
          rewrite (Buffer_copyTo_32bit "abcdef"%str 2 5)]; try lia; reflexivity.
Defined.
End witnesses.
