(* ===== verification/Rules.v ===== *)
(** * Proof rules for handlers

    One rule per SDK call, in the form the proofs about plugins use: the state
    of the host is known through equations such as [maps v !! t = Some m], and
    the rule leaves the continuation on the next state.  [wp_auto] walks
    through a handler with these rules. *)

From S2P Require Import Prelude Absl Headers Host.

(** The handler returns [x] and leaves the host in state [v']. *)
Definition returns {A} (p : Prog A) (v : HostView) (x : A) (v' : HostView) : Prop :=
  wp p (λ y w, y = x /\ w = v') v.

(** The handler returns [x] after it sent the local response [r], which is all
    it did to the stream but for the lines [ls] it logged. *)
Definition answers {A} (p : Prog A) (v : HostView) (x : A) (r : LocalResponse)
    (ls : list (LogLevel * str)) : Prop :=
  wp p (λ y w, y = x /\ response w = Some r /\ buffers w = buffers v /\
               logs w = logs v ++ ls) v.

(** A state that differs by what was logged. *)
Definition logged (ls : list (LogLevel * str)) (v : HostView) : HostView :=
  mkHostView (maps v) (buffers v) (properties v) (can_respond v) (response v)
    (logs v ++ ls) (now v).

Lemma logged_nil v : logged [] v = v.
Proof. destruct v. unfold logged. simpl. by rewrite app_nil_r. Qed.

Lemma with_log_logged l s v : with_log l s v = logged [(l, s)] v.
Proof. done. Qed.

Lemma logged_logged a b v : logged a (logged b v) = logged (b ++ a) v.
Proof. unfold logged. simpl. by rewrite <- app_assoc. Qed.

(** A program that computes [x] and does nothing else but log. *)
Definition computes {A} (p : Prog A) (x : A) : Prop :=
  forall v, wp p (λ y w, y = x /\ exists ls, w = logged ls v) v.

Lemma computes_ret {A} (x : A) : computes (mret x) x.
Proof. intros v. split; [done|]. exists []. by rewrite logged_nil. Qed.

Lemma computes_LOG l s : computes (LOG l s) tt.
Proof. intros v. split; [done|]. by exists [(l, s)]. Qed.

Lemma computes_bind {A B} (p : Prog A) (f : A -> Prog B) x y :
  computes p x -> computes (f x) y -> computes (p ≫= f) y.
Proof.
  intros Hp Hf v. apply wp_bind. eapply wp_mono; [|apply Hp].
  intros ? w [-> [ls ->]]. eapply wp_mono; [|apply Hf].
  intros ? w [-> [ls' ->]]. split; [done|]. exists (ls ++ ls'). apply logged_logged.
Qed.

Lemma wp_computes {A} (p : Prog A) x (Q : A -> HostView -> Prop) v :
  computes p x -> (forall ls, Q x (logged ls v)) -> wp p Q v.
Proof. intros Hp HQ. eapply wp_mono; [|apply Hp]. intros ? w [-> [ls ->]]. apply HQ. Qed.

#[export] Hint Resolve computes_ret computes_LOG computes_bind : svc.

Lemma maps_logged ls v : maps (logged ls v) = maps v.
Proof. done. Qed.
Lemma response_logged ls v : response (logged ls v) = response v.
Proof. done. Qed.

(** A status header that is a number from 500 to 599. *)
Definition server_error (s : str) : bool :=
  match parse_int_in int32_min int32_max s with
  | Some c => bool_decide (500 <= c < 600)%Z
  | None => false
  end.

Lemma server_error_quot s c :
  parse_int_in int32_min int32_max s = Some c ->
  server_error s = (Z.quot c 100 =? 5)%Z.
Proof.
  unfold server_error. intros ->. apply eq_true_iff_eq.
  by rewrite bool_decide_eq_true, Z.eqb_eq, quot_hundred.
Qed.

Lemma server_error_None s :
  parse_int_in int32_min int32_max s = None -> server_error s = false.
Proof. unfold server_error. by intros ->. Qed.

Lemma with_map_twice t m1 m2 v : with_map t m1 (with_map t m2 v) = with_map t m1 v.
Proof.
  unfold with_map, with_maps. cbn [maps buffers properties can_respond response logs now].
  f_equal. apply insert_insert_eq.
Qed.

Lemma with_map_id t m v : maps v !! t = Some m -> with_map t m v = v.
Proof.
  intros Hm. unfold with_map, with_maps. rewrite insert_id by done. by destruct v.
Qed.

Lemma with_map_logged t m ls v : with_map t m (logged ls v) = logged ls (with_map t m v).
Proof. done. Qed.

#[export] Hint Rewrite with_map_twice : svc.

(** [setHeaderMapPairs] of the pairs of a map builds that map. *)
Lemma hm_of_pairs_append_map l :
  NoDup ((λ kv, lower kv.1) <$> l) -> hm_of_pairs_append l = headers_map l.
Proof.
  induction l as [|kv l IH] using rev_ind; [done|]. intros Hl.
  rewrite headers_map_snoc by done. rewrite fmap_app in Hl.
  apply NoDup_app in Hl as (Hl & _ & _). unfold hm_of_pairs_append in *.
  rewrite fold_left_app, IH by done. done.
Qed.

(** The handler is a guard: it passes the request, with the host in state [w],
    exactly when [P] holds; otherwise it answers it with one of [codes]. *)
Definition guards {A} (p : Prog A) (v : HostView) (P : Prop) (pass : A) (w : HostView)
    (deny : A) (codes : list Z) : Prop :=
  wp p (λ y w', (P /\ y = pass /\ w' = w) \/
    (~ P /\ y = deny /\ exists r, response w' = Some r /\ lr_code r ∈ codes /\
     lr_headers r = ∅)) v.

Section rules.
Context `{!Sdk} `{!SdkOk _}.
Implicit Types v : HostView.

Lemma wp_ret {A} (a : A) (Q : A -> HostView -> Prop) v : Q a v -> wp (mret a) Q v.
Proof. done. Qed.

Lemma wp_deref {A} (a : A) (Q : A -> HostView -> Prop) v :
  Q a v -> wp (deref (Some a)) Q v.
Proof. done. Qed.

(** A header lookup: the value, or one of the two encodings of nothing. *)
Lemma wp_getHeader t k m (Q : WasmDataPtr -> HostView -> Prop) v :
  maps v !! t = Some m ->
  (forall x, hm_get k m = Some x -> Q (Some (mkWasmData (Some x))) v) ->
  (hm_get k m = None -> Q None v /\ Q (Some (mkWasmData None)) v) ->
  wp (getHeaderMapValue t k) Q v.
Proof.
  intros Hm HS HN. simpl. rewrite Hm. simpl. destruct (hm_get k m) as [x|].
  - rewrite header_ptr_done. by apply HS.
  - intros r Hr. destruct (header_ptr_failed r Hr) as [->| ->]; by apply HN.
Qed.

(** The same where the two encodings of nothing are not told apart from an
    empty value. *)
Lemma wp_getHeader_text t k m (Q : WasmDataPtr -> HostView -> Prop) v :
  maps v !! t = Some m ->
  (forall p, match p with Some d => view d | None => [] end = default [] (hm_get k m) ->
             Q p v) ->
  wp (getHeaderMapValue t k) Q v.
Proof.
  intros Hm HQ. eapply wp_getHeader; [done| |].
  - intros x Hx. apply HQ. by rewrite Hx.
  - intros Hx. split; apply HQ; by rewrite Hx.
Qed.

Lemma wp_getHeader_data `{!SdkNonNull _} t k m (Q : WasmDataPtr -> HostView -> Prop) v :
  maps v !! t = Some m -> Q (Some (mkWasmData (hm_get k m))) v ->
  wp (getHeaderMapValue t k) Q v.
Proof.
  intros Hm HQ. simpl. rewrite Hm. simpl. destruct (hm_get k m) as [x|].
  - by rewrite header_ptr_done.
  - intros r Hr. pose proof (header_ptr_nonnull r).
    destruct (header_ptr_failed r Hr) as [?| ->]; [congruence|done].
Qed.

Lemma wp_getHeader_nonnull `{!SdkNonNull _} t k m (Q : WasmDataPtr -> HostView -> Prop) v :
  maps v !! t = Some m ->
  (forall d, view d = default [] (hm_get k m) -> Q (Some d) v) ->
  wp (getHeaderMapValue t k) Q v.
Proof.
  intros Hm HQ. simpl. rewrite Hm. simpl. destruct (hm_get k m) as [x|].
  - rewrite header_ptr_done. by apply HQ.
  - intros r Hr. pose proof (header_ptr_nonnull r).
    destruct (header_ptr_failed r Hr) as [?| ->]; [congruence|by apply HQ].
Qed.

Lemma mutate_ok t f m (Q : WasmResult -> HostView -> Prop) v :
  maps v !! t = Some m -> response v = None ->
  Q Ok (with_map t (f m) v) -> mutate t f v Q.
Proof. unfold mutate. by intros -> ->. Qed.

Lemma wp_addHeader t k x m (Q : WasmResult -> HostView -> Prop) v :
  maps v !! t = Some m -> response v = None ->
  Q Ok (with_map t (hm_append k x m) v) -> wp (call (AddHeaderMapValue t k x)) Q v.
Proof. apply mutate_ok. Qed.

Lemma wp_replaceHeader t k x m (Q : WasmResult -> HostView -> Prop) v :
  maps v !! t = Some m -> response v = None ->
  Q Ok (with_map t (hm_set k x m) v) -> wp (call (ReplaceHeaderMapValue t k x)) Q v.
Proof. apply mutate_ok. Qed.

Lemma wp_removeHeader t k m (Q : WasmResult -> HostView -> Prop) v :
  maps v !! t = Some m -> response v = None ->
  Q Ok (with_map t (hm_erase k m) v) -> wp (call (RemoveHeaderMapValue t k)) Q v.
Proof. apply (mutate_ok _ (hm_erase k)). Qed.

Lemma wp_setHeaderPairs t l m (Q : WasmResult -> HostView -> Prop) v :
  maps v !! t = Some m -> response v = None ->
  Q Ok (with_map t (hm_of_pairs_append l) v) -> wp (call (SetHeaderMapPairs t l)) Q v.
Proof. apply (mutate_ok _ (λ _, hm_of_pairs_append l)). Qed.

Lemma wp_getHeaderPairs m (Q : option (list (str * str)) -> HostView -> Prop) v :
  maps v !! ResponseHeaders = Some m ->
  (forall l, l ≡ₚ (map_to_list m).*2 -> Q (Some l) v) ->
  wp getResponseHeaderPairs Q v.
Proof. intros Hm HQ. simpl. rewrite Hm. intros l Hl. rewrite pairs_ptr_done. auto. Qed.

Lemma wp_callPairs t m (Q : HostResult (list (str * str)) -> HostView -> Prop) v :
  maps v !! t = Some m ->
  (forall l, l ≡ₚ (map_to_list m).*2 -> Q (Done l) v) ->
  wp (call (GetHeaderMapPairs t)) Q v.
Proof. intros Hm HQ. simpl. by rewrite Hm. Qed.

Lemma wp_callRead b s start len (Q : HostResult str -> HostView -> Prop) v :
  buffers v !! b = Some s ->
  (0 <= start < 2 ^ 32)%Z -> (0 <= len < 2 ^ 32)%Z -> (start + len <= size_of s)%Z ->
  Q (Done (substr s (Z.to_nat start) (Some (Z.to_nat len)))) v ->
  wp (call (GetBufferBytes b start len)) Q v.
Proof. intros Hb ???. simpl. rewrite Hb. by rewrite decide_True by lia. Qed.

(** Reading a whole buffer. *)
Lemma wp_getBufferBytes b s (Q : WasmDataPtr -> HostView -> Prop) v :
  buffers v !! b = Some s -> (size_of s < 2 ^ 32)%Z ->
  (forall d, view d = s -> Q (Some d) v) ->
  wp (getBufferBytes b 0 (size_of s)) Q v.
Proof.
  intros Hb Hs HQ. simpl. rewrite Hb. rewrite decide_True by (unfold size_of in *; lia).
  unfold size_of, substr. rewrite Nat2Z.id, drop_0, firstn_all.
  destruct (decide (s = [])) as [->|Hne].
  - destruct buffer_ptr_empty as (d & Hd & ?).
    apply (eq_ind_r (λ p, Q p v) (HQ d ltac:(done)) Hd).
  - rewrite buffer_ptr_done by done. by apply HQ.
Qed.

Lemma wp_getBufferBytes_missing b start len (Q : WasmDataPtr -> HostView -> Prop) v :
  buffers v !! b = None -> Q None v -> Q (Some (mkWasmData None)) v ->
  wp (getBufferBytes b start len) Q v.
Proof.
  intros Hb HN HD. simpl. rewrite Hb. intros r Hr.
  by destruct (buffer_ptr_failed r Hr) as [->| ->].
Qed.

Lemma wp_setBuffer b start len d s (Q : WasmResult -> HostView -> Prop) v :
  buffers v !! b = Some s -> b <> PluginConfiguration -> (0 <= start)%Z -> (0 <= len)%Z ->
  Q Ok (with_buffer b
     (replace_at s (min (Z.to_nat start) (length s)) (Z.to_nat len) d) v) ->
  wp (setBuffer b start len d) Q v.
Proof. intros Hb ???. simpl. rewrite Hb. by rewrite decide_True. Qed.

(** Replacing a whole buffer. *)
Lemma wp_setWholeBuffer b d s (Q : WasmResult -> HostView -> Prop) v :
  buffers v !! b = Some s -> b <> PluginConfiguration ->
  Q Ok (with_buffer b d v) -> wp (setBuffer b 0 (size_of s) d) Q v.
Proof.
  intros Hb Hne HQ. eapply wp_setBuffer; [done|done|lia|unfold size_of; lia|].
  unfold size_of, replace_at. simpl. rewrite Nat2Z.id, drop_all, app_nil_r. done.
Qed.

Lemma wp_getBufferStatus b s (Q : HostResult Z -> HostView -> Prop) v :
  buffers v !! b = Some s -> Q (Done (size_of s)) v -> wp (call (GetBufferStatus b)) Q v.
Proof. intros Hb. simpl. by rewrite Hb. Qed.

Lemma wp_getProperty path (Q : option WasmDataPtr -> HostView -> Prop) v :
  Forall (λ p, p <> [] /\ zero ∉ p) path ->
  (forall x, properties v path = Some x -> Q (Some (Some (mkWasmData (Some x)))) v) ->
  (properties v path = None -> Q None v) ->
  wp (getProperty path) Q v.
Proof.
  intros Hp HS HN. simpl. rewrite decide_True by done.
  destruct (properties v path) as [x|].
  - rewrite property_ptr_done. by apply HS.
  - intros r Hr. rewrite property_ptr_failed by done. by apply HN.
Qed.

Lemma wp_respond code details body pairs (Q : WasmResult -> HostView -> Prop) v :
  can_respond v = true ->
  (forall m, Q Ok (with_response
     (mkLocalResponse code details body (hm_of_pairs pairs)) m v)) ->
  wp (sendLocalResponse code details body pairs) Q v.
Proof. intros Hc. simpl. by rewrite Hc. Qed.

Lemma wp_LOG l s (Q : unit -> HostView -> Prop) v :
  Q tt (with_log l s v) -> wp (LOG l s) Q v.
Proof. done. Qed.

Lemma wp_time (Q : Z -> HostView -> Prop) v : Q (now v) v -> wp (call GetCurrentTime) Q v.
Proof. done. Qed.

Lemma wp_random (Q : Z -> HostView -> Prop) v :
  (forall r, (0 <= r < 2 ^ 64)%Z -> Q r v) -> wp (call GetRandom) Q v.
Proof. done. Qed.
End rules.

#[global] Arguments wp : simpl never.
#[global] Arguments sendLocalResponse : simpl never.
#[global] Arguments getBufferBytes : simpl never.
#[global] Arguments setBuffer : simpl never.
#[global] Arguments getProperty : simpl never.

(** Facts about the current state, from those about the initial one. *)
Ltac host_fact :=
  cbn [maps buffers properties can_respond response with_maps with_map with_buffer with_log
       with_response logged];
  rewrite ?lookup_insert_eq;
  first [eassumption | reflexivity | rewrite lookup_insert_ne by done; eassumption].

(** Decide [path]s of literals. *)
Ltac literal_path := apply (bool_decide_unpack _); vm_compute; exact I.

Ltac wp_step :=
  lazymatch goal with
  | |- returns _ _ _ _ => unfold returns
  | |- answers _ _ _ _ _ => unfold answers
  | |- guards _ _ _ _ _ _ _ => unfold guards
  | |- wp (_ ≫= _) _ _ => apply wp_bind_2
  | |- wp (mret _) _ _ => apply wp_ret
  | |- wp (deref (Some _)) _ _ => apply wp_deref
  | |- wp (getRequestHeader _) _ _ => eapply wp_getHeader; [host_fact|intros ? ?|intros ?; split]
  | |- wp (getResponseHeader _) _ _ => eapply wp_getHeader; [host_fact|intros ? ?|intros ?; split]
  | |- wp (addRequestHeader _ _) _ _ => eapply wp_addHeader; [host_fact|host_fact|]
  | |- wp (addResponseHeader _ _) _ _ => eapply wp_addHeader; [host_fact|host_fact|]
  | |- wp (replaceRequestHeader _ _) _ _ => eapply wp_replaceHeader; [host_fact|host_fact|]
  | |- wp (replaceResponseHeader _ _) _ _ => eapply wp_replaceHeader; [host_fact|host_fact|]
  | |- wp (removeRequestHeader _) _ _ => eapply wp_removeHeader; [host_fact|host_fact|]
  | |- wp (removeResponseHeader _) _ _ => eapply wp_removeHeader; [host_fact|host_fact|]
  | |- wp (sendLocalResponse _ _ _ _) _ _ => eapply wp_respond; [host_fact|intros ?]
  | |- wp (getProperty _) _ _ => eapply wp_getProperty; [literal_path|intros ? ?|intros ?]
  | |- wp (LOG _ _) _ _ => apply wp_LOG
  | |- wp (LOG_DEBUG _) _ _ => apply wp_LOG
  | |- wp (LOG_INFO _) _ _ => apply wp_LOG
  | |- wp (LOG_WARN _) _ _ => apply wp_LOG
  | |- wp (LOG_ERROR _) _ _ => apply wp_LOG
  | |- wp (call GetCurrentTime) _ _ => apply wp_time
  | |- wp (call GetRandom) _ _ => apply wp_random; intros ? ?
  | |- wp (if decide (Ok <> Ok) then _ else _) _ _ => rewrite decide_False by (intros Hok; by apply Hok)
  | |- wp (if decide ?P then _ else _) _ _ => destruct (decide P)
  | |- wp (if (size_of ?s =? 0)%Z then _ else _) _ _ => rewrite (size_zero s)
  | |- wp (if bool_decide ?P then _ else _) _ _ => destruct (bool_decide_reflect P)
  | |- wp (if negb (bool_decide ?P) then _ else _) _ _ =>
      destruct (bool_decide_reflect P); cbn [negb]
  | |- wp (if negb ?b then _ else _) _ _ => destruct b eqn:?; cbn [negb]
  | |- wp (if ?b then _ else _) _ _ => destruct b eqn:?
  | |- wp (match ?x with _ => _ end) _ _ => destruct x eqn:?
  end.

(** Reduce what the last call returned. *)
Ltac wp_reduce :=
  repeat match goal with
  | |- context [@mbind option _ _ _ ?f (Some ?x)] =>
      change (@mbind option _ _ _ f (Some x)) with (f x)
  | |- context [@mbind option ?i _ ?B ?f None] =>
      change (@mbind option i _ B f None) with (@None B)
  end;
  cbv beta iota zeta; cbn [view toString data default from_option id fst snd].

(** Run the handler as far as the rules go. *)
Ltac wp_auto := wp_reduce; repeat (wp_step; wp_reduce); simplify_eq.

(** Compute [lower] on literals. *)
Ltac lower_literals :=
  repeat match goal with
  | H : context [lower (cons ?a ?b)] |- _ =>
      let t := eval vm_compute in (lower (cons a b)) in
      change (lower (cons a b)) with t in H
  | |- context [lower (cons ?a ?b)] =>
      let t := eval vm_compute in (lower (cons a b)) in
      change (lower (cons a b)) with t
  end.

(** Close a branch: the specification decides as the handler did. *)
Ltac wp_close :=
  autorewrite with svc absl in *; lower_literals;
  repeat match goal with H : hm_get _ _ = _ |- _ => rewrite H in * end;
  cbn [default from_option id] in *;
  try (first [done | congruence | split; [done|]; repeat case_decide; simplify_eq;
                     repeat case_match; first [done | congruence]]).

(** Close a branch that sent a local response. *)
Ltac answered :=
  split_and!; cbn [response buffers logs with_response with_log];
  rewrite ?app_nil_r; try done.

(** Close a branch of a guard that denied the request. *)
Ltac denied :=
  right; split; [|split; [reflexivity|]; eexists; split; [reflexivity|];
    split; [cbn [lr_code]; rewrite ?elem_of_cons; auto|reflexivity]].

(** A header other than the one that was written. *)
Ltac other_name :=
  intros k Hk; autorewrite with svc;
  first [done
        | rewrite ?hm_get_set_ne, ?hm_get_erase_ne, ?hm_get_update_ne; [done|..]];
  intros Heq; apply Hk; rewrite <- Heq; reflexivity.

(** ** Concrete states of the host, for the witnesses *)

Definition sample_view (t : WasmHeaderMapType) (l : list (str * str)) : HostView :=
  mkHostView {[ t := hm_of_pairs l ]} ∅ (λ _, None) true None [] 1700000000000000000.

Definition body_view (b : WasmBufferType) (body : str) : HostView :=
  mkHostView ∅ {[ b := body ]} (λ _, None) false None [] 1700000000000000000.

(** The final state of a run against one particular host: what the witnesses
    evaluate. *)
Definition final_header (t : WasmHeaderMapType) (key : str) (v : HostView) : option str :=
  maps v !! t ≫= hm_get key.

Lemma returns_header {A} (p : Prog A) v x w t k o :
  returns p v x w -> final_header t k w = o ->
  wp p (λ y w, y = x /\ final_header t k w = o) v.
Proof. intros Hr Ho. eapply wp_mono; [|exact Hr]. by intros y w' [-> ->]. Qed.
