(* ===== verification/ThirdParty.v ===== *)
(** * The other libraries the samples call, as interfaces

    RE2, Boost.URL, OpenSSL and the JWT library are dependencies of the
    sources.  Each is a class of the functions the samples call; a second
    class states the documented behaviour a theorem relies on.  Concrete
    instances serve the witnesses. *)

From S2P Require Import Prelude Absl.

(** ** RE2 *)

Class Re2 : Type := {
  regex : Type;
  re_compile : str -> regex;             (* RE2(pattern) *)
  re_ok : regex -> bool;                 (* ok() *)
  re_Replace : str -> regex -> str -> option str;   (* the edited text, if replaced *)
  re_FullMatch1 : str -> regex -> option str;       (* the first group, if matched *)
  re_FullMatch : str -> regex -> bool;
  re_PartialMatch : str -> regex -> bool;
  re_GlobalReplace : str -> regex -> str -> str * Z; (* the text and the count *)
  (* Where the first group starts, the group, and the input that is left. *)
  re_FindAndConsume : str -> regex -> option (nat * str * str);
}.

(** A text in which nothing matches is left alone. *)
Class Re2Ok (R : Re2) : Prop := {
  re_GlobalReplace_none s r t :
    ((re_GlobalReplace s r t).2 <= 0)%Z -> (re_GlobalReplace s r t).1 = s;
}.

(** A matcher for web addresses up to a white space, a quote or a bracket: the
    longest at the head of a text, and the first of a text. *)
Definition url_end (c : ascii) : bool :=
  bool_decide (c ∈ map ascii_of_nat [9; 10; 12; 13] ++ " '<>"%str ++ dquote).

Fixpoint take_until (P : ascii -> bool) (s : str) : str :=
  match s with
  | [] => []
  | c :: s => if P c then [] else c :: take_until P s
  end.

Definition url_at (s : str) : option str :=
  let after p :=
    match take_until url_end (drop (length p) s) with
    | [] => None
    | t => Some (p ++ t)
    end in
  if starts_with "https://"%str s then after "https://"%str
  else if starts_with "http://"%str s then after "http://"%str
  else None.

Fixpoint first_url (s : str) : option (nat * str * str) :=
  match url_at s with
  | Some u => Some (0, u, drop (length u) s)
  | None =>
      match s with
      | [] => None
      | _ :: s => (λ r, (S r.1.1, r.1.2, r.2)) <$> first_url s
      end
  end.

(** A replacement in all the places of a text that have a shape, given as one
    predicate per character; the last [keep] characters stay. *)
Fixpoint has_shape (shape : list (ascii -> bool)) (s : str) : bool :=
  match shape, s with
  | [], _ => true
  | P :: shape, c :: s => P c && has_shape shape s
  | _, [] => false
  end.

Fixpoint mask_shape (fuel : nat) (shape : list (ascii -> bool)) (keep : nat) (mask s : str)
    : str * Z :=
  match fuel, s with
  | S fuel, c :: t =>
      if has_shape shape s then
        let r := mask_shape fuel shape keep mask (drop (length shape) s) in
        (mask ++ take keep (drop (length shape - keep) s) ++ r.1, (r.2 + 1)%Z)
      else let r := mask_shape fuel shape keep mask t in (c :: r.1, r.2)
  | _, _ => (s, 0%Z)
  end.

Definition card_shape : list (ascii -> bool) :=
  let four := replicate 4 is_digit in
  let dash : ascii -> bool := λ c, bool_decide (c = "-"%char) in
  four ++ dash :: four ++ dash :: four ++ dash :: four.

Lemma mask_shape_count fuel shape keep mask s :
  (0 <= (mask_shape fuel shape keep mask s).2)%Z /\
  ((mask_shape fuel shape keep mask s).2 = 0%Z -> (mask_shape fuel shape keep mask s).1 = s).
Proof.
  revert s. induction fuel as [|fuel IH]; intros s; [done|]. destruct s as [|c t]; [done|].
  cbn [mask_shape]. case_match.
  - destruct (IH (drop (length shape) (c :: t))). cbn [fst snd]. lia.
  - destruct (IH t) as [? Hs]. split; [done|]. intros Hn. cbn [fst snd] in *. by rewrite Hs.
Qed.

(** A stand-in that knows the patterns of the samples by their shape. *)
Definition re2_ref : Re2 := {|
  regex := str;
  re_compile p := p;
  re_ok _ := true;
  re_Replace s _ _ :=
    i ← find "/foo-"%str s;
    '(g, t) ← cut_at "/" (drop (i + 5) s);
    if decide (g = []) then None
    else Some (take i s ++ "/"%char :: g ++ "/"%char :: t);
  re_FullMatch1 _ _ := None;
  re_FullMatch s _ := bool_decide (length (split_on "." s) = 4);
  re_PartialMatch _ _ := false;
  re_GlobalReplace s p _ :=
    if decide (p = "\d{4}-\d{4}-\d{4}-(\d{4})"%str)
    then mask_shape (length s) card_shape 4 "XXXX-XXXX-XXXX-"%str s
    else mask_shape (length s) (replicate 10 is_digit) 3 "XXXXXXX"%str s;
  re_FindAndConsume s _ := first_url s;
|}.

#[export] Instance re2_ref_ok : Re2Ok re2_ref.
Proof.
  split. intros s r t. simpl. case_decide;
    match goal with |- context [mask_shape ?f ?sh ?k ?m ?s] =>
      pose proof (mask_shape_count f sh k m s) as [? Hs] end;
    intros ?; apply Hs; lia.
Qed.

(** ** Boost.URL *)

Class Boost : Type := {
  url : Type;
  parse_uri_reference : str -> url + str;  (* the URL or the error's message *)
  parse_relative_ref : str -> url + str;
  url_buffer : url -> str;                 (* buffer() *)
  encoded_resource : url -> str;
  (* The operations of params(opt); the flag is opt.space_as_plus. *)
  params_find : bool -> url -> str -> option str;
  params_set : bool -> url -> str -> str -> url;
  params_erase : bool -> url -> str -> url;        (* every parameter of that name *)
  params_erase_first : url -> str -> url;          (* erase(find(name)) *)
  encode_pchars : bool -> str -> str;              (* encode(s, pchars, opt) *)
}.

Class BoostOk (B : Boost) : Prop := {
  params_find_set b u k v : params_find b (params_set b u k v) k = Some v;
  params_find_set_ne b u k k' v :
    k <> k' -> params_find b (params_set b u k v) k' = params_find b u k';
  params_find_erase b u k : params_find b (params_erase b u k) k = None;
  params_find_erase_ne b u k k' :
    k <> k' -> params_find b (params_erase b u k) k' = params_find b u k';
  (** A parsed URL is the text it was parsed from. *)
  parse_uri_reference_buffer s u : parse_uri_reference s = inl u -> url_buffer u = s;
  parse_relative_ref_buffer s u : parse_relative_ref s = inl u -> url_buffer u = s;
}.

(** A path and a query, without percent encoding. *)
Record simple_url : Type := mkSimpleUrl {
  su_path : str;
  su_query : option (list (str * option str));
}.

Definition param_of (s : str) : str * option str :=
  match cut_at "=" s with Some (k, v) => (k, Some v) | None => (s, None) end.
Definition param_text (p : str * option str) : str :=
  match p with (k, Some v) => k ++ "="%char :: v | (k, None) => k end.

Definition simple_parse (s : str) : simple_url :=
  match cut_at "?" s with
  | Some (p, q) => mkSimpleUrl p (Some (param_of <$> split_on "&" q))
  | None => mkSimpleUrl s None
  end.
Definition simple_text (u : simple_url) : str :=
  match su_query u with
  | None => su_path u
  | Some ps => su_path u ++ "?"%char :: join "&"%str (param_text <$> ps)
  end.
Definition with_params (f : list (str * option str) -> list (str * option str))
    (u : simple_url) : simple_url :=
  let l := f (default [] (su_query u)) in
  mkSimpleUrl (su_path u) (if decide (l = []) then None else Some l).
Definition simple_find (u : simple_url) (k : str) : option str :=
  (λ p, default [] p.2.2) <$> list_find (λ p, p.1 = k) (default [] (su_query u)).

Fixpoint set_param (k v : str) (l : list (str * option str)) : list (str * option str) :=
  match l with
  | [] => [(k, Some v)]
  | p :: l => if decide (p.1 = k) then (k, Some v) :: filter (λ q, q.1 <> k) l
              else p :: set_param k v l
  end.
Fixpoint erase_param (k : str) (l : list (str * option str)) : list (str * option str) :=
  match l with
  | [] => []
  | p :: l => if decide (p.1 = k) then l else p :: erase_param k l
  end.

Definition boost_ref : Boost := {|
  url := simple_url;
  parse_uri_reference s := inl (simple_parse s);
  parse_relative_ref s := inl (simple_parse s);
  url_buffer := simple_text;
  encoded_resource := simple_text;
  params_find _ := simple_find;
  params_set _ u k v := with_params (set_param k v) u;
  params_erase _ u k := with_params (filter (λ p, p.1 <> k)) u;
  params_erase_first u k := with_params (erase_param k) u;
  encode_pchars _ s := s;
|}.

Lemma param_text_of s : param_text (param_of s) = s.
Proof.
  unfold param_of. destruct (cut_at "=" s) as [[k v]|] eqn:Hc; [|done].
  by apply cut_at_inv in Hc as [-> _].
Qed.

Lemma simple_text_parse s : simple_text (simple_parse s) = s.
Proof.
  unfold simple_parse, simple_text. destruct (cut_at "?" s) as [[p q]|] eqn:Hc; [|done].
  apply cut_at_inv in Hc as [-> _]. simpl. do 2 f_equal.
  rewrite <- list_fmap_compose, (list_fmap_ext _ id), list_fmap_id.
  - apply join_split_on.
  - intros i x _. apply param_text_of.
Qed.

Definition find_param (k : str) (l : list (str * option str)) : option str :=
  (λ p, default [] p.2.2) <$> list_find (λ p, p.1 = k) l.

Lemma find_param_cons k p l :
  find_param k (p :: l) = if decide (p.1 = k) then Some (default [] p.2) else find_param k l.
Proof.
  unfold find_param. simpl. case_decide; simpl; [done|].
  by destruct (list_find _ l) as [[]|].
Qed.

Lemma simple_find_with_params f u k :
  simple_find (with_params f u) k = find_param k (f (default [] (su_query u))).
Proof.
  unfold simple_find, with_params, find_param. simpl. case_decide as Hl; [|done]. by rewrite Hl.
Qed.

Lemma find_param_filter k k' l :
  find_param k' (filter (λ p, p.1 <> k) l) = if decide (k' = k) then None else find_param k' l.
Proof.
  induction l as [|p l IH]; [by case_decide|]. rewrite filter_cons.
  destruct (decide (p.1 <> k)) as [Hp|Hp]; rewrite ?find_param_cons, IH.
  - repeat case_decide; congruence.
  - apply dec_stable in Hp. repeat case_decide; congruence.
Qed.

Lemma find_set_param k k' v l :
  find_param k' (set_param k v l) = if decide (k' = k) then Some v else find_param k' l.
Proof.
  induction l as [|p l IH]; simpl.
  - rewrite find_param_cons. simpl. repeat case_decide; congruence.
  - destruct (decide (p.1 = k)) as [Hp|Hp]; rewrite !find_param_cons; simpl.
    + rewrite find_param_filter. repeat case_decide; congruence.
    + rewrite IH. repeat case_decide; congruence.
Qed.

#[export] Instance boost_ref_ok : BoostOk boost_ref.
Proof.
  split; simpl.
  - intros _ u k v. by rewrite simple_find_with_params, find_set_param, decide_True.
  - intros _ u k k' v Hk. by rewrite simple_find_with_params, find_set_param, decide_False.
  - intros _ u k. by rewrite simple_find_with_params, find_param_filter, decide_True.
  - intros _ u k k' Hk. by rewrite simple_find_with_params, find_param_filter, decide_False.
  - intros s u [= <-]. apply simple_text_parse.
  - intros s u [= <-]. apply simple_text_parse.
Qed.

(** ** OpenSSL *)

Inductive EVP : Type := EVP_sha256 | EVP_md5.

Class OpenSSL : Type := {
  HMAC : EVP -> str -> str -> option str;     (* key, data; null on failure *)
}.

(** [HMAC] succeeds and yields a digest. *)
Class OpenSSLOk (O : OpenSSL) : Prop :=
  HMAC_ok : forall md key data, exists r, HMAC md key data = Some r /\ r <> [].

(** A stand-in with a digest that depends on the key and on the data. *)
Definition openssl_ref : OpenSSL := {| HMAC _ key data := Some (key ++ zero :: data) |}.

#[export] Instance openssl_ref_ok : OpenSSLOk openssl_ref.
Proof. intros md key data. eexists. split; [done|]. by destruct key. Qed.

(** ** google::jwt_verify *)

Class JwtVerify : Type := {
  Jwks : Type;
  Jwt : Type;
  Jwks_createFrom : str -> Jwks;              (* from PEM *)
  Jwks_getStatus_ok : Jwks -> bool;
  Jwt_parseFromString : str -> option Jwt;
  verifyJwt_ok : Jwt -> Jwks -> bool;
}.

(** A stand-in: a token is valid when it repeats the key. *)
Definition jwt_ref : JwtVerify := {|
  Jwks := str;
  Jwt := str;
  Jwks_createFrom s := s;
  Jwks_getStatus_ok _ := true;
  Jwt_parseFromString s := Some s;
  verifyJwt_ok j k := bool_decide (j = k);
|}.
