(* ===== verification/HeaderSamples.v ===== *)
(** * Samples that edit headers

    One Module per sample of plugins/samples whose handlers only read and
    write header maps.  Each handler is translated call by call; its theorem
    gives the whole effect of the handler on the stream. *)

From S2P Require Import Prelude Absl Headers Host Rules.

(** ** add_request_header *)

Module AddRequestHeader.
Section plugin.
Context `{Sdk}.

Definition onRequestHeaders (n : Z) (end_of_stream : bool) : Prog FilterHeadersStatus.t :=
_ ← addRequestHeader "Message"%str "hello"%str;
_ ← replaceRequestHeader "Welcome"%str "warm"%str;
mret FilterHeadersStatus.Continue.
End plugin.
End AddRequestHeader.

(** ** add_response_header *)

Module AddResponseHeader.
Section plugin.
Context `{Sdk}.

Definition onResponseHeaders (n : Z) (end_of_stream : bool) : Prog FilterHeadersStatus.t :=
msg ← getResponseHeader "Message"%str;
_ ← (if match msg with Some d => bool_decide (view d = "foo"%str) | None => false end
     then addResponseHeader "Message"%str "bar"%str else mret Ok);
_ ← removeResponseHeader "Welcome"%str;
mret FilterHeadersStatus.Continue.
End plugin.
End AddResponseHeader.

(** ** remove_cookie *)

Module RemoveCookie.
Section plugin.
Context `{Sdk}.

Definition onResponseHeaders (n : Z) (end_of_stream : bool) : Prog FilterHeadersStatus.t :=
r ← removeResponseHeader "Set-Cookie"%str;
_ ← (if decide (r <> Ok) then LOG_ERROR "Failed to remove Set-Cookie header"%str
     else mret tt);
mret FilterHeadersStatus.Continue.
End plugin.
End RemoveCookie.

(** ** overwrite_errcode *)

Module OverwriteErrcode.
Section plugin.
Context `{Absl} `{Sdk}.

(** C's [/] rounds towards zero. *)
Definition mapResponseCode (response_code : Z) : Z :=
if (Z.quot response_code 100 =? 5)%Z then 404%Z else response_code.

Definition onResponseHeaders (n : Z) (end_of_stream : bool) : Prog FilterHeadersStatus.t :=
response_status ← getResponseHeader ":status"%str;
match response_status ≫= λ d, SimpleAtoi32 (view d) with
| Some response_code =>
    if (Z.quot response_code 100 =? 5)%Z then
      r ← replaceResponseHeader ":status"%str
            (StrCat [AlphaNum (mapResponseCode response_code)]);
      _ ← (if decide (r <> Ok) then LOG_ERROR "Failed to replace :status header"%str
           else mret tt);
      mret FilterHeadersStatus.Continue
    else mret FilterHeadersStatus.Continue
| None => mret FilterHeadersStatus.Continue
end.
End plugin.
End OverwriteErrcode.

(** ** normalize_header *)

Module NormalizeHeader.
Section plugin.
Context `{Absl} `{Sdk}.

Definition onRequestHeaders (n : Z) (end_of_stream : bool) : Prog FilterHeadersStatus.t :=
mobile_header ← getRequestHeader "Sec-CH-UA-Mobile"%str;
if match mobile_header with Some d => bool_decide (view d = "?1"%str) | None => false end
then
  _ ← addRequestHeader "client-device-type"%str "mobile"%str;
  mret FilterHeadersStatus.Continue
else
  user_agent ← getRequestHeader "User-Agent"%str;
  if match user_agent with
     | Some d => StrContainsIgnoreCase (view d) "mobile"%str | None => false end
  then
    _ ← addRequestHeader "client-device-type"%str "mobile"%str;
    mret FilterHeadersStatus.Continue
  else
    _ ← addRequestHeader "client-device-type"%str "unknown"%str;
    mret FilterHeadersStatus.Continue.
End plugin.
End NormalizeHeader.

(** ** docs_first_plugin *)

Module DocsFirstPlugin.
Section plugin.
Context `{Sdk}.

Definition onRequestHeaders (n : Z) (end_of_stream : bool) : Prog FilterHeadersStatus.t :=
_ ← LOG_INFO "onRequestHeaders: hello from wasm"%str;
r ← replaceRequestHeader ":authority"%str "service-extensions.com"%str;
_ ← (if decide (r <> Ok) then LOG_ERROR "Failed to replace :authority header"%str
     else mret tt);
r ← replaceRequestHeader ":path"%str "/"%str;
_ ← (if decide (r <> Ok) then LOG_ERROR "Failed to replace :path header"%str
     else mret tt);
mret FilterHeadersStatus.Continue.

Definition onResponseHeaders (n : Z) (end_of_stream : bool) : Prog FilterHeadersStatus.t :=
_ ← LOG_INFO "onResponseHeaders: hello from wasm"%str;
r ← addResponseHeader "hello"%str "service-extensions"%str;
_ ← (if decide (r <> Ok) then LOG_ERROR "Failed to add response header"%str
     else mret tt);
mret FilterHeadersStatus.Continue.
End plugin.
End DocsFirstPlugin.

(** ** overwrite_header *)

Module OverwriteHeader.
Section plugin.
Context `{Sdk}.

(** [header->size()]: the pointer is dereferenced without a test. *)
Definition onRequestHeaders (n : Z) (end_of_stream : bool) : Prog FilterHeadersStatus.t :=
header ← getRequestHeader "RequestHeader"%str;
header ← deref header;
if (0 <? size_of (view header))%Z then
  r ← replaceRequestHeader "RequestHeader"%str "changed"%str;
  _ ← (if decide (r <> Ok) then LOG_ERROR "Failed to replace RequestHeader"%str
       else mret tt);
  mret FilterHeadersStatus.Continue
else mret FilterHeadersStatus.Continue.

Definition onResponseHeaders (n : Z) (end_of_stream : bool) : Prog FilterHeadersStatus.t :=
r ← replaceResponseHeader "ResponseHeader"%str "changed"%str;
_ ← (if decide (r <> Ok) then LOG_ERROR "Failed to replace ResponseHeader"%str
     else mret tt);
mret FilterHeadersStatus.Continue.
End plugin.
End OverwriteHeader.

(** ** geo_directional_origin *)

Module GeoDirectionalOrigin.
Section plugin.
Context `{Sdk}.

Definition kGeoHeaderKey : str := "x-country-code"%str.

Definition onRequestHeaders (n : Z) (end_of_stream : bool) : Prog FilterHeadersStatus.t :=
let otherwise :=
  _ ← removeRequestHeader kGeoHeaderKey;
  mret FilterHeadersStatus.Continue in
country_property ← getProperty ["source"; "client_region"]%str;
match country_property with
| Some ptr =>
    d ← deref ptr;
    let country_view := view d in
    if decide (country_view <> []) then
      _ ← replaceRequestHeader kGeoHeaderKey country_view;
      mret FilterHeadersStatus.Continue
    else otherwise
| None => otherwise
end.
End plugin.
End GeoDirectionalOrigin.

(** ** add_device_type *)

Module AddDeviceType.
Section plugin.
Context `{Absl} `{Sdk}.

Definition BotKeywords : list str :=
["bot"; "crawler"; "spider"; "googlebot"; "bingbot"; "slurp";
 "duckduckbot"; "yandexbot"; "baiduspider"]%str.
Definition TabletKeywords : list str :=
["ipad"; "tablet"; "kindle"; "tab"; "playbook"; "nexus 7"; "sm-t"; "pad"; "gt-p"]%str.
Definition AndroidIndicators : list str := ["tablet"; "tab"; "pad"]%str.
Definition MobileKeywords : list str :=
["mobile"; "android"; "iphone"; "ipod"; "blackberry";
 "windows phone"; "webos"; "iemobile"; "opera mini"]%str.
Definition DesktopKeywords : list str :=
["mozilla"; "chrome"; "safari"; "firefox";
 "msie"; "opera"; "edge"; "chromium"; "vivaldi"]%str.

Fixpoint ContainsAny (ua : str) (subs : list str) : bool :=
match subs with
| [] => false
| sub :: subs => if StrContains ua sub then true else ContainsAny ua subs
end.

Definition IsBot (ua : str) : bool := ContainsAny ua BotKeywords.
Definition IsTablet (ua : str) : bool :=
if ContainsAny ua TabletKeywords then true
else if StrContains ua "android"%str then ContainsAny ua AndroidIndicators
else false.
Definition IsMobile (ua : str) : bool := ContainsAny ua MobileKeywords.
Definition IsDesktop (ua : str) : bool := ContainsAny ua DesktopKeywords.

Definition DetectDeviceType (ua : str) : str :=
if IsBot ua then "bot"%str
else if IsTablet ua then "tablet"%str
else if IsMobile ua then "phone"%str
else if IsDesktop ua then "desktop"%str
else "other"%str.

Definition onRequestHeaders (n : Z) (end_of_stream : bool) : Prog FilterHeadersStatus.t :=
user_agent_ptr ← getRequestHeader "user-agent"%str;
let user_agent :=
  match user_agent_ptr with
  | Some d => AsciiStrToLower (toString d)
  | None => []
  end in
let device_type := DetectDeviceType user_agent in
_ ← replaceRequestHeader "x-device-type"%str device_type;
mret FilterHeadersStatus.Continue.
End plugin.
End AddDeviceType.

(** ** log_calls *)

Module LogCalls.
Section plugin.
Context `{Sdk}.

Definition Root_onStart (_ : Z) : Prog bool :=
_ ← LOG_INFO "root onStart called"%str; mret true.
Definition Root_onConfigure (_ : Z) : Prog bool :=
_ ← LOG_INFO "root onConfigure called"%str; mret true.
Definition Root_onCreate : Prog unit := LOG_INFO "root onCreate called"%str.
Definition Root_onDelete : Prog unit := LOG_INFO "root onDelete called"%str.
Definition Root_onDone : Prog bool :=
_ ← LOG_INFO "root onDone called"%str; mret true.

Definition onCreate : Prog unit := LOG_INFO "http onCreate called"%str.
Definition onDelete : Prog unit := LOG_INFO "http onDelete called"%str.
Definition onDone : Prog unit := LOG_INFO "http onDone called"%str.
Definition onRequestHeaders (n : Z) (end_of_stream : bool) : Prog FilterHeadersStatus.t :=
_ ← LOG_INFO "http onRequestHeaders called"%str; mret FilterHeadersStatus.Continue.
Definition onResponseHeaders (n : Z) (end_of_stream : bool) : Prog FilterHeadersStatus.t :=
_ ← LOG_INFO "http onResponseHeaders called"%str; mret FilterHeadersStatus.Continue.
End plugin.
End LogCalls.

(** ** docs_plugin_config *)

Module DocsPluginConfig.
Section plugin.
Context `{Sdk}.

(** The root context's [secret_], which a stream context refers to. *)
Definition onConfigure (config_len : Z) (secret_ : str) : Prog (bool * str) :=
buffer ← getBufferBytes PluginConfiguration 0 config_len;
match buffer with
| None =>
    _ ← LOG_ERROR "Failed to retrieve plugin configuration"%str;
    mret (false, secret_)
| Some d => mret (true, toString d)
end.

Definition onRequestHeaders (secret_ : str) (n : Z) (end_of_stream : bool)
  : Prog FilterHeadersStatus.t :=
_ ← LOG_INFO ("secret: "%str ++ secret_);
mret FilterHeadersStatus.Continue.
End plugin.
End DocsPluginConfig.

(** ** Theorems *)

Section device_type.
Context `{!Absl} `{!AbslOk _}.

(** The class of a lower-cased user agent, by the first list of keywords
    one of which it contains. *)
Lemma ContainsAny_spec ua subs :
  AddDeviceType.ContainsAny ua subs = true <-> exists k, k ∈ subs /\ contains k ua = true.
Proof.
  induction subs as [|k subs IH]; simpl.
  - split; [done|]. intros (k & Hk & _). by apply elem_of_nil in Hk.
  - rewrite StrContains_ok. destruct (contains k ua) eqn:Hk.
    + split; [|done]. intros _. exists k. split; [apply elem_of_cons; auto|done].
    + rewrite IH. split; intros (k' & Hin & Hk').
      * exists k'. split; [by apply elem_of_cons; right|done].
      * apply elem_of_cons in Hin as [->|?]; [congruence|eauto].
Qed.

Definition has_keyword (ua : str) (ks : list str) : Prop :=
  exists k, k ∈ ks /\ contains k ua = true.

(** Every Android indicator is a tablet keyword: the second test of
    [IsTablet] never decides. *)
Lemma IsTablet_spec ua :
  AddDeviceType.IsTablet ua = true <-> has_keyword ua AddDeviceType.TabletKeywords.
Proof.
  unfold AddDeviceType.IsTablet, has_keyword. rewrite <- ContainsAny_spec.
  destruct (AddDeviceType.ContainsAny ua AddDeviceType.TabletKeywords) eqn:Ht; [done|].
  destruct (StrContains ua _); [|done]. split; [|done].
  intros (k & Hk & Hc)%ContainsAny_spec. rewrite <- Ht.
  apply ContainsAny_spec. exists k. split; [|done]. clear Hc. revert k Hk.
  apply Forall_forall, (bool_decide_unpack _). vm_compute. exact I.
Qed.

Definition device_type (ua d : str) : Prop :=
  (d = "bot"%str /\ has_keyword ua AddDeviceType.BotKeywords) \/
  (~ has_keyword ua AddDeviceType.BotKeywords /\
   ((d = "tablet"%str /\ has_keyword ua AddDeviceType.TabletKeywords) \/
    (~ has_keyword ua AddDeviceType.TabletKeywords /\
     ((d = "phone"%str /\ has_keyword ua AddDeviceType.MobileKeywords) \/
      (~ has_keyword ua AddDeviceType.MobileKeywords /\
       ((d = "desktop"%str /\ has_keyword ua AddDeviceType.DesktopKeywords) \/
        (d = "other"%str /\ ~ has_keyword ua AddDeviceType.DesktopKeywords))))))).

Lemma ContainsAny_reflect ua ks : reflect (has_keyword ua ks) (AddDeviceType.ContainsAny ua ks).
Proof.
  unfold has_keyword. apply iff_reflect. by rewrite ContainsAny_spec.
Qed.

Lemma DetectDeviceType_spec ua : device_type ua (AddDeviceType.DetectDeviceType ua).
Proof.
  unfold AddDeviceType.DetectDeviceType, device_type, AddDeviceType.IsBot,
    AddDeviceType.IsMobile, AddDeviceType.IsDesktop.
  destruct (ContainsAny_reflect ua AddDeviceType.BotKeywords); [by left|].
  destruct (AddDeviceType.IsTablet ua) eqn:Ht.
  { right. split; [done|]. left. split; [done|]. by apply IsTablet_spec. }
  right. split; [done|]. right.
  split; [intros Hk%IsTablet_spec; congruence|].
  destruct (ContainsAny_reflect ua AddDeviceType.MobileKeywords); [by left|].
  destruct (ContainsAny_reflect ua AddDeviceType.DesktopKeywords); naive_solver.
Qed.
End device_type.

Section theorems.
Context `{!Absl} `{!AbslOk _} `{!Sdk} `{!SdkOk _}.
Context (v : HostView) (m : hmap) (n : Z) (e : bool).
Hypothesis (Hresponse : response v = None).

Section request.
Hypothesis (Hmap : maps v !! RequestHeaders = Some m).

Lemma AddRequestHeader_spec :
returns (AddRequestHeader.onRequestHeaders n e) v FilterHeadersStatus.Continue
  (with_map RequestHeaders
    (hm_set "Welcome"%str "warm"%str (hm_append "Message"%str "hello"%str m)) v).
Proof. unfold AddRequestHeader.onRequestHeaders. wp_auto. wp_close. Qed.

(** The first of the two hints that identifies a mobile client decides. *)
Definition client_device_type : str :=
if decide (hm_get "Sec-CH-UA-Mobile"%str m = Some "?1"%str) then "mobile"%str
else if contains "mobile"%str (lower (default [] (hm_get "User-Agent"%str m)))
then "mobile"%str else "unknown"%str.

(** The device type is appended exactly once, on every path. *)
Theorem NormalizeHeader_spec :
returns (NormalizeHeader.onRequestHeaders n e) v FilterHeadersStatus.Continue
  (with_map RequestHeaders (hm_append "client-device-type"%str client_device_type m) v).
Proof.
unfold NormalizeHeader.onRequestHeaders, client_device_type. wp_auto; wp_close.
Qed.

Lemma DocsFirstPlugin_request_spec :
returns (DocsFirstPlugin.onRequestHeaders n e) v FilterHeadersStatus.Continue
  (with_map RequestHeaders
    (hm_set ":path"%str "/"%str (hm_set ":authority"%str "service-extensions.com"%str m))
    (with_log Linfo "onRequestHeaders: hello from wasm"%str v)).
Proof. unfold DocsFirstPlugin.onRequestHeaders. wp_auto; wp_close. Qed.

(** What clients send as x-country-code never survives: after the
  handler the header is the region the load balancer gives, or absent. *)
Theorem GeoDirectionalOrigin_spec :
wp (GeoDirectionalOrigin.onRequestHeaders n e) (λ st w,
  st = FilterHeadersStatus.Continue /\
  exists m', w = with_map RequestHeaders m' v /\
    hm_get "x-country-code"%str m' =
      (r ← properties v ["source"; "client_region"]%str;
       if decide (r = []) then None else Some r) /\
    forall k, lower k <> "x-country-code"%str -> hm_get k m' = hm_get k m) v.
Proof.
unfold GeoDirectionalOrigin.onRequestHeaders. wp_auto.
all: split; [done|]; eexists; split; [done|].
all: match goal with H : properties v _ = _ |- _ => rewrite H end.
all: simpl; split; [|other_name].
- rewrite decide_False by done. by rewrite hm_get_set_eq.
- rewrite decide_True by by apply dec_stable. by rewrite hm_get_erase_eq.
- by rewrite hm_get_erase_eq.
Qed.

(** Every request leaves with an x-device-type that is the class of its
  user agent by the documented precedence, the client's own value of that
  header being overwritten. *)
Theorem AddDeviceType_spec :
exists d, device_type (lower (default [] (hm_get "user-agent"%str m))) d /\
  returns (AddDeviceType.onRequestHeaders n e) v FilterHeadersStatus.Continue
    (with_map RequestHeaders (hm_set "x-device-type"%str d m) v).
Proof.
eexists. split; [apply DetectDeviceType_spec|].
unfold AddDeviceType.onRequestHeaders. wp_auto; wp_close.
Qed.

(** With an SDK that never returns a null pointer, the request handler
  of overwrite_header replaces the header exactly when it is present with
  a non-empty value: present but empty, it stays. *)
Theorem OverwriteHeader_request_spec `{!SdkNonNull _} :
returns (OverwriteHeader.onRequestHeaders n e) v FilterHeadersStatus.Continue
  (if decide (default [] (hm_get "RequestHeader"%str m) = []) then v
   else with_map RequestHeaders (hm_set "RequestHeader"%str "changed"%str m) v).
Proof.
unfold OverwriteHeader.onRequestHeaders, returns. apply wp_bind_2.
eapply wp_getHeader_nonnull; [done|]. intros d <-. wp_auto; wp_close.
all: destruct (view d); split; try done; simpl in *; lia.
Qed.
End request.

Section response.
Hypothesis (Hmap : maps v !! ResponseHeaders = Some m).

(** "bar" is appended to Message exactly when its value is "foo", and
  Welcome is removed in every case; nothing else happens. *)
Theorem AddResponseHeader_spec :
returns (AddResponseHeader.onResponseHeaders n e) v FilterHeadersStatus.Continue
  (with_map ResponseHeaders (hm_erase "Welcome"%str
    (if decide (hm_get "Message"%str m = Some "foo"%str)
     then hm_append "Message"%str "bar"%str m else m)) v).
Proof. unfold AddResponseHeader.onResponseHeaders. wp_auto; wp_close. Qed.

Lemma RemoveCookie_spec :
returns (RemoveCookie.onResponseHeaders n e) v FilterHeadersStatus.Continue
  (with_map ResponseHeaders (hm_erase "Set-Cookie"%str m) v).
Proof. unfold RemoveCookie.onResponseHeaders. wp_auto; wp_close. Qed.

(** A response whose status is a number from 500 to 599 gets the status
  404; every other response, one without a numeric status included,
  leaves unchanged. *)
Theorem OverwriteErrcode_spec :
returns (OverwriteErrcode.onResponseHeaders n e) v FilterHeadersStatus.Continue
  (if server_error (default [] (hm_get ":status"%str m))
   then with_map ResponseHeaders (hm_set ":status"%str "404"%str m) v else v).
Proof.
unfold OverwriteErrcode.onResponseHeaders, OverwriteErrcode.mapResponseCode.
wp_auto; wp_close; wp_reduce.
all: match goal with
     | H : parse_int_in _ _ _ = Some _ |- _ => rewrite (server_error_quot _ _ H)
     | H : parse_int_in _ _ _ = None |- _ => rewrite (server_error_None _ H)
     end; split; [done|].
- by match goal with H : (_ =? _)%Z = true |- _ => rewrite H end.
- by match goal with H : (_ =? _)%Z = false |- _ => rewrite H end.
- done.
Qed.

Lemma DocsFirstPlugin_response_spec :
returns (DocsFirstPlugin.onResponseHeaders n e) v FilterHeadersStatus.Continue
  (with_map ResponseHeaders (hm_append "hello"%str "service-extensions"%str m)
    (with_log Linfo "onResponseHeaders: hello from wasm"%str v)).
Proof. unfold DocsFirstPlugin.onResponseHeaders. wp_auto; wp_close. Qed.

Lemma OverwriteHeader_response_spec :
returns (OverwriteHeader.onResponseHeaders n e) v FilterHeadersStatus.Continue
  (with_map ResponseHeaders (hm_set "ResponseHeader"%str "changed"%str m) v).
Proof. unfold OverwriteHeader.onResponseHeaders. wp_auto; wp_close. Qed.
End response.
End theorems.

Section witnesses.
#[local] Existing Instances absl_ref sdk_ref.

Definition device_request : list (str * str) :=
  [("user-agent", "Mozilla/5.0 (Linux; Android 13) Mobile Safari");
   ("x-device-type", "forged"); ("x-country-code", "XX"); ("RequestHeader", "old")]%str.
Definition error_response : list (str * str) :=
  [(":status", "503"); ("Message", "foo"); ("Welcome", "hi")]%str.

Lemma NormalizeHeader_spec_witness :
  wp (NormalizeHeader.onRequestHeaders 4 false) (λ y w,
    y = FilterHeadersStatus.Continue /\
    final_header RequestHeaders "Client-Device-Type"%str w = Some "mobile"%str)
    (sample_view RequestHeaders device_request).
Proof.
  eapply returns_header; [by apply NormalizeHeader_spec|vm_compute; reflexivity].
Defined.

Lemma GeoDirectionalOrigin_spec_witness :
  wp (GeoDirectionalOrigin.onRequestHeaders 4 false) (λ st w,
    final_header RequestHeaders "x-country-code"%str w = None)
    (sample_view RequestHeaders device_request).
Proof.
  eapply wp_mono; [|by apply GeoDirectionalOrigin_spec].
  intros st w (_ & m' & -> & Hm & _). exact Hm.
Defined.

Lemma AddDeviceType_spec_witness :
  exists d, device_type "mozilla/5.0 (linux; android 13) mobile safari"%str d /\
    wp (AddDeviceType.onRequestHeaders 4 false) (λ y w,
      y = FilterHeadersStatus.Continue /\
      final_header RequestHeaders "x-device-type"%str w = Some d)
    (sample_view RequestHeaders device_request).
Proof.
  destruct (AddDeviceType_spec (sample_view RequestHeaders device_request)
    (hm_of_pairs device_request) 4 false eq_refl eq_refl) as (d & Hd & Hr).
  exists d. split; [exact Hd|]. by eapply returns_header.
Defined.

Lemma OverwriteHeader_request_spec_witness :
  wp (OverwriteHeader.onRequestHeaders 4 false) (λ y w,
    y = FilterHeadersStatus.Continue /\
    final_header RequestHeaders "requestheader"%str w = Some "changed"%str)
    (sample_view RequestHeaders device_request).
Proof.
  eapply returns_header; [by apply OverwriteHeader_request_spec|vm_compute; reflexivity].
Defined.

Lemma AddResponseHeader_spec_witness :
  wp (AddResponseHeader.onResponseHeaders 3 false) (λ y w,
    y = FilterHeadersStatus.Continue /\
    final_header ResponseHeaders "message"%str w = Some "foo, bar"%str)
    (sample_view ResponseHeaders error_response).
Proof.
  eapply returns_header; [by apply AddResponseHeader_spec|vm_compute; reflexivity].
Defined.

Lemma OverwriteErrcode_spec_witness :
  wp (OverwriteErrcode.onResponseHeaders 3 false) (λ y w,
    y = FilterHeadersStatus.Continue /\
    final_header ResponseHeaders ":status"%str w = Some "404"%str)
    (sample_view ResponseHeaders error_response).
Proof.
  eapply returns_header; [by apply OverwriteErrcode_spec|vm_compute; reflexivity].
Defined.
End witnesses.
