(* ===== verification/ResponseSamples.v ===== *)
(** * Samples that answer requests

    The samples of plugins/samples that send local responses: fixed replies,
    redirects, deny lists and error pages. *)

From S2P Require Import Prelude Absl Headers Host Rules ThirdParty.

(** ** local_reply *)

Module LocalReply.
Section plugin.
Context `{Sdk}.

Definition onRequestHeaders (n : Z) (end_of_stream : bool) : Prog FilterHeadersStatus.t :=
_ ← sendLocalResponse 200 [] "Hello World"%str
      [("Content-Type", "text/plain"); (":status", "200")]%str;
mret FilterHeadersStatus.StopIteration.

Definition onRequestBody (body_size : Z) (end_stream : bool) : Prog FilterDataStatus.t :=
mret FilterDataStatus.Continue.

Definition onResponseHeaders (n : Z) (end_of_stream : bool) : Prog FilterHeadersStatus.t :=
mret FilterHeadersStatus.Continue.
End plugin.
End LocalReply.

(** ** testing *)

Module Testing.
Section plugin.
Context `{Sdk}.

(** [id] is the context's identifier. *)
Definition onRequestHeaders (id : Z) (headers : Z) (end_of_stream : bool)
  : Prog FilterHeadersStatus.t :=
_ ← LOG_DEBUG ("request headers "%str ++ to_string id);
mret FilterHeadersStatus.Continue.

(** The loop over the timestamps; [count] rounds are left, [i] counts from 1. *)
Fixpoint emit_timestamps (count : nat) (i : Z) : Prog unit :=
match count with
| 0 => mret tt
| S count =>
    ns ← call GetCurrentTime;
    _ ← LOG_INFO ("time "%str ++ to_string i ++ ": "%str ++ to_string ns);
    emit_timestamps count (i + 1)
end.

Definition onResponseHeaders (id : Z) (headers : Z) (end_of_stream : bool)
  : Prog FilterHeadersStatus.t :=
_ ← LOG_DEBUG ("response headers "%str ++ to_string id);
_ ← emit_timestamps 3 1;
reply_with_error ← getResponseHeader "reply-with-error"%str;
reply_with_error ← deref reply_with_error;
match data reply_with_error with
| Some _ =>
    _ ← sendLocalResponse 500 "extra"%str "fake error"%str [("error", "goaway")]%str;
    mret FilterHeadersStatus.StopAllIterationAndWatermark
| None => mret FilterHeadersStatus.Continue
end.
End plugin.
End Testing.

(** ** block_request *)

Module BlockRequest.
Section plugin.
Context `{Absl} `{Sdk}.

Definition kAllowedReferer : str := "safe-site.com"%str.

(** [absl::Uniform<uint64_t>(bitgen_)] *)
Definition generateRandom : Prog Z := call GetRandom.

Definition onRequestHeaders (n : Z) (end_of_stream : bool) : Prog FilterHeadersStatus.t :=
referer ← getRequestHeader "Referer"%str;
if match referer with
   | None => true
   | Some d => negb (StrContains (view d) kAllowedReferer)
   end
then
  r ← generateRandom;
  let requestId := to_string r in
  _ ← sendLocalResponse 403 [] ("Forbidden - Request ID: "%str ++ requestId) [];
  _ ← LOG_INFO ("Forbidden - Request ID: "%str ++ requestId);
  mret FilterHeadersStatus.ContinueAndEndStream
else
  _ ← addRequestHeader "my-plugin-allowed"%str "true"%str;
  mret FilterHeadersStatus.Continue.
End plugin.
End BlockRequest.

(** ** add_custom_response *)

Module AddCustomResponse.
Section plugin.
Context `{Absl} `{Sdk}.

Definition redirect_page : str :=
"https://storage.googleapis.com/www.example.com/server-error.html"%str.

Definition onResponseHeaders (n : Z) (end_of_stream : bool) : Prog FilterHeadersStatus.t :=
response_status ← getResponseHeader ":status"%str;
match response_status with
| None => mret FilterHeadersStatus.Continue
| Some response_status =>
    match SimpleAtoi32 (view response_status) with
    | None => mret FilterHeadersStatus.Continue
    | Some response_code =>
        if (Z.quot response_code 100 =? 5)%Z then
          _ ← sendLocalResponse 302 [] []
                [("Origin-Status"%str, toString response_status);
                 ("Location"%str, redirect_page)];
          mret FilterHeadersStatus.ContinueAndEndStream
        else mret FilterHeadersStatus.Continue
    end
end.
End plugin.
End AddCustomResponse.

(** ** redirect *)

Module Redirect.
Section plugin.
Context `{Absl} `{Sdk}.

Definition old_path_prefix : str := "/foo/"%str.
Definition new_path_prefix : str := "/bar/"%str.

Definition onRequestHeaders (n : Z) (end_of_stream : bool) : Prog FilterHeadersStatus.t :=
path ← getRequestHeader ":path"%str;
match path with
| None =>
    _ ← LOG_ERROR "Failed to get :path header"%str;
    mret FilterHeadersStatus.Continue
| Some path =>
    if StartsWith (view path) old_path_prefix then
      let new_path :=
        StrCat [new_path_prefix; substr (view path) (length old_path_prefix) None] in
      _ ← sendLocalResponse 301 [] (StrCat ["Content moved to "%str; new_path])
            [("Location"%str, new_path)];
      mret FilterHeadersStatus.ContinueAndEndStream
    else mret FilterHeadersStatus.Continue
end.
End plugin.
End Redirect.

(** ** redirect_bulk *)

Module RedirectBulk.
Section plugin.
Context `{Absl} `{Sdk}.

(** The loop over the lines of the configuration. *)
Fixpoint parse_lines (lines : list str) (domain_mappings_ : gmap str str)
  : Prog (gmap str str) :=
match lines with
| [] => mret domain_mappings_
| line :: lines =>
    let stripped := StripAsciiWhitespace line in
    match stripped with
    | [] => parse_lines lines domain_mappings_
    | c :: _ =>
        if decide (c = "#"%char) then parse_lines lines domain_mappings_
        else
          match StrSplit stripped " " with
          | [p0; p1] =>
              let source := AsciiStrToLower p0 in
              parse_lines lines (<[source := p1]> domain_mappings_)
          | _ =>
              _ ← LOG_WARN ("Invalid mapping format: "%str ++ stripped);
              parse_lines lines domain_mappings_
          end
    end
end.

Definition onConfigure (config_len : Z) (domain_mappings_ : gmap str str)
  : Prog (bool * gmap str str) :=
let no_config :=
  _ ← LOG_WARN "No configuration provided, no redirects will be performed"%str;
  mret (true, domain_mappings_) in
config_data ← getBufferBytes PluginConfiguration 0 config_len;
match config_data with
| None => no_config
| Some config_data =>
    if (size_of (view config_data) =? 0)%Z then no_config
    else
      let config_str := view config_data in
      domain_mappings_ ← parse_lines (StrSplit config_str (ascii_of_nat 10)) domain_mappings_;
      _ ← LOG_INFO (StrCat ["Loaded "%str; AlphaNum (Z.of_nat (size domain_mappings_));
                            " domain mappings"%str]);
      mret (true, domain_mappings_)
end.

Definition onRequestHeaders (domain_mappings_ : gmap str str) (n : Z) (end_of_stream : bool)
  : Prog FilterHeadersStatus.t :=
authority ← getRequestHeader ":authority"%str;
match authority with
| None =>
    _ ← LOG_ERROR "Failed to get :authority header"%str;
    mret FilterHeadersStatus.Continue
| Some authority =>
    let host_view := view authority in
    let colon_pos := find ":"%str host_view in
    let domain := AsciiStrToLower (substr host_view 0 colon_pos) in
    match domain_mappings_ !! domain with
    | None => mret FilterHeadersStatus.Continue
    | Some target =>
        path_header ← getRequestHeader ":path"%str;
        let path := match path_header with Some d => toString d | None => "/"%str end in
        scheme_header ← getRequestHeader ":scheme"%str;
        let scheme :=
          match scheme_header with Some d => toString d | None => "https"%str end in
        let new_url := StrCat [scheme; "://"%str; target; path] in
        _ ← sendLocalResponse 301 [] ("Redirecting to "%str ++ new_url)
              [("Location"%str, new_url)];
        mret FilterHeadersStatus.ContinueAndEndStream
    end
end.
End plugin.
End RedirectBulk.

(** ** config_denylist *)

Module ConfigDenylist.
Section plugin.
Context `{Absl} `{Sdk}.

(** The characters of [find_first_of]: space, \f, \n, \r, \t, \v. *)
Definition delimiters : str := " "%char :: map ascii_of_nat [12; 10; 13; 9; 11].

(** The [while] loop; [None] is running out of fuel. *)
Fixpoint tokenize (fuel : nat) (config : str) (idx : nat) (tokens_ : gset str)
  : option (gset str) :=
match fuel with
| 0 => None
| S fuel =>
    if decide (idx < length config) then
      match find_first_of delimiters config idx with
      | None => Some ({[ substr config idx None ]} ∪ tokens_)
      | Some nxt =>
          let tokens_ :=
            if decide (idx <> nxt)
            then {[ substr config idx (Some (nxt - idx)) ]} ∪ tokens_ else tokens_ in
          tokenize fuel config (nxt + 1) tokens_
      end
    else Some tokens_
end.

Definition onConfigure (config_len : Z) (tokens_ : gset str) : Prog (bool * gset str) :=
config_ ← getBufferBytes PluginConfiguration 0 config_len;
config_ ← deref config_;
let config := view config_ in
match tokenize (S (length config)) config 0 tokens_ with
| None => Trap
| Some tokens_ =>
    _ ← LOG_INFO ("Config keys size "%str ++ to_string (Z.of_nat (size tokens_)));
    mret (true, tokens_)
end.

Definition onRequestHeaders (tokens_ : gset str) (n : Z) (end_of_stream : bool)
  : Prog FilterHeadersStatus.t :=
token ← getRequestHeader "User-Token"%str;
match token with
| None =>
    _ ← sendLocalResponse 403 [] ("Access forbidden - token missing."%str ++ nl) [];
    mret FilterHeadersStatus.StopAllIterationAndWatermark
| Some token =>
    if (size_of (view token) =? 0)%Z then
      _ ← sendLocalResponse 403 [] ("Access forbidden - token missing."%str ++ nl) [];
      mret FilterHeadersStatus.StopAllIterationAndWatermark
    else if decide (view token ∈ tokens_) then
      _ ← sendLocalResponse 403 [] ("Access forbidden."%str ++ nl) [];
      mret FilterHeadersStatus.StopAllIterationAndWatermark
    else mret FilterHeadersStatus.Continue
end.

Definition onResponseHeaders (n : Z) (end_of_stream : bool) : Prog FilterHeadersStatus.t :=
mret FilterHeadersStatus.Continue.
End plugin.
End ConfigDenylist.

(** ** error_page_with_traceid *)

Module ErrorPage.
Section plugin.
Context `{Absl} `{Re2} `{Sdk}.

Definition kErrorTemplate : str :=
"
<html>
<head>
  <title>Error {STATUS_CODE}</title>
  <style>
    body { font-family: sans-serif; margin: 2rem; }
    .container { max-width: 800px; margin: 0 auto; }
    .trace-id { 
      background-color: #f5f5f5; 
      padding: 1rem; 
      font-family: monospace;
      word-break: break-all;
      margin-top: 2rem;
    }
  </style>
</head>
<body>
  <div class="%str ++ dquote ++ "container"%str ++ dquote ++ ">
    <h1>Error {STATUS_CODE}</h1>
    <p>We're sorry, something went wrong with your request.</p>
    
    <div class="%str ++ dquote ++ "trace-id"%str ++ dquote ++ ">
      <strong>Trace ID:</strong> {TRACE_ID}
    </div>
    
    <p>Please provide this trace ID to support for assistance.</p>
  </div>
</body>
</html>
"%str.

Definition w3c_trace_pattern : str :=
"^[0-9a-f]{2}-([0-9a-f]{32})-[0-9a-f]{16}-[0-9a-f]{2}$"%str.

(** The root context's [w3c_trace_regex_], null before [onConfigure]. *)
Definition onConfigure (_ : Z) : Prog (bool * option regex) :=
let w3c_trace_regex_ := re_compile w3c_trace_pattern in
if negb (re_ok w3c_trace_regex_) then
  _ ← LOG_ERROR "Failed to compile W3C traceparent regex"%str;
  mret (false, Some w3c_trace_regex_)
else mret (true, Some w3c_trace_regex_).

Record MyHttpContext : Type := mkMyHttpContext {
status_code_ : str;
trace_id_ : str;
}.
Definition init : MyHttpContext := mkMyHttpContext [] "not-available"%str.

Definition extractTraceId (w3c_trace_regex_ : option regex) : Prog str :=
trace_header ← getRequestHeader "x-cloud-trace-context"%str;
if match trace_header with Some d => bool_decide (view d <> []) | None => false end then
  let trace_context := match trace_header with Some d => toString d | None => [] end in
  match find "/"%str trace_context with
  | Some slash_pos => mret (substr trace_context 0 (Some slash_pos))
  | None => mret trace_context
  end
else
  w3c_trace ← getRequestHeader "traceparent"%str;
  if match w3c_trace with Some d => bool_decide (view d <> []) | None => false end then
    let trace_context := match w3c_trace with Some d => toString d | None => [] end in
    match w3c_trace_regex_ ≫= re_FullMatch1 trace_context with
    | Some trace_id => mret trace_id
    | None => mret "not-available"%str
    end
  else mret "not-available"%str.

Definition onRequestHeaders (w3c_trace_regex_ : option regex) (c : MyHttpContext)
  (n : Z) (end_of_stream : bool) : Prog (FilterHeadersStatus.t * MyHttpContext) :=
trace_id ← extractTraceId w3c_trace_regex_;
let c := mkMyHttpContext (status_code_ c) trace_id in
_ ← LOG_DEBUG (StrCat ["Captured trace ID: "%str; trace_id_ c]);
mret (FilterHeadersStatus.Continue, c).

Definition onResponseHeaders (c : MyHttpContext) (n : Z) (end_of_stream : bool)
  : Prog (FilterHeadersStatus.t * MyHttpContext) :=
status_header ← getResponseHeader ":status"%str;
match status_header with
| None => mret (FilterHeadersStatus.Continue, c)
| Some status_header =>
    let c := mkMyHttpContext (toString status_header) (trace_id_ c) in
    let status_code := default 500%Z (SimpleAtoi32 (status_code_ c)) in
    if (status_code <? 400)%Z then mret (FilterHeadersStatus.Continue, c)
    else
      let error_page := StrReplaceAll kErrorTemplate
        [("{STATUS_CODE}"%str, status_code_ c); ("{TRACE_ID}"%str, trace_id_ c)] in
      _ ← sendLocalResponse status_code [] error_page
            [("Content-Type", "text/html; charset=utf-8")]%str;
      mret (FilterHeadersStatus.StopIteration, c)
end.
End plugin.
End ErrorPage.

(** ** Theorems: config_denylist *)

Section denylist.
Context `{!Absl} `{!AbslOk _} `{!Sdk} `{!SdkOk _}.
Implicit Types v : HostView.

Lemma delimiters_spec c : c ∈ ConfigDenylist.delimiters <-> is_space c = true.
Proof.
  unfold is_space. rewrite bool_decide_eq_true.
  unfold ConfigDenylist.delimiters. simpl.
  repeat rewrite elem_of_cons. rewrite elem_of_nil. tauto.
Qed.

Lemma not_delimiters s :
  Forall (.∉ ConfigDenylist.delimiters) s -> Forall (λ c, is_space c = false) s.
Proof.
  intros Hs. apply (Forall_impl _ _ _ Hs). intros c Hc. rewrite delimiters_spec in Hc.
  by destruct (is_space c).
Qed.

Lemma tokenize_ok fuel config idx t :
  idx <= length config -> length config - idx < fuel ->
  ConfigDenylist.tokenize fuel config idx t =
    Some (list_to_set (words (drop idx config)) ∪ t).
Proof.
  revert idx t. induction fuel as [|fuel IH]; intros idx t Hidx Hfuel; [lia|]. simpl.
  destruct (decide (idx < length config)) as [Hlt|Hge].
  - destruct (find_first_of _ _ _) as [nxt|] eqn:Hf.
    + apply find_first_of_Some in Hf as (Hn & (c & Hc & Hin) & Hfree).
      rewrite IH by lia. apply delimiters_spec in Hin. apply not_delimiters in Hfree.
      pose proof (take_drop (nxt - idx) (drop idx config)) as Hsplit.
      rewrite drop_drop in Hsplit. replace (idx + (nxt - idx)) with nxt in Hsplit by lia.
      rewrite (drop_S _ _ _ Hc) in Hsplit.
      apply (f_equal words) in Hsplit. rewrite words_app in Hsplit by done.
      rewrite <- Hsplit. replace (nxt + 1) with (S nxt) by lia.
      unfold substr. f_equal. destruct (decide (idx = nxt)) as [->|Hne].
      * rewrite decide_False by (intros Hx; by apply Hx). by rewrite Nat.sub_diag.
      * rewrite decide_True, decide_False by
          (try done; intros Hnil%(f_equal length); rewrite length_take, length_drop in Hnil;
           simpl in Hnil; lia).
        simpl. set_solver.
    + apply find_first_of_None, not_delimiters in Hf. unfold substr.
      rewrite (words_free (drop idx config)); [f_equal; simpl; set_solver| |done].
      intros Hnil%(f_equal length). rewrite length_drop in Hnil. simpl in Hnil. lia.
  - replace idx with (length config) by lia. rewrite drop_all.
    change (words []) with (@nil str). simpl. by rewrite (left_id_L ∅ (∪)).
Qed.

(** C27. The configuration loop ends, and the deny list becomes the set of the
    words of the configuration: the maximal runs of characters other than
    white space, whatever white space separates them. *)
Theorem ConfigDenylist_onConfigure_spec v config :
  buffers v !! PluginConfiguration = Some config -> (size_of config < 2 ^ 32)%Z ->
  wp (ConfigDenylist.onConfigure (size_of config) ∅) (λ r w,
    r = (true, list_to_set (words config)) /\ maps w = maps v /\ response w = response v) v.
Proof.
  intros Hb Hs. unfold ConfigDenylist.onConfigure. apply wp_bind_2.
  eapply wp_getBufferBytes; [done|done|]. intros d <-. wp_auto.
  - rewrite tokenize_ok in Heqo by lia. injection Heqo as <-. rewrite drop_0.
    by rewrite (right_id_L ∅ (∪)).
  - by rewrite tokenize_ok in Heqo by lia.
Qed.

(** Why a request is denied, if it is. *)
Definition deny_reason (tokens : gset str) (m : hmap) : option str :=
  let t := default [] (hm_get "User-Token"%str m) in
  if decide (t = []) then Some ("Access forbidden - token missing."%str ++ nl)
  else if decide (t ∈ tokens) then Some ("Access forbidden."%str ++ nl) else None.

(** A request passes, untouched, exactly when it carries a non-empty
    token that is not on the list; every other request is answered with 403. *)
Theorem ConfigDenylist_onRequestHeaders_spec tokens v m n e :
  maps v !! RequestHeaders = Some m -> can_respond v = true ->
  match deny_reason tokens m with
  | None => returns (ConfigDenylist.onRequestHeaders tokens n e) v
              FilterHeadersStatus.Continue v
  | Some body => answers (ConfigDenylist.onRequestHeaders tokens n e) v
                   FilterHeadersStatus.StopAllIterationAndWatermark
                   (mkLocalResponse 403 [] body ∅) []
  end.
Proof.
  intros Hm Hc. unfold ConfigDenylist.onRequestHeaders.
  destruct (deny_reason tokens m) as [body|] eqn:Hd; unfold deny_reason in Hd; wp_auto;
    match goal with H : hm_get _ _ = _ |- _ => rewrite H in Hd; clear H end;
    simpl in Hd; repeat case_decide; simplify_eq; answered.
Qed.
End denylist.

(** ** Theorems: fixed replies and redirects *)

(** What the loop over the timestamps logs. *)
Definition timestamps (v : HostView) (i n : Z) : list (LogLevel * str) :=
  (λ k, (Linfo, "time "%str ++ to_string k ++ ": "%str ++ to_string (now v))) <$> seqZ i n.

Lemma wp_emit_timestamps count i (Q : unit -> HostView -> Prop) v :
  Q tt (logged (timestamps v i (Z.of_nat count)) v) -> wp (Testing.emit_timestamps count i) Q v.
Proof.
  revert i v. induction count as [|count IH]; intros i v HQ.
  - cbn [Testing.emit_timestamps]. apply wp_ret. revert HQ. unfold timestamps. cbn.
    by rewrite logged_nil.
  - cbn [Testing.emit_timestamps]. apply wp_bind_2, wp_time, wp_bind_2, wp_LOG, IH.
    revert HQ. unfold timestamps. rewrite (seqZ_cons i (Z.of_nat (S count))) by lia.
    replace (Z.pred (Z.of_nat (S count))) with (Z.of_nat count) by lia.
    by rewrite with_log_logged, logged_logged.
Qed.

Section replies.
Context `{!Absl} `{!AbslOk _} `{!Sdk} `{!SdkOk _}.
Context (v : HostView) (m : hmap) (n : Z) (e : bool).
Hypothesis (Hcan : can_respond v = true).

Lemma LocalReply_spec :
  answers (LocalReply.onRequestHeaders n e) v FilterHeadersStatus.StopIteration
    (mkLocalResponse 200 [] "Hello World"%str
      (hm_of_pairs [("Content-Type", "text/plain"); (":status", "200")]%str)) [].
Proof. unfold LocalReply.onRequestHeaders. wp_auto. answered. Qed.

(** The fixture logs the context and the frozen clock, three times, and answers
    a response that asks for it with an error; any other goes on. *)
Theorem Testing_spec `{!SdkNonNull _} id :
  maps v !! ResponseHeaders = Some m -> response v = None ->
  let ls := (Ldebug, "response headers "%str ++ to_string id) :: timestamps v 1 3 in
  returns (Testing.onRequestHeaders id n e) v FilterHeadersStatus.Continue
    (logged [(Ldebug, "request headers "%str ++ to_string id)] v) /\
  if decide (is_Some (hm_get "reply-with-error"%str m)) then
    answers (Testing.onResponseHeaders id n e) v FilterHeadersStatus.StopAllIterationAndWatermark
      (mkLocalResponse 500 "extra"%str "fake error"%str (hm_of_pairs [("error", "goaway")]%str)) ls
  else
    returns (Testing.onResponseHeaders id n e) v FilterHeadersStatus.Continue (logged ls v).
Proof.
  intros Hm Hr ls. split; [unfold Testing.onRequestHeaders; by wp_auto|].
  assert (forall (p : WasmDataPtr -> Prog FilterHeadersStatus.t) Q,
    wp (p (Some (mkWasmData (hm_get "reply-with-error"%str m)))) Q (logged ls v) ->
    wp (_ ← LOG_DEBUG ("response headers "%str ++ to_string id); _ ← Testing.emit_timestamps 3 1;
        d ← getResponseHeader "reply-with-error"%str; p d) Q v) as Hrun.
  { intros p Q Hp. apply wp_bind_2, wp_LOG, wp_bind_2, wp_emit_timestamps, wp_bind_2.
    eapply wp_getHeader_data; [host_fact|]. by rewrite with_log_logged, logged_logged. }
  case_decide as Hh; [unfold answers|unfold returns]; apply Hrun.
  - destruct Hh as [x ->]. wp_auto. answered.
  - apply eq_None_not_Some in Hh. rewrite Hh. by wp_auto.
Qed.

Section request.
Hypothesis (Hmap : maps v !! RequestHeaders = Some m).

(** A request is let through, marked, exactly when its Referer contains
  the allowed domain; any other, one without a Referer included, is
  answered with 403 and a request id that the log repeats. *)
Theorem BlockRequest_spec :
response v = None ->
if contains "safe-site.com"%str (default [] (hm_get "Referer"%str m)) then
  returns (BlockRequest.onRequestHeaders n e) v FilterHeadersStatus.Continue
    (with_map RequestHeaders (hm_append "my-plugin-allowed"%str "true"%str m) v)
else
  wp (BlockRequest.onRequestHeaders n e) (λ st w,
    st = FilterHeadersStatus.ContinueAndEndStream /\
    exists id body, body = "Forbidden - Request ID: "%str ++ to_string id /\
      response w = Some (mkLocalResponse 403 [] body ∅) /\
      logs w = logs v ++ [(Linfo, body)]) v.
Proof.
intros Hr. unfold BlockRequest.onRequestHeaders, BlockRequest.generateRandom,
  BlockRequest.kAllowedReferer.
destruct (contains _ (default [] (hm_get _ m))) eqn:Hd; wp_auto; wp_close.
all: split; [done|]; do 2 eexists; answered.
Qed.

(** Exactly the paths that start with /foo/ are redirected, to the same
  path under /bar/. *)
Theorem Redirect_spec p :
hm_get ":path"%str m = Some p ->
(forall rest, p = "/foo/"%str ++ rest ->
  answers (Redirect.onRequestHeaders n e) v FilterHeadersStatus.ContinueAndEndStream
    (mkLocalResponse 301 [] ("Content moved to /bar/"%str ++ rest)
      (hm_of_pairs [("Location"%str, "/bar/"%str ++ rest)])) []) /\
((forall rest, p <> "/foo/"%str ++ rest) ->
  returns (Redirect.onRequestHeaders n e) v FilterHeadersStatus.Continue v).
Proof.
intros Hp. unfold Redirect.onRequestHeaders.
split; [intros rest ->|intros Hne]; wp_auto; wp_close.
- answered. by rewrite !concat_two.
- match goal with H : starts_with _ _ = true |- _ =>
    apply starts_with_spec in H as [rest Hrest] end.
  by destruct (Hne rest).
Qed.
End request.

(** Server errors, and nothing else, become redirects to the error page
    that carry the original status. *)
Theorem AddCustomResponse_spec s :
  maps v !! ResponseHeaders = Some m -> hm_get ":status"%str m = Some s ->
  if server_error s then
    answers (AddCustomResponse.onResponseHeaders n e) v
      FilterHeadersStatus.ContinueAndEndStream
      (mkLocalResponse 302 [] []
        (hm_of_pairs [("Origin-Status"%str, s);
                      ("Location"%str, AddCustomResponse.redirect_page)])) []
  else
    returns (AddCustomResponse.onResponseHeaders n e) v FilterHeadersStatus.Continue v.
Proof.
  intros Hm Hs. unfold AddCustomResponse.onResponseHeaders.
  destruct (server_error s) eqn:Hd; wp_auto; wp_close.
  all: match goal with
       | H : parse_int_in _ _ _ = Some _ |- _ => rewrite (server_error_quot _ _ H) in Hd
       | H : parse_int_in _ _ _ = None |- _ => rewrite (server_error_None _ H) in Hd
       end; try congruence; answered.
Qed.
End replies.

(** ** Theorems: redirect_bulk *)

Section redirect_bulk.
Context `{!Absl} `{!AbslOk _} `{!Sdk} `{!SdkOk _}.
Implicit Types v : HostView.

(** The mapping a line of the configuration stands for: two pieces separated
    by one space, the source in lower case. *)
Definition line_mapping (line : str) : option (str * str) :=
  if decide (head (strip line) = Some "#"%char) then None
  else match split_on " " (strip line) with
       | [p0; p1] => Some (lower p0, p1)
       | _ => None
       end.

Definition add_mapping (m : gmap str str) (line : str) : gmap str str :=
  match line_mapping line with Some (s, t) => <[s := t]> m | None => m end.

Lemma parse_lines_wp lines m v (Q : gmap str str -> HostView -> Prop) :
  (forall ls, Q (fold_left add_mapping lines m) (logged ls v)) ->
  wp (RedirectBulk.parse_lines lines m) Q v.
Proof.
  revert m v. induction lines as [|line lines IH]; intros m v HQ.
  - specialize (HQ []). by rewrite logged_nil in HQ.
  - cbn [RedirectBulk.parse_lines fold_left] in *. unfold add_mapping, line_mapping in HQ.
    autorewrite with absl. destruct (strip line) as [|c s] eqn:Hs; [by apply IH|].
    simpl head in HQ. destruct (decide (c = "#"%char)) as [->|Hne]; [by apply IH|].
    rewrite decide_False in HQ by (intros [= ?]; done). rewrite <- Hs in *.
    destruct (split_on " " (strip line)) as [|p0 [|p1 [|]]]; rewrite ?AsciiStrToLower_ok;
      [| |by apply IH|]; apply wp_bind_2, wp_LOG, IH; intros ls;
      rewrite with_log_logged, logged_logged; apply HQ.
Qed.

(** The last line for a domain decides. *)
Lemma mappings_lookup lines m d :
  fold_left add_mapping lines m !! d =
    match last (filter (λ p, p.1 = d) (omap line_mapping lines)) with
    | Some (_, t) => Some t
    | None => m !! d
    end.
Proof.
  induction lines as [|line lines IH] using rev_ind; [done|].
  rewrite fold_left_app, omap_app, filter_app, last_app. simpl. unfold add_mapping at 1.
  destruct (line_mapping line) as [[s t]|]; [|done]. rewrite filter_cons. simpl.
  destruct (decide (s = d)) as [->|Hne]; simpl.
  - by rewrite lookup_insert_eq.
  - by rewrite lookup_insert_ne.
Qed.

(** C26. The configuration becomes a map from lower-case domains to targets
    in which the last valid line for a domain wins; comments, blank lines
    and lines that are not two pieces around one space are skipped. *)
Theorem RedirectBulk_onConfigure_spec v config :
  buffers v !! PluginConfiguration = Some config -> (size_of config < 2 ^ 32)%Z ->
  wp (RedirectBulk.onConfigure (size_of config) ∅) (λ r w,
    (exists ls, w = logged ls v) /\ r.1 = true /\
    forall d, r.2 !! d = snd <$> last (filter (λ p, p.1 = d)
      (omap line_mapping (split_on (ascii_of_nat 10) config)))) v.
Proof.
  intros Hb Hs. unfold RedirectBulk.onConfigure. wp_reduce. apply wp_bind_2.
  eapply wp_getBufferBytes; [done|done|]. intros d <-. wp_reduce. rewrite size_zero.
  case_bool_decide as Hd.
  - wp_auto. rewrite Hd. split; [|done]. by eexists.
  - apply wp_bind_2, parse_lines_wp. intros ls. wp_auto.
    rewrite with_log_logged, logged_logged. split; [by eexists|]. split; [done|].
    intros d'. simpl. rewrite StrSplit_ok, mappings_lookup, lookup_empty.
    by destruct (last _) as [[]|].
Qed.

(** A request is redirected exactly when the host of its :authority,
    without the port and whatever its case, is a source; the target keeps
    the scheme and the path. *)
Theorem RedirectBulk_onRequestHeaders_spec mappings v m n e authority path scheme :
  maps v !! RequestHeaders = Some m -> can_respond v = true ->
  hm_get ":authority"%str m = Some authority ->
  hm_get ":path"%str m = Some path -> hm_get ":scheme"%str m = Some scheme ->
  match mappings !! lower (before ":" authority) with
  | None => returns (RedirectBulk.onRequestHeaders mappings n e) v
              FilterHeadersStatus.Continue v
  | Some target =>
      let url := scheme ++ "://"%str ++ target ++ path in
      answers (RedirectBulk.onRequestHeaders mappings n e) v
        FilterHeadersStatus.ContinueAndEndStream
        (mkLocalResponse 301 [] ("Redirecting to "%str ++ url)
          (hm_of_pairs [("Location"%str, url)])) []
  end.
Proof.
  intros Hm Hc Ha Hp Hs. unfold RedirectBulk.onRequestHeaders.
  rewrite <- find_char_before, <- AsciiStrToLower_ok.
  destruct (mappings !! _) as [target|] eqn:Ht; wp_auto; try congruence; simplify_eq;
    [|done].
  answered. absl. simpl. by rewrite app_nil_r.
Qed.
End redirect_bulk.

(** ** Theorems: error_page_with_traceid *)

Section error_page.
Context `{!Absl} `{!AbslOk _} `{!Re2} `{!Sdk} `{!SdkOk _}.
Implicit Types v : HostView.

(** The trace id of a request: the Google header up to its first slash, else
    what the regular expression finds in the W3C header. *)
Definition trace_id_of (rx : option regex) (m : hmap) : str :=
  let google := default [] (hm_get "x-cloud-trace-context"%str m) in
  let w3c := default [] (hm_get "traceparent"%str m) in
  if decide (google = []) then
    if decide (w3c = []) then "not-available"%str
    else default "not-available"%str (rx ≫= re_FullMatch1 w3c)
  else before "/" google.

Lemma ErrorPage_onRequestHeaders_spec rx c v m n e :
  maps v !! RequestHeaders = Some m ->
  wp (ErrorPage.onRequestHeaders rx c n e) (λ r w,
    r = (FilterHeadersStatus.Continue,
         ErrorPage.mkMyHttpContext (ErrorPage.status_code_ c) (trace_id_of rx m)) /\
    exists ls, w = logged ls v) v.
Proof.
  intros Hm. unfold ErrorPage.onRequestHeaders, ErrorPage.extractTraceId, trace_id_of.
  wp_auto; (split; [|rewrite with_log_logged; by eexists]); do 2 f_equal;
    repeat match goal with H : hm_get _ _ = _ |- _ => rewrite H; clear H end; simpl;
    repeat case_decide; try done;
    repeat match goal with H : _ ≫= _ = _ |- _ => simpl in H; try rewrite H; clear H end;
    try done.
  all: rewrite <- find_char_before;
    by match goal with H : find _ _ = _ |- _ => rewrite H end.
Qed.

(** Responses with a status of 400 or more, and those whose status is
    not a number, are replaced by the error page with the trace id of the
    request; all others pass unchanged. *)
Theorem ErrorPage_onResponseHeaders_spec c v m n e s :
  maps v !! ResponseHeaders = Some m -> can_respond v = true ->
  hm_get ":status"%str m = Some s ->
  let code := default 500%Z (parse_int_in int32_min int32_max s) in
  let c' := ErrorPage.mkMyHttpContext s (ErrorPage.trace_id_ c) in
  if decide (code < 400)%Z
  then returns (ErrorPage.onResponseHeaders c n e) v (FilterHeadersStatus.Continue, c') v
  else answers (ErrorPage.onResponseHeaders c n e) v (FilterHeadersStatus.StopIteration, c')
         (mkLocalResponse code []
           (StrReplaceAll ErrorPage.kErrorTemplate
             [("{STATUS_CODE}"%str, s); ("{TRACE_ID}"%str, ErrorPage.trace_id_ c)])
           (hm_of_pairs [("Content-Type", "text/html; charset=utf-8")]%str)) [].
Proof.
  intros Hm Hc Hs. unfold ErrorPage.onResponseHeaders. cbv zeta.
  rewrite <- SimpleAtoi32_ok.
  destruct (decide _) as [Hlt|Hge]; wp_auto;
    repeat match goal with
           | H : (_ <? _)%Z = true |- _ => apply Z.ltb_lt in H
           | H : (_ <? _)%Z = false |- _ => apply Z.ltb_ge in H end;
    cbn [ErrorPage.status_code_] in *; try lia; try done.
  by answered.
Qed.
End error_page.

(** ** The properties at concrete inputs *)

Section witnesses.
#[local] Existing Instances absl_ref sdk_ref.

Definition denylist_config : str := "alice bob"%str ++ nl ++ nl ++ "carol"%str.
Definition config_view (config : str) : HostView :=
  mkHostView ∅ {[ PluginConfiguration := config ]} (λ _, None) false None [] 0.

Lemma ConfigDenylist_onConfigure_spec_witness :
  wp (ConfigDenylist.onConfigure (size_of denylist_config) ∅) (λ r w,
    bool_decide ("carol"%str ∈ r.2) = true /\ bool_decide (size r.2 = 3) = true)
    (config_view denylist_config).
Proof.
  eapply wp_mono; [|by apply ConfigDenylist_onConfigure_spec].
  intros r w (-> & _). vm_compute. split; reflexivity.
Defined.

Lemma ConfigDenylist_onRequestHeaders_spec_witness :
  answers (ConfigDenylist.onRequestHeaders {[ "bob"%str ]} 1 false)
    (sample_view RequestHeaders [("user-token", "bob")]%str)
    FilterHeadersStatus.StopAllIterationAndWatermark
    (mkLocalResponse 403 [] ("Access forbidden."%str ++ nl) ∅) [].
Proof.
  exact (ConfigDenylist_onRequestHeaders_spec {[ "bob"%str ]}
    (sample_view RequestHeaders [("user-token", "bob")]%str)
    (hm_of_pairs [("user-token", "bob")]%str) 1 false eq_refl eq_refl).
Defined.

Lemma BlockRequest_spec_witness :
  wp (BlockRequest.onRequestHeaders 1 false) (λ st w,
    st = FilterHeadersStatus.ContinueAndEndStream /\
    exists id body, body = "Forbidden - Request ID: "%str ++ to_string id /\
      response w = Some (mkLocalResponse 403 [] body ∅) /\
      logs w = [(Linfo, body)])
    (sample_view RequestHeaders [("Referer", "https://evil.example")]%str).
Proof.
  exact (BlockRequest_spec
    (sample_view RequestHeaders [("Referer", "https://evil.example")]%str)
    (hm_of_pairs [("Referer", "https://evil.example")]%str) 1 false
    eq_refl eq_refl eq_refl).
Defined.

Lemma Redirect_spec_witness :
  answers (Redirect.onRequestHeaders 1 false)
    (sample_view RequestHeaders [(":path", "/foo/images")]%str)
    FilterHeadersStatus.ContinueAndEndStream
    (mkLocalResponse 301 [] "Content moved to /bar/images"%str
      (hm_of_pairs [("Location", "/bar/images")]%str)) [].
Proof.
  destruct (Redirect_spec (sample_view RequestHeaders [(":path", "/foo/images")]%str)
    (hm_of_pairs [(":path", "/foo/images")]%str) 1 false eq_refl eq_refl
    "/foo/images"%str eq_refl) as [Hr _].
  exact (Hr "images"%str eq_refl).
Defined.

Lemma AddCustomResponse_spec_witness :
  answers (AddCustomResponse.onResponseHeaders 1 false)
    (sample_view ResponseHeaders [(":status", "503")]%str)
    FilterHeadersStatus.ContinueAndEndStream
    (mkLocalResponse 302 [] [] (hm_of_pairs
      [("Origin-Status"%str, "503"%str); ("Location"%str, AddCustomResponse.redirect_page)])) [].
Proof.
  exact (AddCustomResponse_spec (sample_view ResponseHeaders [(":status", "503")]%str)
    (hm_of_pairs [(":status", "503")]%str) 1 false eq_refl "503"%str eq_refl eq_refl).
Defined.

Definition bulk_config : str :=
  "# domains"%str ++ nl ++ "Old.example new.example"%str ++ nl ++
  "two  spaces.example"%str ++ nl ++ " old.example newest.example "%str.

Lemma RedirectBulk_onConfigure_spec_witness :
  wp (RedirectBulk.onConfigure (size_of bulk_config) ∅) (λ r w,
    r.2 !! "old.example"%str = Some "newest.example"%str /\ r.2 !! "two"%str = None)
    (config_view bulk_config).
Proof.
  eapply wp_mono; [|by apply RedirectBulk_onConfigure_spec].
  intros r w (_ & _ & Hr). rewrite !Hr. vm_compute. split; reflexivity.
Defined.

Definition bulk_request : list (str * str) :=
  [(":authority", "OLD.example:8080"); (":path", "/a?b=c"); (":scheme", "http")]%str.

Lemma RedirectBulk_onRequestHeaders_spec_witness :
  answers (RedirectBulk.onRequestHeaders {[ "old.example"%str := "new.example"%str ]} 3 false)
    (sample_view RequestHeaders bulk_request) FilterHeadersStatus.ContinueAndEndStream
    (mkLocalResponse 301 [] "Redirecting to http://new.example/a?b=c"%str
      (hm_of_pairs [("Location", "http://new.example/a?b=c")]%str)) [].
Proof.
  exact (RedirectBulk_onRequestHeaders_spec {[ "old.example"%str := "new.example"%str ]}
    (sample_view RequestHeaders bulk_request) (hm_of_pairs bulk_request) 3 false
    _ _ _ eq_refl eq_refl eq_refl eq_refl eq_refl).
Defined.

Lemma ErrorPage_onResponseHeaders_spec_witness :
  returns (ErrorPage.onResponseHeaders ErrorPage.init 1 false)
    (sample_view ResponseHeaders [(":status", "204")]%str)
    (FilterHeadersStatus.Continue, ErrorPage.mkMyHttpContext "204"%str "not-available"%str)
    (sample_view ResponseHeaders [(":status", "204")]%str).
Proof.
  exact (ErrorPage_onResponseHeaders_spec ErrorPage.init
    (sample_view ResponseHeaders [(":status", "204")]%str)
    (hm_of_pairs [(":status", "204")]%str) 1 false "204"%str eq_refl eq_refl eq_refl).
Defined.
End witnesses.
