(* ===== verification/Auth.v ===== *)
(** * Samples that authenticate requests

    The HMAC and JWT samples of plugins/samples: signed URLs, signed cookies,
    signed request lines and JSON web tokens. *)

From S2P Require Import Prelude Absl Headers Host Rules ThirdParty.

(** [absl::Now] reads the host's clock: nanoseconds since the epoch. *)
Definition Now : Prog Z := call GetCurrentTime.
Definition ToUnixNanos (t : Z) : Z := t.
Definition ToUnixSeconds (t : Z) : Z := (t / 1000000000)%Z.

(** ** hmac_authtoken *)

Module HmacAuthToken.
Section plugin.
Context `{Absl} `{Boost} `{OpenSSL} `{Sdk}.

Definition kSecretKey : str := "your_secret_key"%str.

(** The result of [HMAC] is not checked: a failure leaves [len] undefined. *)
Definition computeHmacSignature (data : str) : Prog str :=
match HMAC EVP_sha256 kSecretKey data with
| Some result => mret (BytesToHexString result)
| None => Trap
end.

Definition onRequestHeaders (n : Z) (end_of_stream : bool) : Prog FilterHeadersStatus.t :=
path ← getRequestHeader ":path"%str;
path ← deref path;
match parse_relative_ref (toString path) with
| inr error =>
    _ ← LOG_ERROR ("Error parsing the :path HTTP header: "%str ++ error);
    _ ← sendLocalResponse 400 [] ("Error parsing the :path HTTP header."%str ++ nl) [];
    mret FilterHeadersStatus.ContinueAndEndStream
| inl url =>
    match params_find false url "token"%str with
    | None =>
        _ ← LOG_INFO "Access forbidden - missing token."%str;
        _ ← sendLocalResponse 403 [] ("Access forbidden - missing token."%str ++ nl) [];
        mret FilterHeadersStatus.ContinueAndEndStream
    | Some token =>
        let url := params_erase_first url "token"%str in
        let path := url_buffer url in
        signature ← computeHmacSignature path;
        if decide (signature <> token) then
          _ ← LOG_INFO "Access forbidden - invalid token."%str;
          _ ← sendLocalResponse 403 [] ("Access forbidden - invalid token."%str ++ nl) [];
          mret FilterHeadersStatus.ContinueAndEndStream
        else
          _ ← replaceRequestHeader ":path"%str path;
          mret FilterHeadersStatus.Continue
    end
end.
End plugin.
End HmacAuthToken.

(** ** hmac_token_validation *)

Module HmacTokenValidation.
Section plugin.
Context `{Absl} `{OpenSSL} `{Sdk}.

(** The fields of the root context, which [onConfigure] leaves alone. *)
Definition secret_key_ : str := "your-secret-key"%str.
Definition token_validity_seconds_ : Z := 300.

Definition onConfigure (_ : Z) : Prog bool := mret true.

Definition computeHmacMd5 (message key : str) : str :=
if bool_decide (message = []) || bool_decide (key = []) then []
else match HMAC EVP_md5 key message with
     | None => []
     | Some hash => if bool_decide (hash = []) then [] else BytesToHexString hash
     end.

(** The structured binding of lines 84 names the two token parts.
  [current_time - token_timestamp] is computed in [uint64_t]. *)
Definition onRequestHeaders (headers_size : Z) (end_of_stream : bool)
  : Prog FilterHeadersStatus.t :=
let reject code details body :=
  _ ← sendLocalResponse code details body [];
  mret FilterHeadersStatus.StopIteration in
auth_header ← getRequestHeader "authorization"%str;
let auth_value := match auth_header with Some d => view d | None => [] end in
if bool_decide (auth_value = []) then
  reject 401%Z ("WWW-Authenticate: HMAC realm="%str ++ dquote ++ "api"%str ++ dquote)
    "Missing Authorization header"%str
else
  let prefix := "HMAC "%str in
  if negb (StartsWithIgnoreCase auth_value prefix) then
    reject 400%Z [] "Invalid Authorization scheme. Use 'HMAC'"%str
  else
    let token := substr auth_value (length prefix) None in
    match StrSplitMax1 token ":" with
    | [token_timestamp_str; token_hmac] =>
        match SimpleAtoi64 token_timestamp_str with
        | None => reject 400%Z [] "Invalid timestamp"%str
        | Some token_timestamp =>
            now ← Now;
            let current_time := wrap64 (ToUnixSeconds now) in
            if (token_validity_seconds_ <? wrap64 (current_time - token_timestamp))%Z then
              reject 403%Z [] "Token expired"%str
            else
              path ← getRequestHeader ":path"%str;
              method ← getRequestHeader ":method"%str;
              match path, method with
              | Some path, Some method =>
                  let message := StrCat [view method; view path; token_timestamp_str] in
                  let expected_hmac := computeHmacMd5 message secret_key_ in
                  if bool_decide (expected_hmac = []) then
                    reject 500%Z [] "Internal server error during authentication"%str
                  else if negb (bool_decide (expected_hmac = token_hmac)) then
                    _ ← getRequestHeader "x-forwarded-for"%str;
                    reject 403%Z [] "Invalid HMAC"%str
                  else mret FilterHeadersStatus.Continue
              | _, _ => reject 400%Z [] "Missing required headers"%str
              end
        end
    | _ => reject 400%Z [] "Invalid token format: expected 'timestamp:hmac'"%str
    end.
End plugin.
End HmacTokenValidation.

(** ** hmac_authcookie *)

Module HmacAuthCookie.
Section plugin.
Context `{Absl} `{Re2} `{OpenSSL} `{Sdk}.

Definition kSecretKey : str := "your_secret_key"%str.

(** The root context's [ip_match], absent before [onConfigure]. *)
Definition ip_pattern : str := "^(?:[0-9]{1,3}\.){3}[0-9]{1,3}$"%str.
Definition onConfigure (_ : Z) : Prog (bool * option regex) :=
let ip_match := re_compile ip_pattern in
mret (re_ok ip_match, Some ip_match).

Definition isHashTimestampValid (expiration_timestamp : str) : Prog bool :=
now ← Now;
let unix_now := ToUnixNanos now in
mret (match SimpleAtoi64 expiration_timestamp with
      | Some parsed_expiration_timestamp => (unix_now <=? parsed_expiration_timestamp)%Z
      | None => false
      end).

(** The loop over the addresses of the header. *)
Fixpoint first_ip (ip_match : regex) (ips : list str) : option str :=
match ips with
| [] => None
| ip :: ips => if re_FullMatch ip ip_match then Some ip else first_ip ip_match ips
end.

Definition getClientIp (ip_match : option regex) : Prog (option str) :=
header ← getRequestHeader "X-Forwarded-For"%str;
header ← deref header;
let ips := toString header in
rx ← deref ip_match;
mret (first_ip rx (StrSplit ips ",")).

Fixpoint authorization_cookie (cookies : list str) : option str :=
match cookies with
| [] => None
| sp :: cookies =>
    let cookie := SplitPair (StrSplitMax1 sp "=") in
    if bool_decide (cookie.1 = "Authorization"%str) then Some cookie.2
    else authorization_cookie cookies
end.

Definition getAuthorizationCookie : Prog (option str) :=
header ← getRequestHeader "Cookie"%str;
header ← deref header;
let cookies := toString header in
mret (authorization_cookie (StrSplitBy cookies "; "%str)).

Definition parseAuthorizationCookie (cookie : str) : option (str * str) :=
let payload_and_hash := SplitPair (StrSplit cookie ".") in
if bool_decide (payload_and_hash.2 = []) then None
else payload ← Base64Unescape payload_and_hash.1;
     hash ← Base64Unescape payload_and_hash.2;
     Some (payload, hash).

Definition computeHmacSignature (data : str) : Prog str :=
match HMAC EVP_sha256 kSecretKey data with
| Some result => mret (BytesToHexString result)
| None => Trap
end.

Definition onRequestHeaders (ip_match : option regex) (n : Z) (end_of_stream : bool)
  : Prog FilterHeadersStatus.t :=
let reject why :=
  _ ← LOG_INFO ("Access forbidden - "%str ++ why ++ "."%str);
  _ ← sendLocalResponse 403 [] ("Access forbidden - "%str ++ why ++ "."%str ++ nl) [];
  mret FilterHeadersStatus.ContinueAndEndStream in
ip ← getClientIp ip_match;
match ip with
| None => reject "missing client IP"%str
| Some ip =>
    token ← getAuthorizationCookie;
    match token with
    | None => reject "missing HMAC cookie"%str
    | Some token =>
        match parseAuthorizationCookie token with
        | None => reject "invalid HMAC cookie"%str
        | Some payload_and_hash =>
            signature ← computeHmacSignature payload_and_hash.1;
            if decide (signature <> payload_and_hash.2) then
              reject "invalid HMAC hash"%str
            else
              let client_ip_and_expiration_timestamp :=
                SplitPair (StrSplit payload_and_hash.1 ",") in
              if decide (ip <> client_ip_and_expiration_timestamp.1) then
                reject "invalid client IP"%str
              else
                valid ← isHashTimestampValid client_ip_and_expiration_timestamp.2;
                if negb valid then reject "hash expired"%str
                else mret FilterHeadersStatus.Continue
        end
    end
end.
End plugin.
End HmacAuthCookie.

(** ** jwt_auth *)

Module JwtAuth.
Section plugin.
Context `{Absl} `{Boost} `{JwtVerify} `{Sdk}.

(** The root context's [jwks_]. *)
Definition onConfigure (config_len : Z) : Prog (bool * Jwks) :=
config_ ← getBufferBytes PluginConfiguration 0 config_len;
config_ ← deref config_;
let rsa_key := toString config_ in
let jwks_ := Jwks_createFrom rsa_key in
mret (Jwks_getStatus_ok jwks_, jwks_).

(** [url->params()] on a URL that failed to parse is undefined. *)
Definition onRequestHeaders (jwks_ : Jwks) (n : Z) (end_of_stream : bool)
  : Prog FilterHeadersStatus.t :=
let reject why :=
  _ ← LOG_INFO why;
  _ ← sendLocalResponse 403 [] (why ++ nl) [];
  mret FilterHeadersStatus.ContinueAndEndStream in
path ← getRequestHeader ":path"%str;
let text := match path with Some d => view d | None => [] end in
if bool_decide (text = []) then mret FilterHeadersStatus.Continue
else
  match parse_uri_reference text with
  | inr _ => Trap
  | inl url =>
      match params_find false url "jwt"%str with
      | None => reject "Access forbidden - missing token."%str
      | Some value =>
          match Jwt_parseFromString value with
          | None => reject "Access forbidden - invalid token."%str
          | Some jwt =>
              if negb (verifyJwt_ok jwt jwks_) then reject "Access forbidden."%str
              else
                let url := params_erase_first url "jwt"%str in
                _ ← replaceRequestHeader ":path"%str (url_buffer url);
                mret FilterHeadersStatus.Continue
          end
      end
  end.
End plugin.
End JwtAuth.

(** ** Theorems *)

Section authtoken.
Context `{!Absl} `{!AbslOk _} `{!Boost} `{!OpenSSL} `{!OpenSSLOk _} `{!Sdk} `{!SdkOk _}.

(** The signature of a text under the sample's key, in hexadecimal. *)
Definition sha256_signature (data sig : str) : Prop :=
  exists d, HMAC EVP_sha256 HmacAuthToken.kSecretKey data = Some d /\ sig = to_hex d.

(** A signed path: its token signs the rest of it. *)
Definition signed_path (p rest : str) : Prop :=
  exists u t, parse_relative_ref p = inl u /\ params_find false u "token"%str = Some t /\
    rest = url_buffer (params_erase_first u "token"%str) /\ sha256_signature rest t.

Lemma signed_path_unique p a b : signed_path p a -> signed_path p b -> a = b.
Proof. intros (? & ? & ? & ? & -> & _) (? & ? & ? & ? & -> & _). congruence. Qed.

Lemma sha256_signature_unique data a b :
  sha256_signature data a -> sha256_signature data b -> a = b.
Proof. intros (? & ? & ->) (? & ? & ->). congruence. Qed.

Lemma wp_authtoken_signature data (Q : str -> HostView -> Prop) v :
  (forall sig, sha256_signature data sig -> Q sig v) ->
  wp (HmacAuthToken.computeHmacSignature data) Q v.
Proof.
  intros HQ. unfold HmacAuthToken.computeHmacSignature.
  destruct (HMAC_ok EVP_sha256 HmacAuthToken.kSecretKey data) as (d & Hd & _).
  rewrite Hd, BytesToHexString_ok. apply wp_ret, HQ. by exists d.
Qed.

(** C19. Only a path whose token is the signature of the path without the
    token passes, and what is forwarded is exactly the text that was signed. *)
Theorem HmacAuthToken_spec v m n e p :
  maps v !! RequestHeaders = Some m -> response v = None -> can_respond v = true ->
  hm_get ":path"%str m = Some p ->
  wp (HmacAuthToken.onRequestHeaders n e) (λ st w,
    (exists rest, signed_path p rest /\ st = FilterHeadersStatus.Continue /\
       w = with_map RequestHeaders (hm_set ":path"%str rest m) v) \/
    ((forall rest, ~ signed_path p rest) /\ st = FilterHeadersStatus.ContinueAndEndStream /\
       exists r, response w = Some r /\ lr_code r ∈ [400; 403]%Z)) v.
Proof.
  intros Hm Hr Hc Hp. unfold HmacAuthToken.onRequestHeaders. wp_auto.
  - apply wp_authtoken_signature. intros sig Hsig. wp_auto.
    + right. split; [|split; [done|]; eexists; split; [done|set_solver]].
      intros rest (u' & t & Hu & Ht & -> & Hs).
      assert (u' = u) as -> by congruence. assert (t = l) as -> by congruence.
      by eapply sha256_signature_unique in Hs; [|exact Hsig].
    + left. match goal with H : ~ _ <> _ |- _ => apply dec_stable in H as <- end.
      eexists. split; [|done]. do 2 eexists. eauto.
  - right. split; [|split; [done|]; eexists; split; [done|set_solver]].
    intros rest (u' & t & Hu & Ht & _). congruence.
  - right. split; [|split; [done|]; eexists; split; [done|set_solver]].
    intros rest (u' & t & Hu & _). congruence.
Qed.
End authtoken.

Section token_validation.
Context `{!Absl} `{!AbslOk _} `{!OpenSSL} `{!OpenSSLOk _} `{!Sdk} `{!SdkOk _}.

(** The signature of a request line. *)
Definition md5_signature (data sig : str) : Prop :=
  exists d, HMAC EVP_md5 HmacTokenValidation.secret_key_ data = Some d /\ sig = to_hex d.

(** An authorization header, for a request at [t] nanoseconds. *)
Definition token_valid (t : Z) (method path auth : str) : Prop :=
  exists ts sig z, lower (take 5 auth) = "hmac "%str /\
    drop 5 auth = ts ++ ":"%char :: sig /\ (":"%char ∉ ts) /\
    parse_int_in int64_min int64_max ts = Some z /\
    (0 <= t / 1000000000 - z <= 300)%Z /\
    method ++ path ++ ts <> [] /\ md5_signature (method ++ path ++ ts) sig.

(** The unsigned comparison accepts neither old nor future timestamps. *)
Lemma age_check c z :
  (0 <= c < 2 ^ 63)%Z -> (int64_min <= z <= int64_max)%Z ->
  (HmacTokenValidation.token_validity_seconds_ <? wrap64 (wrap64 c - z))%Z = false <->
  (0 <= c - z <= 300)%Z.
Proof.
  unfold HmacTokenValidation.token_validity_seconds_, int64_min, int64_max.
  intros Hc Hz. rewrite (wrap64_id c), Z.ltb_ge by lia. unfold wrap64.
  destruct (Z.le_gt_cases 0 (c - z)) as [Hp|Hn].
  - rewrite Z.mod_small by lia. lia.
  - rewrite <- (Z_mod_plus_full _ 1), Z.mod_small by lia. lia.
Qed.

Lemma to_hex_nil s : to_hex s = [] -> s = [].
Proof. by destruct s. Qed.

Lemma computeHmacMd5_spec data sig :
  (sig = HmacTokenValidation.computeHmacMd5 data HmacTokenValidation.secret_key_ /\
   sig <> []) <-> (data <> [] /\ md5_signature data sig).
Proof.
  unfold HmacTokenValidation.computeHmacMd5, md5_signature.
  destruct (HMAC_ok EVP_md5 HmacTokenValidation.secret_key_ data) as (d & Hd & Hne).
  rewrite Hd, BytesToHexString_ok. rewrite (bool_decide_false (d = [])) by done.
  case_bool_decide as Hdata; simpl.
  - split; [intros [-> ?]; done|by intros [? _]].
  - split.
    + intros [-> _]. split; [done|]. by exists d.
    + intros (_ & d' & [= <-] & ->). split; [done|]. by intros ?%to_hex_nil.
Qed.

(** The same, computed from the first colon. *)
Lemma token_valid_cut t method path auth :
  token_valid t method path auth <->
  starts_with "hmac "%str (lower auth) = true /\
  match cut_at ":" (drop 5 auth) with
  | Some (ts, sig) =>
      match parse_int_in int64_min int64_max ts with
      | Some z =>
          (0 <= t / 1000000000 - z <= 300)%Z /\ sig <> [] /\
          HmacTokenValidation.computeHmacMd5 (method ++ path ++ ts)
            HmacTokenValidation.secret_key_ = sig
      | None => False
      end
  | None => False
  end.
Proof.
  unfold token_valid. split.
  - intros (ts & sig & z & Hl & Hd & Hts & Hz & Ht & Hne & Hsig).
    assert (lower auth = "hmac "%str ++ lower (drop 5 auth)) as ->.
    { by rewrite <- Hl, <- lower_app, take_drop. }
    split; [done|]. rewrite Hd, cut_at_app, Hz by done. split; [done|].
    destruct (proj2 (computeHmacMd5_spec (method ++ path ++ ts) sig)); [done|]. by split.
  - intros [Hp Hc]. destruct (cut_at _ _) as [[ts sig]|] eqn:Hcut; [|done].
    apply cut_at_inv in Hcut as [Hd Hts].
    destruct (parse_int_in _ _ ts) as [z|] eqn:Hz; [|done]. destruct Hc as (Ht & Hne & Hsig).
    exists ts, sig, z. destruct (proj1 (computeHmacMd5_spec (method ++ path ++ ts) sig));
      [done|]. split_and!; try done; try lia.
    apply starts_with_spec in Hp as [rest Hrest].
    unfold lower in *. rewrite <- firstn_map, Hrest. done.
Qed.

Lemma parse_int_in_range lo hi s z : parse_int_in lo hi s = Some z -> (lo <= z <= hi)%Z.
Proof.
  unfold parse_int_in. destruct (parse_int s); simpl; [|done]. case_decide; naive_solver.
Qed.

Lemma HmacTokenValidation_guard v m n e path method :
  maps v !! RequestHeaders = Some m -> can_respond v = true ->
  hm_get ":path"%str m = Some path -> hm_get ":method"%str m = Some method ->
  (0 <= now v < 2 ^ 63)%Z ->
  guards (HmacTokenValidation.onRequestHeaders n e) v
    (token_valid (now v) method path (default [] (hm_get "authorization"%str m)))
    FilterHeadersStatus.Continue v FilterHeadersStatus.StopIteration
    [400; 401; 403; 500]%Z.
Proof.
  intros Hm Hc Hp Hme Hnow. unfold HmacTokenValidation.onRequestHeaders, Now, guards.
  cbv zeta. apply wp_bind_2. eapply wp_getHeader_text; [done|]. intros ptr ->.
  generalize (default [] (hm_get "authorization"%str m)). intros auth.
  rewrite StartsWithIgnoreCase_ok, StrSplitMax1_ok. unfold substr.
  change (length "HMAC "%str) with 5. change (lower "HMAC "%str) with "hmac "%str.
  pose proof (token_valid_cut (now v) method path auth) as Hcut.
  assert (auth = [] -> starts_with "hmac "%str (lower auth) = false) as Hnil by by intros ->.
  destruct (cut_at ":" (drop 5 auth)) as [[ts sig]|]; wp_auto; simplify_eq.
  all: rewrite ?Hcut; autorewrite with absl in *; rewrite ?concat_three in *.
  all: try match goal with
       | H : parse_int_in _ _ _ = Some ?z |- _ =>
           pose proof (age_check (now v / 1000000000) z ltac:(split; [apply Z.div_pos; lia|
             apply Z.div_lt_upper_bound; lia]) (parse_int_in_range _ _ _ _ H))
       end.
  all: repeat match goal with
       | H : parse_int_in _ _ _ = _ |- _ => rewrite H in *; clear H
       | H : starts_with _ (lower _) = _ |- _ => rewrite H in *; clear H
       end.
  all: unfold ToUnixSeconds in *.
  all: try (by denied; intuition congruence).
  left. intuition.
Qed.

Lemma digits_value_nonneg s :
  Forall (λ c, is_digit c = true) s -> (0 <= digits_value s)%Z.
Proof.
  intros Hs. unfold digits_value.
  assert (forall n, (0 <= n)%Z -> 0 <= fold_left (λ n c, n * 10 + (code c - 48)) s n)%Z as Hf;
    [|by apply Hf].
  induction Hs as [|c s Hc Hs IH]; intros n Hn; simpl; [done|]. apply IH.
  unfold is_digit, in_range in Hc. apply andb_true_iff in Hc as [Hlo _].
  apply Z.leb_le in Hlo. change (code "0"%char) with 48%Z in Hlo. lia.
Qed.

Lemma parse_int_digits s :
  Forall (λ c, is_digit c = true) s -> s <> [] -> parse_int s = Some (digits_value s).
Proof.
  intros Hs Hne. unfold parse_int. rewrite strip_id.
  - assert (parse_digits s = Some (digits_value s)) as Hp.
    { unfold parse_digits. destruct s as [|c s]; [done|].
      replace (forallb is_digit (c :: s)) with true; [done|]. symmetry.
      apply forallb_forall. intros x Hx. rewrite Forall_forall in Hs.
      by apply Hs, list_elem_of_In. }
    destruct s as [|c s]; [done|]. inversion Hs as [|? ? Hc Hs']; subst.
    destruct c as [[] [] [] [] [] [] [] []]; first [discriminate Hc | exact Hp].
  - rewrite Forall_forall in Hs.
    assert (forall c, c ∈ s -> is_space c = false) as Hd.
    { intros c Hc. specialize (Hs c Hc). by destruct c as [[] [] [] [] [] [] [] []]. }
    split; intros c Hc; apply Hd.
    + destruct s; simplify_eq/=. by left.
    + by apply last_Some_elem_of.
Qed.

Lemma HmacTokenValidation_passes v m n e path method auth :
  maps v !! RequestHeaders = Some m -> can_respond v = true ->
  hm_get ":path"%str m = Some path -> hm_get ":method"%str m = Some method ->
  hm_get "authorization"%str m = Some auth -> (0 <= now v < 2 ^ 63)%Z ->
  token_valid (now v) method path auth ->
  returns (HmacTokenValidation.onRequestHeaders n e) v FilterHeadersStatus.Continue v.
Proof.
  intros Hm Hc Hp Hme Ha Hnow Hvalid.
  eapply wp_mono; [|by apply (HmacTokenValidation_guard v m n e path method)].
  intros st w [(_ & -> & ->)|(Hno & _)]; [done|]. rewrite Ha in Hno. by destruct Hno.
Qed.

(** A leading zero does not change the timestamp. *)
Lemma token_valid_digits t method path zeros ts digest :
  Forall (λ c, is_digit c = true) ts -> ts <> [] ->
  Forall (λ c, c = "0"%char) zeros ->
  (digits_value ts <= int64_max)%Z ->
  (0 <= t / 1000000000 - digits_value ts <= 300)%Z -> (0 <= digits_value ts)%Z ->
  md5_signature (method ++ path ++ zeros ++ ts) digest ->
  token_valid t method path ("HMAC "%str ++ (zeros ++ ts) ++ ":"%str ++ digest).
Proof.
  intros Hd Hne Hz Hmax Hage Hpos Hsig.
  assert (digits_value (zeros ++ ts) = digits_value ts) as Hval.
  { clear -Hz. unfold digits_value. rewrite fold_left_app. f_equal.
    induction Hz as [|c zeros -> Hz IH]; [done|]. exact IH. }
  assert (Forall (λ c, is_digit c = true) (zeros ++ ts)) as Hd'.
  { apply Forall_app. split; [|done]. eapply Forall_impl; [exact Hz|]. by intros c ->. }
  exists (zeros ++ ts), digest, (digits_value ts). split_and!; try done; try lia.
  - intros Hin. rewrite Forall_forall in Hd'. by specialize (Hd' _ Hin).
  - unfold parse_int_in. rewrite parse_int_digits, Hval; [|done|by destruct zeros].
    simpl. rewrite decide_True; [done|]. unfold int64_min. lia.
  - intros Hnil%(f_equal length). rewrite !length_app in Hnil.
    destruct ts; [done|simpl in Hnil; lia].
Qed.

(** The signed text does not separate the path from the timestamp: the
    digest that authorizes a path ending in 0 also authorizes the path
    without that digit, presented with the timestamp written with one more
    leading zero.  Both requests pass. *)
Theorem HmacTokenValidation_ambiguous v1 v2 m1 m2 n e method path ts digest :
  Forall (λ c, is_digit c = true) ts -> ts <> [] ->
  (digits_value ts <= int64_max)%Z ->
  (0 <= now v1 / 1000000000 - digits_value ts <= 300)%Z ->
  now v2 = now v1 -> (0 <= now v1 < 2 ^ 63)%Z ->
  maps v1 !! RequestHeaders = Some m1 -> can_respond v1 = true ->
  maps v2 !! RequestHeaders = Some m2 -> can_respond v2 = true ->
  hm_get ":method"%str m1 = Some method -> hm_get ":method"%str m2 = Some method ->
  hm_get ":path"%str m1 = Some (path ++ "0"%str) -> hm_get ":path"%str m2 = Some path ->
  md5_signature (method ++ path ++ "0"%str ++ ts) digest ->
  hm_get "authorization"%str m1 = Some ("HMAC "%str ++ ts ++ ":"%str ++ digest) ->
  hm_get "authorization"%str m2 = Some ("HMAC 0"%str ++ ts ++ ":"%str ++ digest) ->
  returns (HmacTokenValidation.onRequestHeaders n e) v1 FilterHeadersStatus.Continue v1 /\
  returns (HmacTokenValidation.onRequestHeaders n e) v2 FilterHeadersStatus.Continue v2.
Proof.
  intros Hd Hne Hmax Hage Hnow Hrange Hm1 Hc1 Hm2 Hc2 Hme1 Hme2 Hp1 Hp2 Hsig Ha1 Ha2.
  assert (0 <= digits_value ts)%Z as Hpos by by apply digits_value_nonneg.
  split.
  - eapply HmacTokenValidation_passes; try eassumption.
    apply (token_valid_digits _ _ _ []); try done. by rewrite <- app_assoc.
  - eapply HmacTokenValidation_passes; try eassumption; [by rewrite Hnow|].
    apply (token_valid_digits _ _ _ "0"%str); try done; [by repeat constructor|].
    by rewrite Hnow.
Qed.

End token_validation.

Section authcookie.
Context `{!Absl} `{!AbslOk _} `{!Re2} `{!OpenSSL} `{!OpenSSLOk _}
  `{!Sdk} `{!SdkOk _} `{!SdkNonNull _}.

(** The first address of a forwarding list that the regular expression
    accepts. *)
Definition client_ip (rx : regex) (ips : str) : option str :=
  head (filter (λ ip, re_FullMatch ip rx = true) (split_on "," ips)).

Lemma first_ip_spec rx ips :
  HmacAuthCookie.first_ip rx ips = head (filter (λ ip, re_FullMatch ip rx = true) ips).
Proof.
  induction ips as [|ip ips IH]; simpl; [done|]. rewrite filter_cons.
  destruct (re_FullMatch ip rx) eqn:Hm; [by rewrite decide_True|].
  by rewrite decide_False by congruence.
Qed.

(** Name and value of a cookie. *)
Definition cookie_pair (sp : str) : str * str := default (sp, []) (cut_at "=" sp).

(** The value of the first cookie called Authorization. *)
Definition authorization (cookies : str) : option str :=
  snd <$> head (filter (λ c, c.1 = "Authorization"%str)
    (cookie_pair <$> split_by "; "%str cookies)).

Lemma authorization_cookie_spec cookies :
  HmacAuthCookie.authorization_cookie cookies =
  snd <$> head (filter (λ c, c.1 = "Authorization"%str) (cookie_pair <$> cookies)).
Proof.
  induction cookies as [|sp cookies IH]; [done|].
  cbn [HmacAuthCookie.authorization_cookie]. rewrite fmap_cons, filter_cons.
  assert (SplitPair (StrSplitMax1 sp "=") = cookie_pair sp) as ->.
  { absl. unfold cookie_pair. by destruct (cut_at "=" sp) as [[]|]. }
  destruct (bool_decide_reflect ((cookie_pair sp).1 = "Authorization"%str)) as [Hc|Hc].
  - by rewrite decide_True.
  - by rewrite decide_False.
Qed.

(** A cookie that was issued to [ip] and has not expired at time [t]. *)
Definition cookie_valid (t : Z) (ip token : str) : Prop :=
  exists payload sig z,
    HmacAuthCookie.parseAuthorizationCookie token = Some (payload, sig) /\
    sha256_signature payload sig /\
    (first_two (split_on "," payload)).1 = ip /\
    parse_int_in int64_min int64_max (first_two (split_on "," payload)).2 = Some z /\
    (t <= z)%Z.

Lemma wp_getClientIp rx m (Q : option str -> HostView -> Prop) v :
  maps v !! RequestHeaders = Some m ->
  Q (client_ip rx (default [] (hm_get "X-Forwarded-For"%str m))) v ->
  wp (HmacAuthCookie.getClientIp (Some rx)) Q v.
Proof.
  intros Hm HQ. unfold HmacAuthCookie.getClientIp. apply wp_bind_2.
  eapply wp_getHeader_nonnull; [done|]. intros d Hd. wp_auto.
  unfold toString. by rewrite first_ip_spec, Hd, StrSplit_ok.
Qed.

Lemma wp_getAuthorizationCookie m (Q : option str -> HostView -> Prop) v :
  maps v !! RequestHeaders = Some m ->
  Q (authorization (default [] (hm_get "Cookie"%str m))) v ->
  wp HmacAuthCookie.getAuthorizationCookie Q v.
Proof.
  intros Hm HQ. unfold HmacAuthCookie.getAuthorizationCookie. apply wp_bind_2.
  eapply wp_getHeader_nonnull; [done|]. intros d Hd. wp_auto.
  unfold toString. by rewrite authorization_cookie_spec, Hd, StrSplitBy_ok.
Qed.

Lemma wp_authcookie_signature data (Q : str -> HostView -> Prop) v :
  (forall sig, sha256_signature data sig -> Q sig v) ->
  wp (HmacAuthCookie.computeHmacSignature data) Q v.
Proof.
  intros HQ. unfold HmacAuthCookie.computeHmacSignature.
  destruct (HMAC_ok EVP_sha256 HmacAuthCookie.kSecretKey data) as (d & Hd & _).
  rewrite Hd, BytesToHexString_ok. apply wp_ret, HQ. by exists d.
Qed.

End authcookie.

Section jwt.
Context `{!Absl} `{!AbslOk _} `{!Boost} `{!JwtVerify} `{!Sdk} `{!SdkOk _}.

(** A URL that carries a token the keys verify. *)
Definition jwt_authorized (keys : Jwks) (u : url) : Prop :=
  exists t j, params_find false u "jwt"%str = Some t /\ Jwt_parseFromString t = Some j /\
    verifyJwt_ok j keys = true.

End jwt.

(** ** The properties at concrete inputs *)

Section witnesses.
#[local] Existing Instances absl_ref sdk_ref boost_ref openssl_ref.

Definition demo_signature : str :=
  Eval vm_compute in to_hex (HmacAuthToken.kSecretKey ++ zero :: "/a?b=c"%str).
Definition demo_path : str := "/a?b=c&token="%str ++ demo_signature.
Definition path_request (p : str) : list (str * str) := [(":path"%str, p)].

Lemma HmacAuthToken_spec_witness :
  signed_path demo_path "/a?b=c"%str /\
  wp (HmacAuthToken.onRequestHeaders 1 false) (λ st w,
    st = FilterHeadersStatus.Continue /\
    final_header RequestHeaders ":path"%str w = Some "/a?b=c"%str)
    (sample_view RequestHeaders (path_request demo_path)).
Proof.
  assert (signed_path demo_path "/a?b=c"%str) as Hs.
  { do 2 eexists. split_and!; [reflexivity|vm_compute; reflexivity|vm_compute; reflexivity|].
    eexists. split; [reflexivity|vm_compute; reflexivity]. }
  split; [exact Hs|].
  eapply wp_mono; [|apply (HmacAuthToken_spec _ (hm_of_pairs (path_request demo_path))
    1 false demo_path); vm_compute; reflexivity].
  intros st w [(rest & Hrest & -> & ->)|(Hno & _)]; [|by destruct (Hno _ Hs)].
  split; [done|]. rewrite (signed_path_unique _ _ _ Hrest Hs). vm_compute. reflexivity.
Defined.

Definition clock_view (l : list (str * str)) : HostView :=
  mkHostView {[ RequestHeaders := hm_of_pairs l ]} ∅ (λ _, None) true None []
    1717000100000000000.
Definition demo_digest : str :=
  Eval vm_compute in
    to_hex (HmacTokenValidation.secret_key_ ++ zero :: "GET/a01717000000"%str).
Definition token_request (path ts : str) : list (str * str) :=
  [(":method"%str, "GET"%str); (":path"%str, path);
   ("Authorization"%str, "HMAC "%str ++ ts ++ ":"%str ++ demo_digest)].

Lemma demo_digest_ok : md5_signature "GET/a01717000000"%str demo_digest.
Proof. eexists. split; [reflexivity|vm_compute; reflexivity]. Qed.

(** The digest of GET /a0 at 1717000000 passes for GET /a at 01717000000. *)
Lemma HmacTokenValidation_ambiguous_witness :
  returns (HmacTokenValidation.onRequestHeaders 3 false)
    (clock_view (token_request "/a0"%str "1717000000"%str)) FilterHeadersStatus.Continue
    (clock_view (token_request "/a0"%str "1717000000"%str)) /\
  returns (HmacTokenValidation.onRequestHeaders 3 false)
    (clock_view (token_request "/a"%str "01717000000"%str)) FilterHeadersStatus.Continue
    (clock_view (token_request "/a"%str "01717000000"%str)).
Proof.
  apply (HmacTokenValidation_ambiguous _ _
    (hm_of_pairs (token_request "/a0"%str "1717000000"%str))
    (hm_of_pairs (token_request "/a"%str "01717000000"%str)) 3 false "GET"%str "/a"%str
    "1717000000"%str demo_digest).
  - repeat constructor.
  - discriminate.
  - vm_compute. discriminate.
  - vm_compute. split; discriminate.
  - reflexivity.
  - vm_compute. split; [discriminate|reflexivity].
  - reflexivity.
  - reflexivity.
  - reflexivity.
  - reflexivity.
  - vm_compute. reflexivity.
  - vm_compute. reflexivity.
  - vm_compute. reflexivity.
  - vm_compute. reflexivity.
  - exact demo_digest_ok.
  - vm_compute. reflexivity.
  - vm_compute. reflexivity.
Defined.


Definition cookie_payload : str := "192.0.2.7,1717000100000000000"%str.
Definition cookie_token : str :=
  Eval vm_compute in
    base64_encode "+/"%str 0 0 cookie_payload ++ "."%str ++
    base64_encode "+/"%str 0 0
      (to_hex (HmacAuthCookie.kSecretKey ++ zero :: cookie_payload)).
Definition cookie_request : list (str * str) :=
  [("X-Forwarded-For"%str, "unknown,192.0.2.7"%str);
   ("Cookie"%str, "a=b; Authorization="%str ++ cookie_token)].

Lemma cookie_token_ok :
  cookie_valid 1717000100000000000 "192.0.2.7"%str cookie_token.
Proof.
  exists cookie_payload,
    (to_hex (HmacAuthCookie.kSecretKey ++ zero :: cookie_payload)), 1717000100000000000%Z.
  split_and!; try (vm_compute; reflexivity); [|lia].
  eexists. split; [reflexivity|vm_compute; reflexivity].
Qed.


End witnesses.
