(* ===== verification/Cookies.v ===== *)
(** * Samples that manage cookies

    set_cookie (session identifiers) and set_reset_cookie (a configurable
    cookie manager) of plugins/samples. *)

From S2P Require Import Prelude Absl Headers Host Rules ThirdParty.

(** ** set_cookie *)

Module SetCookie.
Section plugin.
Context `{Absl} `{Sdk}.

Definition kCookieName : str := "my_cookie"%str.
Definition kMaxCookieLength : Z := 4096.
Definition kMaxSessionIdLength : Z := 128.

(** [absl::Uniform<uint64_t>(bitgen_)] *)
Definition generateRandom : Prog Z := call GetRandom.

(** The loop over the characters of an identifier. *)
Fixpoint valid_characters (session_id : str) : Prog bool :=
match session_id with
| [] => mret true
| c :: session_id =>
    if negb (is_alnum c) then
      _ ← LOG_DEBUG ("Session ID contains invalid character: "%str ++ [c]);
      mret false
    else valid_characters session_id
end.

Definition isValidSessionId (session_id : str) : Prog bool :=
if bool_decide (session_id = []) then
  _ ← LOG_DEBUG "Empty session ID rejected"%str;
  mret false
else if (kMaxSessionIdLength <? size_of session_id)%Z then
  _ ← LOG_DEBUG ("Session ID too long: "%str ++ to_string (size_of session_id) ++
                 " characters (max "%str ++ to_string kMaxSessionIdLength ++ ")"%str);
  mret false
else valid_characters session_id.

(** The loop over the cookies. *)
Fixpoint find_session (pairs : list str) : Prog (option str) :=
match pairs with
| [] =>
    _ ← LOG_DEBUG ("Cookie "%str ++ kCookieName ++ " not found in request"%str);
    mret None
| sp :: pairs =>
    if bool_decide (sp = []) then
      _ ← LOG_DEBUG "Empty cookie pair found, skipping"%str;
      find_session pairs
    else
      match StrSplitMax1 sp "=" with
      | [part0; part1] =>
          if bool_decide (part0 = kCookieName) then
            _ ← LOG_DEBUG ("Found target cookie: "%str ++ kCookieName);
            valid ← isValidSessionId part1;
            if valid : bool then
              _ ← LOG_DEBUG ("Valid session ID found: "%str ++ part1);
              mret (Some part1)
            else
              _ ← LOG_WARN ("Invalid session ID format for cookie "%str ++ kCookieName ++
                            ": "%str ++ part1);
              mret None
          else find_session pairs
      | _ =>
          _ ← LOG_DEBUG ("Malformed cookie pair, skipping: "%str ++ sp);
          find_session pairs
      end
end.

Definition getSessionIdFromCookie : Prog (option str) :=
cookie_header_ptr ← getRequestHeader "Cookie"%str;
match cookie_header_ptr with
| None =>
    _ ← LOG_DEBUG "getRequestHeader returned null pointer"%str;
    mret None
| Some d =>
    let cookies := toString d in
    if bool_decide (cookies = []) then
      _ ← LOG_DEBUG "Empty Cookie header found"%str;
      mret None
    else if (kMaxCookieLength <? size_of cookies)%Z then
      _ ← LOG_WARN ("Cookie header too large ("%str ++ to_string (size_of cookies) ++
                    " bytes), ignoring for security"%str);
      mret None
    else
      _ ← LOG_DEBUG ("Parsing Cookie header: "%str ++ cookies);
      find_session (StrSplitBy cookies "; "%str)
end.

(** The stream's field [session_id_] is the result. *)
Definition onRequestHeaders (n : Z) (end_of_stream : bool)
  : Prog (FilterHeadersStatus.t * option str) :=
session_id_ ← getSessionIdFromCookie;
_ ← (if bool_decide (is_Some session_id_)
     then LOG_DEBUG "Found existing session ID in request"%str
     else LOG_DEBUG "No valid session ID found in request"%str);
mret (FilterHeadersStatus.Continue, session_id_).

(** [wasm_result_code] is the number of a [WasmResult]. *)
Definition onResponseHeaders (wasm_result_code : WasmResult -> Z) (session_id_ : option str)
  (n : Z) (end_of_stream : bool) : Prog FilterHeadersStatus.t :=
match session_id_ with
| Some id =>
    _ ← LOG_INFO ("This current request is for the existing session ID: "%str ++ id);
    mret FilterHeadersStatus.Continue
| None =>
    r ← generateRandom;
    let new_session_id := to_string r in
    _ ← LOG_INFO ("New session ID created for the current request: "%str ++ new_session_id);
    let cookie_value :=
      StrCat [kCookieName; "="%str; new_session_id; "; Path=/; HttpOnly"%str] in
    result ← addResponseHeader "Set-Cookie"%str cookie_value;
    _ ← (if decide (result = Ok) then LOG_DEBUG "Successfully added Set-Cookie header"%str
         else LOG_ERROR ("Failed to add Set-Cookie header. Error code: "%str ++
                         to_string (wasm_result_code result)));
    mret FilterHeadersStatus.Continue
end.
End plugin.
End SetCookie.

(** ** set_reset_cookie *)

Module SetResetCookie.

(** cookie_config.proto; an open enum may hold a number without a name. *)
Inductive CookieOperation : Type :=
| COOKIE_OPERATION_UNSPECIFIED | SET | DELETE | OVERWRITE | UnknownOperation (n : Z).

#[export] Instance CookieOperation_eq_dec : EqDecision CookieOperation.
Proof. solve_decision. Defined.

Definition operation_code (o : CookieOperation) : Z :=
match o with
| COOKIE_OPERATION_UNSPECIFIED => 0 | SET => 1 | DELETE => 2 | OVERWRITE => 3
| UnknownOperation n => n
end.

Record CookieConfig : Type := mkCookieConfig {
name : str;
value : str;
domain : str;
path : str;
max_age : Z;
secure : bool;
http_only : bool;
same_site_strict : bool;
operation : CookieOperation;
}.

Section plugin.
(** [TextFormat::ParseFromString] into a [CookieManagerConfig], whose only
  field is [cookies]. *)
Context `{Absl} `{Sdk} (ParseFromString : str -> option (list CookieConfig)).

(** The loop over the configured cookies; also counts the valid ones. *)
Fixpoint load_configs (configs : list CookieConfig)
  (cookie_configs_ : list CookieConfig) (valid_cookies : Z)
  : Prog (list CookieConfig * Z) :=
match configs with
| [] => mret (cookie_configs_, valid_cookies)
| c :: configs =>
    if bool_decide (name c = []) then
      _ ← LOG_ERROR "Cookie configuration missing required 'name' field, skipping"%str;
      load_configs configs cookie_configs_ valid_cookies
    else
      _ ← (if decide ((operation c = SET \/ operation c = OVERWRITE) /\ value c = []) then
             LOG_WARN (StrCat ["Cookie '"%str; name c;
               "' has SET/OVERWRITE operation but empty value"%str])
           else mret tt);
      _ ← LOG_DEBUG (StrCat ["Configure cookie name="%str; name c; ", operation="%str;
                             AlphaNum (operation_code (operation c))]);
      load_configs configs (cookie_configs_ ++ [c]) (valid_cookies + 1)
end.

Definition onConfigure (config_size : Z) (cookie_configs_ : list CookieConfig)
  : Prog (bool * list CookieConfig) :=
if (config_size =? 0)%Z then
  _ ← LOG_WARN "Empty configuration provided, no cookies will be managed"%str;
  mret (true, cookie_configs_)
else
  configuration_data ← getBufferBytes PluginConfiguration 0 config_size;
  match configuration_data with
  | None =>
      _ ← LOG_ERROR "Failed to retrieve configuration data buffer"%str;
      mret (false, cookie_configs_)
  | Some d =>
      match ParseFromString (toString d) with
      | None =>
          _ ← LOG_ERROR ("Failed to parse cookie manager configuration as text protobuf. Please ensure configuration follows the text protobuf format. Example: cookies { name: "%str
                ++ dquote ++ "session"%str ++ dquote ++ " value: "%str ++ dquote ++
                "abc"%str ++ dquote ++ " }"%str);
          mret (false, cookie_configs_)
      | Some [] =>
          _ ← LOG_WARN "Configuration parsed successfully but contains no cookie definitions"%str;
          mret (true, cookie_configs_)
      | Some cookies =>
          '(cookie_configs_, valid_cookies) ← load_configs cookies cookie_configs_ 0;
          if (valid_cookies =? 0)%Z then
            _ ← LOG_ERROR "No valid cookie configurations found after validation"%str;
            mret (false, cookie_configs_)
          else
            _ ← LOG_INFO (StrCat ["Successfully loaded "%str; AlphaNum valid_cookies;
                                  " cookie configuration(s)"%str]);
            mret (true, cookie_configs_)
      end
  end.

(** The loop of [parseRequestCookies]. *)
Fixpoint parse_pairs (pairs : list str) (request_cookies_ : list (str * str))
  : list (str * str) :=
match pairs with
| [] => request_cookies_
| cookie_pair :: pairs =>
    let cookie_pair := StripAsciiWhitespace cookie_pair in
    if bool_decide (cookie_pair = []) then parse_pairs pairs request_cookies_
    else
      match StrSplitMax1 cookie_pair "=" with
      | [part0; part1] =>
          parse_pairs pairs (request_cookies_ ++
            [(StripAsciiWhitespace part0, StripAsciiWhitespace part1)])
      | _ => parse_pairs pairs request_cookies_
      end
end.

Definition parseRequestCookies (request_cookies_ : list (str * str))
  : Prog (list (str * str)) :=
cookie_header ← getRequestHeader "Cookie"%str;
match cookie_header with
| None => mret request_cookies_
| Some d =>
    let cookies := toString d in
    mret (parse_pairs (StrSplit cookies ";") request_cookies_)
end.

Definition rebuildCookieHeader (request_cookies_ : list (str * str)) : Prog unit :=
if bool_decide (request_cookies_ = []) then
  _ ← removeRequestHeader "Cookie"%str;
  mret tt
else
  let remaining_cookies :=
    (λ cookie, StrCat [cookie.1; "="%str; cookie.2]) <$> request_cookies_ in
  _ ← replaceRequestHeader "Cookie"%str (StrJoin remaining_cookies "; "%str);
  mret tt.

(** [std::erase_if] on the name, and the number of removed cookies. *)
Definition erase_cookies (name : str) (l : list (str * str)) : list (str * str) * nat :=
let kept := filter (λ cookie, cookie.1 <> name) l in
(kept, length l - length kept).

(** The loop of [processCookieDeletions]. *)
Fixpoint delete_cookies (configs : list CookieConfig) (request_cookies_ : list (str * str))
  (modified : bool) : Prog (list (str * str) * bool) :=
match configs with
| [] => mret (request_cookies_, modified)
| config :: configs =>
    if decide (operation config <> DELETE) then
      delete_cookies configs request_cookies_ modified
    else
      let '(request_cookies_, removed) := erase_cookies (name config) request_cookies_ in
      if 0 <? removed then
        _ ← LOG_INFO (StrCat ["Marking cookie for deletion before CDN cache: "%str;
                              name config]);
        delete_cookies configs request_cookies_ true
      else delete_cookies configs request_cookies_ modified
end.

Definition processCookieDeletions (configs : list CookieConfig)
  (request_cookies_ : list (str * str)) : Prog (list (str * str)) :=
'(request_cookies_, modified) ← delete_cookies configs request_cookies_ false;
_ ← (if modified : bool then rebuildCookieHeader request_cookies_ else mret tt);
mret request_cookies_.

Definition onRequestHeaders (configs : list CookieConfig)
  (request_cookies_ : list (str * str)) (n : Z) (end_of_stream : bool)
  : Prog (FilterHeadersStatus.t * list (str * str)) :=
request_cookies_ ← parseRequestCookies request_cookies_;
request_cookies_ ← processCookieDeletions configs request_cookies_;
mret (FilterHeadersStatus.Continue, request_cookies_).

(** The value that [setCookie] builds with [StrAppend]. *)
Definition cookie_value (config : CookieConfig) : str :=
let s := StrCat [name config; "="%str; value config] in
let s := StrCat [s; "; Path="%str; path config] in
let s := if bool_decide (domain config = []) then s
         else StrCat [s; "; Domain="%str; domain config] in
let s := if (0 <? max_age config)%Z
         then StrCat [s; "; Max-Age="%str; AlphaNum (max_age config)] else s in
let s := if http_only config then StrCat [s; "; HttpOnly"%str] else s in
let s := if secure config then StrCat [s; "; Secure"%str] else s in
if same_site_strict config then StrCat [s; "; SameSite=Strict"%str] else s.

Definition setCookie (config : CookieConfig) : Prog unit :=
_ ← addResponseHeader "Set-Cookie"%str (cookie_value config);
let log_type := if (0 <? max_age config)%Z then "persistent"%str else "session"%str in
LOG_INFO (StrCat ["Setting "%str; log_type; " cookie: "%str; name config]).

(** The first loop of [removeExistingSetCookie]: whether a value was
  removed, and the values to keep. *)
Fixpoint sort_values (prefix : str) (pairs : list (str * str)) (removed : bool)
  (kept : list str) : bool * list str :=
match pairs with
| [] => (removed, kept)
| header :: pairs =>
    if negb (EqualsIgnoreCase header.1 "Set-Cookie"%str) then
      sort_values prefix pairs removed kept
    else if StartsWith (StripLeadingAsciiWhitespace header.2) prefix then
      sort_values prefix pairs true kept
    else sort_values prefix pairs removed (kept ++ [header.2])
end.

Fixpoint add_values (kept : list str) : Prog unit :=
match kept with
| [] => mret tt
| v :: kept => _ ← addResponseHeader "Set-Cookie"%str v; add_values kept
end.

Definition removeExistingSetCookie (name : str) : Prog unit :=
let prefix := StrCat [name; "="%str] in
pairs ← getResponseHeaderPairs;
pairs ← deref pairs;
let '(removed, kept) := sort_values prefix pairs false [] in
if negb removed then mret tt
else
  _ ← removeResponseHeader "Set-Cookie"%str;
  add_values kept.

Definition overwriteCookie (config : CookieConfig) : Prog unit :=
_ ← removeExistingSetCookie (name config);
if negb (bool_decide (value config = [])) then
  _ ← setCookie config;
  LOG_INFO (StrCat ["Overwriting existing cookie: "%str; name config])
else
  let expire_cookie :=
    StrCat [name config; "=; Path="%str; path config; "; Max-Age=0"%str] in
  let expire_cookie :=
    if negb (bool_decide (domain config = []))
    then StrCat [expire_cookie; "; Domain="%str; domain config] else expire_cookie in
  _ ← addResponseHeader "Set-Cookie"%str expire_cookie;
  LOG_INFO (StrCat ["Removing Set-Cookie directive for: "%str; name config]).

Fixpoint processCookieOperations (configs : list CookieConfig) : Prog unit :=
match configs with
| [] => mret tt
| config :: configs =>
    _ ← (match operation config with
         | SET => setCookie config
         | OVERWRITE => overwriteCookie config
         | _ => mret tt
         end);
    processCookieOperations configs
end.

Definition onResponseHeaders (configs : list CookieConfig) (n : Z) (end_of_stream : bool)
  : Prog FilterHeadersStatus.t :=
_ ← processCookieOperations configs;
mret FilterHeadersStatus.Continue.
End plugin.
End SetResetCookie.

(** ** Theorems: set_cookie *)

Section set_cookie.
Context `{!Absl} `{!AbslOk _} `{!Sdk} `{!SdkOk _}.
Implicit Types v : HostView.

(** The identifiers that are accepted. *)
Definition valid_session (s : str) : Prop :=
  s <> [] /\ (size_of s <= 128)%Z /\ Forall (λ c, is_alnum c = true) s.

#[export] Instance valid_session_dec s : Decision (valid_session s).
Proof. unfold valid_session. apply _. Defined.

Lemma valid_characters_computes s :
  computes (SetCookie.valid_characters s)
    (bool_decide (Forall (λ c, is_alnum c = true) s)).
Proof.
  induction s as [|c s IH]; cbn [SetCookie.valid_characters].
  - rewrite bool_decide_true by constructor. apply computes_ret.
  - destruct (is_alnum c) eqn:Hc; simpl negb; cbv iota.
    + destruct (bool_decide_reflect (Forall (λ c, is_alnum c = true) s)).
      * rewrite bool_decide_true by by constructor. done.
      * rewrite bool_decide_false by (intros Hf; by inversion Hf). done.
    + rewrite bool_decide_false by (intros Hf; inversion Hf; congruence).
      eapply computes_bind; [apply computes_LOG|apply computes_ret].
Qed.

Lemma isValidSessionId_computes s :
  computes (SetCookie.isValidSessionId s) (bool_decide (valid_session s)).
Proof.
  unfold SetCookie.isValidSessionId, SetCookie.kMaxSessionIdLength, valid_session.
  destruct (bool_decide_reflect (s = [])) as [Hs|Hs].
  { rewrite bool_decide_false by tauto.
    eapply computes_bind; [apply computes_LOG|apply computes_ret]. }
  destruct (Z.ltb_spec 128 (size_of s)) as [Hl|Hl].
  { rewrite bool_decide_false by lia.
    eapply computes_bind; [apply computes_LOG|apply computes_ret]. }
  rewrite (bool_decide_ext _ (Forall (λ c, is_alnum c = true) s)) by tauto.
  apply valid_characters_computes.
Qed.

(** The session that a list of cookies names: the first cookie of the right
    name decides, valid or not. *)
Fixpoint session_of (pairs : list str) : option str :=
  match pairs with
  | [] => None
  | p :: pairs =>
      match cut_at "=" p with
      | Some (k, x) =>
          if decide (k = "my_cookie"%str)
          then if decide (valid_session x) then Some x else None
          else session_of pairs
      | None => session_of pairs
      end
  end.

Lemma find_session_computes pairs :
  computes (SetCookie.find_session pairs) (session_of pairs).
Proof.
  induction pairs as [|p pairs IH]; cbn [SetCookie.find_session session_of].
  { eapply computes_bind; [apply computes_LOG|apply computes_ret]. }
  destruct (bool_decide_reflect (p = [])) as [->|Hp].
  { eapply computes_bind; [apply computes_LOG|done]. }
  rewrite StrSplitMax1_ok. destruct (cut_at "=" p) as [[k x]|];
    [|eapply computes_bind; [apply computes_LOG|done]].
  unfold SetCookie.kCookieName.
  destruct (bool_decide_reflect (k = "my_cookie"%str)) as [->|Hk].
  - rewrite decide_True by done. eapply computes_bind; [apply computes_LOG|].
    eapply computes_bind; [apply isValidSessionId_computes|].
    destruct (bool_decide_reflect (valid_session x)).
    + rewrite decide_True by done.
      eapply computes_bind; [apply computes_LOG|apply computes_ret].
    + rewrite decide_False by done.
      eapply computes_bind; [apply computes_LOG|apply computes_ret].
  - by rewrite decide_False.
Qed.

(** The session of a Cookie header; long headers are ignored. *)
Definition header_session (cookies : str) : option str :=
  if decide (size_of cookies <= 4096)%Z
  then session_of (split_by "; "%str cookies) else None.

(** The request handler changes nothing and remembers the session that the
    Cookie header names, whatever header the client sends. *)
Lemma request_session v m n e :
  maps v !! RequestHeaders = Some m ->
  wp (SetCookie.onRequestHeaders n e) (λ r w,
    r = (FilterHeadersStatus.Continue,
         header_session (default [] (hm_get "Cookie"%str m))) /\
    exists ls, w = logged ls v) v.
Proof.
  intros Hm. unfold SetCookie.onRequestHeaders, SetCookie.getSessionIdFromCookie.
  apply wp_bind_2, wp_bind_2. eapply wp_getHeader_text; [done|]. intros ptr <-.
  eapply wp_computes with
    (x := header_session match ptr with Some d => view d | None => [] end).
  - unfold header_session, SetCookie.kMaxCookieLength, toString.
    destruct ptr as [d|]; [|eapply computes_bind; [apply computes_LOG|apply computes_ret]].
    destruct (bool_decide_reflect (view d = [])) as [->|Hd].
    { eapply computes_bind; [apply computes_LOG|apply computes_ret]. }
    destruct (Z.ltb_spec 4096 (size_of (view d))) as [Hl|Hl].
    { rewrite decide_False by lia.
      eapply computes_bind; [apply computes_LOG|apply computes_ret]. }
    rewrite decide_True, StrSplitBy_ok by done.
    eapply computes_bind; [apply computes_LOG|apply find_session_computes].
  - intros ls. cbv beta. eapply (wp_computes _ (FilterHeadersStatus.Continue, _)).
    + eapply (computes_bind _ _ tt); [|apply computes_ret].
      destruct (bool_decide _); apply computes_LOG.
    + intros ls'. split; [done|]. rewrite logged_logged. by eexists.
Qed.

(** A response to a request with a session is left alone; any other gets
    exactly one more cookie, with a fresh decimal identifier. *)
Theorem SetCookie_onResponseHeaders_spec code session v m n e :
  maps v !! ResponseHeaders = Some m -> response v = None ->
  wp (SetCookie.onResponseHeaders code session n e) (λ st w,
    st = FilterHeadersStatus.Continue /\
    match session with
    | Some _ => exists ls, w = logged ls v
    | None => exists id ls, (0 <= id < 2 ^ 64)%Z /\
        w = logged ls (with_map ResponseHeaders (hm_append "Set-Cookie"%str
              ("my_cookie="%str ++ to_string id ++ "; Path=/; HttpOnly"%str) m) v)
    end) v.
Proof.
  intros Hm Hr. unfold SetCookie.onResponseHeaders, SetCookie.generateRandom,
    SetCookie.kCookieName.
  destruct session as [id|]; wp_auto.
  - split; [done|]. by eexists.
  - split; [done|]. eexists _, [(_, _); (_, _)]. split; [done|].
    rewrite !with_log_logged, StrCat_ok.
    unfold logged, with_map, with_maps. simpl. by rewrite <- app_assoc.
Qed.

Lemma digit_alnum c : is_digit c = true -> is_alnum c = true.
Proof. unfold is_alnum. intros ->. apply orb_true_r. Qed.

Lemma header_session_id id :
  (0 <= id < 2 ^ 64)%Z ->
  header_session ("my_cookie="%str ++ to_string id) = Some (to_string id).
Proof.
  intros Hid. pose proof (to_string_digits id ltac:(lia)) as Hdigits.
  pose proof (to_string_length id 20 ltac:(lia) ltac:(lia)) as Hlen.
  assert (";"%char ∉ "my_cookie="%str ++ to_string id) as Hfree.
  { rewrite elem_of_app. rewrite Forall_forall in Hdigits.
    intros [Hin|Hin]; [|by specialize (Hdigits _ Hin)].
    revert Hin. apply (bool_decide_unpack (_ ∉ _)). by vm_compute. }
  unfold header_session. rewrite decide_True by (unfold size_of in *; rewrite length_app; simpl; lia).
  unfold split_by. rewrite length_app. cbn [Nat.add length split_by_fuel].
  rewrite find_fresh by done. cbn [session_of].
  change ("my_cookie="%str ++ to_string id) with ("my_cookie"%str ++ "="%char :: to_string id).
  rewrite cut_at_app by (apply (bool_decide_unpack (_ ∉ _)); by vm_compute).
  rewrite decide_True by done. rewrite decide_True; [done|]. split_and!.
  - apply to_string_ne.
  - lia.
  - eapply Forall_impl; [exact Hdigits|]. apply digit_alnum.
Qed.

End set_cookie.

(** ** Theorems: set_reset_cookie *)

Section cookie_manager.
Context `{!Absl} `{!AbslOk _} `{!Sdk} `{!SdkOk _}.
Implicit Types v : HostView.
Import SetResetCookie.

(** Name and value of one piece of a Cookie header. *)
Definition cookie_of (p : str) : option (str * str) :=
  (λ kx, (strip kx.1, strip kx.2)) <$> cut_at "=" (strip p).

Definition cookies_of (header : str) : list (str * str) :=
  omap cookie_of (split_on ";" header).

Definition cookie_text (c : str * str) : str := c.1 ++ "="%str ++ c.2.

Lemma parse_pairs_spec pairs acc : parse_pairs pairs acc = acc ++ omap cookie_of pairs.
Proof.
  revert acc. induction pairs as [|p pairs IH]; intros acc; cbn [parse_pairs].
  { by rewrite app_nil_r. }
  rewrite StripAsciiWhitespace_ok. unfold cookie_of in *. simpl.
  destruct (bool_decide_reflect (strip p = [])) as [Hp|Hp]; [by rewrite Hp, IH|].
  rewrite StrSplitMax1_ok. destruct (cut_at "=" (strip p)) as [[k x]|]; simpl; [|apply IH].
  by rewrite IH, !StripAsciiWhitespace_ok, <- app_assoc.
Qed.

(** The names of the cookies to delete, and what deletion leaves. *)
Definition deleted_names (configs : list CookieConfig) : list str :=
  name <$> filter (λ c, operation c = DELETE) configs.

Definition kept (names : list str) (l : list (str * str)) : list (str * str) :=
  filter (λ c, c.1 ∉ names) l.

Lemma kept_cons d names l : kept (d :: names) l = kept names (filter (λ c, c.1 <> d) l).
Proof.
  unfold kept. rewrite list_filter_filter. apply list_filter_iff. set_solver.
Qed.

Lemma deleted_names_cons c configs :
  deleted_names (c :: configs) =
    if decide (operation c = DELETE) then name c :: deleted_names configs
    else deleted_names configs.
Proof. unfold deleted_names. rewrite filter_cons. by case_decide. Qed.

Lemma delete_cookies_computes configs l modified :
  computes (delete_cookies configs l modified)
    (kept (deleted_names configs) l,
     modified || bool_decide (kept (deleted_names configs) l <> l)).
Proof.
  revert l modified. induction configs as [|c configs IH]; intros l modified;
    cbn [delete_cookies].
  { unfold kept. replace (filter _ l) with l.
    - rewrite (bool_decide_false (l <> l)), orb_false_r by tauto. apply computes_ret.
    - symmetry. apply filter_all, Forall_true. intros x. apply not_elem_of_nil. }
  rewrite deleted_names_cons.
  destruct (decide (operation c <> DELETE)) as [Hc|Hc]; [by rewrite decide_False|].
  apply dec_stable in Hc. rewrite decide_True, kept_cons by done.
  unfold erase_cookies. cbv zeta iota beta.
  set (l1 := filter (λ c', c'.1 <> name c) l).
  destruct (Nat.ltb_spec 0 (length l - length l1)) as [Hlt|Hge].
  - eapply computes_bind; [apply computes_LOG|].
    rewrite (bool_decide_true (kept _ l1 <> l)); [|].
    { rewrite orb_true_r. apply (IH l1 true). }
    intros Heq. apply (f_equal length) in Heq.
    pose proof (length_filter (λ c, c.1 ∉ deleted_names configs) l1) as Hle.
    unfold kept in Heq. rewrite Heq in Hle. lia.
  - assert (l1 = l) as -> by (apply filter_same; change (length l <= length l1); lia).
    apply IH.
Qed.

(** The Cookie header after deletion. *)
Definition rebuilt (m : hmap) (cookies : list (str * str)) : hmap :=
  if decide (cookies = []) then hm_erase "Cookie"%str m
  else hm_set "Cookie"%str (join "; "%str (cookie_text <$> cookies)) m.

Lemma wp_rebuildCookieHeader l m (Q : unit -> HostView -> Prop) v :
  maps v !! RequestHeaders = Some m -> response v = None ->
  Q tt (with_map RequestHeaders (rebuilt m l) v) -> wp (rebuildCookieHeader l) Q v.
Proof.
  intros Hm Hr HQ. unfold rebuildCookieHeader, rebuilt in *. wp_auto.
  - by rewrite decide_True in HQ.
  - rewrite decide_False in HQ by done. rewrite StrJoin_ok.
    replace ((λ cookie : str * str, StrCat [cookie.1; "="%str; cookie.2]) <$> l)
      with (cookie_text <$> l); [done|].
    apply list_fmap_ext. intros i [k x] _. by rewrite StrCat_ok, concat_three.
Qed.

(** Every cookie with a name marked for deletion, and no other, is taken
    from the request; a request without such cookies keeps its header as it
    is, and the header goes when no cookie is left. *)
Theorem SetResetCookie_onRequestHeaders_spec configs v m n e :
  maps v !! RequestHeaders = Some m -> response v = None ->
  let cookies := cookies_of (default [] (hm_get "Cookie"%str m)) in
  let rest := kept (deleted_names configs) cookies in
  wp (onRequestHeaders configs [] n e) (λ r w,
    r = (FilterHeadersStatus.Continue, rest) /\
    exists ls, w = if decide (rest = cookies) then logged ls v
                   else with_map RequestHeaders (rebuilt m rest) (logged ls v)) v.
Proof.
  intros Hm Hr cookies rest.
  unfold onRequestHeaders, parseRequestCookies, processCookieDeletions.
  apply wp_bind_2, wp_bind_2. eapply wp_getHeader_text; [done|]. intros ptr Hptr.
  assert (forall (Q : list (str * str) -> HostView -> Prop), Q cookies v ->
    wp match ptr with
       | Some d => mret (parse_pairs (StrSplit (toString d) ";") [])
       | None => mret [] end Q v) as Hparse.
  { intros Q HQ. destruct ptr as [d|]; apply wp_ret.
    - rewrite parse_pairs_spec, StrSplit_ok. unfold toString. by rewrite Hptr.
    - unfold cookies in HQ. by rewrite <- Hptr in HQ. }
  apply Hparse. cbv beta. apply wp_bind_2, wp_bind_2.
  eapply wp_computes; [apply delete_cookies_computes|]. intros ls. cbv beta iota.
  fold rest. apply wp_bind_2. rewrite orb_false_l.
  destruct (bool_decide_reflect (rest <> cookies)) as [Hne|Heq].
  - eapply wp_rebuildCookieHeader; [done|done|]. wp_auto.
    split; [done|]. exists ls. by rewrite decide_False.
  - apply dec_stable in Heq. wp_auto. split; [done|]. exists ls. by rewrite decide_True.
Qed.

(** Cookies a Cookie header can carry. *)
Definition cookie_wf (c : str * str) : Prop :=
  trimmed c.1 /\ trimmed c.2 /\ (";"%char ∉ c.1) /\ (";"%char ∉ c.2) /\ "="%char ∉ c.1.

Lemma cookie_of_wf p c : ";"%char ∉ p -> cookie_of p = Some c -> cookie_wf c.
Proof.
  unfold cookie_of. intros Hp Hc. destruct (cut_at "=" (strip p)) as [[k x]|] eqn:Hcut; [|done].
  injection Hc as <-. apply cut_at_inv in Hcut as [Hs Hk]. unfold cookie_wf. simpl.
  assert (forall c, c ∈ k \/ c ∈ x -> c ∈ p) as Hin.
  { intros c' Hc'. apply strip_elem. rewrite Hs. set_solver. }
  split; [apply strip_trimmed|]. split; [apply strip_trimmed|].
  split_and!; intros He%strip_elem; auto.
Qed.

Lemma cookies_of_wf header : Forall cookie_wf (cookies_of header).
Proof.
  unfold cookies_of. pose proof (split_on_free ";" header) as Hf.
  induction Hf as [|p l Hp Hf IH]; [constructor|]. simpl.
  destruct (cookie_of p) as [c|] eqn:Hc; [|done]. constructor; [|done]. by apply (cookie_of_wf p).
Qed.

Lemma cookie_of_text c : cookie_wf c -> cookie_of (cookie_text c) = Some c.
Proof.
  intros (Hk & Hx & _ & _ & He). destruct c as [k x]. unfold cookie_of, cookie_text.
  simpl in *. rewrite strip_id.
  - rewrite cut_at_app by done. simpl. by rewrite !strip_id.
  - split; intros c Hc.
    + destruct k as [|a k]; simplify_eq/=; [done|]. by apply (proj1 Hk).
    + rewrite last_app_cons, last_cons in Hc.
      destruct (last x) as [y|] eqn:Hl; simplify_eq/=; [|done]. by apply (proj2 Hx).
Qed.

Lemma cookies_of_space header : cookies_of (" "%char :: header) = cookies_of header.
Proof.
  unfold cookies_of. simpl. pose proof (split_on_ne ";" header).
  destruct (split_on ";" header) as [|p l]; [done|]. done.
Qed.

Lemma cookies_of_cons c header :
  cookie_wf c -> cookies_of (cookie_text c ++ ";"%char :: header) = c :: cookies_of header.
Proof.
  intros Hc. unfold cookies_of. rewrite split_on_app.
  - simpl. by rewrite cookie_of_text.
  - destruct Hc as (_ & _ & ? & ? & _). unfold cookie_text. set_solver.
Qed.

Lemma cookies_of_one c : cookie_wf c -> cookies_of (cookie_text c) = [c].
Proof.
  intros Hc. unfold cookies_of. rewrite split_on_free_id.
  - simpl. by rewrite cookie_of_text.
  - destruct Hc as (_ & _ & ? & ? & _). unfold cookie_text. set_solver.
Qed.


(** *** Responses *)

Definition is_set_cookie (kv : str * str) : Prop := lower kv.1 = lower "Set-Cookie"%str.

Lemma sort_values_spec prefix l removed acc :
  sort_values prefix l removed acc =
    (removed || existsb (λ kv, starts_with prefix (strip_left kv.2)) (filter is_set_cookie l),
     acc ++ (filter (λ kv, starts_with prefix (strip_left kv.2) = false)
               (filter is_set_cookie l)).*2).
Proof.
  revert removed acc. induction l as [|kv l IH]; intros removed acc; cbn [sort_values].
  { simpl. by rewrite orb_false_r, app_nil_r. }
  rewrite EqualsIgnoreCase_ok, (filter_cons is_set_cookie). unfold is_set_cookie in *.
  destruct (bool_decide_reflect (lower kv.1 = lower "Set-Cookie"%str)) as [Hk|Hk];
    simpl negb; cbv iota; [rewrite decide_True by done|by rewrite decide_False].
  rewrite StartsWith_ok, StripLeadingAsciiWhitespace_ok, filter_cons. simpl existsb.
  destruct (starts_with prefix (strip_left kv.2)) eqn:Hs; rewrite IH.
  - by rewrite decide_False, orb_true_r by done.
  - by rewrite decide_True, fmap_cons, <- app_assoc by done.
Qed.

(** What [removeExistingSetCookie] does to the headers: the host keeps all
    Set-Cookie values in one entry, of which only the beginning is tested. *)
Definition drop_cookie (name : str) (m : hmap) : hmap :=
  match hm_get "Set-Cookie"%str m with
  | Some x => if starts_with (name ++ "="%str) (strip_left x)
              then hm_erase "Set-Cookie"%str m else m
  | None => m
  end.

Lemma wp_removeExistingSetCookie name m (Q : unit -> HostView -> Prop) v :
  maps v !! ResponseHeaders = Some m -> hm_wf m -> response v = None ->
  Q tt (with_map ResponseHeaders (drop_cookie name m) v) ->
  wp (removeExistingSetCookie name) Q v.
Proof.
  intros Hm Hwf Hr HQ. unfold removeExistingSetCookie. apply wp_bind_2.
  eapply wp_getHeaderPairs; [done|]. intros l Hl. wp_step. wp_step. wp_reduce.
  assert (filter is_set_cookie l = option_list (m !! lower "Set-Cookie"%str)) as Hl'
    by by apply entries_of_name.
  rewrite sort_values_spec, Hl'.
  rewrite StrCat_ok, concat_two. unfold drop_cookie, hm_get in HQ.
  destruct (m !! lower "Set-Cookie"%str) as [[k x]|]; simpl fmap in HQ; simpl existsb;
    cbv iota in HQ; [|apply wp_ret; by rewrite with_map_id in HQ].
  simpl snd in *. destruct (starts_with _ (strip_left x)) eqn:Hs.
  - simpl negb. cbv iota. change (option_list (Some (k, x))) with [(k, x)].
    rewrite filter_cons_False by (simpl; congruence).
    by wp_auto.
  - apply wp_ret. by rewrite with_map_id in HQ.
Qed.

(** The expired cookie of a removal. *)
Definition expired_cookie (c : CookieConfig) : str :=
  name c ++ "=; Path="%str ++ path c ++ "; Max-Age=0"%str ++
  (if decide (domain c = []) then [] else "; Domain="%str ++ domain c).

(** One configured operation on the response headers. *)
Definition apply_operation (m : hmap) (c : CookieConfig) : hmap :=
  match operation c with
  | SET => hm_append "Set-Cookie"%str (cookie_value c) m
  | OVERWRITE =>
      hm_append "Set-Cookie"%str
        (if decide (value c = []) then expired_cookie c else cookie_value c)
        (drop_cookie (name c) m)
  | _ => m
  end.

Lemma hm_wf_drop name m : hm_wf m -> hm_wf (drop_cookie name m).
Proof. intros Hm. unfold drop_cookie. repeat case_match; auto using hm_wf_erase. Qed.

Lemma hm_wf_apply c m : hm_wf m -> hm_wf (apply_operation m c).
Proof.
  intros Hm. unfold apply_operation.
  destruct (operation c); auto; apply hm_wf_update; auto using hm_wf_drop.
Qed.

Lemma wp_operation c m (Q : unit -> HostView -> Prop) v :
  maps v !! ResponseHeaders = Some m -> hm_wf m -> response v = None ->
  (forall ls, Q tt (logged ls (with_map ResponseHeaders (apply_operation m c) v))) ->
  wp match operation c with
     | SET => setCookie c
     | OVERWRITE => overwriteCookie c
     | _ => mret tt
     end Q v.
Proof.
  intros Hm Hwf Hr HQ. unfold apply_operation in HQ. destruct (operation c).
  1, 3, 5: specialize (HQ []); rewrite logged_nil, with_map_id in HQ by done; by apply wp_ret.
  - unfold setCookie. wp_auto. apply HQ.
  - unfold overwriteCookie, setCookie. apply wp_bind_2.
    eapply wp_removeExistingSetCookie; [done..|].
    destruct (bool_decide_reflect (value c = [])) as [Hv|Hv]; simpl negb; cbv iota;
      [rewrite decide_True in HQ by done|rewrite decide_False in HQ by done].
    + wp_auto. rewrite with_map_twice, with_log_logged.
      replace (if negb _ then _ else _) with (expired_cookie c); [apply HQ|].
      unfold expired_cookie. absl. case_bool_decide as Hd.
      * rewrite decide_True by done. simpl. rewrite <- ?app_assoc. done.
      * rewrite decide_False by done. simpl. rewrite ?app_nil_r, <- ?app_assoc. simpl. rewrite <- ?app_assoc. done.
    + wp_auto. rewrite with_map_twice, !with_log_logged, logged_logged. apply HQ.
Qed.

Lemma wp_processCookieOperations configs (Q : unit -> HostView -> Prop) v m :
  maps v !! ResponseHeaders = Some m -> hm_wf m -> response v = None ->
  (forall ls, Q tt (logged ls (with_map ResponseHeaders
     (fold_left apply_operation configs m) v))) ->
  wp (processCookieOperations configs) Q v.
Proof.
  revert Q v m. induction configs as [|c configs IH]; intros Q v m Hm Hwf Hr HQ; simpl in HQ.
  - specialize (HQ []). rewrite logged_nil, with_map_id in HQ by done. by apply wp_ret.
  - cbn [processCookieOperations]. apply wp_bind_2. eapply wp_operation; [done..|].
    intros ls. eapply IH; [simpl; apply lookup_insert_eq|by apply hm_wf_apply|done|].
    intros ls'. rewrite with_map_logged, with_map_twice, logged_logged. apply HQ.
Qed.

(** The operations are applied to the response in the order of the
    configuration, each SET adding its cookie and each OVERWRITE replacing
    the cookies of its name; nothing but Set-Cookie changes. *)
Theorem SetResetCookie_onResponseHeaders_spec configs v m n e :
  maps v !! ResponseHeaders = Some m -> hm_wf m -> response v = None ->
  wp (onResponseHeaders configs n e) (λ st w,
    st = FilterHeadersStatus.Continue /\ exists ls,
    w = logged ls (with_map ResponseHeaders (fold_left apply_operation configs m) v)) v.
Proof.
  intros Hm Hwf Hr. unfold onResponseHeaders. apply wp_bind_2.
  eapply wp_processCookieOperations; [done..|]. intros ls. apply wp_ret.
  split; [done|]. by eexists.
Qed.

(** On a host that keeps several Set-Cookie values in one entry, as the
    test framework does, OVERWRITE loses the cookies that follow one of its
    name: the comment promises to leave other cookies intact. *)
Theorem SetResetCookie_overwrite_loses c v m n e old others :
  maps v !! ResponseHeaders = Some m -> hm_wf m -> response v = None ->
  operation c = OVERWRITE -> value c <> [] -> name c <> [] -> trimmed (name c) ->
  hm_get "Set-Cookie"%str m = Some (name c ++ "="%str ++ old ++ ", "%str ++ others) ->
  wp (onResponseHeaders [c] n e) (λ _ w,
    final_header ResponseHeaders "Set-Cookie"%str w = Some (cookie_value c)) v.
Proof.
  intros Hm Hwf Hr Hop Hv Hn [Ht _] Hget. unfold onResponseHeaders. apply wp_bind_2.
  eapply wp_processCookieOperations; [done..|]. intros ls. apply wp_ret.
  unfold final_header. simpl. rewrite lookup_insert_eq. simpl.
  unfold apply_operation, drop_cookie. rewrite Hop, Hget, decide_False by done.
  rewrite strip_left_id.
  - rewrite app_assoc, starts_with_app. unfold hm_append.
    rewrite hm_get_update_eq by done. by rewrite hm_get_erase_eq.
  - intros a Ha. apply Ht. by destruct (name c); simplify_eq/=.
Qed.
End cookie_manager.

(** ** The properties at concrete inputs *)

Section witnesses.
#[local] Existing Instances absl_ref sdk_ref.
Import SetResetCookie.

Lemma SetCookie_onResponseHeaders_spec_witness :
  wp (SetCookie.onResponseHeaders (λ _, 0%Z) None 1 false) (λ st w,
    st = FilterHeadersStatus.Continue /\ exists id ls, (0 <= id < 2 ^ 64)%Z /\
    w = logged ls (with_map ResponseHeaders (hm_append "Set-Cookie"%str
          ("my_cookie="%str ++ to_string id ++ "; Path=/; HttpOnly"%str)
          (hm_of_pairs [(":status", "200")]%str))
          (sample_view ResponseHeaders [(":status", "200")]%str)))
    (sample_view ResponseHeaders [(":status", "200")]%str).
Proof.
  exact (SetCookie_onResponseHeaders_spec (λ _, 0%Z) None
    (sample_view ResponseHeaders [(":status", "200")]%str)
    (hm_of_pairs [(":status", "200")]%str) 1 false eq_refl eq_refl).
Defined.


Definition demo_config (n x : str) (op : CookieOperation) : CookieConfig :=
  mkCookieConfig n x [] "/"%str 0 false true false op.
Definition cookie_headers : list (str * str) :=
  [("Cookie", "old=1;session=2;  old=3; x = y")]%str.

Lemma SetResetCookie_onRequestHeaders_spec_witness :
  wp (onRequestHeaders [demo_config "old"%str [] DELETE] [] 1 false) (λ r w,
    r.2 = [("session", "2"); ("x", "y")]%str /\
    final_header RequestHeaders "cookie"%str w = Some "session=2; x=y"%str)
    (sample_view RequestHeaders cookie_headers).
Proof.
  pose proof (SetResetCookie_onRequestHeaders_spec [demo_config "old"%str [] DELETE]
    (sample_view RequestHeaders cookie_headers) (hm_of_pairs cookie_headers) 1 false
    eq_refl eq_refl) as Hp.
  revert Hp. apply wp_mono. intros r w [-> [ls ->]].
  split; [vm_compute; reflexivity|]. rewrite decide_False by (vm_compute; discriminate).
  vm_compute. reflexivity.
Defined.


Definition merged_headers : list (str * str) :=
  [("Set-Cookie", "tracking_id=old; Path=/old, other_cookie=keep_me")]%str.

Lemma SetResetCookie_onResponseHeaders_spec_witness :
  wp (onResponseHeaders [demo_config "a"%str "1"%str SET; demo_config "b"%str [] OVERWRITE]
        1 false) (λ st w,
    final_header ResponseHeaders "Set-Cookie"%str w =
      Some "tracking_id=old; Path=/old, other_cookie=keep_me, a=1; Path=/; HttpOnly, b=; Path=/; Max-Age=0"%str)
    (sample_view ResponseHeaders merged_headers).
Proof.
  pose proof (SetResetCookie_onResponseHeaders_spec
    [demo_config "a"%str "1"%str SET; demo_config "b"%str [] OVERWRITE]
    (sample_view ResponseHeaders merged_headers) (hm_of_pairs merged_headers) 1 false
    eq_refl ltac:(apply (bool_decide_unpack _); vm_compute; exact I) eq_refl) as Hp.
  revert Hp. apply wp_mono. intros st w (_ & ls & ->). vm_compute. reflexivity.
Defined.

Lemma SetResetCookie_overwrite_loses_witness :
  wp (onResponseHeaders [demo_config "tracking_id"%str "new"%str OVERWRITE] 1 false) (λ _ w,
    final_header ResponseHeaders "Set-Cookie"%str w =
      Some "tracking_id=new; Path=/; HttpOnly"%str)
    (sample_view ResponseHeaders merged_headers).
Proof.
  exact (SetResetCookie_overwrite_loses
    (demo_config "tracking_id"%str "new"%str OVERWRITE)
    (sample_view ResponseHeaders merged_headers) (hm_of_pairs merged_headers) 1 false
    "old; Path=/old"%str "other_cookie=keep_me"%str eq_refl
    ltac:(apply (bool_decide_unpack _); vm_compute; exact I) eq_refl eq_refl
    ltac:(discriminate) ltac:(discriminate)
    ltac:(split; intros c [= <-]; vm_compute; reflexivity) eq_refl).
Defined.
End witnesses.
