(* ===== verification/Bodies.v ===== *)
(** * Samples that edit message bodies

    body_chunking, check_pii, ad_insertion and cdn_token_generator of
    plugins/samples. *)

From S2P Require Import Prelude Absl Headers Host Rules ThirdParty.

(** ** body_chunking *)

Module BodyChunking.
Section plugin.
Context `{Sdk}.

Definition onRequestBody (chunk_len : Z) (end_of_stream : bool) : Prog FilterDataStatus.t :=
if (chunk_len =? 0)%Z then
  _ ← LOG_ERROR "Received empty chunk in onRequestBody"%str;
  mret FilterDataStatus.Continue
else
  r ← setBuffer HttpRequestBody chunk_len 0 "foo"%str;
  _ ← (if decide (r <> Ok) then LOG_ERROR "Failed to set request body buffer"%str
       else mret tt);
  mret FilterDataStatus.Continue.

Definition onResponseBody (chunk_len : Z) (end_of_stream : bool) : Prog FilterDataStatus.t :=
if (chunk_len =? 0)%Z then
  _ ← LOG_ERROR "Received empty chunk in onResponseBody"%str;
  mret FilterDataStatus.Continue
else
  r ← setBuffer HttpResponseBody chunk_len 0 "bar"%str;
  _ ← (if decide (r <> Ok) then LOG_ERROR "Failed to set response body buffer"%str
       else mret tt);
  mret FilterDataStatus.Continue.
End plugin.
End BodyChunking.

(** ** check_pii *)

Module CheckPii.
Section plugin.
Context `{Re2} `{Sdk}.

(** The root context: two [std::optional<re2::RE2>]. *)
Record Root : Type := mkRoot {
card_matcher_ : option regex;
code10_matcher_ : option regex;
}.

Definition onConfigure (_ : Z) (_ : Root) : Prog (bool * Root) :=
let card := re_compile "\d{4}-\d{4}-\d{4}-(\d{4})"%str in
let code10 := re_compile "\d{7}(\d{3})"%str in
mret (re_ok card && re_ok code10, mkRoot (Some card) (Some code10)).

(** The masked text, and whether something was masked. *)
Definition maskPII (root : Root) (value : str) : Prog (bool * str) :=
card ← deref (card_matcher_ root);
let '(value, n) := re_GlobalReplace value card "XXXX-XXXX-XXXX-\1"%str in
let modified := (0 <? n)%Z in
code10 ← deref (code10_matcher_ root);
let '(value, n) := re_GlobalReplace value code10 "XXXXXXX\1"%str in
mret (if (0 <? n)%Z then true else modified, value).

Definition onRequestHeaders (headers : Z) (end_of_stream : bool)
  : Prog FilterHeadersStatus.t :=
_ ← replaceRequestHeader "accept-encoding"%str "identity"%str;
mret FilterHeadersStatus.Continue.

(** The loop over the header pairs. *)
Fixpoint mask_pairs (root : Root) (orig_pairs new_headers : list (str * str)) (changed : bool)
  : Prog (list (str * str) * bool) :=
match orig_pairs with
| [] => mret (new_headers, changed)
| (key, value) :: orig_pairs =>
    '(masked, value) ← maskPII root value;
    mask_pairs root orig_pairs (new_headers ++ [(key, value)]) (masked || changed)
end.

Definition onResponseHeaders (root : Root) (headers : Z) (end_of_stream : bool)
  : Prog FilterHeadersStatus.t :=
result ← getResponseHeaderPairs;
orig_pairs ← deref result;
'(new_headers, changed) ← mask_pairs root orig_pairs [] false;
_ ← (if changed : bool then _ ← setResponseHeaderPairs new_headers; mret tt else mret tt);
mret FilterHeadersStatus.Continue.

Definition onResponseBody (root : Root) (body_buffer_length : Z) (end_of_stream : bool)
  : Prog FilterDataStatus.t :=
body ← getBufferBytes HttpResponseBody 0 body_buffer_length;
body ← deref body;
let body_string := toString body in
'(masked, body_string) ← maskPII root body_string;
_ ← (if masked : bool then
       _ ← setBuffer HttpResponseBody 0 body_buffer_length body_string; mret tt
     else mret tt);
mret FilterDataStatus.Continue.
End plugin.
End CheckPii.

(** ** ad_insertion *)

Module AdInsertion.

Record AdConfig : Type := mkAdConfig {
slot : str;
size : str;
marker : str;
insert_before : bool;
}.

(** The root context.  A [std::map] is its pairs in the order of the keys. *)
Record Root : Type := mkRoot {
ad_configs_ : list (str * AdConfig);
gpt_library_url_ : str;
inject_gpt_library_ : bool;
}.

(** A stream's fields. *)
Record Stream : Type := mkStream {
should_insert_ads_ : bool;
is_ad_request_ : bool;
}.

(** [map[key] = config], with [std::less<std::string>]. *)
Fixpoint map_assign (key : str) (config : AdConfig) (m : list (str * AdConfig))
  : list (str * AdConfig) :=
match m with
| [] => [(key, config)]
| (k, c) :: m =>
    if code_compare key k then (key, config) :: (k, c) :: m
    else if code_compare k key then (k, c) :: map_assign key config m
    else (k, config) :: m
end.

(** The defaults, by key. *)
Definition default_configs : list (str * AdConfig) :=
[("content"%str, mkAdConfig "/1234/content_ad"%str "300x250"%str "<article>"%str false);
 ("header"%str, mkAdConfig "/1234/header_ad"%str "728x90"%str "<body>"%str false);
 ("sidebar"%str, mkAdConfig "/1234/sidebar_ad"%str "160x600"%str "</article>"%str true)].

Definition default_root : Root :=
mkRoot default_configs "https://securepubads.g.doubleclick.net/tag/js/gpt.js"%str true.

Definition getAdConfig (root : Root) (position : str) : option AdConfig :=
snd <$> (list_find (λ kc, kc.1 = position) (ad_configs_ root) ≫= λ r, Some r.2).

(** [std::sort] with the comparison [a.first > b.first]: the order of equal
  positions is the library's choice. *)
Class StdSort : Type := std_sort : list (nat * str) -> list (nat * str).
Class StdSortOk (S : StdSort) : Prop := {
std_sort_perm l : std_sort l ≡ₚ l;
std_sort_sorted l : StronglySorted (λ a b : nat * str, b.1 <= a.1) (std_sort l);
}.

Section plugin.
Context `{Absl} `{Sdk} `{StdSort}.

(** One line of the configuration. *)
Definition parse_line (line : str) (root : Root) : Prog Root :=
let stripped := StripAsciiWhitespace line in
match stripped with
| [] => mret root
| c :: _ =>
    if decide (c = "#"%char) then mret root
    else
      match StripAsciiWhitespace <$> StrSplit stripped "," with
      | [] => Trap
      | part0 :: parts =>
          if decide (part0 = "gpt_url"%str /\ 1 <= length parts) then
            mret (mkRoot (ad_configs_ root) (parts !!! 0) (inject_gpt_library_ root))
          else if decide (part0 = "inject_gpt"%str /\ 1 <= length parts) then
            mret (mkRoot (ad_configs_ root) (gpt_library_url_ root)
                    (bool_decide (parts !!! 0 = "true"%str)))
          else if decide (part0 = "ad"%str /\ 5 <= length parts) then
            let config := mkAdConfig (parts !!! 1) (parts !!! 2) (parts !!! 4)
                            (bool_decide (parts !!! 3 = "true"%str)) in
            mret (mkRoot (map_assign (parts !!! 0) config (ad_configs_ root))
                    (gpt_library_url_ root) (inject_gpt_library_ root))
          else
            _ ← LOG_WARN ("Invalid configuration line: "%str ++ stripped);
            mret root
      end
end.

Fixpoint parse_lines (lines : list str) (root : Root) : Prog Root :=
match lines with
| [] => mret root
| line :: lines => root ← parse_line line root; parse_lines lines root
end.

Definition onConfigure (config_len : Z) : Prog (bool * Root) :=
let root := default_root in
if (config_len =? 0)%Z then
  _ ← LOG_INFO "No configuration provided. Using default ad insertion config."%str;
  mret (true, root)
else
  config_data ← getBufferBytes PluginConfiguration 0 config_len;
  match config_data with
  | None => mret (true, root)
  | Some config_data =>
      if (size_of (view config_data) =? 0)%Z then mret (true, root)
      else
        let root := mkRoot [] (gpt_library_url_ root) (inject_gpt_library_ root) in
        let config_str := view config_data in
        root ← parse_lines (StrSplit config_str (ascii_of_nat 10)) root;
        _ ← LOG_INFO
          "Ad Insertion plugin configured successfully from custom payload."%str;
        mret (true, root)
  end.

Definition onRequestHeaders (s : Stream) (headers : Z) (end_of_stream : bool)
  : Prog (FilterHeadersStatus.t * Stream) :=
path ← getRequestHeader ":path"%str;
let s :=
  match path with
  | Some path =>
      if contains "/ads/"%str (view path) then mkStream (should_insert_ads_ s) true else s
  | None => s
  end in
mret (FilterHeadersStatus.Continue, s).

Definition onResponseHeaders (s : Stream) (headers : Z) (end_of_stream : bool)
  : Prog (FilterHeadersStatus.t * Stream) :=
content_type ← getResponseHeader "Content-Type"%str;
match content_type with
| Some content_type =>
    if contains "text/html"%str (view content_type) then
      _ ← removeResponseHeader "Content-Length"%str;
      mret (FilterHeadersStatus.Continue, mkStream true (is_ad_request_ s))
    else mret (FilterHeadersStatus.Continue, s)
| None => mret (FilterHeadersStatus.Continue, s)
end.

Definition isGptAlreadyLoaded (body : str) : bool :=
contains "googletag"%str body || contains "gpt.js"%str body ||
contains "doubleclick.net/tag/js/gpt"%str body.

Definition prepareGptLibraryInjection (root : Root) (body : str)
  (insertions : list (nat * str)) : list (nat * str) :=
match find "<head>"%str body with
| Some head_pos =>
    insertions ++ [(head_pos + 6,
      nl ++ "  <script async src="%str ++ dquote ++ gpt_library_url_ root ++ dquote ++
      "></script>"%str)]
| None =>
    match find "<body>"%str body with
    | Some body_pos =>
        insertions ++ [(body_pos,
          "<script async src="%str ++ dquote ++ gpt_library_url_ root ++ dquote ++
          "></script>"%str ++ nl)]
    | None => insertions
    end
end.

Definition generateGAMAdHTML (position : str) (config : AdConfig) : str :=
concat ["<div id="%str; dquote; "ad-container-"%str; position; dquote; " class="%str;
  dquote; "ad-unit"%str; dquote; ">"%str; nl; "  "%str; nl; "  <script>"%str; nl;
  "    (function() {"%str; nl; "      // Same-domain GAM integration"%str; nl;
  "      var googletag = window.googletag || {};"%str; nl;
  "      googletag.cmd = googletag.cmd || [];"%str; nl;
  "      googletag.cmd.push(function() {"%str; nl; "        googletag.defineSlot('"%str;
  slot config; "', "%str; nl; "                            ["%str; size config; "], "%str;
  nl; "                            'ad-container-"%str; position;
  "').addService(googletag.pubads());"%str; nl;
  "        googletag.pubads().enableSingleRequest();"%str; nl;
  "        googletag.enableServices();"%str; nl; "      });"%str; nl; "    })();"%str; nl;
  "  </script>"%str; nl; "  <div id="%str; dquote; "div-gpt-ad-"%str; position; dquote;
  ">"%str; nl; "    <script>"%str; nl; "      googletag.cmd.push(function() { "%str; nl;
  "        googletag.display('div-gpt-ad-"%str; position; "'); "%str; nl; "      });"%str;
  nl; "    </script>"%str; nl; "  </div>"%str; nl; "</div>"%str].

Definition prepareAdInsertion (body position : str) (config : AdConfig)
  (insertions : list (nat * str)) : list (nat * str) :=
match find (marker config) body with
| None => insertions
| Some marker_pos =>
    let insert_pos := if insert_before config then marker_pos
                      else marker_pos + length (marker config) in
    let ad_html := generateGAMAdHTML position config in
    insertions ++ [(insert_pos, ad_html)]
end.

(** [body.insert] throws beyond the end of the text. *)
Fixpoint insert_all (body : str) (insertions : list (nat * str)) : Prog str :=
match insertions with
| [] => mret body
| (pos, content) :: insertions =>
    if decide (pos <= length body) then insert_all (insert_at body pos content) insertions
    else Trap
end.

Definition applyAllInsertions (body : str) (insertions : list (nat * str)) : Prog str :=
insert_all body (std_sort insertions).

Definition processBodyWithGAM (root : Root) (body : str) : Prog unit :=
let insertions :=
  if inject_gpt_library_ root && negb (isGptAlreadyLoaded body)
  then prepareGptLibraryInjection root body [] else [] in
let insertions :=
  fold_left (λ insertions pc, prepareAdInsertion body pc.1 pc.2 insertions)
    (ad_configs_ root) insertions in
body ← (if bool_decide (insertions = []) then mret body
        else applyAllInsertions body insertions);
_ ← setBuffer HttpResponseBody 0 (size_of body) body;
mret tt.

Definition onResponseBody (root : Root) (s : Stream) (body_size : Z) (end_of_stream : bool)
  : Prog FilterDataStatus.t :=
if negb (should_insert_ads_ s) || is_ad_request_ s then mret FilterDataStatus.Continue
else if negb end_of_stream then mret FilterDataStatus.StopIterationAndBuffer
else
  body ← getBufferBytes HttpResponseBody 0 body_size;
  match body with
  | None => mret FilterDataStatus.Continue
  | Some body =>
      let body_str := view body in
      _ ← processBodyWithGAM root body_str;
      mret FilterDataStatus.Continue
  end.
End plugin.
End AdInsertion.

(** ** cdn_token_generator *)

Module CdnTokenGenerator.

Definition kMaxKeyHexLength : Z := 256.
Definition kMinKeyHexLength : Z := 32.
Definition kMaxExpirySeconds : Z := 86400.
Definition kMinExpirySeconds : Z := 60.
Definition kDefaultExpirySeconds : Z := 3600.
Definition kMaxBodySize : Z := 1024 * 1024.

(** cdn_token_config.proto; [expiry_seconds] is an int32. *)
Record CdnTokenConfig : Type := mkCdnTokenConfig {
private_key_hex : str;
key_name : str;
expiry_seconds : Z;
}.

(** A message without fields. *)
Definition empty_config : CdnTokenConfig := mkCdnTokenConfig [] [] 0.

Section plugin.
(** [TextFormat::ParseFromString] into a [CdnTokenConfig]. *)
Context `{Absl} `{Re2} `{OpenSSL} `{Sdk} (ParseFromString : str -> option CdnTokenConfig).

(** The root context; the two pointers are null at first. *)
Record Root : Type := mkRoot {
config_ : option CdnTokenConfig;
decoded_key_ : str;
url_pattern_ : option regex;
}.

Definition with_config (c : CdnTokenConfig) (root : Root) : Root :=
mkRoot (Some c) (decoded_key_ root) (url_pattern_ root).

Definition parseConfig (config_str : str) (root : Root) : Prog (bool * Root) :=
match ParseFromString config_str with
| None =>
    _ ← LOG_ERROR "Failed to parse configuration as TextProto"%str;
    mret (false, with_config empty_config root)
| Some c =>
    let c := if (expiry_seconds c =? 0)%Z
             then mkCdnTokenConfig (private_key_hex c) (key_name c) kDefaultExpirySeconds
             else c in
    let root := with_config c root in
    if bool_decide (private_key_hex c = []) then
      _ ← LOG_ERROR "private_key_hex is required in configuration"%str;
      mret (false, root)
    else if bool_decide (key_name c = []) then
      _ ← LOG_ERROR "key_name is required in configuration"%str;
      mret (false, root)
    else if (size_of (private_key_hex c) <? kMinKeyHexLength)%Z
            || (kMaxKeyHexLength <? size_of (private_key_hex c))%Z then
      _ ← LOG_ERROR (StrCat ["private_key_hex length must be between "%str;
            AlphaNum kMinKeyHexLength; " and "%str; AlphaNum kMaxKeyHexLength]);
      mret (false, root)
    else if (expiry_seconds c <? kMinExpirySeconds)%Z
            || (kMaxExpirySeconds <? expiry_seconds c)%Z then
      _ ← LOG_ERROR (StrCat ["expiry_seconds must be between "%str;
            AlphaNum kMinExpirySeconds; " and "%str; AlphaNum kMaxExpirySeconds]);
      mret (false, root)
    else
      match HexStringToBytes (private_key_hex c) with
      | None =>
          _ ← LOG_ERROR "Failed to decode private key from hex"%str;
          mret (false, root)
      | Some decoded_key => mret (true, mkRoot (Some c) decoded_key (url_pattern_ root))
      end
end.

Definition url_regex : str := "(https?://[^\s"%str ++ dquote ++ "'<>]+)"%str.

(** [re2_error] is the text of [RE2::error()]. *)
Definition onConfigure (re2_error : regex -> str) (config_size : Z) (root : Root)
  : Prog (bool * Root) :=
if (config_size =? 0)%Z then
  _ ← LOG_ERROR "Configuration is required"%str;
  mret (false, root)
else
  config_data ← getBufferBytes PluginConfiguration 0 config_size;
  match config_data with
  | None =>
      _ ← LOG_ERROR "Failed to read plugin configuration"%str;
      mret (false, root)
  | Some config_data =>
      '(ok, root) ← parseConfig (toString config_data) root;
      if negb ok then mret (false, root)
      else
        let url_pattern := re_compile url_regex in
        let root := mkRoot (config_ root) (decoded_key_ root) (Some url_pattern) in
        if negb (re_ok url_pattern) then
          _ ← LOG_ERROR (StrCat ["Failed to compile URL regex: "%str;
                                 re2_error url_pattern]);
          mret (false, root)
        else
          config ← deref (config_ root);
          _ ← LOG_INFO (StrCat ["CDN Token Generator configured: keyName="%str;
                key_name config; ", expirySeconds="%str;
                AlphaNum (expiry_seconds config)]);
          mret (true, root)
  end.

Definition base64UrlEncode (input : str) : str :=
let encoded := WebSafeBase64Escape input in
substr encoded 0 (find "="%str encoded).

(** A failing [HMAC] leaves [hmac_len] uninitialized. *)
Definition generateSignedUrl (root : Root) (target_url : str) : Prog str :=
config ← deref (config_ root);
let url_prefix_b64 := base64UrlEncode target_url in
now ← call GetCurrentTime;
let expires_at := (Z.quot now 1000000000 + expiry_seconds config)%Z in
let string_to_sign :=
  StrCat ["URLPrefix="%str; url_prefix_b64; "~Expires="%str; AlphaNum expires_at;
          "~KeyName="%str; key_name config] in
hmac_result ← deref (HMAC EVP_sha256 (decoded_key_ root) string_to_sign);
let hmac_hex := BytesToHexString hmac_result in
let separator := match find "?"%str target_url with None => "?"%str | Some _ => "&"%str end in
mret (StrCat [target_url; separator; "Edge-Cache-Token="%str; string_to_sign;
              "~hmac="%str; hmac_hex]).

(** The loop over [FindAndConsume]; [base] is where [input] starts in the
  body.  The fuel is an upper bound of the iterations. *)
Fixpoint find_all (fuel : nat) (pattern : regex) (base : nat) (input : str)
  (matches : list (nat * str)) : Prog (list (nat * str)) :=
match fuel with
| 0 => Trap
| S fuel =>
    match re_FindAndConsume input pattern with
    | None => mret matches
    | Some (pos, m, rest) =>
        find_all fuel pattern (base + (length input - length rest)) rest
          (matches ++ [(base + pos, m)])
    end
end.

(** The loop from the last match to the first one. *)
Fixpoint replace_all (root : Root) (matches : list (nat * str)) (modified_body : str)
  (replacements : Z) : Prog (str * Z) :=
match matches with
| [] => mret (modified_body, replacements)
| (pos, url) :: matches =>
    signed_url ← generateSignedUrl root url;
    if bool_decide (signed_url = []) then
      replace_all root matches modified_body replacements
    else if decide (pos <= length modified_body) then
      replace_all root matches (replace_at modified_body pos (length url) signed_url)
        (replacements + 1)
    else Trap
end.

Definition onResponseBody (root : Root) (body_buffer_length : Z) (end_of_stream : bool)
  : Prog FilterDataStatus.t :=
if negb end_of_stream then mret FilterDataStatus.StopIterationAndBuffer
else if (kMaxBodySize <? body_buffer_length)%Z then
  _ ← LOG_WARN (StrCat ["Response body too large ("%str; AlphaNum body_buffer_length;
                        " bytes), skipping URL signing"%str]);
  mret FilterDataStatus.Continue
else
  body ← getBufferBytes HttpResponseBody 0 body_buffer_length;
  match body with
  | None =>
      _ ← LOG_ERROR "Failed to read response body"%str;
      mret FilterDataStatus.Continue
  | Some body =>
      let body_string := toString body in
      if bool_decide (body_string = []) then mret FilterDataStatus.Continue
      else
        pattern ← deref (url_pattern_ root);
        matches ← find_all (S (length body_string)) pattern 0 body_string [];
        if bool_decide (matches = []) then mret FilterDataStatus.Continue
        else
          '(modified_body, replacements) ←
            replace_all root (reverse matches) body_string 0;
          _ ← (if (0 <? replacements)%Z then
                 _ ← LOG_INFO (StrCat ["Replaced "%str; AlphaNum replacements;
                                       " URLs with signed URLs"%str]);
                 _ ← setBuffer HttpResponseBody 0 body_buffer_length modified_body;
                 mret tt
               else mret tt);
          mret FilterDataStatus.Continue
  end.
End plugin.
End CdnTokenGenerator.

(** ** Reference functions *)

(** A page with the texts [g i] placed before its character [i]. *)
Fixpoint weave (g : nat -> list str) (s : str) : str :=
  concat (g 0) ++ match s with [] => [] | c :: s => c :: weave (λ i, g (S i)) s end.

(** The contents to be placed at [i], in the order of the list. *)
Definition contents_at (i : nat) (l : list (nat * str)) : list str :=
  (filter (λ p, p.1 = i) l).*2.

(** Where an ad goes: next to the first occurrence of its marker. *)
Definition ad_place (body : str) (c : AdInsertion.AdConfig) : option nat :=
  (λ n, if AdInsertion.insert_before c then n else n + length (AdInsertion.marker c))
    <$> find (AdInsertion.marker c) body.

(** Where the library goes: after [<head>], or else before [<body>]. *)
Definition gpt_place (root : AdInsertion.Root) (body : str) : option (nat * str) :=
  let tag := "<script async src="%str ++ dquote ++ AdInsertion.gpt_library_url_ root ++
             dquote ++ "></script>"%str in
  if AdInsertion.inject_gpt_library_ root
     && negb (contains "googletag"%str body) && negb (contains "gpt.js"%str body)
     && negb (contains "doubleclick.net/tag/js/gpt"%str body) then
    match find "<head>"%str body, find "<body>"%str body with
    | Some n, _ => Some (n + 6, nl ++ "  "%str ++ tag)
    | None, Some n => Some (n, tag ++ nl)
    | None, None => None
    end
  else None.

(** All that is placed in a page, by position. *)
Definition planned (root : AdInsertion.Root) (body : str) : list (nat * str) :=
  option_list (gpt_place root body) ++
  omap (λ pc, (λ n, (n, AdInsertion.generateGAMAdHTML pc.1 pc.2)) <$> ad_place body pc.2)
    (AdInsertion.ad_configs_ root).

(** The text with [f] applied to every match, from left to right. *)
Fixpoint rewrite_matches `{Re2} (pattern : regex) (f : str -> str) (fuel : nat) (s : str) : str :=
  match fuel with
  | 0 => s
  | S fuel =>
      match re_FindAndConsume s pattern with
      | None => s
      | Some (pos, m, rest) => take pos s ++ f m ++ rewrite_matches pattern f fuel rest
      end
  end.

(** The value of a header or body with its numbers masked. *)
Definition masked `{Re2} (value : str) : str :=
  let card := re_compile "\d{4}-\d{4}-\d{4}-(\d{4})"%str in
  let code10 := re_compile "\d{7}(\d{3})"%str in
  (re_GlobalReplace (re_GlobalReplace value card "XXXX-XXXX-XXXX-\1"%str).1
     code10 "XXXXXXX\1"%str).1.

(** ** body_chunking *)

Section body_chunking.
Context `{!Sdk} `{!SdkOk _}.

Lemma append_chunk b body t (Q : WasmResult -> HostView -> Prop) v :
  buffers v !! b = Some body -> b <> PluginConfiguration ->
  Q Ok (with_buffer b (body ++ t) v) -> wp (setBuffer b (size_of body) 0 t) Q v.
Proof.
  intros Hb Hne HQ. eapply wp_setBuffer; [done|done|unfold size_of; lia|done|].
  unfold replace_at, size_of. rewrite Nat2Z.id, Nat.min_id, Nat.add_0_r, firstn_all, drop_all.
  by rewrite app_nil_r.
Qed.

(** Each non-empty chunk of a request body is passed on with [foo] at its
    end and each one of a response body with [bar]; an empty chunk is left
    alone. *)
Theorem BodyChunking_spec v req resp end_of_stream :
  buffers v !! HttpRequestBody = Some req -> buffers v !! HttpResponseBody = Some resp ->
  returns (BodyChunking.onRequestBody (size_of req) end_of_stream) v FilterDataStatus.Continue
    (if decide (req = [])
     then with_log Lerror "Received empty chunk in onRequestBody"%str v
     else with_buffer HttpRequestBody (req ++ "foo"%str) v) /\
  returns (BodyChunking.onResponseBody (size_of resp) end_of_stream) v
    FilterDataStatus.Continue
    (if decide (resp = [])
     then with_log Lerror "Received empty chunk in onResponseBody"%str v
     else with_buffer HttpResponseBody (resp ++ "bar"%str) v).
Proof.
  intros Hreq Hresp.
  unfold BodyChunking.onRequestBody, BodyChunking.onResponseBody, returns.
  rewrite !size_zero. split; repeat case_bool_decide; repeat case_decide; try done.
  all: wp_auto; first [done|eapply append_chunk; [done..|]; by wp_auto].
Qed.
End body_chunking.

(** ** check_pii *)

Section check_pii.
Context `{!Re2} `{!Re2Ok _} `{!Sdk} `{!SdkOk _}.
Import CheckPii.

(** The root context once configured. *)
Definition pii_root : Root :=
  mkRoot (Some (re_compile "\d{4}-\d{4}-\d{4}-(\d{4})"%str))
         (Some (re_compile "\d{7}(\d{3})"%str)).

Lemma maskPII_spec value :
  exists modified, maskPII pii_root value = mret (modified, masked value) /\
    (modified = false -> masked value = value).
Proof.
  unfold maskPII, masked, pii_root. cbn [deref card_matcher_ code10_matcher_].
  change (@Ret ?A ?a ≫= ?f) with (f a). cbv beta.
  pose proof (re_GlobalReplace_none value (re_compile "\d{4}-\d{4}-\d{4}-(\d{4})"%str)
    "XXXX-XXXX-XXXX-\1"%str) as H1.
  destruct (re_GlobalReplace value _ _) as [value1 n1]. cbn [fst snd] in *.
  pose proof (re_GlobalReplace_none value1 (re_compile "\d{7}(\d{3})"%str)
    "XXXXXXX\1"%str) as H2.
  change (Ret ?a ≫= ?f) with (f a). cbv beta.
  destruct (re_GlobalReplace value1 _ _) as [value2 n2]. cbn [fst snd] in *.
  eexists. split; [done|].
  destruct (Z.ltb_spec 0 n2); [done|]. rewrite H2 by done.
  destruct (Z.ltb_spec 0 n1); [done|]. intros _. by apply H1.
Qed.

Definition mask_pair (kv : str * str) : str * str := (kv.1, masked kv.2).

Lemma mask_pairs_spec pairs acc changed :
  exists changed', mask_pairs pii_root pairs acc changed =
      mret (acc ++ (mask_pair <$> pairs), changed') /\
    (changed' = false -> changed = false /\ mask_pair <$> pairs = pairs).
Proof.
  revert acc changed. induction pairs as [|[k x] pairs IH]; intros acc changed.
  - exists changed. by rewrite app_nil_r.
  - destruct (maskPII_spec x) as (modified & Hm & Hx).
    destruct (IH (acc ++ [(k, masked x)]) (modified || changed)) as (c & Hc & Hp).
    exists c. split.
    + cbn [mask_pairs]. rewrite Hm. etrans; [exact Hc|]. by rewrite <- app_assoc.
    + intros ->. destruct Hp as [[-> ->]%orb_false_iff Hp]; [done|].
      split; [done|]. rewrite fmap_cons, Hp. unfold mask_pair at 1. simpl. by rewrite Hx.
Qed.

(** C34. check_pii configures both patterns, and then every response header
    leaves with the card numbers and the codes of its value masked, and so
    does every piece of the body; compression is turned off upstream. *)
Theorem CheckPii_spec v rq m body n end_of_stream root :
  maps v !! RequestHeaders = Some rq -> maps v !! ResponseHeaders = Some m -> hm_wf m ->
  response v = None ->
  buffers v !! HttpResponseBody = Some body -> (size_of body < 2 ^ 32)%Z ->
  wp (onConfigure n root) (λ r w, r.2 = pii_root /\ w = v) v /\
  returns (onRequestHeaders n end_of_stream) v FilterHeadersStatus.Continue
    (with_map RequestHeaders (hm_set "accept-encoding"%str "identity"%str rq) v) /\
  wp (onResponseHeaders pii_root n end_of_stream)
    (λ y w, y = FilterHeadersStatus.Continue /\
            w = with_map ResponseHeaders (mask_pair <$> m) v) v /\
  wp (onResponseBody pii_root (size_of body) end_of_stream)
    (λ y w, y = FilterDataStatus.Continue /\
            w = with_buffer HttpResponseBody (masked body) v) v.
Proof.
  intros Hq Hm Hwf Hr Hb Hs. split_and!.
  - done.
  - unfold onRequestHeaders. by wp_auto.
  - unfold onResponseHeaders. apply wp_bind_2. eapply wp_getHeaderPairs; [done|].
    intros l Hl. destruct (mask_pairs_spec l [] false) as (c & Hc & Hsame).
    wp_auto. rewrite Hc. wp_auto.
    + unfold setResponseHeaderPairs. eapply wp_setHeaderPairs; [done..|]. wp_auto.
      destruct (headers_map_pairs mask_pair m l) as [Hmap Hnd]; [done..|].
      cbn [app]. by rewrite hm_of_pairs_append_map, Hmap.
    + destruct Hsame as [_ Hsame]; [done|].
      destruct (headers_map_pairs mask_pair m l) as [Hmap Hnd]; [done..|].
      destruct (headers_map_pairs id m l) as [Hid _]; [done..|].
      rewrite list_fmap_id, map_fmap_id in Hid.
      rewrite Hsame, Hid in Hmap. by rewrite <- Hmap, with_map_id.
  - unfold onResponseBody. apply wp_bind_2. eapply wp_getBufferBytes; [done..|].
    intros d Hd. destruct (maskPII_spec body) as (c & Hc & Hsame).
    wp_auto. unfold toString. rewrite Hc. wp_auto.
    + eapply wp_setWholeBuffer; [done..|]. by wp_auto.
    + rewrite Hsame by done. split; [done|]. unfold with_buffer.
      rewrite insert_id by done. by destruct v.
Qed.
End check_pii.

(** ** ad_insertion *)

Section weave.
Implicit Types (g : nat -> list str) (s : str).

Lemma weave_ext g h s :
  (forall i, i <= length s -> concat (g i) = concat (h i)) -> weave g s = weave h s.
Proof.
  revert g h. induction s as [|c s IH]; intros g h Hgh; simpl.
  - by rewrite (Hgh 0).
  - rewrite (Hgh 0) by (simpl; lia). do 2 f_equal. apply IH. intros i Hi. apply Hgh. simpl. lia.
Qed.

Lemma weave_nil s : weave (λ _, []) s = s.
Proof. induction s as [|c s IH]; simpl; [done|]. by rewrite IH. Qed.

Lemma weave_length g s : length s <= length (weave g s).
Proof.
  revert g. induction s as [|c s IH]; intros g; simpl; [lia|].
  rewrite length_app. simpl. specialize (IH (λ i, g (S i))). lia.
Qed.

(** Inserting before everything that was placed already. *)
Lemma insert_weave g s p t :
  p <= length s -> (forall i, i < p -> g i = []) ->
  insert_at (weave g s) p t = weave (λ i, if decide (i = p) then t :: g i else g i) s.
Proof.
  revert g s. induction p as [|p IH]; intros g s Hp Hg.
  - unfold insert_at. rewrite take_0, drop_0. cbn [app].
    destruct s as [|c s]; simpl; rewrite <- ?app_assoc; [done|].
    do 3 f_equal.
  - destruct s as [|c s]; simpl in Hp; [lia|]. simpl. rewrite (Hg 0) by lia. simpl.
    unfold insert_at. simpl. f_equal. etrans; [apply IH; [lia|]|].
    + intros i Hi. apply Hg. lia.
    + apply weave_ext. intros i _. repeat case_decide; first [done|lia].
Qed.
End weave.

Lemma contents_at_cons i p l :
  contents_at i (p :: l) = if decide (p.1 = i) then p.2 :: contents_at i l else contents_at i l.
Proof. unfold contents_at. rewrite filter_cons. by case_decide. Qed.

(** Insertions from the bottom of the page to its top all hit their places. *)
Lemma insert_all_weave s l g :
  StronglySorted (λ a b : nat * str, b.1 <= a.1) l -> Forall (λ p, p.1 <= length s) l ->
  (forall i p, p ∈ l -> i < p.1 -> g i = []) ->
  AdInsertion.insert_all (weave g s) l =
    mret (weave (λ i, reverse (contents_at i l) ++ g i) s).
Proof.
  intros Hl. revert g. induction Hl as [|[p t] l Hl IH Hp]; intros g Hs Hg; [done|].
  apply Forall_cons in Hs as [Hps Hs]. cbn [AdInsertion.insert_all fst] in *.
  pose proof (weave_length g s). rewrite decide_True by lia.
  rewrite insert_weave; [|done|intros i Hi; apply (Hg i (p, t)); [by left|done]].
  rewrite IH; [|done|].
  - unfold mret, Prog_ret. f_equal. apply weave_ext. intros i _. rewrite contents_at_cons.
    cbn [fst snd]. do 2 case_decide; subst; try done. by rewrite reverse_cons, <- app_assoc.
  - intros i q Hq Hi. rewrite Forall_forall in Hp. specialize (Hp _ Hq). simpl in Hp.
    rewrite decide_False by lia. apply (Hg i q); [by right|done].
Qed.

Section ad_insertion.
Context `{!Absl} `{!AbslOk _} `{!Sdk} `{!SdkOk _} `{!AdInsertion.StdSort}
  `{!AdInsertion.StdSortOk _}.
Import AdInsertion.

Lemma place_bound root body p :
  p ∈ planned root body -> p.1 <= length body.
Proof.
  unfold planned. rewrite elem_of_app. intros [Hp|Hp].
  - unfold gpt_place in Hp. destruct (_ && _); [|by apply elem_of_nil in Hp].
    destruct (find "<head>"%str body) as [n|] eqn:Hh.
    + apply list_elem_of_singleton in Hp as ->. by apply find_Some in Hh as [_ Hh].
    + destruct (find "<body>"%str body) as [n|] eqn:Hb; [|by apply elem_of_nil in Hp].
      apply list_elem_of_singleton in Hp as ->. apply find_Some in Hb as [_ Hb]. simpl. lia.
  - apply list_elem_of_omap in Hp as ([k c] & _ & Hc). simpl in Hc.
    apply fmap_Some in Hc as (n & Hn & ->). apply fmap_Some in Hn as (i & Hi & ->).
    apply find_Some in Hi as [_ Hi]. simpl. case_match; lia.
Qed.

Lemma prepare_all root body acc :
  fold_left (λ insertions pc, prepareAdInsertion body pc.1 pc.2 insertions)
    (ad_configs_ root) acc =
  acc ++ omap (λ pc, (λ n, (n, generateGAMAdHTML pc.1 pc.2)) <$> ad_place body pc.2)
    (ad_configs_ root).
Proof.
  revert acc. induction (ad_configs_ root) as [|[k c] l IH]; intros acc; simpl;
    [by rewrite app_nil_r|].
  rewrite IH. unfold prepareAdInsertion, ad_place.
  destruct (find (marker c) body); simpl; [|done]. by rewrite <- app_assoc.
Qed.

Lemma prepare_gpt root body :
  (if inject_gpt_library_ root && negb (isGptAlreadyLoaded body)
   then prepareGptLibraryInjection root body [] else []) =
  option_list (gpt_place root body).
Proof.
  unfold gpt_place, prepareGptLibraryInjection, isGptAlreadyLoaded.
  rewrite !negb_orb, !andb_assoc. destruct (_ && _); [|done].
  destruct (find "<head>"%str body); [by rewrite <- ?app_assoc|].
  destruct (find "<body>"%str body); [by rewrite <- ?app_assoc|done].
Qed.

Lemma apply_spec body l :
  Forall (λ p, p.1 <= length body) l ->
  exists g, (forall i, g i ≡ₚ contents_at i l) /\
    applyAllInsertions body l = mret (weave g body).
Proof.
  intros Hl. exists (λ i, reverse (contents_at i (std_sort l))). split.
  - intros i. rewrite reverse_Permutation. unfold contents_at.
    apply fmap_Permutation, filter_Permutation, std_sort_perm.
  - unfold applyAllInsertions. rewrite <- (weave_nil body) at 1.
    rewrite insert_all_weave.
    + f_equal. apply weave_ext. intros i _. by rewrite app_nil_r.
    + apply std_sort_sorted.
    + by rewrite std_sort_perm.
    + done.
Qed.

(** C24. The page of an HTML response, once it is complete, leaves with the
    library's script and every configured ad next to its marker, each at its
    place in the original page whatever the others are; nothing of the page
    is lost.  Other responses, and those to ad requests, are left alone, and
    an incomplete page is held back. *)
Theorem AdInsertion_onResponseBody_spec root s v body end_of_stream :
  buffers v !! HttpResponseBody = Some body -> (size_of body < 2 ^ 32)%Z ->
  wp (onResponseBody root s (size_of body) end_of_stream)
    (λ y w,
      if negb (should_insert_ads_ s) || is_ad_request_ s
      then y = FilterDataStatus.Continue /\ w = v
      else if negb end_of_stream
      then y = FilterDataStatus.StopIterationAndBuffer /\ w = v
      else y = FilterDataStatus.Continue /\
        exists g, (forall i, g i ≡ₚ contents_at i (planned root body)) /\
          w = with_buffer HttpResponseBody (weave g body) v) v.
Proof.
  intros Hb Hs. unfold onResponseBody.
  destruct (negb (should_insert_ads_ s) || is_ad_request_ s); [done|].
  destruct end_of_stream; cbn [negb]; [|done].
  apply wp_bind_2. eapply wp_getBufferBytes; [done..|]. intros d <-.
  wp_reduce. apply wp_bind_2. unfold processBodyWithGAM.
  rewrite prepare_gpt, prepare_all. fold (planned root (view d)).
  assert (exists g, (forall i, g i ≡ₚ contents_at i (planned root (view d))) /\
    (if bool_decide (planned root (view d) = []) then mret (view d)
     else applyAllInsertions (view d) (planned root (view d))) =
    mret (weave g (view d))) as (g & Hg & ->).
  { case_bool_decide as Hp.
    - exists (λ _, []). rewrite Hp, weave_nil. done.
    - apply apply_spec, Forall_forall. intros p. apply place_bound. }
  wp_reduce. apply wp_bind_2. apply wp_ret. apply wp_bind_2.
  eapply wp_setBuffer; [done|done|lia|unfold size_of; lia|].
  pose proof (weave_length g (view d)).
  unfold replace_at, size_of. rewrite Nat2Z.id, drop_ge by (simpl; lia).
  simpl. rewrite app_nil_r. wp_auto. split; [done|]. by exists g.
Qed.

(** A stream inserts ads when its response is HTML, whose length is then
    no longer announced, and unless its request is for an ad. *)
Theorem AdInsertion_flags_spec s v rq rs n end_of_stream :
  maps v !! RequestHeaders = Some rq -> maps v !! ResponseHeaders = Some rs ->
  response v = None ->
  let ad_path := contains "/ads/"%str (default [] (hm_get ":path"%str rq)) in
  let html := contains "text/html"%str (default [] (hm_get "Content-Type"%str rs)) in
  returns (onRequestHeaders s n end_of_stream) v
    (FilterHeadersStatus.Continue,
     mkStream (should_insert_ads_ s) (ad_path || is_ad_request_ s)) v /\
  returns (onResponseHeaders s n end_of_stream) v
    (FilterHeadersStatus.Continue,
     mkStream (html || should_insert_ads_ s) (is_ad_request_ s))
    (if html then with_map ResponseHeaders (hm_erase "Content-Length"%str rs) v else v).
Proof.
  intros Hq Hs Hr ad_path html. destruct s as [should is_ad]. split; unfold returns.
  - unfold onRequestHeaders. apply wp_bind_2. eapply wp_getHeader_text; [done|].
    intros p Hp. subst ad_path. rewrite <- Hp. destruct p as [d|]; wp_reduce; [|done].
    destruct (contains "/ads/"%str (view d)); by wp_auto.
  - unfold onResponseHeaders. apply wp_bind_2. eapply wp_getHeader_text; [done|].
    intros p Hp. subst html. rewrite <- Hp. destruct p as [d|]; wp_reduce; [|done].
    destruct (contains "text/html"%str (view d)); by wp_auto.
Qed.
End ad_insertion.

(** *** The configuration of ad_insertion *)

(** The fields of a line that is neither empty nor a comment. *)
Definition directive (line : str) : list str :=
  match strip line with
  | [] => []
  | c :: _ => if decide (c = "#"%char) then [] else strip <$> split_on "," (strip line)
  end.

Definition ad_line (k line : str) : option AdInsertion.AdConfig :=
  match directive line with
  | t :: p :: slot :: size :: before :: marker :: _ =>
      if decide (t = "ad"%str /\ p = k)
      then Some (AdInsertion.mkAdConfig slot size marker (bool_decide (before = "true"%str)))
      else None
  | _ => None
  end.

Definition value_line (key line : str) : option str :=
  match directive line with
  | t :: x :: _ => if decide (t = key) then Some x else None
  | _ => None
  end.

(** What the last of the lines says, or [d] if none says anything. *)
Definition last_of {A} (f : str -> option A) (lines : list str) (d : option A) : option A :=
  match last (omap f lines) with Some x => Some x | None => d end.

Lemma last_of_cons {A} (f : str -> option A) line lines d :
  last_of f (line :: lines) d =
  last_of f lines (match f line with Some x => Some x | None => d end).
Proof.
  unfold last_of.
  change (omap f (line :: lines)) with
    (match f line with Some y => y :: omap f lines | None => omap f lines end).
  destruct (f line); [|done]. rewrite last_cons. by destruct (last (omap f lines)).
Qed.

Section ad_configuration.
Context `{!Absl} `{!AbslOk _} `{!Sdk} `{!SdkOk _}.
Import AdInsertion.

Lemma getAdConfig_cons k c l url inject p :
  getAdConfig (mkRoot ((k, c) :: l) url inject) p =
  if decide (k = p) then Some c else getAdConfig (mkRoot l url inject) p.
Proof.
  unfold getAdConfig. simpl. case_decide; simpl; [done|].
  by destruct (list_find _ l) as [[? []]|].
Qed.

(** The map holds what was assigned last. *)
Lemma getAdConfig_assign k c l url inject p :
  getAdConfig (mkRoot (map_assign k c l) url inject) p =
  if decide (k = p) then Some c else getAdConfig (mkRoot l url inject) p.
Proof.
  induction l as [|[k' c'] l IH]; simpl; [apply getAdConfig_cons|].
  destruct (code_compare k k') eqn:Hlt; [apply getAdConfig_cons|].
  destruct (code_compare k' k) eqn:Hgt; rewrite !getAdConfig_cons.
  - rewrite IH. repeat case_decide; subst; try done.
    by rewrite code_compare_irrefl in Hgt.
  - rewrite (code_compare_total k k') by done. by repeat case_decide.
Qed.

(** Keys increase strictly. *)
Definition keys_sorted (l : list (str * AdConfig)) : Prop :=
  StronglySorted (λ a b, code_compare a.1 b.1 = true) l.

Lemma map_assign_sorted k c l : keys_sorted l -> keys_sorted (map_assign k c l).
Proof.
  intros Hl. induction Hl as [|[k' c'] l Hl IH Hk]; simpl; [by repeat constructor|].
  destruct (code_compare k k') eqn:Hlt.
  - constructor; [by constructor|]. constructor; [done|].
    eapply Forall_impl; [exact Hk|]. intros x. simpl. by apply code_compare_trans.
  - destruct (code_compare k' k) eqn:Hgt; [|by constructor].
    constructor; [done|]. clear IH Hl. induction Hk as [|[k2 c2] l Hk2 Hk IH]; simpl.
    + by repeat constructor.
    + repeat case_match; repeat constructor; done.
Qed.

(** A line adds what it says. *)
Lemma parse_line_spec line root :
  exists root', computes (parse_line line root) root' /\
    (forall k, getAdConfig root' k =
       match ad_line k line with Some c => Some c | None => getAdConfig root k end) /\
    Some (gpt_library_url_ root') =
      match value_line "gpt_url"%str line with
      | Some u => Some u | None => Some (gpt_library_url_ root) end /\
    Some (inject_gpt_library_ root') =
      match value_line "inject_gpt"%str line with
      | Some x => Some (bool_decide (x = "true"%str))
      | None => Some (inject_gpt_library_ root) end /\
    (keys_sorted (ad_configs_ root) -> keys_sorted (ad_configs_ root')).
Proof.
  unfold parse_line, ad_line, value_line, directive. absl. destruct root as [l url inject].
  destruct (strip line) as [|c t] eqn:Hline; [by eauto 10 with svc|].
  destruct (decide (c = "#"%char)); [by eauto 10 with svc|].
  rewrite (list_fmap_ext StripAsciiWhitespace strip) by (intros; apply StripAsciiWhitespace_ok).
  destruct (strip <$> split_on "," (c :: t)) as [|p0 parts] eqn:Hparts.
  { apply fmap_nil_inv in Hparts. by apply split_on_ne in Hparts. }
  cbn [ad_configs_ gpt_library_url_ inject_gpt_library_].
  destruct (decide (p0 = "gpt_url"%str /\ 1 <= length parts)) as [[-> Hlen]|Hgpt].
  { eexists. split; [apply computes_ret|]. destruct parts as [|x parts]; simpl in Hlen; [lia|].
    split_and!; try done. intros k. do 5 (destruct parts as [|? parts]; [done|]). done. }
  destruct (decide (p0 = "inject_gpt"%str /\ 1 <= length parts)) as [[-> Hlen]|Hinj].
  { eexists. split; [apply computes_ret|]. destruct parts as [|x parts]; simpl in Hlen; [lia|].
    split_and!; try done. intros k. do 5 (destruct parts as [|? parts]; [done|]). done. }
  destruct (decide (p0 = "ad"%str /\ 5 <= length parts)) as [[-> Hlen]|Had].
  { eexists. split; [apply computes_ret|].
    do 5 (destruct parts as [|? parts]; [simpl in Hlen; lia|]). split_and!; try done.
    - intros k. rewrite getAdConfig_assign. repeat case_decide; naive_solver.
    - apply map_assign_sorted. }
  eexists. split; [eapply computes_bind; [apply computes_LOG|apply computes_ret]|].
  split_and!; try done.
  - intros k. do 5 (destruct parts as [|? parts]; [done|]).
    rewrite decide_False; [done|]. intros [-> _]. apply Had. split; [done|simpl; lia].
  - destruct parts as [|x parts]; [done|]. rewrite decide_False; [done|].
    intros ->. apply Hgpt. split; [done|simpl; lia].
  - destruct parts as [|x parts]; [done|]. rewrite decide_False; [done|].
    intros ->. apply Hinj. split; [done|simpl; lia].
Qed.

(** What the lines configure, from what is configured before them. *)
Definition configured (lines : list str) (root root' : Root) : Prop :=
  (forall k, getAdConfig root' k = last_of (ad_line k) lines (getAdConfig root k)) /\
  Some (gpt_library_url_ root') =
    last_of (value_line "gpt_url"%str) lines (Some (gpt_library_url_ root)) /\
  Some (inject_gpt_library_ root') =
    last_of (λ line, (λ x, bool_decide (x = "true"%str)) <$> value_line "inject_gpt"%str line)
      lines (Some (inject_gpt_library_ root)) /\
  (keys_sorted (ad_configs_ root) -> keys_sorted (ad_configs_ root')).

Lemma parse_lines_spec lines root :
  exists root', computes (parse_lines lines root) root' /\ configured lines root root'.
Proof.
  revert root. induction lines as [|line lines IH]; intros root.
  - exists root. split; [apply computes_ret|done].
  - destruct (parse_line_spec line root) as (root1 & Hc1 & Hk & Hu & Hi & Hs).
    destruct (IH root1) as (root2 & Hc2 & Hk2 & Hu2 & Hi2 & Hs2).
    exists root2. split; [by eapply computes_bind|]. unfold configured. split_and!.
    + intros k. by rewrite last_of_cons, <- Hk.
    + by rewrite last_of_cons, <- Hu.
    + rewrite last_of_cons, Hi2, Hi. by destruct (value_line "inject_gpt"%str line).
    + auto.
Qed.

(** Without a configuration the defaults hold.  Otherwise every ad and
    every setting is what the last well-formed line about it says, in
    whatever order and with whatever comments the lines come; the ads are
    kept in the order of their names; configuring never fails. *)
Theorem AdInsertion_onConfigure_spec v config :
  buffers v !! PluginConfiguration = Some config -> (size_of config < 2 ^ 32)%Z ->
  wp (onConfigure (size_of config))
    (λ r w, exists ls, w = logged ls v /\ r.1 = true /\ keys_sorted (ad_configs_ r.2) /\
      (config = [] -> r.2 = default_root) /\
      (config <> [] ->
       configured (split_on (ascii_of_nat 10) config)
         (mkRoot [] (gpt_library_url_ default_root) (inject_gpt_library_ default_root))
         r.2)) v.
Proof.
  intros Hb Hs. unfold onConfigure. rewrite size_zero.
  assert (keys_sorted (ad_configs_ default_root)) as Hd by (repeat constructor).
  case_bool_decide as Hne.
  - wp_auto. by eexists [(Linfo, _)].
  - apply wp_bind_2. eapply wp_getBufferBytes; [done..|]. intros d <-. wp_reduce.
    rewrite size_zero, bool_decide_false by done. absl.
    destruct (parse_lines_spec (split_on (ascii_of_nat 10) (view d))
      (mkRoot [] (gpt_library_url_ default_root) (inject_gpt_library_ default_root)))
      as (root & Hc & Hconf).
    apply wp_bind_2. eapply wp_computes; [exact Hc|]. intros ls. wp_auto.
    eexists. split; [apply (logged_logged [_] ls)|].
    split_and!; try done. apply Hconf. constructor.
Qed.
End ad_configuration.

(** ** cdn_token_generator *)

Lemma of_hex_length s t : of_hex s = Some t -> length s = 2 * length t.
Proof.
  revert t. induction s as [s IH] using (induction_ltof1 _ length).
  intros t. destruct s as [|a [|b s]]; [by intros [= <-]|done|]. simpl.
  destruct (hex_value a); simpl; [|done]. destruct (hex_value b); simpl; [|done].
  destruct (of_hex s) as [u|] eqn:Hu; simpl; [|done]. intros [= <-].
  rewrite (IH s) with (t := u); [simpl; lia|unfold ltof; simpl; lia|done].
Qed.

(** The URL pattern finds a text that is not empty, and goes on after it. *)
Class UrlMatches `(R : Re2) : Prop :=
  url_matches s pos m rest :
    re_FindAndConsume s (re_compile CdnTokenGenerator.url_regex) = Some (pos, m, rest) ->
    m <> [] /\ s = take pos s ++ m ++ rest.

Section cdn_token_generator.
Context `{!Absl} `{!AbslOk _} `{!Re2} `{!UrlMatches _} `{!OpenSSL} `{!OpenSSLOk _}
  `{!Sdk} `{!SdkOk _}.
Import CdnTokenGenerator.

(** The configurations that are accepted. *)
Definition acceptable (c : CdnTokenConfig) : Prop :=
  key_name c <> [] /\ (32 <= size_of (private_key_hex c) <= 256)%Z /\
  (expiry_seconds c = 0%Z \/ (60 <= expiry_seconds c <= 86400)%Z) /\
  is_Some (of_hex (private_key_hex c)).

(** What the root context then holds. *)
Definition configured_root (c : CdnTokenConfig) : Root :=
  mkRoot
    (Some (mkCdnTokenConfig (private_key_hex c) (key_name c)
      (if decide (expiry_seconds c = 0%Z) then 3600%Z else expiry_seconds c)))
    (default [] (of_hex (private_key_hex c))) (Some (re_compile url_regex)).

Lemma parseConfig_spec parse text root :
  exists ok root', computes (parseConfig parse text root) (ok, root') /\
    match parse text with
    | Some c =>
        (ok = true <-> acceptable c) /\
        (ok = true -> mkRoot (config_ root') (decoded_key_ root') (Some (re_compile url_regex))
                      = configured_root c)
    | None => ok = false
    end.
Proof.
  unfold parseConfig. destruct (parse text) as [[hex name expiry]|]; [|eauto 10 with svc].
  unfold acceptable, configured_root. cbn [private_key_hex key_name expiry_seconds].
  set (c := if (expiry =? 0)%Z then _ else _).
  assert (c = mkCdnTokenConfig hex name (if decide (expiry = 0%Z) then 3600%Z else expiry))
    as ->.
  { subst c. destruct (Z.eqb_spec expiry 0); by case_decide. }
  cbn [private_key_hex key_name expiry_seconds]. absl.
  set (e := if decide (expiry = 0%Z) then 3600%Z else expiry).
  assert ((60 <= e <= 86400)%Z <-> expiry = 0%Z \/ (60 <= expiry <= 86400)%Z) as He
    by (subst e; case_decide; lia).
  setoid_rewrite <- He. clearbody e. clear He.
  assert (forall P, ~ P -> (false = true <-> P)) as Hno by naive_solver.
  case_bool_decide as Hh.
  { do 2 eexists. split; [eauto with svc|]. split; [|done]. apply Hno.
    rewrite Hh. intros (_ & Hx & _). unfold size_of in Hx; simpl in Hx. lia. }
  case_bool_decide as Hn.
  { do 2 eexists. split; [eauto with svc|]. split; [|done]. apply Hno. naive_solver. }
  unfold kMinKeyHexLength, kMaxKeyHexLength, kMinExpirySeconds, kMaxExpirySeconds.
  destruct (Z.ltb_spec (size_of hex) 32), (Z.ltb_spec 256 (size_of hex)); cbn [orb];
    try (do 2 eexists; split; [eauto with svc|]; split; [apply Hno; lia|done]).
  destruct (Z.ltb_spec e 60), (Z.ltb_spec 86400 e); cbn [orb];
    try (do 2 eexists; split; [eauto with svc|]; split; [apply Hno; lia|done]).
  destruct (of_hex hex) as [key|].
  - do 2 eexists. split; [apply computes_ret|]. split; [|done]. naive_solver.
  - do 2 eexists. split; [eauto with svc|]. split; [|done]. apply Hno.
    intros (_ & _ & _ & [? ?]). done.
Qed.

(** C25. The plugin starts exactly with a configuration that parses and names
    a key of 32 to 256 hexadecimal digits and a lifetime of a minute to a
    day, or none for an hour; the key of 16 to 128 bytes is then decoded. *)
Theorem CdnToken_onConfigure_spec parse re2_error v text root :
  buffers v !! PluginConfiguration = Some text -> (size_of text < 2 ^ 32)%Z ->
  re_ok (re_compile url_regex) = true ->
  wp (onConfigure parse re2_error (size_of text) root)
    (λ r w, (exists ls, w = logged ls v) /\
      (r.1 = true <-> text <> [] /\ exists c, parse text = Some c /\ acceptable c) /\
      (r.1 = true -> exists c, parse text = Some c /\ r.2 = configured_root c /\
         16 <= length (decoded_key_ r.2) <= 128)) v.
Proof.
  intros Hb Hs Hok. unfold onConfigure. rewrite size_zero. case_bool_decide as Hne.
  { wp_auto. split; [by eexists [_]|]. naive_solver. }
  apply wp_bind_2. eapply wp_getBufferBytes; [done..|]. intros d <-. wp_reduce.
  apply wp_bind_2. destruct (parseConfig_spec parse (toString d) root)
    as (ok & root' & Hc & Hspec).
  eapply wp_computes; [exact Hc|]. intros ls. unfold toString in *. rewrite Hok. wp_reduce.
  destruct ok; cbn [negb]; wp_reduce.
  - destruct (parse (view d)) as [c|]; [|done]. destruct Hspec as [Hacc Hroot].
    specialize (Hroot eq_refl). assert (acceptable c) as Hc' by (by apply Hacc).
    rewrite Hroot. cbn [config_ configured_root]. wp_auto.
    split; [eexists; apply (logged_logged [_] ls)|]. split; [naive_solver|].
    intros _. exists c. split_and!; try done.
    all: destruct Hc' as (_ & Hl & _ & [key Hkey]); cbn [decoded_key_ configured_root];
      rewrite Hkey; cbn [default from_option id]; apply of_hex_length in Hkey;
      unfold size_of in Hl; lia.
  - wp_auto. split; [by eexists|]. split; [|done]. split; [done|].
    intros (_ & c & Hp & Hacc). rewrite Hp in Hspec. naive_solver.
Qed.

(** The URL with its token, at the time [t] in seconds. *)
Definition signed_url (c : CdnTokenConfig) (key : str) (t : Z) (url : str) : str :=
  let token :=
    "URLPrefix="%str ++ before "=" (WebSafeBase64Escape url) ++ "~Expires="%str ++
    to_string (t + expiry_seconds c) ++ "~KeyName="%str ++ key_name c in
  url ++ (if decide ("?"%char ∈ url) then "&"%str else "?"%str) ++ "Edge-Cache-Token="%str ++
  token ++ "~hmac="%str ++ to_hex (default [] (HMAC EVP_sha256 key token)).

Lemma signed_url_ne c key t url : signed_url c key t url <> [].
Proof. unfold signed_url. case_decide; by destruct url. Qed.

Lemma find_char c s : find [c] s = None <-> c ∉ s.
Proof.
  split; [|apply find_fresh]. intros Hf Hc.
  apply list_elem_of_split in Hc as (a & b & ->).
  apply (find_None _ _ (length a)) in Hf. rewrite drop_app_length in Hf.
  simpl in Hf. by rewrite bool_decide_true in Hf.
Qed.

Section body.
Context (c : CdnTokenConfig) (key : str) (v : HostView).
Let pattern : regex := re_compile url_regex.
Let root : Root := mkRoot (Some c) key (Some pattern).
Let sign : str -> str := signed_url c key (Z.quot (now v) 1000000000).

Lemma generateSignedUrl_spec url : returns (generateSignedUrl root url) v (sign url) v.
Proof.
  unfold generateSignedUrl, base64UrlEncode. cbn [config_ root]. wp_auto. absl.
  cbn [decoded_key_ root concat]. rewrite !app_nil_r, find_char_before.
  set (token := "URLPrefix="%str ++ _).
  destruct (HMAC_ok EVP_sha256 key token) as (digest & Hd & _).
  rewrite Hd. apply wp_deref, wp_ret. split; [|done].
  absl. subst sign. unfold signed_url. fold token. rewrite Hd.
  cbn [concat default from_option id]. rewrite !app_nil_r.
  destruct (find "?"%str url) eqn:Hq.
  - rewrite decide_True; [done|]. apply dec_stable. intros Hn%find_char. congruence.
  - rewrite decide_False; [done|]. by apply find_char.
Qed.

(** The matches of a text that starts at [base] in the body. *)
Fixpoint matches_of (fuel : nat) (base : nat) (s : str) : list (nat * str) :=
  match fuel with
  | 0 => []
  | S fuel =>
      match re_FindAndConsume s pattern with
      | None => []
      | Some (pos, m, rest) =>
          (base + pos, m) :: matches_of fuel (base + (length s - length rest)) rest
      end
  end.

Lemma match_shorter s pos m rest :
  re_FindAndConsume s pattern = Some (pos, m, rest) ->
  s = take pos s ++ m ++ rest /\ length (take pos s) = pos /\
  length s - length rest = pos + length m /\ length rest < length s.
Proof.
  intros [Hm Hs]%url_matches. pose proof (f_equal length Hs) as Hl.
  rewrite !length_app, length_take in Hl. rewrite length_take.
  destruct m; [done|]. simpl in *. split; [done|]. lia.
Qed.

Lemma find_all_spec fuel base s acc :
  length s < fuel -> find_all fuel pattern base s acc = mret (acc ++ matches_of fuel base s).
Proof.
  revert base s acc. induction fuel as [|fuel IH]; intros base s acc Hl; [lia|]. simpl.
  destruct (re_FindAndConsume s pattern) as [[[pos m] rest]|] eqn:Hf;
    [|by rewrite app_nil_r].
  apply match_shorter in Hf as (_ & _ & _ & ?). rewrite IH by lia. by rewrite <- app_assoc.
Qed.

Lemma replace_all_app l1 l2 b n (Q : str * Z -> HostView -> Prop) w :
  wp (replace_all root l1 b n) (λ r, wp (replace_all root l2 r.1 r.2) Q) w ->
  wp (replace_all root (l1 ++ l2) b n) Q w.
Proof.
  revert b n w. induction l1 as [|[pos url] l1 IH]; intros b n w; [done|].
  cbn [app replace_all]. rewrite !wp_bind. apply wp_mono. intros signed w'.
  case_bool_decide; [apply IH|]. case_decide; [apply IH|done].
Qed.

(** Replacing from the last match to the first one rewrites every match. *)
Lemma replace_all_spec fuel pre s n :
  wp (replace_all root (reverse (matches_of fuel (length pre) s)) (pre ++ s) n)
    (λ r w, r = (pre ++ rewrite_matches pattern sign fuel s,
                 (n + Z.of_nat (length (matches_of fuel (length pre) s)))%Z) /\ w = v) v.
Proof.
  revert pre s n. induction fuel as [|fuel IH]; intros pre s n;
    [split; [by rewrite Z.add_0_r|done]|].
  cbn [matches_of rewrite_matches].
  destruct (re_FindAndConsume s pattern) as [[[pos m] rest]|] eqn:Hf;
    [|split; [by rewrite Z.add_0_r|done]].
  apply match_shorter in Hf as (Hs & Hpos & Hlen & _).
  rewrite reverse_cons. apply replace_all_app.
  rewrite Hlen.
  replace (pre ++ s) with (((pre ++ take pos s) ++ m) ++ rest)
    by (rewrite Hs at 2; by rewrite !app_assoc).
  replace (length pre + (pos + length m)) with (length ((pre ++ take pos s) ++ m))
    by (rewrite !length_app, Hpos; lia).
  eapply wp_mono; [|apply IH]. intros r w [-> ->]. cbn [fst snd replace_all].
  apply wp_bind_2. eapply wp_mono; [|apply generateSignedUrl_spec].
  intros ? ? [-> ->]. rewrite bool_decide_false by apply signed_url_ne.
  assert (length (pre ++ take pos s) = length pre + pos) as Hp
    by (rewrite length_app; lia).
  rewrite decide_True by (rewrite !length_app; lia).
  apply wp_ret. split; [|done]. unfold replace_at. f_equal.
  - rewrite <- Hp, <- !app_assoc. rewrite (app_assoc pre), take_app_length.
    rewrite <- (app_assoc pre). do 3 f_equal.
    rewrite (app_assoc _ m), <- length_app. apply drop_app_length.
  - cbn [length]. rewrite !Nat2Z.inj_succ. lia.
Qed.

(** Fuel beyond the length of the text makes no difference. *)
Lemma rewrite_matches_fuel f1 f2 s :
  length s < f1 -> length s < f2 ->
  rewrite_matches pattern sign f1 s = rewrite_matches pattern sign f2 s.
Proof.
  revert f2 s. induction f1 as [|f1 IH]; intros [|f2] s H1' H2'; try lia. simpl.
  destruct (re_FindAndConsume s pattern) as [[[pos m] rest]|] eqn:Hf; [|done].
  apply match_shorter in Hf as (_ & _ & _ & ?). by rewrite (IH f2) by lia.
Qed.

Lemma matches_of_nil fuel base s :
  matches_of fuel base s = [] -> rewrite_matches pattern sign fuel s = s.
Proof. destruct fuel; simpl; [done|]. by destruct (re_FindAndConsume s pattern) as [[[]]|]. Qed.

(** C23. Once a body is complete, and if it is of at most one megabyte, the
    text that leaves is the text that came with each URL replaced by its
    signed form, in one pass from left to right, and all else unchanged.
    An incomplete body is held back and a larger one passed through; the
    search for URLs ends. *)
Theorem CdnToken_onResponseBody_spec body end_of_stream :
  buffers v !! HttpResponseBody = Some body -> (size_of body < 2 ^ 32)%Z ->
  wp (onResponseBody root (size_of body) end_of_stream)
    (λ y w,
      if negb end_of_stream
      then y = FilterDataStatus.StopIterationAndBuffer /\ w = v
      else y = FilterDataStatus.Continue /\ exists ls,
        w = logged ls (with_buffer HttpResponseBody
              (if decide (size_of body <= 1048576)%Z
               then rewrite_matches pattern sign (S (length body)) body
               else body) v)) v.
Proof.
  intros Hb Hs. unfold onResponseBody. destruct end_of_stream; cbn [negb]; [|done].
  assert (with_buffer HttpResponseBody body v = v) as Hid.
  { unfold with_buffer. rewrite insert_id by done. by destruct v. }
  unfold kMaxBodySize. change (1024 * 1024)%Z with 1048576%Z.
  destruct (Z.ltb_spec 1048576 (size_of body)) as [Hl|Hl].
  { wp_auto. split; [done|]. eexists [_]. rewrite decide_False by lia. by rewrite Hid. }
  rewrite decide_True by done.
  apply wp_bind_2. eapply wp_getBufferBytes; [done..|]. intros d <-. wp_reduce.
  unfold toString. case_bool_decide as Hne.
  { wp_auto. split; [done|]. exists []. rewrite logged_nil. rewrite Hne in *.
    rewrite matches_of_nil with (base := 0); [by rewrite Hid|]. cbn [matches_of].
    destruct (re_FindAndConsume [] pattern) as [[[pos m] rest]|] eqn:Hf; [|done].
    apply match_shorter in Hf as (_ & _ & _ & ?). simpl in *. lia. }
  cbn [url_pattern_ root]. apply wp_bind_2, wp_deref, wp_bind_2.
  rewrite find_all_spec by lia. apply wp_ret. cbn [app].
  set (l := matches_of _ 0 (view d)).
  case_bool_decide as Hm.
  { apply wp_ret. split; [done|]. exists []. rewrite logged_nil.
    by rewrite (matches_of_nil _ _ _ Hm), Hid. }
  apply wp_bind_2. eapply wp_mono; [|apply (replace_all_spec _ [] (view d) 0)].
  intros ? ? [-> ->]. cbn [length app]. fold l. wp_reduce.
  assert (0 < length l) by (clearbody l; destruct l; [done|simpl; lia]).
  rewrite (proj2 (Z.ltb_lt _ _)) by lia.
  wp_auto. eapply wp_setWholeBuffer; [done..|]. wp_auto.
  split; [done|]. by eexists [_].
Qed.
End body.
End cdn_token_generator.

(** ** Witnesses *)

(** An instance of [std::sort]. *)
Definition later (a b : nat * str) : Prop := b.1 <= a.1.
#[export] Instance later_dec : RelDecision later.
Proof. intros a b. unfold later. apply _. Defined.

Definition sort_ref : AdInsertion.StdSort := merge_sort later.

#[export] Instance sort_ref_ok : AdInsertion.StdSortOk sort_ref.
Proof.
  assert (Total later) by (intros a b; unfold later; lia).
  assert (Transitive later) by (intros a b c; unfold later; lia).
  split; intros l; [apply merge_sort_Permutation|apply (StronglySorted_merge_sort later)].
Qed.

Lemma url_at_prefix s u : url_at s = Some u -> u <> [] /\ s = u ++ drop (length u) s.
Proof.
  assert (forall P t, t = take_until P t ++ drop (length (take_until P t)) t) as Ht.
  { intros P t. induction t as [|c t IH]; simpl; [done|]. case_match; simpl; by f_equal. }
  unfold url_at. intros Hu.
  assert (exists p, p <> [] /\ starts_with p s = true /\
    u = p ++ take_until url_end (drop (length p) s)) as (p & Hp & [t ->]%starts_with_spec & ->).
  { repeat (case_match; try done); simplify_eq; eexists; split_and!; try done; congruence. }
  split; [by destruct p|]. rewrite (drop_app_length p t), length_app, <- app_assoc. f_equal.
  rewrite <- drop_drop, (drop_app_length p t). apply Ht.
Qed.

#[export] Instance url_ref_matches : UrlMatches re2_ref.
Proof.
  intros s pos m rest. simpl. revert pos. induction s as [|c s IH]; intros pos; simpl.
  - done.
  - destruct (url_at (c :: s)) as [u|] eqn:Hu.
    + intros [= <- <- <-]. by apply url_at_prefix.
    + destruct (first_url s) as [[[n m'] rest']|]; simpl; [|done].
      intros [= <- <- <-]. destruct (IH n eq_refl) as [? Hs]. split; [done|].
      simpl. by rewrite <- Hs.
Qed.

Section witnesses.
Local Existing Instances absl_ref re2_ref openssl_ref sdk_ref sort_ref.

Definition two_bodies : HostView :=
  mkHostView ∅ {[ HttpRequestBody := "ab"%str; HttpResponseBody := [] ]} (λ _, None)
    false None [] 0.

Lemma BodyChunking_spec_witness :
  wp (BodyChunking.onRequestBody 2 false)
    (λ _ w, buffers w !! HttpRequestBody = Some "abfoo"%str) two_bodies.
Proof.
  destruct (BodyChunking_spec two_bodies "ab"%str [] false eq_refl eq_refl) as [Hq _].
  unfold returns in Hq. change (size_of "ab"%str) with 2%Z in Hq.
  revert Hq. apply wp_mono. intros ? ? [_ ->]. reflexivity.
Defined.

Definition pii_view : HostView :=
  mkHostView
    {[ RequestHeaders := ∅; ResponseHeaders := hm_of_pairs [("X-Code"%str, "0123456789"%str)] ]}
    {[ HttpResponseBody := "card 1234-5678-9012-3456."%str ]} (λ _, None) true None [] 0.

Lemma CheckPii_spec_witness :
  wp (CheckPii.onResponseHeaders pii_root 1 false)
    (λ _ w, final_header ResponseHeaders "x-code"%str w = Some "XXXXXXX789"%str) pii_view /\
  wp (CheckPii.onResponseBody pii_root 25 true)
    (λ _ w, buffers w !! HttpResponseBody = Some "card XXXX-XXXX-XXXX-3456."%str) pii_view.
Proof.
  assert (hm_wf (hm_of_pairs [("X-Code"%str, "0123456789"%str)])) as Hwf.
  { apply map_Forall_insert_2; [reflexivity|apply map_Forall_empty]. }
  destruct (CheckPii_spec pii_view ∅ _ "card 1234-5678-9012-3456."%str 1 false
    (CheckPii.mkRoot None None) eq_refl eq_refl Hwf eq_refl eq_refl eq_refl)
    as (_ & _ & Hh & _).
  destruct (CheckPii_spec pii_view ∅ _ "card 1234-5678-9012-3456."%str 1 true
    (CheckPii.mkRoot None None) eq_refl eq_refl Hwf eq_refl eq_refl eq_refl)
    as (_ & _ & _ & Hb).
  split; [revert Hh|revert Hb]; apply wp_mono; intros ? ? [_ ->]; reflexivity.
Defined.

Definition ad_root : AdInsertion.Root :=
  AdInsertion.mkRoot
    [("a"%str, AdInsertion.mkAdConfig "/s"%str "1x1"%str "<p>"%str true)] "u"%str false.

(** One ad, before its marker. *)
Lemma AdInsertion_onResponseBody_spec_witness :
  wp (AdInsertion.onResponseBody ad_root (AdInsertion.mkStream true false) 5 true)
    (λ y w, y = FilterDataStatus.Continue /\
      buffers w !! HttpResponseBody =
        Some ("x"%str ++ AdInsertion.generateGAMAdHTML "a"%str
                (AdInsertion.mkAdConfig "/s"%str "1x1"%str "<p>"%str true) ++ "<p>y"%str))
    (body_view HttpResponseBody "x<p>y"%str).
Proof.
  pose proof (AdInsertion_onResponseBody_spec ad_root (AdInsertion.mkStream true false)
    (body_view HttpResponseBody "x<p>y"%str) "x<p>y"%str true eq_refl eq_refl) as Hw.
  revert Hw. apply wp_mono. intros y w [-> (g & Hg & ->)]. split; [reflexivity|].
  assert (forall i, i <> 1 -> g i = []) as Hnil.
  { intros i Hi. pose proof (Hg i) as Hi'. destruct i as [|[|i]]; [|done|];
      by apply Permutation_nil_r in Hi'. }
  pose proof (Hg 1) as H1. apply Permutation_singleton_r in H1.
  cbn [buffers with_buffer]. rewrite lookup_insert_eq. f_equal. simpl.
  rewrite H1, !Hnil by lia. reflexivity.
Defined.

Lemma AdInsertion_flags_spec_witness :
  wp (AdInsertion.onResponseHeaders (AdInsertion.mkStream false false) 1 false)
    (λ y w, y.2 = AdInsertion.mkStream true false /\
            final_header ResponseHeaders "content-length"%str w = None)
    (mkHostView
      {[ RequestHeaders := hm_of_pairs [(":path"%str, "/a"%str)];
         ResponseHeaders := hm_of_pairs [("Content-Type"%str, "text/html"%str);
                                         ("Content-Length"%str, "3"%str)] ]}
      ∅ (λ _, None) true None [] 0).
Proof.
  set (v := mkHostView _ _ _ _ _ _ _).
  destruct (AdInsertion_flags_spec (AdInsertion.mkStream false false) v _ _ 1 false
    eq_refl eq_refl eq_refl) as [_ Hs].
  revert Hs. apply wp_mono. intros y w [-> ->]. split; reflexivity.
Defined.

Definition ad_csv : str :=
  "# ads"%str ++ nl ++ "ad, b, /1/b, 1x1, true, <b>"%str ++ nl ++ "what"%str ++ nl ++
  " ad,a,/1/a,2x2,false,<a>"%str ++ nl ++ "ad,b,/2/b,3x3,no,<i>"%str ++ nl ++
  "inject_gpt, false"%str.

Lemma AdInsertion_onConfigure_spec_witness :
  wp (AdInsertion.onConfigure (size_of ad_csv))
    (λ r _, AdInsertion.getAdConfig r.2 "b"%str =
              Some (AdInsertion.mkAdConfig "/2/b"%str "3x3"%str "<i>"%str false) /\
            AdInsertion.inject_gpt_library_ r.2 = false)
    (body_view PluginConfiguration ad_csv).
Proof.
  pose proof (AdInsertion_onConfigure_spec (body_view PluginConfiguration ad_csv) ad_csv
    eq_refl eq_refl) as Hw.
  revert Hw. apply wp_mono. intros r w (ls & _ & _ & _ & _ & Hc).
  destruct Hc as (Hk & _ & Hi & _); [done|]. split; [rewrite Hk; reflexivity|].
  apply (inj Some). rewrite Hi. reflexivity.
Defined.

Definition cdn_config : CdnTokenGenerator.CdnTokenConfig :=
  CdnTokenGenerator.mkCdnTokenConfig "00112233445566778899aabbccddeeff"%str "k"%str 0.

Lemma CdnToken_onConfigure_spec_witness :
  wp (CdnTokenGenerator.onConfigure (λ _, Some cdn_config) (λ _, []) 1
        (CdnTokenGenerator.mkRoot None [] None))
    (λ r _, r.1 = true) (body_view PluginConfiguration "x"%str).
Proof.
  pose proof (CdnToken_onConfigure_spec (λ _, Some cdn_config) (λ _, [])
    (body_view PluginConfiguration "x"%str) "x"%str (CdnTokenGenerator.mkRoot None [] None)
    eq_refl eq_refl eq_refl) as Hw.
  revert Hw. apply wp_mono. intros r w (_ & Hr & _). apply Hr. split; [done|].
  exists cdn_config. split; [done|]. split_and!; [done|vm_compute; congruence| |by left|].
  - vm_compute. congruence.
  - by eexists.
Defined.

(** Two URLs, one of them with a query. *)
Lemma CdnToken_onResponseBody_spec_witness :
  let sign := signed_url cdn_config "k"%str 1700000000 in
  wp (CdnTokenGenerator.onResponseBody
        (CdnTokenGenerator.mkRoot (Some cdn_config) "k"%str
          (Some (re_compile CdnTokenGenerator.url_regex))) 30 true)
    (λ _ w, buffers w !! HttpResponseBody =
      Some ("a "%str ++ sign "http://h/x"%str ++ " '"%str ++ sign "https://h/y?z=1"%str ++
            "'"%str))
    (body_view HttpResponseBody "a http://h/x 'https://h/y?z=1'"%str).
Proof.
  pose proof (CdnToken_onResponseBody_spec cdn_config "k"%str
    (body_view HttpResponseBody "a http://h/x 'https://h/y?z=1'"%str)
    "a http://h/x 'https://h/y?z=1'"%str true eq_refl eq_refl) as Hw.
  revert Hw. apply wp_mono. intros y w [_ [ls ->]]. reflexivity.
Defined.
End witnesses.
