(* ===== verification/UrlSamples.v ===== *)
(** * Samples that read and rewrite the path of a request

    log_query, add_geo_query, set_query, regex_rewrite and ab_testing of
    plugins/samples. *)

From S2P Require Import Prelude Absl Headers Host Rules ThirdParty.

(** ** log_query *)

Module LogQuery.
Section plugin.
Context `{Boost} `{Sdk}.

Definition onRequestHeaders (headers : Z) (end_of_stream : bool)
  : Prog FilterHeadersStatus.t :=
path ← getRequestHeader ":path"%str;
_ ← match path with
    | None => mret tt
    | Some path =>
        let token := "<missing>"%str in
        let token :=
          match parse_uri_reference (view path) with
          | inl url =>
              match params_find false url "token"%str with
              | Some value => value
              | None => token
              end
          | inr _ => token
          end in
        LOG_INFO ("token: "%str ++ token)
    end;
mret FilterHeadersStatus.Continue.
End plugin.
End LogQuery.

(** ** add_geo_query *)

Module AddGeoQuery.
Section plugin.
Context `{Absl} `{Boost} `{Sdk}.

Definition onRequestHeaders (headers : Z) (end_of_stream : bool)
  : Prog FilterHeadersStatus.t :=
let country_value := "unknown"%str in
client_region ← getProperty ["request"%str; "client_region"%str];
country_value ←
  match client_region with
  | None => mret country_value
  | Some client_region =>
      client_region ← deref client_region;
      if bool_decide (view client_region = []) then mret country_value
      else mret (view client_region)
  end;
_ ← LOG_INFO (StrCat ["country: "%str; country_value]);
path ← getRequestHeader ":path"%str;
_ ← match path with
    | None => mret tt
    | Some path =>
        match parse_uri_reference (view path) with
        | inl url =>
            let url := params_set false url "country"%str country_value in
            _ ← replaceRequestHeader ":path"%str (url_buffer url);
            mret tt
        | inr _ => mret tt
        end
    end;
mret FilterHeadersStatus.Continue.
End plugin.
End AddGeoQuery.

(** ** set_query *)

Module SetQuery.
Section plugin.
Context `{Boost} `{Sdk}.

Definition kMaxPathLength : Z := 4096.

(** [wasm_result_code] is the number of a [WasmResult]. *)
Definition onRequestHeaders (wasm_result_code : WasmResult -> Z) (headers : Z)
  (end_of_stream : bool) : Prog FilterHeadersStatus.t :=
path ← getRequestHeader ":path"%str;
match path with
| None =>
    _ ← LOG_DEBUG "No :path header found"%str;
    mret FilterHeadersStatus.Continue
| Some path =>
    let path_view := view path in
    if (kMaxPathLength <? size_of path_view)%Z then
      _ ← LOG_WARN ("Path too long ("%str ++ to_string (size_of path_view) ++
                    " bytes), skipping processing"%str);
      mret FilterHeadersStatus.Continue
    else
      match parse_uri_reference path_view with
      | inr _ =>
          _ ← LOG_WARN ("Failed to parse URL: "%str ++ path_view);
          mret FilterHeadersStatus.Continue
      | inl url =>
          (* opt.space_as_plus *)
          let val := encode_pchars true "new val"%str in
          let url := params_erase true url "key"%str in
          let url := params_set true url "key"%str val in
          result ← replaceRequestHeader ":path"%str (encoded_resource url);
          _ ← (if decide (result <> Ok) then
                 LOG_ERROR ("Failed to replace :path header, error: "%str ++
                            to_string (wasm_result_code result))
               else LOG_DEBUG ("Successfully updated :path to: "%str ++
                               encoded_resource url));
          mret FilterHeadersStatus.Continue
      end
end.
End plugin.
End SetQuery.

(** ** regex_rewrite *)

Module RegexRewrite.
Section plugin.
Context `{Re2} `{Sdk}.

(** The root context's [path_match]. *)
Definition onConfigure (_ : Z) (_ : option regex) : Prog (bool * option regex) :=
let path_match := re_compile "/foo-([^/]+)/"%str in
mret (re_ok path_match, Some path_match).

Definition onRequestHeaders (path_match : option regex) (headers : Z) (end_of_stream : bool)
  : Prog FilterHeadersStatus.t :=
path ← getRequestHeader ":path"%str;
match path with
| None =>
    _ ← LOG_ERROR "Failed to get :path header"%str;
    mret FilterHeadersStatus.Continue
| Some path =>
    path_match ← deref path_match;
    _ ← match re_Replace (toString path) path_match "/\1/"%str with
        | None => mret tt
        | Some edit =>
            r ← replaceRequestHeader ":path"%str edit;
            if decide (r <> Ok) then LOG_ERROR "Failed to replace :path header"%str
            else mret tt
        end;
    mret FilterHeadersStatus.Continue
end.
End plugin.
End RegexRewrite.

(** ** ab_testing

    A [string_view] does not own its characters: here it comes with whether
    the object that does is still there.  To read characters that are gone is
    undefined behaviour, a trap. *)

Module AbTesting.
Record StringView : Type := mkView { characters : str; alive : bool }.

Definition read (s : StringView) : Prog str :=
if alive s then mret (characters s)
else match characters s with [] => mret [] | _ => Trap end.

Definition empty (s : StringView) : bool := bool_decide (characters s = []).

Definition a_path : str := "/v1/"%str.
Definition b_path : str := "/v2/"%str.
Definition percentile : Z := 50.

Section plugin.
Context `{Absl} `{Boost} `{Sdk} (hash : str -> Z).

(** The value of the parameter found is a member of a temporary. *)
Definition extractUserFromPath (path : StringView) : Prog StringView :=
p ← read path;
match parse_relative_ref p with
| inr _ => Trap
| inl url =>
    match params_find false url "user"%str with
    | Some value => mret (mkView value false)
    | None => mret (mkView [] true)
    end
end.

(** The [WasmData] of the header is a temporary of the first declaration. *)
Definition onRequestHeaders (headers : Z) (end_of_stream : bool) : Prog FilterHeadersStatus.t :=
path_data ← getRequestHeader ":path"%str;
path_data ← deref path_data;
let path := mkView (view path_data) false in
user ← extractUserFromPath path;
p ← read path;
chosen ← (if StartsWithIgnoreCase p a_path && negb (empty user) then
            u ← read user; mret (hash u mod 100 <=? percentile)%Z
          else mret false);
_ ← (if chosen : bool then
       p ← read path;
       let new_path := StrCat [b_path; drop (length a_path) p] in
       replaceRequestHeader ":path"%str new_path
     else mret Ok);
mret FilterHeadersStatus.Continue.
End plugin.
End AbTesting.

(** ** Specifications *)

(** A query in which [k] is [x] and every other parameter is as it was. *)
Definition has_param `{Boost} (b : bool) (u u' : url) (k x : str) : Prop :=
  params_find b u' k = Some x /\
  forall k', k' <> k -> params_find b u' k' = params_find b u k'.

Section urls.
Context `{!Absl} `{!AbslOk _} `{!Re2} `{!Boost} `{!BoostOk _} `{!Sdk} `{!SdkOk _}.

(** log_query writes the decoded [token] parameter of the path to the
    log, or says that it is missing, and touches nothing. *)
Theorem LogQuery_spec v rq p n end_of_stream :
  maps v !! RequestHeaders = Some rq -> hm_get ":path"%str rq = Some p ->
  returns (LogQuery.onRequestHeaders n end_of_stream) v FilterHeadersStatus.Continue
    (with_log Linfo
      ("token: "%str ++
       match parse_uri_reference p with
       | inl u => default "<missing>"%str (params_find false u "token"%str)
       | inr _ => "<missing>"%str
       end) v).
Proof.
  intros Hm Hp. unfold LogQuery.onRequestHeaders. wp_auto.
  all: destruct (parse_uri_reference _) as [u|]; [|done].
  all: by destruct (params_find false u _).
Qed.

(** add_geo_query gives the path a [country] parameter: the client's
    region, or [unknown] when the host does not tell it or tells an empty
    one.  The other parameters keep their values, and a path that is not a
    URL is forwarded as it is. *)
Theorem AddGeoQuery_spec v rq p n end_of_stream :
  maps v !! RequestHeaders = Some rq -> hm_get ":path"%str rq = Some p ->
  response v = None ->
  let region := default [] (properties v ["request"%str; "client_region"%str]) in
  let country := if decide (region = []) then "unknown"%str else region in
  wp (AddGeoQuery.onRequestHeaders n end_of_stream)
    (λ y w, y = FilterHeadersStatus.Continue /\
      match parse_uri_reference p with
      | inl u => exists u', has_param false u u' "country"%str country /\
          w = logged [(Linfo, "country: "%str ++ country)]
                (with_map RequestHeaders (hm_set ":path"%str (url_buffer u') rq) v)
      | inr _ => w = logged [(Linfo, "country: "%str ++ country)] v
      end) v.
Proof.
  intros Hm Hp Hr region country. unfold AddGeoQuery.onRequestHeaders.
  assert (forall (k : str -> Prog FilterHeadersStatus.t) Q,
    wp (k country) Q v ->
    wp (client_region ← getProperty ["request"%str; "client_region"%str];
        country_value ←
          match client_region with
          | None => mret "unknown"%str
          | Some client_region =>
              client_region ← deref client_region;
              if bool_decide (view client_region = []) then mret "unknown"%str
              else mret (view client_region)
          end; k country_value) Q v) as Hk.
  { intros k Q Hk. subst country region. wp_auto; wp_close; subst; try done.
    all: match goal with H : properties _ _ = _ |- _ => rewrite H in Hk end.
    all: cbn [default from_option id] in Hk; rewrite ?decide_False in Hk by done; done. }
  apply Hk. clear Hk. wp_auto. all: absl; rewrite concat_two.
  - split; [done|]. case_match; simplify_eq. eexists. split; [|done].
    split; [apply params_find_set|]. intros k' Hk'. by apply params_find_set_ne.
  - split; [done|]. by case_match; simplify_eq.
Qed.

(** set_query leaves exactly one [key] parameter, with the encoded text,
    and the others as they were; a path over 4096 bytes, or one that is not a
    URL, is forwarded as it is. *)
Theorem SetQuery_spec code v rq p n end_of_stream :
  maps v !! RequestHeaders = Some rq -> hm_get ":path"%str rq = Some p ->
  response v = None ->
  wp (SetQuery.onRequestHeaders code n end_of_stream)
    (λ y w, y = FilterHeadersStatus.Continue /\ exists ls,
      match parse_uri_reference p with
      | inl u =>
          if decide (size_of p <= 4096)%Z then
            exists u', has_param true u u' "key"%str (encode_pchars true "new val"%str) /\
              w = logged ls
                (with_map RequestHeaders (hm_set ":path"%str (encoded_resource u') rq) v)
          else w = logged ls v
      | inr _ => w = logged ls v
      end) v.
Proof.
  intros Hm Hp Hr. unfold SetQuery.onRequestHeaders, SetQuery.kMaxPathLength.
  apply wp_bind_2. eapply wp_getHeader; [done| |congruence]. rewrite Hp. intros ? [= <-].
  wp_reduce. destruct (Z.ltb_spec 4096 (size_of p)).
  - wp_auto. split; [done|]. eexists [_].
      case_match; rewrite ?decide_False by lia; done.
  - destruct (parse_uri_reference p) as [u|].
    + wp_auto. split; [done|]. eexists [_]. rewrite decide_True by lia. eexists. split; [|done].
        split; [apply params_find_set|]. intros k' Hk'.
        by rewrite params_find_set_ne, params_find_erase_ne.
    + wp_auto. split; [done|]. by eexists [_].
Qed.

(** regex_rewrite replaces the path by the edited one when the pattern
    matches, and otherwise leaves it. *)
Theorem RegexRewrite_spec v rq p n end_of_stream :
  maps v !! RequestHeaders = Some rq -> hm_get ":path"%str rq = Some p ->
  response v = None ->
  returns (r ← RegexRewrite.onConfigure n None; RegexRewrite.onRequestHeaders r.2 n end_of_stream)
    v FilterHeadersStatus.Continue
    (match re_Replace p (re_compile "/foo-([^/]+)/"%str) "/\1/"%str with
     | Some edit => with_map RequestHeaders (hm_set ":path"%str edit rq) v
     | None => v
     end).
Proof.
  intros Hm Hp Hr. unfold RegexRewrite.onConfigure, RegexRewrite.onRequestHeaders, returns.
  wp_auto; split; [done| |done|]; by case_match; simplify_eq.
Qed.
(** C33. The handler of ab_testing reads the path after the object that holds it
    is gone: no request with a path has a defined outcome; one without a path
    goes on as it is. *)
Theorem AbTesting_undefined `{!SdkNonNull _} hash v rq n end_of_stream :
  maps v !! RequestHeaders = Some rq ->
  match default [] (hm_get ":path"%str rq) with
  | [] => forall u, parse_relative_ref [] = inl u -> params_find false u "user"%str = None ->
      returns (AbTesting.onRequestHeaders hash n end_of_stream) v FilterHeadersStatus.Continue v
  | _ => forall Q, ~ wp (AbTesting.onRequestHeaders hash n end_of_stream) Q v
  end.
Proof.
  intros Hm. destruct (hm_get ":path"%str rq) as [[|a p]|] eqn:Hp; cbn [default from_option id].
  - intros u Hu Hf. unfold returns, AbTesting.onRequestHeaders, AbTesting.extractUserFromPath.
    apply wp_bind_2. eapply wp_getHeader_data; [done|]. rewrite Hp.
    cbn. rewrite Hu, Hf. cbn. rewrite andb_false_r. split; reflexivity.
  - intros Q Hw. unfold wp, AbTesting.onRequestHeaders in Hw. cbn in Hw. rewrite Hm in Hw. cbn in Hw.
    rewrite Hp, header_ptr_done in Hw. exact Hw.
  - intros u Hu Hf. unfold returns, AbTesting.onRequestHeaders, AbTesting.extractUserFromPath.
    apply wp_bind_2. eapply wp_getHeader_data; [done|]. rewrite Hp.
    cbn. rewrite Hu, Hf. cbn. rewrite andb_false_r. split; reflexivity.
Qed.
End urls.

(** ** Witnesses *)

Section witnesses.
Local Existing Instances absl_ref re2_ref boost_ref sdk_ref.

Lemma LogQuery_spec_witness :
  wp (LogQuery.onRequestHeaders 1 true)
    (λ _ w, logs w = [(Linfo, "token: t1"%str)])
    (sample_view RequestHeaders [(":path"%str, "/a?token=t1"%str)]).
Proof.
  pose proof (LogQuery_spec (sample_view RequestHeaders [(":path"%str, "/a?token=t1"%str)])
    _ "/a?token=t1"%str 1 true eq_refl eq_refl) as Hw.
  unfold returns in Hw. revert Hw. apply wp_mono. intros y w [_ ->]. reflexivity.
Defined.

(** The region is known, and the path names another country. *)
Lemma AddGeoQuery_spec_witness :
  let v := mkHostView
    {[ RequestHeaders := hm_of_pairs [(":path"%str, "/a?country=FR&b=1"%str)] ]} ∅
    (λ _, Some "ES"%str) true None [] 0 in
  wp (AddGeoQuery.onRequestHeaders 1 true)
    (λ _ w, exists u', has_param false (simple_parse "/a?country=FR&b=1"%str) u'
                         "country"%str "ES"%str /\
       final_header RequestHeaders ":path"%str w = Some (url_buffer u')) v.
Proof.
  intros v.
  pose proof (AddGeoQuery_spec v _ "/a?country=FR&b=1"%str 1 true eq_refl eq_refl eq_refl)
    as Hw.
  revert Hw. apply wp_mono. intros y w [_ (u' & Hu & ->)]. exists u'. split; [exact Hu|].
  unfold final_header. cbn [maps with_map with_maps logged]. rewrite lookup_insert_eq.
  cbn [mbind option_bind]. apply hm_get_set_eq. reflexivity.
Defined.

Lemma SetQuery_spec_witness :
  wp (SetQuery.onRequestHeaders (λ _, 0%Z) 1 true)
    (λ _ w, exists u', has_param true (simple_parse "/a?key=1&b=2&key=3"%str) u'
                         "key"%str "new val"%str /\
       final_header RequestHeaders ":path"%str w = Some (encoded_resource u'))
    (sample_view RequestHeaders [(":path"%str, "/a?key=1&b=2&key=3"%str)]).
Proof.
  pose proof (SetQuery_spec (λ _, 0%Z)
    (sample_view RequestHeaders [(":path"%str, "/a?key=1&b=2&key=3"%str)]) _
    "/a?key=1&b=2&key=3"%str 1 true eq_refl eq_refl eq_refl) as Hw.
  revert Hw. apply wp_mono. intros y w [_ (ls & u' & Hu & ->)]. exists u'.
  split; [exact Hu|].
  unfold final_header. cbn [maps with_map with_maps logged]. rewrite lookup_insert_eq.
  cbn [mbind option_bind]. apply hm_get_set_eq. reflexivity.
Defined.

Lemma RegexRewrite_spec_witness :
  wp (r ← RegexRewrite.onConfigure 1 None; RegexRewrite.onRequestHeaders r.2 1 true)
    (λ _ w, final_header RequestHeaders ":path"%str w = Some "/pre/bar/x"%str)
    (sample_view RequestHeaders [(":path"%str, "/pre/foo-bar/x"%str)]).
Proof.
  pose proof (RegexRewrite_spec
    (sample_view RequestHeaders [(":path"%str, "/pre/foo-bar/x"%str)]) _
    "/pre/foo-bar/x"%str 1 true eq_refl eq_refl eq_refl) as Hw.
  unfold returns in Hw. revert Hw. apply wp_mono. intros y w [_ ->]. reflexivity.
Defined.
(** Under a request for a user, and without a path. *)
Lemma AbTesting_undefined_witness :
  (forall Q, ~ wp (AbTesting.onRequestHeaders size_of 1 true) Q
     (sample_view RequestHeaders [(":path"%str, "/v1/a?user=u"%str)])) /\
  returns (AbTesting.onRequestHeaders size_of 1 true) (sample_view RequestHeaders [])
    FilterHeadersStatus.Continue (sample_view RequestHeaders []).
Proof.
  split.
  - exact (AbTesting_undefined size_of
      (sample_view RequestHeaders [(":path"%str, "/v1/a?user=u"%str)]) _ 1 true eq_refl).
  - refine (AbTesting_undefined size_of (sample_view RequestHeaders []) _ 1 true eq_refl
      (simple_parse []) eq_refl eq_refl).
Defined.
End witnesses.
