(* ===== verification/YamlProto.v ===== *)
(** * From YAML to the configuration of a test

    plugins/test/yaml_proto_converter.cpp: a test suite is read from a YAML
    text, whose tree is matched against the descriptors of the messages of
    plugins/test/runner.proto.  yaml-cpp and the reflection of protobuf are
    interfaces. *)

From S2P Require Import Prelude Absl.

(** ** yaml-cpp *)

Inductive Node : Type :=
  | Undefined
  | Null
  | Scalar (s : str)
  | Sequence (l : list Node)
  | Map (l : list (Node * Node)).

(** [Node::Type()], as the number of the enumerator. *)
Definition node_type (n : Node) : Z :=
  match n with Undefined => 0 | Null => 1 | Scalar _ => 2 | Sequence _ => 3 | Map _ => 4 end.

Section Node_ind.
Context (P : Node -> Prop) (HU : P Undefined) (HN : P Null) (HS : forall s, P (Scalar s))
  (HL : forall l, Forall P l -> P (Sequence l))
  (HM : forall l, Forall (λ kv, P kv.2) l -> P (Map l)).

Fixpoint Node_nested_ind (n : Node) : P n :=
  match n with
  | Undefined => HU
  | Null => HN
  | Scalar s => HS s
  | Sequence l => HL l ((fix go l : Forall P l :=
      match l with [] => Forall_nil_2 _ | x :: l => Forall_cons_2 _ _ _ (Node_nested_ind x) (go l) end) l)
  | Map l => HM l ((fix go l : Forall (λ kv, P kv.2) l :=
      match l with
      | [] => Forall_nil_2 _
      | (k, v) :: l => Forall_cons_2 (λ kv, P kv.2) (k, v) _ (Node_nested_ind v) (go l)
      end) l)
  end.
End Node_ind.

(** The conversions [as<T>]; an exception is its text. *)
Class YamlCpp : Type := {
  Double : Type;
  double_zero : Double;
  as_string : Node -> str + str;
  as_int32 : Node -> str + Z;
  as_int64 : Node -> str + Z;
  as_uint32 : Node -> str + Z;
  as_uint64 : Node -> str + Z;
  as_double : Node -> str + Double;
  as_float : Node -> str + Double;
  as_bool : Node -> str + bool;
  YAML_Load : str -> str + Node;
}.

(** The range of an integer type of [w] bits. *)
Definition signed (w z : Z) : Prop := (- 2 ^ (w - 1) <= z < 2 ^ (w - 1))%Z.
Definition unsigned (w z : Z) : Prop := (0 <= z < 2 ^ w)%Z.

Class YamlCppOk (Y : YamlCpp) : Prop := {
  as_string_scalar s : as_string (Scalar s) = inr s;
  as_int32_range n z : as_int32 n = inr z -> signed 32 z;
  as_int64_range n z : as_int64 n = inr z -> signed 64 z;
  as_uint32_range n z : as_uint32 n = inr z -> unsigned 32 z;
  as_uint64_range n z : as_uint64 n = inr z -> unsigned 64 z;
}.

(** ** Descriptors *)

Inductive CppType : Type :=
  | CPPTYPE_INT32 | CPPTYPE_INT64 | CPPTYPE_UINT32 | CPPTYPE_UINT64 | CPPTYPE_DOUBLE
  | CPPTYPE_FLOAT | CPPTYPE_BOOL | CPPTYPE_STRING | CPPTYPE_ENUM | CPPTYPE_MESSAGE.

#[export] Instance CppType_eq_dec : EqDecision CppType.
Proof. solve_decision. Defined.

(** A field of a message: whether it is repeated, whether a singular one knows
    that it was not set, the [oneof] it belongs to, the enumerators or the type
    of message it holds. *)
Record FieldDescriptor : Type := mkField {
  field_name : str;
  is_repeated : bool;
  has_presence : bool;
  containing_oneof : option str;
  cpp_type : CppType;
  enum_type : list (str * Z);
  message_type : str;
}.

Record Descriptor : Type := mkDescriptor {
  descriptor_name : str;
  fields : list FieldDescriptor;
}.

Definition FindFieldByName (d : Descriptor) (name : str) : option FieldDescriptor :=
  List.find (λ f, bool_decide (field_name f = name)) (fields d).
Definition FindValueByName (e : list (str * Z)) (name : str) : option Z :=
  snd <$> List.find (λ v, bool_decide (v.1 = name)) e.
Definition FindValueByNumber (e : list (str * Z)) (number : Z) : option Z :=
  snd <$> List.find (λ v, bool_decide (v.2 = number)) e.

(** ** Messages *)

Section values.
Context `{YamlCpp}.

Inductive ScalarValue : Type :=
  | VInt32 (z : Z) | VInt64 (z : Z) | VUInt32 (z : Z) | VUInt64 (z : Z)
  | VDouble (d : Double) | VFloat (d : Double) | VBool (b : bool) | VString (s : str)
  | VEnum (number : Z).

(** The value of a singular field that was not set. *)
Definition default_scalar (f : FieldDescriptor) : option ScalarValue :=
  match cpp_type f with
  | CPPTYPE_INT32 => Some (VInt32 0)
  | CPPTYPE_INT64 => Some (VInt64 0)
  | CPPTYPE_UINT32 => Some (VUInt32 0)
  | CPPTYPE_UINT64 => Some (VUInt64 0)
  | CPPTYPE_DOUBLE => Some (VDouble double_zero)
  | CPPTYPE_FLOAT => Some (VFloat double_zero)
  | CPPTYPE_BOOL => Some (VBool false)
  | CPPTYPE_STRING => Some (VString [])
  | CPPTYPE_ENUM => VEnum ∘ snd <$> head (enum_type f)
  | CPPTYPE_MESSAGE => None
  end.

(** The value has the type of the field. *)
Definition scalar_ok (f : FieldDescriptor) (x : ScalarValue) : Prop :=
  match cpp_type f, x with
  | CPPTYPE_INT32, VInt32 z => signed 32 z
  | CPPTYPE_INT64, VInt64 z => signed 64 z
  | CPPTYPE_UINT32, VUInt32 z => unsigned 32 z
  | CPPTYPE_UINT64, VUInt64 z => unsigned 64 z
  | CPPTYPE_DOUBLE, VDouble _ | CPPTYPE_FLOAT, VFloat _ | CPPTYPE_BOOL, VBool _
  | CPPTYPE_STRING, VString _ => True
  | CPPTYPE_ENUM, VEnum number => number ∈ (enum_type f).*2
  | _, _ => False
  end.
End values.

(** What a message holds for a field it was not given. *)
Definition default_contents `{YamlCpp} {M : Type} (f : FieldDescriptor) : list (ScalarValue + M) :=
  if is_repeated f || has_presence f then []
  else match default_scalar f with Some x => [inl x] | None => [] end.

(** Two fields of one [oneof]. *)
Definition same_oneof (f g : FieldDescriptor) : bool :=
  bool_decide (containing_oneof f <> None /\ containing_oneof f = containing_oneof g).

(** What a singular field that is set makes of the values [old] of field [g]. *)
Definition after_set {A} (f g : FieldDescriptor) (new old : list A) : list A :=
  if bool_decide (field_name g = field_name f) then new
  else if same_oneof f g then [] else old.

(** Messages and their reflection.  A nested message that is changed through a
    pointer is written back; [contents] lists the values of a field. *)
Class Protobuf `{YamlCpp} : Type := {
  Message : Type;
  pool : str -> Descriptor;
  default_message : Descriptor -> Message;
  GetDescriptor : Message -> Descriptor;
  SetScalar : FieldDescriptor -> ScalarValue -> Message -> Message;
  AddScalar : FieldDescriptor -> ScalarValue -> Message -> Message;
  MutableMessage : FieldDescriptor -> Message -> Message;
  SetMessage : FieldDescriptor -> Message -> Message -> Message;
  AddMessage : FieldDescriptor -> Message -> Message -> Message;
  contents : Message -> FieldDescriptor -> list (ScalarValue + Message);
}.

(** The enumerations of a descriptor are not empty, its names are unique, and
    the members of a [oneof] are singular and know that they were not set. *)
Definition field_wf (f : FieldDescriptor) : Prop :=
  (cpp_type f = CPPTYPE_ENUM -> enum_type f <> []) /\
  (containing_oneof f <> None -> has_presence f = true /\ is_repeated f = false).
Definition descriptor_wf (d : Descriptor) : Prop :=
  NoDup (field_name <$> fields d) /\ Forall field_wf (fields d).

#[export] Instance descriptor_wf_dec d : Decision (descriptor_wf d).
Proof. unfold descriptor_wf, field_wf. apply _. Defined.

Class ProtobufOk `{YamlCpp} (R : Protobuf) : Prop := {
  pool_wf t : descriptor_wf (pool t);
  descriptor_default d : GetDescriptor (default_message d) = d;
  descriptor_set_scalar f x m : GetDescriptor (SetScalar f x m) = GetDescriptor m;
  descriptor_add_scalar f x m : GetDescriptor (AddScalar f x m) = GetDescriptor m;
  descriptor_set_message f s m : GetDescriptor (SetMessage f s m) = GetDescriptor m;
  descriptor_add_message f s m : GetDescriptor (AddMessage f s m) = GetDescriptor m;
  contents_default d g : contents (default_message d) g = default_contents g;
  contents_set_scalar f x m g :
    contents (SetScalar f x m) g = after_set f g [inl x] (contents m g);
  contents_set_message f s m g :
    contents (SetMessage f s m) g = after_set f g [inr s] (contents m g);
  contents_add_scalar f x m g :
    contents (AddScalar f x m) g =
    if bool_decide (field_name g = field_name f) then contents m g ++ [inl x] else contents m g;
  contents_add_message f s m g :
    contents (AddMessage f s m) g =
    if bool_decide (field_name g = field_name f) then contents m g ++ [inr s] else contents m g;
  mutable_message f m :
    MutableMessage f m = match contents m f with
                         | [inr s] => s
                         | _ => default_message (pool (message_type f))
                         end;
}.

(** ** Outcomes

    An operation throws a [YAML::Exception], returns an error, or a value. *)

Inductive Outcome (A : Type) : Type :=
  | Threw (what : str)
  | Fails (st : Status)
  | Okay (a : A).
Arguments Threw {A}.
Arguments Fails {A}.
Arguments Okay {A}.

#[export] Instance Outcome_ret : MRet Outcome := @Okay.
#[export] Instance Outcome_bind : MBind Outcome := λ A B f o,
  match o with Threw w => Threw w | Fails st => Fails st | Okay a => f a end.
#[export] Instance Outcome_fmap : FMap Outcome := λ A B f o,
  match o with Threw w => Threw w | Fails st => Fails st | Okay a => Okay (f a) end.

(** A conversion whose exception is not caught, and one inside the [try] block
    whose handler returns [message] and the text of the exception. *)
Definition or_throw {A} (r : str + A) : Outcome A :=
  match r with inl what => Threw what | inr a => Okay a end.
Definition or_fail {A} (message : str -> str) (r : str + A) : Outcome A :=
  match r with inl what => Fails (InvalidArgumentError (message what)) | inr a => Okay a end.

Lemma Outcome_bind_okay {A B} (f : A -> Outcome B) o b :
  o ≫= f = Okay b -> exists a, o = Okay a /\ f a = Okay b.
Proof. destruct o as [w|st|a]; [done..|]. by exists a. Qed.

Lemma Outcome_fmap_okay {A B} (f : A -> B) o b :
  f <$> o = Okay b -> exists a, o = Okay a /\ f a = b.
Proof. destruct o as [w|st|a]; [done..|]. intros [= <-]. by exists a. Qed.

Lemma or_fail_okay {A} message (r : str + A) a : or_fail message r = Okay a -> r = inr a.
Proof. by destruct r; intros [= ->]. Qed.

(** ** The converter *)

Section converter.
Context `{Absl} `{YamlCpp}.

(** The enumerator of a text: by its name, and else by its number. *)
Definition enum_value (e : list (str * Z)) (str_val : str) (node : Node) : option Z :=
  match FindValueByName e str_val with
  | Some ev => Some ev
  | None =>
      match as_int32 node with
      | inr enum_num => FindValueByNumber e enum_num
      | inl _ => None
      end
  end.

(** What [SetSingularScalarField] and [AddRepeatedScalarField] make of a node;
    [what] names the kind of field in their messages. *)
Definition scalar_value (what : str) (node : Node) (field : FieldDescriptor)
    : Outcome ScalarValue :=
  let name := field_name field in
  match node with
  | Scalar _ =>
      str_val ← or_throw (as_string node);
      let failed what' := StrCat ["Failed to parse "%str; what; " '"%str; name; "': "%str; what'] in
      match cpp_type field with
      | CPPTYPE_INT32 => VInt32 <$> or_fail failed (as_int32 node)
      | CPPTYPE_INT64 => VInt64 <$> or_fail failed (as_int64 node)
      | CPPTYPE_UINT32 => VUInt32 <$> or_fail failed (as_uint32 node)
      | CPPTYPE_UINT64 => VUInt64 <$> or_fail failed (as_uint64 node)
      | CPPTYPE_DOUBLE => VDouble <$> or_fail failed (as_double node)
      | CPPTYPE_FLOAT => VFloat <$> or_fail failed (as_float node)
      | CPPTYPE_BOOL => VBool <$> or_fail failed (as_bool node)
      | CPPTYPE_STRING => Okay (VString str_val)
      | CPPTYPE_ENUM =>
          match enum_value (enum_type field) str_val node with
          | Some ev => Okay (VEnum ev)
          | None => Fails (InvalidArgumentError (StrCat ["Invalid enum value '"%str; str_val;
                             "' for "%str; what; " '"%str; name; "'"%str]))
          end
      | CPPTYPE_MESSAGE =>
          Fails (UnimplementedError (StrCat ["Unsupported type for "%str; what; " '"%str; name;
                                             "'"%str]))
      end
  | _ =>
      Fails (InvalidArgumentError (StrCat ["Expected a Scalar for "%str; what; " '"%str; name;
                                           "'"%str]))
  end.

Context `{!Protobuf}.

Definition SetSingularScalarField (node : Node) (field : FieldDescriptor) (message : Message)
    : Outcome Message :=
  (λ x, SetScalar field x message) <$> scalar_value "field"%str node field.

Definition AddRepeatedScalarField (node : Node) (field : FieldDescriptor) (message : Message)
    : Outcome Message :=
  (λ x, AddScalar field x message) <$> scalar_value "repeated field"%str node field.

(** The loops of [ConvertYamlToProtoMessage] over the elements of a sequence
    and over the entries of a map; [convert] converts a node below. *)
Section loops.
Context (convert : Node -> Message -> Outcome Message).

Fixpoint convert_elements (field : FieldDescriptor) (elems : list Node) (message : Message)
    : Outcome Message :=
  match elems with
  | [] => Okay message
  | elem :: elems =>
      message ←
        (if decide (cpp_type field = CPPTYPE_MESSAGE) then
           (λ nested, AddMessage field nested message) <$>
             convert elem (default_message (pool (message_type field)))
         else AddRepeatedScalarField elem field message);
      convert_elements field elems message
  end.

Definition convert_field (key : str) (field : FieldDescriptor) (value_node : Node)
    (message : Message) : Outcome Message :=
  if is_repeated field then
    match value_node with
    | Sequence elems => convert_elements field elems message
    | _ => Fails (InvalidArgumentError (StrCat ["Expected a Sequence for repeated field '"%str;
                                                key; "'"%str]))
    end
  else if decide (cpp_type field = CPPTYPE_MESSAGE) then
    (λ nested, SetMessage field nested message) <$>
      convert value_node (MutableMessage field message)
  else SetSingularScalarField value_node field message.

Fixpoint convert_entries (descriptor : Descriptor) (entries : list (Node * Node))
    (message : Message) : Outcome Message :=
  match entries with
  | [] => Okay message
  | (first, second) :: entries =>
      key ← or_throw (as_string first);
      match FindFieldByName descriptor key with
      | None =>
          Fails (InvalidArgumentError (StrCat ["Field '"%str; key; "' is not found in the "%str;
                   descriptor_name descriptor; " proto"%str]))
      | Some field =>
          message ← convert_field key field second message;
          convert_entries descriptor entries message
      end
  end.
End loops.

Fixpoint ConvertYamlToProtoMessage (node : Node) (message : Message) : Outcome Message :=
  match node with
  | Map entries =>
      convert_entries ConvertYamlToProtoMessage (GetDescriptor message) entries message
  | _ =>
      Fails (InvalidArgumentError (StrCat ["Expected a Map for message "%str;
        descriptor_name (GetDescriptor message); " but got "%str; AlphaNum (node_type node)]))
  end.

Definition ConvertYamlToTestSuite (yaml_content : str) : StatusOr Message :=
  let parse_error what := inl (InvalidArgumentError (StrCat ["YAML parsing error: "%str; what])) in
  let suite := default_message (pool "TestSuite"%str) in
  match YAML_Load yaml_content with
  | inl what => parse_error what
  | inr (Undefined | Null) => inr suite
  | inr yaml_root =>
      match ConvertYamlToProtoMessage yaml_root suite with
      | Threw what => parse_error what
      | Fails status =>
          inl (mkStatus (status_code status)
                 (StrCat ["Failed to parse input YAML: "%str; status_message status]))
      | Okay suite => inr suite
      end
  end.
End converter.

(** ** Well-typed messages *)

Section typing.
Context `{!Absl} `{!YamlCpp} `{!YamlCppOk _} `{!Protobuf} `{!ProtobufOk _}.
Implicit Types (m s : Message) (f g : FieldDescriptor) (d : Descriptor).

(** Every field holds values of its type, a singular one at most one of them,
    and so do the nested messages. *)
Inductive well_typed : Message -> Prop :=
  | well_typed_intro m :
      descriptor_wf (GetDescriptor m) ->
      (forall g x, g ∈ fields (GetDescriptor m) -> inl x ∈ contents m g -> scalar_ok g x) ->
      (forall g s, g ∈ fields (GetDescriptor m) -> inr s ∈ contents m g ->
         cpp_type g = CPPTYPE_MESSAGE /\ GetDescriptor s = pool (message_type g) /\ well_typed s) ->
      (forall g, g ∈ fields (GetDescriptor m) -> is_repeated g = false ->
         length (contents m g) <= 1) ->
      well_typed m.

(** The value may be held by the field. *)
Definition value_ok f (x : ScalarValue + Message) : Prop :=
  match x with
  | inl x => scalar_ok f x
  | inr s => cpp_type f = CPPTYPE_MESSAGE /\ GetDescriptor s = pool (message_type f) /\ well_typed s
  end.

Definition field_ok f (xs : list (ScalarValue + Message)) : Prop :=
  Forall (value_ok f) xs /\ (is_repeated f = false -> length xs <= 1).

Lemma well_typed_alt m :
  well_typed m <-> descriptor_wf (GetDescriptor m) /\
    forall g, g ∈ fields (GetDescriptor m) -> field_ok g (contents m g).
Proof.
  split.
  - intros [m' Hwf Hs Hm Hl]. split; [done|]. intros g Hg. split; [|by apply Hl].
    apply Forall_forall. intros [x|s] Hx; [by apply Hs|by apply Hm].
  - intros [Hwf Hf]. constructor; [done|..].
    + intros g x Hg Hx. destruct (Hf g Hg) as [Hv _].
      exact (proj1 (Forall_forall _ _) Hv (inl x) Hx).
    + intros g s Hg Hx. destruct (Hf g Hg) as [Hv _].
      exact (proj1 (Forall_forall _ _) Hv (inr s) Hx).
    + intros g Hg. apply Hf, Hg.
Qed.

Lemma FindFieldByName_Some d key f :
  FindFieldByName d key = Some f -> f ∈ fields d /\ field_name f = key.
Proof.
  intros Hf. apply List.find_some in Hf as [Hin Hn]. apply bool_decide_eq_true in Hn.
  split; [by apply list_elem_of_In|done].
Qed.

Lemma field_unique d f g :
  descriptor_wf d -> f ∈ fields d -> g ∈ fields d -> field_name g = field_name f -> g = f.
Proof.
  intros [Hnd _] Hf Hg Hn. apply list_elem_of_lookup in Hf as [i Hi], Hg as [j Hj].
  assert (i = j) as ->; [|congruence].
  eapply NoDup_lookup; [exact Hnd|rewrite list_lookup_fmap, Hi; reflexivity|].
  by rewrite list_lookup_fmap, Hj, <- Hn.
Qed.

Lemma FindValueByName_elem e name number :
  FindValueByName e name = Some number -> number ∈ e.*2.
Proof.
  unfold FindValueByName. intros Hv. apply fmap_Some in Hv as ([n' z] & Hf & ->).
  apply List.find_some in Hf as [Hin _]. apply list_elem_of_fmap.
  exists (n', z). split; [done|by apply list_elem_of_In].
Qed.

Lemma FindValueByNumber_elem e number z :
  FindValueByNumber e number = Some z -> z ∈ e.*2.
Proof.
  unfold FindValueByNumber. intros Hv. apply fmap_Some in Hv as ([n' z'] & Hf & ->).
  apply List.find_some in Hf as [Hin _]. apply list_elem_of_fmap.
  exists (n', z'). split; [done|by apply list_elem_of_In].
Qed.

Lemma scalar_value_ok what node f x : scalar_value what node f = Okay x -> scalar_ok f x.
Proof.
  unfold scalar_value, scalar_ok. destruct node; try done. cbv zeta. intros Hx.
  apply Outcome_bind_okay in Hx as (str_val & _ & Hx).
  destruct (cpp_type f);
    try (apply Outcome_fmap_okay in Hx as (z & Hz & <-); apply or_fail_okay in Hz);
    eauto using as_int32_range, as_int64_range, as_uint32_range, as_uint64_range.
  - by injection Hx as <-.
  - destruct (enum_value _ _ _) as [ev|] eqn:Hev; [injection Hx as <-|done].
    unfold enum_value in Hev.
    destruct (FindValueByName _ _) eqn:Hn;
      [injection Hev as ->; by eapply FindValueByName_elem|].
    destruct (as_int32 _); [done|]. by eapply FindValueByNumber_elem.
  - done.
Qed.

Lemma default_message_typed t : well_typed (default_message (pool t)).
Proof.
  apply well_typed_alt. rewrite descriptor_default. pose proof (pool_wf t) as Hwf.
  split; [done|]. intros g Hg. rewrite contents_default. unfold default_contents.
  destruct (is_repeated g || has_presence g); [by split; [constructor|simpl; lia]|].
  destruct (default_scalar g) as [x|] eqn:Hx; [|by split; [constructor|simpl; lia]].
  split; [|done]. apply Forall_singleton. cbn. destruct Hwf as [_ Henum].
  unfold default_scalar in Hx. unfold scalar_ok, signed, unsigned.
  destruct (cpp_type g) eqn:Hty; try (injection Hx as <-); try lia; try done.
  pose proof (proj1 (proj1 (Forall_forall _ _) Henum g Hg) Hty) as Hne.
  destruct (enum_type g) as [|[n z] e]; [done|]. injection Hx as <-. left.
Qed.

(** A change of one field that keeps the others or empties them. *)
Lemma change_typed m m' f (xs : list (ScalarValue + Message)) :
  well_typed m -> GetDescriptor m' = GetDescriptor m -> f ∈ fields (GetDescriptor m) ->
  field_ok f xs -> contents m' f = xs ->
  (forall g, field_name g <> field_name f -> contents m' g = contents m g \/ contents m' g = []) ->
  well_typed m'.
Proof.
  intros Hm Hd Hf Hxs Hc Hg. apply well_typed_alt in Hm as [Hwf Hm]. apply well_typed_alt.
  rewrite Hd. split; [done|]. intros g Hin.
  destruct (decide (field_name g = field_name f)) as [Hn|Hn].
  - rewrite (field_unique _ f g Hwf Hf Hin Hn), Hc. done.
  - destruct (Hg g Hn) as [-> | ->]; [by apply Hm|]. split; [constructor|simpl; lia].
Qed.

Lemma after_set_self {A} f (new old : list A) : after_set f f new old = new.
Proof. unfold after_set. by rewrite bool_decide_true. Qed.

Lemma after_set_other {A} f g (new old : list A) :
  field_name g <> field_name f -> after_set f g new old = old \/ after_set f g new old = [].
Proof.
  intros Hn. unfold after_set. rewrite bool_decide_false by done.
  destruct (same_oneof f g); auto.
Qed.

Lemma SetScalar_typed f x m :
  well_typed m -> f ∈ fields (GetDescriptor m) -> scalar_ok f x -> well_typed (SetScalar f x m).
Proof.
  intros Hm Hf Hx. eapply (change_typed m _ f [inl x]); [done|apply descriptor_set_scalar|done| |..].
  - split; [by apply Forall_singleton|done].
  - by rewrite contents_set_scalar, after_set_self.
  - intros g Hn. rewrite contents_set_scalar. by apply after_set_other.
Qed.

Lemma SetMessage_typed f s m :
  well_typed m -> f ∈ fields (GetDescriptor m) -> value_ok f (inr s) -> well_typed (SetMessage f s m).
Proof.
  intros Hm Hf Hx. eapply (change_typed m _ f [inr s]); [done|apply descriptor_set_message|done| |..].
  - split; [by apply Forall_singleton|done].
  - by rewrite contents_set_message, after_set_self.
  - intros g Hn. rewrite contents_set_message. by apply after_set_other.
Qed.

Lemma add_typed f x m m' :
  well_typed m -> f ∈ fields (GetDescriptor m) -> is_repeated f = true -> value_ok f x ->
  GetDescriptor m' = GetDescriptor m ->
  (forall g, contents m' g = if bool_decide (field_name g = field_name f)
                             then contents m g ++ [x] else contents m g) ->
  well_typed m'.
Proof.
  intros Hm Hf Hr Hx Hd Hc.
  eapply (change_typed m _ f (contents m f ++ [x])); [done|done|done|..].
  - apply well_typed_alt in Hm as [_ Hm]. destruct (Hm f Hf) as [Hv _].
    split; [|congruence]. apply Forall_app. split; [done|by apply Forall_singleton].
  - by rewrite Hc, bool_decide_true.
  - intros g Hn. left. by rewrite Hc, bool_decide_false.
Qed.

Lemma MutableMessage_typed f m :
  well_typed m -> f ∈ fields (GetDescriptor m) ->
  well_typed (MutableMessage f m) /\ GetDescriptor (MutableMessage f m) = pool (message_type f).
Proof.
  intros Hm Hf. rewrite mutable_message. apply well_typed_alt in Hm as [_ Hm].
  destruct (Hm f Hf) as [Hv _].
  assert (Hdef : well_typed (default_message (pool (message_type f))) /\
    GetDescriptor (default_message (pool (message_type f))) = pool (message_type f))
    by (split; [apply default_message_typed|apply descriptor_default]).
  destruct (contents m f) as [|[x|s] [|y l]]; try exact Hdef.
  apply (proj1 (Forall_singleton _ _)) in Hv. cbn in Hv. exact (conj (proj2 (proj2 Hv)) (proj1 (proj2 Hv))).
Qed.

(** A conversion keeps the descriptor of a message and keeps it well-typed. *)
Definition preserves (convert : Message -> Outcome Message) : Prop :=
  forall m m', well_typed m -> convert m = Okay m' ->
    well_typed m' /\ GetDescriptor m' = GetDescriptor m.

Lemma convert_elements_typed field elems :
  Forall (λ n, preserves (ConvertYamlToProtoMessage n)) elems -> is_repeated field = true ->
  forall m m', well_typed m -> field ∈ fields (GetDescriptor m) ->
    convert_elements ConvertYamlToProtoMessage field elems m = Okay m' ->
    well_typed m' /\ GetDescriptor m' = GetDescriptor m.
Proof.
  intros Hall Hr. induction Hall as [|n elems Hn _ IH]; intros m m' Hm Hf; cbn.
  { intros [= <-]. exact (conj Hm eq_refl). }
  intros Hc. apply Outcome_bind_okay in Hc as (m1 & Hc1 & Hc).
  assert (well_typed m1 /\ GetDescriptor m1 = GetDescriptor m) as [Hm1 Hd1].
  { destruct (decide _) as [Hty|Hty].
    - apply Outcome_fmap_okay in Hc1 as (s & Hs & <-).
      apply Hn in Hs as [Hs Hds]; [|apply default_message_typed].
      rewrite descriptor_default in Hds. split; [|apply descriptor_add_message].
      apply (add_typed field (inr s) m); [assumption..|exact (conj Hty (conj Hds Hs))| |].
      + apply descriptor_add_message.
      + apply contents_add_message.
    - apply Outcome_fmap_okay in Hc1 as (x & Hx & <-). apply scalar_value_ok in Hx.
      split; [|apply descriptor_add_scalar].
      apply (add_typed field (inl x) m); [assumption..| |].
      + apply descriptor_add_scalar.
      + apply contents_add_scalar. }
  rewrite <- Hd1. apply IH; [assumption|by rewrite Hd1|assumption].
Qed.

Lemma convert_field_typed key field n m m' :
  preserves (ConvertYamlToProtoMessage n) ->
  (forall l, n = Sequence l -> Forall (λ n, preserves (ConvertYamlToProtoMessage n)) l) ->
  well_typed m -> field ∈ fields (GetDescriptor m) ->
  convert_field ConvertYamlToProtoMessage key field n m = Okay m' ->
  well_typed m' /\ GetDescriptor m' = GetDescriptor m.
Proof.
  intros Hn Hl Hm Hf. unfold convert_field. destruct (is_repeated field) eqn:Hr.
  { destruct n; try discriminate. intros Hc.
    exact (convert_elements_typed field l (Hl l eq_refl) Hr m m' Hm Hf Hc). }
  destruct (decide _) as [Hty|Hty]; intros Hc; apply Outcome_fmap_okay in Hc as (x & Hx & <-).
  - destruct (MutableMessage_typed field m Hm Hf) as [Hmm Hdm].
    destruct (Hn _ _ Hmm Hx) as [Hs Hds].
    split; [|apply descriptor_set_message].
apply SetMessage_typed; [assumption..|]. exact (conj Hty (conj (eq_trans Hds Hdm) Hs)).
  - split; [|apply descriptor_set_scalar]. apply SetScalar_typed; [assumption..|].
    by eapply scalar_value_ok.
Qed.

(** The nodes of which every nested one converts well. *)
Lemma ConvertYamlToProtoMessage_typed n :
  preserves (ConvertYamlToProtoMessage n) /\
  (forall l, n = Sequence l -> Forall (λ n, preserves (ConvertYamlToProtoMessage n)) l).
Proof.
  induction n as [| |s|l IH|l IH] using Node_nested_ind; try (split; [discriminate|discriminate]).
  { split; [discriminate|]. intros l' [= <-]. eapply Forall_impl; [exact IH|]. intros n []. assumption. }
  split; [|discriminate]. intros m m' Hm. cbn.
  assert (Hgen : forall d m, GetDescriptor m = d -> well_typed m ->
    convert_entries ConvertYamlToProtoMessage d l m = Okay m' ->
    well_typed m' /\ GetDescriptor m' = d).
  { clear Hm m. induction IH as [|[k n] l [Hn Hl] _ IH]; intros d m Hd Hm; cbn.
    { intros [= <-]. exact (conj Hm Hd). }
    intros Hc. apply Outcome_bind_okay in Hc as (key & _ & Hc).
    destruct (FindFieldByName d key) as [field|] eqn:Hfind; [|done].
    apply Outcome_bind_okay in Hc as (m1 & Hc1 & Hc).
    apply FindFieldByName_Some in Hfind as [Hin _].
    destruct (convert_field_typed key field n m m1 Hn Hl Hm) as [Hm1 Hd1];
      [by rewrite Hd|assumption|].
    apply (IH d m1); [congruence|assumption..]. }
  apply Hgen; [reflexivity|assumption].
Qed.

(** ** What a tree denotes *)

(** The scalar [x] of type [f] that a node spells. *)
Definition reads f (n : Node) (x : ScalarValue) : Prop :=
  (exists text, n = Scalar text) /\
  match cpp_type f, x with
  | CPPTYPE_INT32, VInt32 z => as_int32 n = inr z
  | CPPTYPE_INT64, VInt64 z => as_int64 n = inr z
  | CPPTYPE_UINT32, VUInt32 z => as_uint32 n = inr z
  | CPPTYPE_UINT64, VUInt64 z => as_uint64 n = inr z
  | CPPTYPE_DOUBLE, VDouble d => as_double n = inr d
  | CPPTYPE_FLOAT, VFloat d => as_float n = inr d
  | CPPTYPE_BOOL, VBool b => as_bool n = inr b
  | CPPTYPE_STRING, VString text => n = Scalar text
  | CPPTYPE_ENUM, VEnum ev =>
      exists text, n = Scalar text /\
        (FindValueByName (enum_type f) text = Some ev \/
         FindValueByName (enum_type f) text = None /\
         exists z, as_int32 n = inr z /\ FindValueByNumber (enum_type f) z = Some ev)
  | _, _ => False
  end.

(** Two fields that cannot both be given. *)
Definition clash f g : Prop := field_name g = field_name f \/ same_oneof f g = true.

(** The field that an entry of a map names. *)
Definition names_field d (kv : Node * Node) (e : FieldDescriptor * Node) : Prop :=
  as_string kv.1 = inr (field_name e.1) /\
  FindFieldByName d (field_name e.1) = Some e.1 /\ kv.2 = e.2.

(** A map denotes a message: its keys name fields no two of which clash, each
    of these holds what its node denotes and the others their default. *)
Inductive denotes : Node -> Message -> Prop :=
  | denotes_map l es m :
      Forall2 (names_field (GetDescriptor m)) l es ->
      ForallOrdPairs (λ f g, ~ clash f g) es.*1 ->
      Forall (λ e, field_denotes e.1 e.2 (contents m e.1)) es ->
      (forall g, g ∈ fields (GetDescriptor m) -> g ∉ es.*1 -> contents m g = default_contents g) ->
      denotes (Map l) m
with field_denotes : FieldDescriptor -> Node -> list (ScalarValue + Message) -> Prop :=
  | denotes_repeated f ns xs :
      is_repeated f = true -> Forall2 (element_denotes f) ns xs -> field_denotes f (Sequence ns) xs
  | denotes_singular f n x :
      is_repeated f = false -> element_denotes f n x -> field_denotes f n [x]
with element_denotes : FieldDescriptor -> Node -> ScalarValue + Message -> Prop :=
  | denotes_scalar f n x : cpp_type f <> CPPTYPE_MESSAGE -> reads f n x -> element_denotes f n (inl x)
  | denotes_message f n s :
      cpp_type f = CPPTYPE_MESSAGE -> GetDescriptor s = pool (message_type f) -> denotes n s ->
      element_denotes f n (inr s).

Lemma reads_scalar_value what f n x : reads f n x -> scalar_value what n f = Okay x.
Proof.
  intros [[text ->] Hx]. unfold scalar_value. rewrite as_string_scalar. cbn.
  destruct (cpp_type f), x; try done; try (by rewrite Hx).
  - by injection Hx as ->.
  - destruct Hx as (s' & [= <-] & Hx). unfold enum_value.
    destruct Hx as [-> |(-> & z & -> & ->)]; done.
Qed.

(** The conversion of a node finds a message whenever there is one. *)
Definition complete (n : Node) : Prop :=
  forall t s, denotes n s -> GetDescriptor s = pool t ->
    exists s', ConvertYamlToProtoMessage n (default_message (pool t)) = Okay s' /\
      GetDescriptor s' = pool t /\ denotes n s'.

(** An element as the loop over a sequence adds it. *)
Lemma add_element f n x m :
  complete n -> element_denotes f n x ->
  exists x' m', element_denotes f n x' /\
    (if decide (cpp_type f = CPPTYPE_MESSAGE) then
       (λ nested, AddMessage f nested m) <$>
         ConvertYamlToProtoMessage n (default_message (pool (message_type f)))
     else AddRepeatedScalarField n f m) = Okay m' /\
    GetDescriptor m' = GetDescriptor m /\
    forall g, contents m' g = if bool_decide (field_name g = field_name f)
                              then contents m g ++ [x'] else contents m g.
Proof.
  intros Hn Hx. destruct Hx as [f n x Hty Hx|f n s Hty Hd Hs].
  - rewrite decide_False by done. exists (inl x), (AddScalar f x m).
    unfold AddRepeatedScalarField. rewrite (reads_scalar_value _ _ _ _ Hx).
    split; [by constructor|]. split; [done|].
    split; [apply descriptor_add_scalar|apply contents_add_scalar].
  - rewrite decide_True by done. destruct (Hn _ _ Hs Hd) as (s' & -> & Hd' & Hs').
    exists (inr s'), (AddMessage f s' m). split; [by constructor|]. split; [done|].
    split; [apply descriptor_add_message|apply contents_add_message].
Qed.

Lemma convert_elements_complete f ns : Forall complete ns -> forall m ys xs,
  Forall2 (element_denotes f) ns xs -> contents m f = ys ->
  exists m' xs', convert_elements ConvertYamlToProtoMessage f ns m = Okay m' /\
    Forall2 (element_denotes f) ns xs' /\ GetDescriptor m' = GetDescriptor m /\
    contents m' f = ys ++ xs' /\
    forall g, field_name g <> field_name f -> contents m' g = contents m g.
Proof.
  induction 1 as [|n ns Hn _ IH]; intros m ys xs Hxs Hm.
  { inversion Hxs; subst. exists m, []. rewrite app_nil_r. done. }
  inversion Hxs as [|? x ? xs1 Hx Hxs1]; subst.
  destruct (add_element f n x m Hn Hx) as (x' & m1 & Hx' & Hm1 & Hd1 & Hc1).
  destruct (IH m1 (contents m f ++ [x']) xs1 Hxs1) as (m2 & xs2 & Hm2 & Hxs2 & Hd2 & Hf2 & Hc2).
  { by rewrite Hc1, bool_decide_true. }
  exists m2, (x' :: xs2). cbn. rewrite Hm1. cbn. split; [done|]. split; [by constructor|].
  split; [congruence|]. split; [by rewrite Hf2, <- app_assoc|].
  intros g Hg. by rewrite Hc2, Hc1, bool_decide_false.
Qed.

(** What a step on field [f] does to the other fields. *)
Definition others_kept f m m' : Prop :=
  forall g, field_name g <> field_name f ->
    contents m' g = contents m g \/ same_oneof f g = true /\ contents m' g = [].

Lemma after_set_kept f m m' (xs : list (ScalarValue + Message)) :
  (forall g, contents m' g = after_set f g xs (contents m g)) ->
  contents m' f = xs /\ others_kept f m m'.
Proof.
  intros Hm. split; [by rewrite Hm, after_set_self|]. intros g Hg. rewrite Hm. unfold after_set.
  rewrite bool_decide_false by done. destruct (same_oneof f g); auto.
Qed.

(** A field that still has its default takes what its node denotes. *)
Lemma convert_field_complete key f n xs m :
  complete n -> (forall l, n = Sequence l -> Forall complete l) ->
  contents m f = default_contents f -> field_denotes f n xs ->
  exists m', convert_field ConvertYamlToProtoMessage key f n m = Okay m' /\
    GetDescriptor m' = GetDescriptor m /\ field_denotes f n (contents m' f) /\ others_kept f m m'.
Proof.
  intros Hn Hl Hm Hx. unfold convert_field.
  destruct Hx as [f ns xs Hr Hxs|f n x Hr Hx]; rewrite Hr.
  { assert (Hdef : default_contents f = [] :> list (ScalarValue + Message))
      by (unfold default_contents; by rewrite Hr).
    destruct (convert_elements_complete f ns (Hl _ eq_refl) m [] xs Hxs) as (m' & xs' & Hc & Hxs' & Hd & Hf & Hg).
    { congruence. }
    exists m'. split; [done|]. split; [done|]. rewrite Hf. split; [by constructor|].
    intros g Hne. left. auto. }
  destruct Hx as [f n x Hty Hx|f n s Hty Hd Hs].
  - rewrite decide_False by done. exists (SetScalar f x m). unfold SetSingularScalarField.
    rewrite (reads_scalar_value _ _ _ _ Hx). split; [done|]. split; [apply descriptor_set_scalar|].
    destruct (after_set_kept f m (SetScalar f x m) [inl x]) as [-> Ho];
      [apply contents_set_scalar|]. split; [|done]. apply denotes_singular, denotes_scalar; assumption.
  - rewrite decide_True by done. rewrite mutable_message, Hm.
    replace (default_contents f) with (@nil (ScalarValue + Message)).
    2: { unfold default_contents, default_scalar. rewrite Hty. by case_match. }
    destruct (Hn _ _ Hs Hd) as (s' & -> & Hd' & Hs'). exists (SetMessage f s' m).
    split; [done|]. split; [apply descriptor_set_message|].
    destruct (after_set_kept f m (SetMessage f s' m) [inr s']) as [-> Ho];
      [apply contents_set_message|]. split; [|done]. apply denotes_singular, denotes_message; assumption.
Qed.

Definition node_complete (n : Node) : Prop :=
  complete n /\ forall l, n = Sequence l -> Forall complete l.

Lemma convert_entries_complete l : Forall (λ kv, node_complete kv.2) l ->
  forall d es (target : FieldDescriptor -> list (ScalarValue + Message)) m,
  GetDescriptor m = d -> descriptor_wf d ->
  Forall2 (names_field d) l es -> ForallOrdPairs (λ f g, ~ clash f g) es.*1 ->
  Forall (λ e, field_denotes e.1 e.2 (target e.1) /\ contents m e.1 = default_contents e.1) es ->
  exists m', convert_entries ConvertYamlToProtoMessage d l m = Okay m' /\ GetDescriptor m' = d /\
    Forall (λ e, field_denotes e.1 e.2 (contents m' e.1)) es /\
    (forall g, Forall (λ f, ~ clash f g) es.*1 -> contents m' g = contents m g) /\
    (forall g, g ∈ fields d -> g ∉ es.*1 -> contents m g = default_contents g ->
       contents m' g = default_contents g).
Proof.
  induction 1 as [|[k n] l [Hn Hl] _ IH]; intros d es target m Hd Hwf Hes Htidy Hden.
  { inversion Hes; subst. exists m. by repeat split. }
  inversion Hes as [|? [f n'] ? es' (Hk & Hfind & Hn') Hes']; subst; clear Hes. cbn in Hk, Hfind, Hn'. subst n'.
  inversion Htidy as [|? ? Hft Htidy']; subst. inversion Hden as [|? ? [Hfd Hfm] Hden']; subst.
  cbn in Hfd, Hfm. apply FindFieldByName_Some in Hfind as Hf. destruct Hf as [Hf _].
  destruct (convert_field_complete (field_name f) f n _ m Hn Hl Hfm Hfd) as (m1 & Hm1 & Hd1 & Hf1 & Ho1).
  assert (Hkeep : forall g, ~ clash f g -> contents m1 g = contents m g).
  { intros g Hg. unfold clash in Hg. destruct (Ho1 g) as [? |[? _]]; [naive_solver..|done|naive_solver]. }
  destruct (IH (GetDescriptor m) es' target m1) as (m2 & Hm2 & Hd2 & Hes2 & Hk2 & Hdef2); [done..| |].
  { apply Forall_forall. intros e He.
    pose proof (proj1 (Forall_forall _ _) Hden' e He) as [? Hem]. split; [done|].
    rewrite Hkeep; [done|]. apply (proj1 (Forall_forall _ _) Hft). apply list_elem_of_fmap. eauto. }
  exists m2. cbn. rewrite Hk. cbn. rewrite Hfind, Hm1. cbn. split; [done|]. split; [congruence|].
  split; [|split].
  - constructor; [|done]. cbn. rewrite Hk2; [done|].
    eapply Forall_impl; [exact Hft|]. intros g Hg [Hc|Hc]; apply Hg; [by left|right].
    unfold same_oneof in *. rewrite bool_decide_eq_true in *. naive_solver congruence.
  - intros g Hg. inversion Hg; subst. rewrite Hk2 by done. by apply Hkeep.
  - intros g Hg Hnot Hdef. apply not_elem_of_cons in Hnot as [Hnf Hnot]. apply Hdef2; [done..|].
    destruct (Ho1 g) as [-> |[Hone ->]]; [|done|].
    + intros Hname. apply Hnf. by apply (field_unique (GetDescriptor m)).
    + destruct Hwf as [_ Hwf]. pose proof (proj1 (Forall_forall _ _) Hwf g Hg) as [_ Hg1].
      unfold same_oneof in Hone. rewrite bool_decide_eq_true in Hone. unfold default_contents.
      destruct Hg1 as [-> ->]; [naive_solver congruence|done].
Qed.

Lemma ConvertYamlToProtoMessage_node_complete n : node_complete n.
Proof.
  induction n as [| |s|l IH|l IH] using Node_nested_ind;
    try (split; [by intros t s' Hs; inversion Hs|discriminate]).
  { split; [by intros t s' Hs; inversion Hs|]. intros l' [= <-].
    eapply Forall_impl; [exact IH|]. by intros n []. }
  split; [|discriminate]. intros t s Hs Hd. inversion Hs as [? es ? Hes Htidy Hden Hdef]; subst.
  rewrite Hd in *.
  destruct (convert_entries_complete l IH (pool t) es (contents s) (default_message (pool t)))
    as (m' & Hm' & Hd' & Hes' & _ & Hdef'); [apply descriptor_default|apply pool_wf|done..| |].
  { eapply Forall_impl; [exact Hden|]. intros e He. split; [done|apply contents_default]. }
  exists m'. cbn. rewrite descriptor_default. split; [done|]. split; [done|].
  apply denotes_map with es; [by rewrite Hd'|done..|].
  rewrite Hd'. intros g Hg Hnot. apply Hdef'; [done..|apply contents_default].
Qed.

End typing.

(** ** plugins/test/runner.proto *)

Section runner_proto.
Context `{!YamlCpp}.

(** The kinds of fields of a proto3 file. *)
Definition scalar_field (name : str) (ty : CppType) : FieldDescriptor :=
  mkField name false false None ty [] [].
Definition optional_field (name : str) (ty : CppType) : FieldDescriptor :=
  mkField name false true (Some ("_"%char :: name)) ty [] [].
Definition oneof_field (oneof name : str) (ty : CppType) : FieldDescriptor :=
  mkField name false true (Some oneof) ty [] [].
Definition message_field (name t : str) : FieldDescriptor :=
  mkField name false true None CPPTYPE_MESSAGE [] t.
Definition repeated_field (name t : str) : FieldDescriptor :=
  mkField name true false None CPPTYPE_MESSAGE [] t.

Definition StringMatcher_descriptor : Descriptor := mkDescriptor "StringMatcher"%str
  [ scalar_field "invert"%str CPPTYPE_BOOL;
    oneof_field "matcher"%str "exact"%str CPPTYPE_STRING;
    oneof_field "matcher"%str "regex"%str CPPTYPE_STRING;
    oneof_field "matcher"%str "file"%str CPPTYPE_STRING ].

Definition Header_descriptor : Descriptor := mkDescriptor "Header"%str
  [ scalar_field "key"%str CPPTYPE_STRING; scalar_field "value"%str CPPTYPE_STRING ].

Definition Input_descriptor : Descriptor := mkDescriptor "Input"%str
  [ repeated_field "header"%str "Header"%str; scalar_field "content"%str CPPTYPE_STRING;
    scalar_field "file"%str CPPTYPE_STRING ].

Definition Immediate_descriptor : Descriptor := mkDescriptor "Immediate"%str
  [ optional_field "http_status"%str CPPTYPE_UINT32;
    optional_field "grpc_status"%str CPPTYPE_UINT32;
    optional_field "details"%str CPPTYPE_STRING ].

Definition Expectation_descriptor : Descriptor := mkDescriptor "Expectation"%str
  [ repeated_field "has_header"%str "Header"%str; repeated_field "no_header"%str "Header"%str;
    repeated_field "headers"%str "StringMatcher"%str; repeated_field "body"%str "StringMatcher"%str;
    message_field "immediate"%str "Immediate"%str; repeated_field "log"%str "StringMatcher"%str ].

Definition Invocation_descriptor : Descriptor := mkDescriptor "Invocation"%str
  [ message_field "input"%str "Input"%str; message_field "result"%str "Expectation"%str ].

Definition Property_descriptor : Descriptor := mkDescriptor "Property"%str
  [ scalar_field "path"%str CPPTYPE_STRING; scalar_field "value"%str CPPTYPE_STRING ].

Definition Test_descriptor : Descriptor := mkDescriptor "Test"%str
  [ scalar_field "name"%str CPPTYPE_STRING; scalar_field "benchmark"%str CPPTYPE_BOOL;
    oneof_field "body_chunking_plan"%str "num_chunks"%str CPPTYPE_INT32;
    oneof_field "body_chunking_plan"%str "chunk_size"%str CPPTYPE_INT64;
    repeated_field "properties"%str "Property"%str;
    message_field "request_headers"%str "Invocation"%str;
    repeated_field "request_body"%str "Invocation"%str;
    message_field "response_headers"%str "Invocation"%str;
    repeated_field "response_body"%str "Invocation"%str;
    message_field "plugin_init"%str "Expectation"%str;
    message_field "stream_init"%str "Expectation"%str;
    message_field "stream_destroy"%str "Expectation"%str ].

Definition LogLevel_values : list (str * Z) :=
  [ ("UNDEFINED"%str, 0%Z); ("TRACE"%str, 1%Z); ("DEBUG"%str, 2%Z); ("INFO"%str, 3%Z);
    ("WARN"%str, 4%Z); ("ERROR"%str, 5%Z); ("CRITICAL"%str, 6%Z) ].

Definition Env_descriptor : Descriptor := mkDescriptor "Env"%str
  [ scalar_field "test_path"%str CPPTYPE_STRING; scalar_field "wasm_path"%str CPPTYPE_STRING;
    scalar_field "config_path"%str CPPTYPE_STRING;
    mkField "log_level"%str false false None CPPTYPE_ENUM LogLevel_values [];
    scalar_field "log_path"%str CPPTYPE_STRING;
    optional_field "time_secs"%str CPPTYPE_UINT64;
    optional_field "num_additional_streams"%str CPPTYPE_UINT64;
    optional_field "additional_stream_advance_rate"%str CPPTYPE_UINT64 ].

Definition TestSuite_descriptor : Descriptor := mkDescriptor "TestSuite"%str
  [ message_field "env"%str "Env"%str; repeated_field "test"%str "Test"%str ].

Definition runner_proto : list Descriptor :=
  [ StringMatcher_descriptor; Header_descriptor; Input_descriptor; Immediate_descriptor;
    Expectation_descriptor; Invocation_descriptor; Property_descriptor; Test_descriptor;
    Env_descriptor; TestSuite_descriptor ].

Definition find_type (t : str) : Descriptor :=
  default (mkDescriptor t []) (List.find (λ d, bool_decide (descriptor_name d = t)) runner_proto).

Lemma find_type_wf t : descriptor_wf (find_type t).
Proof.
  assert (Forall descriptor_wf runner_proto) as Hwf
    by (apply (bool_decide_eq_true _); vm_compute; reflexivity).
  unfold find_type. destruct (List.find _ _) as [d|] eqn:Hd; simpl; [|by repeat constructor].
  apply List.find_some in Hd as [Hd _]. apply list_elem_of_In in Hd.
  exact (proj1 (Forall_forall _ _) Hwf d Hd).
Qed.
End runner_proto.

(** ** A concrete yaml-cpp and a concrete reflection *)

(** Messages as the values of their fields. *)
Inductive msg `{YamlCpp} : Type :=
  | Msg (d : Descriptor) (values : FieldDescriptor -> list (ScalarValue + msg)).

Section reflection.
Context `{YamlCpp}.
Definition msg_descriptor (m : msg) : Descriptor := match m with Msg d _ => d end.
Definition msg_values (m : msg) : FieldDescriptor -> list (ScalarValue + msg) :=
  match m with Msg _ c => c end.
Definition msg_set (f : FieldDescriptor) (x : ScalarValue + msg) (m : msg) : msg :=
  Msg (msg_descriptor m) (λ g, after_set f g [x] (msg_values m g)).
Definition msg_add (f : FieldDescriptor) (x : ScalarValue + msg) (m : msg) : msg :=
  Msg (msg_descriptor m) (λ g, if bool_decide (field_name g = field_name f)
                               then msg_values m g ++ [x] else msg_values m g).

Definition msg_ref : Protobuf := {|
  Message := msg;
  pool := find_type;
  default_message d := Msg d default_contents;
  GetDescriptor := msg_descriptor;
  SetScalar f x := msg_set f (inl x);
  AddScalar f x := msg_add f (inl x);
  MutableMessage f m :=
    match msg_values m f with [inr s] => s | _ => Msg (find_type (message_type f)) default_contents end;
  SetMessage f s := msg_set f (inr s);
  AddMessage f s := msg_add f (inr s);
  contents := msg_values;
|}.

#[export] Instance msg_ref_ok : ProtobufOk msg_ref.
Proof. split; try done. apply find_type_wf. Qed.
End reflection.

(** Integers in decimal, and two documents: a suite of one test, and a text
    that does not load. *)
Definition as_integer (lo hi : Z) (n : Node) : str + Z :=
  match n with
  | Scalar s => match parse_int_in lo hi s with Some z => inr z | None => inl "bad conversion"%str end
  | _ => inl "bad conversion"%str
  end.

Definition yaml_example : Node :=
  let entry k v := (Scalar k, v) in
  Map [ entry "env"%str (Map [ entry "log_level"%str (Scalar "WARN"%str) ]);
        entry "test"%str (Sequence [ Map [ entry "name"%str (Scalar "a"%str);
                                           entry "num_chunks"%str (Scalar "3"%str) ] ]) ].

Definition yaml_ref : YamlCpp := {|
  Double := Z;
  double_zero := 0%Z;
  as_string n := match n with Scalar s => inr s | _ => inl "bad conversion"%str end;
  as_int32 := as_integer (- 2 ^ 31) (2 ^ 31 - 1);
  as_int64 := as_integer (- 2 ^ 63) (2 ^ 63 - 1);
  as_uint32 := as_integer 0 (2 ^ 32 - 1);
  as_uint64 := as_integer 0 (2 ^ 64 - 1);
  as_double := as_integer 0 9;
  as_float := as_integer 0 9;
  as_bool n := match n with
               | Scalar s => inr (bool_decide (s = "true"%str))
               | _ => inl "bad conversion"%str
               end;
  YAML_Load text := if decide (text = []) then inr Null
                    else if decide (text = "a test"%str) then inr yaml_example
                    else inl "bad file"%str;
|}.

Lemma as_integer_range lo hi n z : as_integer lo hi n = inr z -> (lo <= z <= hi)%Z.
Proof.
  destruct n; try done. unfold as_integer, parse_int_in.
  destruct (parse_int s); simpl; [|done]. case_decide; [|done]. by intros [= <-].
Qed.

#[export] Instance yaml_ref_ok : YamlCppOk yaml_ref.
Proof.
  split; [done|..]; intros n z Hz; apply as_integer_range in Hz; unfold signed, unsigned; lia.
Qed.

(** ** Test suites *)

Section suites.
Context `{!Absl} `{!AbslOk _} `{!YamlCpp} `{!YamlCppOk _} `{!Protobuf} `{!ProtobufOk _}.

(** The errors the converter reports. *)
Definition suite_error (st : Status) : Prop :=
  exists text, status_message st = "YAML parsing error: "%str ++ text \/
               status_message st = "Failed to parse input YAML: "%str ++ text.

(** C15. Whatever the text, the converter returns an error that says which
    step failed, or a test suite that is well-typed against the descriptors:
    every field holds values of its declared type and range, an enumeration
    only its enumerators, a singular field at most one value, and so on for
    every nested message. *)
Theorem ConvertYamlToTestSuite_typed (text : str) :
  match ConvertYamlToTestSuite text with
  | inl st => suite_error st
  | inr suite => well_typed suite /\ GetDescriptor suite = pool "TestSuite"%str
  end.
Proof.
  assert (Herr : forall what : str,
    suite_error (InvalidArgumentError (StrCat ["YAML parsing error: "%str; what]))).
  { intros what. exists what. left. cbn. rewrite StrCat_ok. cbn. by rewrite app_nil_r. }
  assert (Hempty : well_typed (default_message (pool "TestSuite"%str)) /\
    GetDescriptor (default_message (pool "TestSuite"%str)) = pool "TestSuite"%str)
    by (split; [apply default_message_typed|apply descriptor_default]).
  unfold ConvertYamlToTestSuite. cbv zeta.
  destruct (YAML_Load text) as [what|n]; [apply Herr|].
  assert (match ConvertYamlToProtoMessage n (default_message (pool "TestSuite"%str)) with
          | Okay suite => well_typed suite /\ GetDescriptor suite = pool "TestSuite"%str
          | _ => True
          end) as Hn.
  { destruct (ConvertYamlToProtoMessage n _) as [| |suite] eqn:Hc; [exact I..|].
    destruct (ConvertYamlToProtoMessage_typed n) as [Hp _].
    destruct Hempty as [He Hd]. rewrite <- Hd. exact (Hp _ _ He Hc). }
  destruct n; try exact Hempty;
    (destruct (ConvertYamlToProtoMessage _ _) as [what|st|suite]; [apply Herr| |exact Hn];
     exists (status_message st); right; cbn; rewrite StrCat_ok; cbn; by rewrite app_nil_r).
Qed.

(** C36. The converter accepts every text whose tree denotes a test suite, and
    the suite it returns is one the tree denotes: each entry gives its field
    exactly the values its node spells, in order, and every field no entry
    names keeps its default. *)
Theorem ConvertYamlToTestSuite_complete (text : str) n s :
  YAML_Load text = inr n -> denotes n s -> GetDescriptor s = pool "TestSuite"%str ->
  exists suite, ConvertYamlToTestSuite text = inr suite /\
    GetDescriptor suite = pool "TestSuite"%str /\ denotes n suite.
Proof.
  intros Hload Hs Hd. destruct (ConvertYamlToProtoMessage_node_complete n) as [Hn _].
  destruct (Hn _ _ Hs Hd) as (suite & Hc & Hd' & Hs'). exists suite.
  unfold ConvertYamlToTestSuite. rewrite Hload. inversion Hs; subst. rewrite Hc. done.
Qed.
End suites.

(** ** Witnesses *)

Section witnesses.
#[local] Existing Instances absl_ref yaml_ref msg_ref.

Definition suite_is_read (text : str) : bool :=
  match ConvertYamlToTestSuite text with inl _ => false | inr _ => true end.

Lemma ConvertYamlToTestSuite_typed_witness :
  (exists suite : Message, ConvertYamlToTestSuite "a test"%str = inr suite /\ well_typed suite) /\
  exists st, ConvertYamlToTestSuite "?"%str = inl st /\ suite_error st.
Proof.
  split.
  - pose proof (ConvertYamlToTestSuite_typed "a test"%str) as Hw.
    assert (suite_is_read "a test"%str = true) as Hr by (vm_compute; reflexivity).
    unfold suite_is_read in Hr.
    destruct (ConvertYamlToTestSuite "a test"%str) as [st|suite]; [discriminate|].
    destruct Hw as [Hw _]. exists suite. exact (conj eq_refl Hw).
  - pose proof (ConvertYamlToTestSuite_typed "?"%str) as Hw.
    eexists. split; [reflexivity|exact Hw].
Defined.

(** The suite of [yaml_example]. *)
Definition field_of (d : Descriptor) (name : str) : FieldDescriptor :=
  default (message_field [] []) (FindFieldByName d name).
Definition env_example : Message :=
  msg_set (field_of Env_descriptor "log_level"%str) (inl (VEnum 4))
    (Msg Env_descriptor default_contents).
Definition test_example : Message :=
  msg_set (field_of Test_descriptor "num_chunks"%str) (inl (VInt32 3))
    (msg_set (field_of Test_descriptor "name"%str) (inl (VString "a"%str))
       (Msg Test_descriptor default_contents)).
Definition suite_example : Message :=
  msg_add (field_of TestSuite_descriptor "test"%str) (inr test_example)
    (msg_set (field_of TestSuite_descriptor "env"%str) (inr env_example)
       (Msg TestSuite_descriptor default_contents)).

(** Fields that do not clash, and what the other fields hold, by cases. *)
Local Ltac solve_tidy :=
  repeat constructor; unfold clash; vm_compute; intros [?|?]; discriminate.
Local Ltac solve_default :=
  let Hg := fresh in let Hn := fresh in intros g Hg Hn;
  cbn [fields] in Hg;
  repeat (apply elem_of_cons in Hg as [->|Hg]; [first [reflexivity|exfalso; apply Hn; vm_compute; set_solver]|]);
  inversion Hg.

Lemma env_example_denotes :
  denotes (Map [(Scalar "log_level"%str, Scalar "WARN"%str)]) env_example.
Proof.
  apply denotes_map with [(field_of Env_descriptor "log_level"%str, Scalar "WARN"%str)].
  - repeat constructor.
  - solve_tidy.
  - constructor; [|constructor].
    change (field_denotes (field_of Env_descriptor "log_level"%str) (Scalar "WARN"%str) [inl (VEnum 4)]).
    apply denotes_singular; [reflexivity|].
    apply denotes_scalar; [discriminate|]. split; [by eexists|]. eexists. split; [reflexivity|].
    left. reflexivity.
  - solve_default.
Qed.
Lemma test_example_denotes :
  denotes (Map [(Scalar "name"%str, Scalar "a"%str); (Scalar "num_chunks"%str, Scalar "3"%str)])
    test_example.
Proof.
  apply denotes_map with [(field_of Test_descriptor "name"%str, Scalar "a"%str);
                          (field_of Test_descriptor "num_chunks"%str, Scalar "3"%str)].
  - repeat constructor.
  - solve_tidy.
  - constructor; [|constructor; [|constructor]].
    + change (field_denotes (field_of Test_descriptor "name"%str) (Scalar "a"%str)
                [inl (VString "a"%str)]).
      apply denotes_singular; [reflexivity|]. apply denotes_scalar; [discriminate|].
      split; [by eexists|reflexivity].
    + change (field_denotes (field_of Test_descriptor "num_chunks"%str) (Scalar "3"%str)
                [inl (VInt32 3)]).
      apply denotes_singular; [reflexivity|]. apply denotes_scalar; [discriminate|].
      split; [by eexists|reflexivity].
  - solve_default.
Qed.

Lemma yaml_example_denotes : denotes yaml_example suite_example.
Proof.
  apply denotes_map with
    [(field_of TestSuite_descriptor "env"%str, Map [(Scalar "log_level"%str, Scalar "WARN"%str)]);
     (field_of TestSuite_descriptor "test"%str,
      Sequence [Map [(Scalar "name"%str, Scalar "a"%str); (Scalar "num_chunks"%str, Scalar "3"%str)]])].
  - repeat constructor.
  - solve_tidy.
  - constructor; [|constructor; [|constructor]].
    + change (field_denotes (field_of TestSuite_descriptor "env"%str)
                (Map [(Scalar "log_level"%str, Scalar "WARN"%str)]) [@inr ScalarValue Message env_example]).
      apply denotes_singular; [reflexivity|].
      apply denotes_message; [reflexivity..|apply env_example_denotes].
    + change (field_denotes (field_of TestSuite_descriptor "test"%str)
        (Sequence [Map [(Scalar "name"%str, Scalar "a"%str); (Scalar "num_chunks"%str, Scalar "3"%str)]])
        [@inr ScalarValue Message test_example]).
      apply denotes_repeated; [reflexivity|]. constructor; [|constructor].
      apply denotes_message; [reflexivity..|apply test_example_denotes].
  - solve_default.
Qed.

Lemma ConvertYamlToTestSuite_complete_witness :
  exists suite : Message, ConvertYamlToTestSuite "a test"%str = inr suite /\
    denotes yaml_example suite.
Proof.
  destruct (ConvertYamlToTestSuite_complete "a test"%str yaml_example suite_example)
    as (suite & Hs & _ & Hd); [reflexivity|apply yaml_example_denotes|reflexivity|].
  exists suite. exact (conj Hs Hd).
Defined.
End witnesses.
