(* ===== verification/Pb.v ===== *)
(** * The messages of a test suite

    The messages of plugins/test/runner.proto as records, as the runner reads
    them through the classes that protobuf generates, and how such a record is
    read off a message built by reflection. *)

From S2P Require Import Prelude YamlProto.

Module pb.

Record Header : Type := mkHeader { key : str; value : str }.

Inductive Matcher : Type :=
  | exact (s : str)
  | regex (s : str)
  | file_match (s : str).

(** [None]: the [oneof] is not set. *)
Record StringMatcher : Type := mkStringMatcher { invert : bool; matcher : option Matcher }.

Record Input : Type := mkInput { header : list Header; content : str; file : str }.

Record Immediate : Type := mkImmediate {
  http_status : option Z;
  grpc_status : option Z;
  details : option str;
}.

Record Expectation : Type := mkExpectation {
  has_header : list Header;
  no_header : list Header;
  headers : list StringMatcher;
  body : list StringMatcher;
  immediate : option Immediate;
  log : list StringMatcher;
}.

Record Invocation : Type := mkInvocation { input : Input; result : Expectation }.

Record Property : Type := mkProperty { path : str; property_value : str }.

Inductive BodyChunkingPlan : Type :=
  | num_chunks (n : Z)
  | chunk_size (n : Z).

Record Test : Type := mkTest {
  name : str;
  benchmark : bool;
  body_chunking_plan : option BodyChunkingPlan;
  properties : list Property;
  request_headers : option Invocation;
  request_body : list Invocation;
  response_headers : option Invocation;
  response_body : list Invocation;
  plugin_init : Expectation;
  stream_init : Expectation;
  stream_destroy : Expectation;
}.

(** A number that is not set reads as zero. *)
Record Env : Type := mkEnv {
  test_path : str;
  wasm_path : str;
  config_path : str;
  log_level : Z;
  log_path : str;
  time_secs : Z;
  num_additional_streams : Z;
  additional_stream_advance_rate : Z;
}.

Record TestSuite : Type := mkTestSuite { env : Env; test : list Test }.

Definition no_input : Input := mkInput [] [] [].
Definition no_expectation : Expectation := mkExpectation [] [] [] [] None [].
Definition no_env : Env := mkEnv [] [] [] 0 [] 0 0 0.

(** ** Reading a message *)

Section reading.
Context `{!YamlCpp} `{!Protobuf}.
Implicit Types m : Message.

(** The values of a field, given its name. *)
Definition values m (field : str) : list (ScalarValue + Message) :=
  match FindFieldByName (GetDescriptor m) field with
  | Some f => contents m f
  | None => []
  end.

Definition text_of (x : ScalarValue + Message) : option str :=
  match x with inl (VString s) => Some s | _ => None end.
Definition number_of (x : ScalarValue + Message) : option Z :=
  match x with
  | inl (VInt32 z | VInt64 z | VUInt32 z | VUInt64 z | VEnum z) => Some z
  | _ => None
  end.
Definition flag_of (x : ScalarValue + Message) : option bool :=
  match x with inl (VBool b) => Some b | _ => None end.
Definition message_of (x : ScalarValue + Message) : option Message :=
  match x with inr s => Some s | _ => None end.

(** [None] is a field that was not set. *)
Definition has_text m field : option str := head (values m field) ≫= text_of.
Definition has_number m field : option Z := head (values m field) ≫= number_of.
Definition has_message m field : option Message := head (values m field) ≫= message_of.
Definition get_text m field : str := default [] (has_text m field).
Definition get_number m field : Z := default 0%Z (has_number m field).
Definition get_flag m field : bool := default false (head (values m field) ≫= flag_of).
Definition get_messages m field : list Message := omap message_of (values m field).

Definition Header_of m : Header :=
  mkHeader (get_text m "key"%str) (get_text m "value"%str).

Definition StringMatcher_of m : StringMatcher :=
  mkStringMatcher (get_flag m "invert"%str)
    (match has_text m "exact"%str, has_text m "regex"%str, has_text m "file"%str with
     | Some s, _, _ => Some (exact s)
     | _, Some s, _ => Some (regex s)
     | _, _, Some s => Some (file_match s)
     | _, _, _ => None
     end).

Definition Input_of m : Input :=
  mkInput (Header_of <$> get_messages m "header"%str) (get_text m "content"%str)
    (get_text m "file"%str).

Definition Immediate_of m : Immediate :=
  mkImmediate (has_number m "http_status"%str) (has_number m "grpc_status"%str)
    (has_text m "details"%str).

Definition Expectation_of m : Expectation :=
  mkExpectation (Header_of <$> get_messages m "has_header"%str)
    (Header_of <$> get_messages m "no_header"%str)
    (StringMatcher_of <$> get_messages m "headers"%str)
    (StringMatcher_of <$> get_messages m "body"%str)
    (Immediate_of <$> has_message m "immediate"%str)
    (StringMatcher_of <$> get_messages m "log"%str).

Definition Expectation_in m field : Expectation :=
  default no_expectation (Expectation_of <$> has_message m field).

Definition Invocation_of m : Invocation :=
  mkInvocation (default no_input (Input_of <$> has_message m "input"%str))
    (Expectation_in m "result"%str).

Definition Property_of m : Property :=
  mkProperty (get_text m "path"%str) (get_text m "value"%str).

Definition Test_of m : Test :=
  mkTest (get_text m "name"%str) (get_flag m "benchmark"%str)
    (match has_number m "num_chunks"%str, has_number m "chunk_size"%str with
     | Some n, _ => Some (num_chunks n)
     | _, Some n => Some (chunk_size n)
     | _, _ => None
     end)
    (Property_of <$> get_messages m "properties"%str)
    (Invocation_of <$> has_message m "request_headers"%str)
    (Invocation_of <$> get_messages m "request_body"%str)
    (Invocation_of <$> has_message m "response_headers"%str)
    (Invocation_of <$> get_messages m "response_body"%str)
    (Expectation_in m "plugin_init"%str) (Expectation_in m "stream_init"%str)
    (Expectation_in m "stream_destroy"%str).

Definition Env_of m : Env :=
  mkEnv (get_text m "test_path"%str) (get_text m "wasm_path"%str)
    (get_text m "config_path"%str) (get_number m "log_level"%str) (get_text m "log_path"%str)
    (get_number m "time_secs"%str) (get_number m "num_additional_streams"%str)
    (get_number m "additional_stream_advance_rate"%str).

Definition TestSuite_of m : TestSuite :=
  mkTestSuite (default no_env (Env_of <$> has_message m "env"%str))
    (Test_of <$> get_messages m "test"%str).
End reading.

End pb.
