(* ===== verification/Gtest.v ===== *)
(** * Test functions

    The assertions of gtest that plugins/test/dynamic_test.cc uses: a function
    reports failures, a fatal one ends it, and what a caller makes of that. *)

From S2P Require Import Prelude.

(** ** Functions that report failures

    What a test function does after its last statement so far: it goes on with a
    value, has returned on a fatal failure, or the process has aborted. *)

Inductive Flow (A : Type) : Type :=
  | Aborts
  | Returns (failure : str)
  | Continues (a : A).
Arguments Aborts {A}.
Arguments Returns {A}.
Arguments Continues {A}.

Record Failure : Type := mkFailure { fatal : bool; failure_text : str }.

Record GTest (A : Type) : Type := mkGTest { flow : Flow A; failures : list Failure }.
Arguments mkGTest {A}.
Arguments flow {A}.
Arguments failures {A}.

#[export] Instance GTest_ret : MRet GTest := λ A a, mkGTest (Continues a) [].
#[export] Instance GTest_bind : MBind GTest := λ A B f m,
  match flow m with
  | Aborts => mkGTest Aborts (failures m)
  | Returns text => mkGTest (Returns text) (failures m)
  | Continues a => mkGTest (flow (f a)) (failures m ++ failures (f a))
  end.

Definition ADD_FAILURE (text : str) : GTest unit :=
  mkGTest (Continues tt) [mkFailure false text].
Definition FAIL {A} (text : str) : GTest A := mkGTest (Returns text) [].
Definition ASSERT_TRUE (b : bool) (text : str) : GTest unit :=
  if b then mret tt else FAIL text.
Definition abort {A} : GTest A := mkGTest Aborts [].

(** A call of a void function: its early return ends it alone. *)
Definition as_call (m : GTest unit) : GTest unit :=
  match flow m with
  | Returns text => mkGTest (Continues tt) (failures m ++ [mkFailure true text])
  | _ => m
  end.

(** A fatal failure in [m], or in a function it calls, ends the caller too. *)
Definition ASSERT_NO_FATAL_FAILURE {A} (m : GTest A) : GTest A :=
  let text := "Expected: no new fatal failures in the current thread."%str in
  match flow m with
  | Returns t => mkGTest (Returns text) (failures m ++ [mkFailure true t])
  | Continues _ => if existsb fatal (failures m) then mkGTest (Returns text) (failures m) else m
  | Aborts => m
  end.

Fixpoint for_each {A} (f : A -> GTest unit) (l : list A) : GTest unit :=
  match l with
  | [] => mret tt
  | x :: l => f x ;; for_each f l
  end.

(** Nothing failed, and the function reached its end with [a]. *)
Definition passes {A} (m : GTest A) (a : A) : Prop := m = mkGTest (Continues a) [].

Section gtest.
Lemma passes_ret {A} (a b : A) : passes (mret a) b <-> a = b.
Proof. split; [by intros [= ->]|by intros ->]. Qed.

Lemma passes_bind {A B} (m : GTest A) (f : A -> GTest B) b :
  passes (m ≫= f) b <-> exists a, passes m a /\ passes (f a) b.
Proof.
  unfold passes. destruct m as [[|t|a] l]; split.
  - done.
  - by intros (? & [=] & _).
  - done.
  - by intros (? & [=] & _).
  - unfold mbind, GTest_bind. cbn. destruct (f a) as [fl l'] eqn:Hf. cbn. intros [= -> Hl].
    apply app_eq_nil in Hl as [-> ->]. by exists a.
  - intros (a' & [= <- ->] & Hf). unfold mbind, GTest_bind. cbn. by rewrite Hf.
Qed.

Lemma passes_then {A} (m : GTest unit) (m' : GTest A) u :
  passes (m ;; m') u <-> passes m tt /\ passes m' u.
Proof. rewrite passes_bind. split; [by intros ([] & ? & ?)|by intros []; exists tt]. Qed.

Lemma passes_failure text u : passes (ADD_FAILURE text) u <-> False.
Proof. done. Qed.

Lemma passes_fail {A} text (a : A) : passes (FAIL text) a <-> False.
Proof. done. Qed.

Lemma passes_abort {A} (a : A) : passes abort a <-> False.
Proof. done. Qed.

Lemma passes_assert b text u : passes (ASSERT_TRUE b text) u <-> b = true.
Proof. destruct b, u; split; done. Qed.

Lemma passes_as_call m u : passes (as_call m) u <-> passes m u.
Proof.
  unfold passes, as_call. destruct m as [[|t|[]] l], u; cbn; split; try done.
  intros [= Hl]. by apply app_eq_nil in Hl as [_ ?].
Qed.

Lemma passes_no_fatal {A} (m : GTest A) a : passes (ASSERT_NO_FATAL_FAILURE m) a <-> passes m a.
Proof.
  unfold passes, ASSERT_NO_FATAL_FAILURE. destruct m as [[|t|b] l]; cbn; [done..|].
  destruct (existsb fatal l) eqn:Hl; [|done]. split; [done|]. by intros [= -> ->].
Qed.

Lemma passes_for_each {A} (f : A -> GTest unit) l :
  passes (for_each f l) tt <-> Forall (λ x, passes (f x) tt) l.
Proof.
  induction l as [|x l IH]; cbn; [by rewrite Forall_nil|]. by rewrite passes_then, IH, Forall_cons.
Qed.

(** A check: nothing is reported exactly if the condition is false. *)
Lemma passes_unless (b : bool) text :
  passes (if b then ADD_FAILURE text else mret tt) tt <-> b = false.
Proof. destruct b; split; done. Qed.
End gtest.
