(* ===== verification/Expect.v ===== *)
(** * Expectations

    plugins/test/dynamic_test.cc: how the result of a phase is compared with
    the expectation of a test, and what an expectation means. *)

From S2P Require Import Prelude Absl Headers Host Framework ThirdParty Pb Gtest.

(** ** The libraries of the runner *)

Class RunnerLibs `{Re2} : Type := {
  Substitute : str -> list str -> str;
  Status_ToString : Status -> str;
  ShortDebugString : pb.Header -> str;
  header_status_text : FilterHeadersStatus.t -> str;
  re_error : regex -> str;
  (** A file: the text of [errno] or the contents. *)
  open_file : str -> str + str;
  is_absolute : str -> bool;
  parent_path : str -> str;
  path_append : str -> str -> str;
  (** [StrSplit] at [ByLength(n)], and at most [k] times. *)
  SplitByLength : str -> Z -> list str;
  SplitByLengthMax : str -> Z -> Z -> list str;
  (** [ToUnixNanos(FromUnixSeconds(s))] *)
  unix_nanos : Z -> Z;
}.

(** Pieces of [n] bytes, the last one shorter or equal: all of them, or until
    [k] cuts were made. *)
Fixpoint pieces (fuel n : nat) (s : str) : list str :=
  match fuel with
  | 0 => [s]
  | S fuel => if decide (length s <= n) then [s] else take n s :: pieces fuel n (drop n s)
  end.

Class RunnerLibsOk `{Re2} (R : RunnerLibs) : Prop := {
  SplitByLength_ok s n :
    (0 < n)%Z -> SplitByLength s n = pieces (length s) (Z.to_nat n) s;
  SplitByLengthMax_ok s n k :
    (0 < n)%Z -> (0 <= k)%Z -> SplitByLengthMax s n k = pieces (Z.to_nat k) (Z.to_nat n) s;
}.

(** ** Checking expectations *)

Section checks.
Context `{Caseless} `{Absl} `{Re2} `{!RunnerLibs}.

Definition ReadDataFile (path : str) : StatusOr str :=
  match open_file path with
  | inl error =>
      inl (NotFoundError (StrCat ["failed to open: "%str; path; ", error: "%str; error]))
  | inr contents => inr contents
  end.

Definition ReadContent (path : str) (env : pb.Env) : StatusOr str :=
  ReadDataFile (if is_absolute path then path
                else path_append (parent_path (pb.test_path env)) path).

(** [class StringMatcher] *)
Record StringMatcher : Type := mkStringMatcher {
  invert_ : bool;
  exact_ : str;
  re_ : option regex;
}.

Definition Create (expect : pb.StringMatcher) (env : pb.Env) : StatusOr StringMatcher :=
  match pb.matcher expect with
  | Some (pb.exact s) => inr (mkStringMatcher (pb.invert expect) s None)
  | Some (pb.file_match f) =>
      match ReadContent f env with
      | inr file_content => inr (mkStringMatcher (pb.invert expect) file_content None)
      | inl status => inl (InvalidArgumentError (StrCat ["Bad file: "%str; Status_ToString status]))
      end
  | Some (pb.regex r) =>
      let re := re_compile r in
      if re_ok re then inr (mkStringMatcher (pb.invert expect) [] (Some re))
      else inl (InvalidArgumentError (StrCat ["Bad regex: "%str; re_error re]))
  | None =>
      inl (InvalidArgumentError "StringMatcher must specify 'exact' or 'regex' field."%str)
  end.

Definition matches_one (sm : StringMatcher) (msg : str) : bool :=
  match re_ sm with
  | Some re => re_FullMatch msg re
  | None => bool_decide (msg = exact_ sm)
  end.

Fixpoint Matches (sm : StringMatcher) (contents : list str) : bool :=
  match contents with
  | [] => invert_ sm
  | msg :: contents =>
      if matches_one sm msg then negb (invert_ sm) else Matches sm contents
  end.

Definition has_regex (expect : pb.StringMatcher) : option str :=
  match pb.matcher expect with Some (pb.regex r) => Some r | _ => None end.

Context (env : pb.Env).

Definition FindString (phase type : str) (expect : pb.StringMatcher) (contents : list str)
    : GTest unit :=
  match Create expect env with
  | inl status => ADD_FAILURE (Substitute "[$0] $1"%str [phase; Status_ToString status])
  | inr matcher =>
      if negb (Matches matcher contents) then
        ADD_FAILURE (Substitute ("[$0] expected $1 of $2 $3: '$4', actual: "%str ++ nl ++ "$5"%str)
          [phase; if pb.invert expect then "absence"%str else "presence"%str;
           match has_regex expect with Some _ => "regex"%str | None => "exact"%str end; type;
           match has_regex expect with Some r => r | None => exact_ matcher end;
           StrJoin contents nl])
      else mret tt
  end.

Definition CheckSideEffects (phase : str) (expect : pb.Expectation) (phase_logs : list str)
    : GTest unit :=
  for_each (λ m, FindString phase "log"%str m phase_logs) (pb.log expect).

Definition check_has_header (phase : str) (result : Result) (header : pb.Header) : GTest unit :=
  ASSERT_TRUE (bool_decide (pb.key header <> []))
    (Substitute "[$0] Missing has_header.key: '$1'"%str [phase; ShortDebugString header]) ;;
  match headers_find (pb.key header) (r_headers result) with
  | None => ADD_FAILURE (Substitute "[$0] Missing header '$1'"%str [phase; pb.key header])
  | Some (_, second) =>
      if bool_decide (second <> pb.value header) then
        ADD_FAILURE (Substitute "[$0] Header '$1' value is '$2', expected '$3'"%str
                       [phase; pb.key header; second; pb.value header])
      else mret tt
  end.

Definition check_no_header (phase : str) (result : Result) (header : pb.Header) : GTest unit :=
  ASSERT_TRUE (bool_decide (pb.key header <> []))
    (Substitute "[$0] Missing no_header.key: '$1'"%str [phase; ShortDebugString header]) ;;
  match headers_find (pb.key header) (r_headers result) with
  | Some (_, second) =>
      ADD_FAILURE (Substitute "[$0] Header '$1' value is '$2', expected removed"%str
                     [phase; pb.key header; second])
  | None => mret tt
  end.

(** The serialized headers of a result. *)
Definition header_lines (m : headers) : list str :=
  (λ kv, StrCat [kv.1; ": "%str; kv.2]) <$> m.

Definition check_immediate (phase : str) (expect : pb.Expectation) (result : Result)
    : GTest unit :=
  let is_continue :=
    bool_decide (header_status result = FilterHeadersStatus.Continue \/
                 header_status result = FilterHeadersStatus.ContinueAndEndStream) in
  let has_immediate := bool_decide (pb.immediate expect <> None) in
  (if Bool.eqb has_immediate is_continue then
     ADD_FAILURE (Substitute "[$0] Expected $1, status is $2"%str
       [phase; if has_immediate then "immediate reply (stop filters status)"%str
               else "no immediate reply (continue status)"%str;
        header_status_text (header_status result)])
   else mret tt) ;;
  (if Bool.eqb has_immediate (bool_decide (http_code result = 0%Z)) then
     ADD_FAILURE (Substitute "[$0] Expected $1, HTTP code is $2"%str
       [phase; if has_immediate then "immediate reply (HTTP code > 0)"%str
               else "no immediate reply (HTTP code == 0)"%str; AlphaNum (http_code result)])
   else mret tt) ;;
  let imm := default (pb.mkImmediate None None None) (pb.immediate expect) in
  (match pb.http_status imm with
   | Some x => if bool_decide (x <> http_code result) then
       ADD_FAILURE (Substitute "[$0] HTTP status is $1, expected $2"%str
                      [phase; AlphaNum (http_code result); AlphaNum x])
       else mret tt
   | None => mret tt
   end) ;;
  (match pb.grpc_status imm with
   | Some x => if bool_decide (x <> grpc_code result) then
       ADD_FAILURE (Substitute "[$0] gRPC status is $1, expected $2"%str
                      [phase; AlphaNum (grpc_code result); AlphaNum x])
       else mret tt
   | None => mret tt
   end) ;;
  match pb.details imm with
  | Some x => if bool_decide (x <> r_details result) then
      ADD_FAILURE (Substitute "[$0] gRPC detail is $1, expected $2"%str
                     [phase; r_details result; x])
      else mret tt
  | None => mret tt
  end.

Definition CheckPhaseResults (phase : str) (expect : pb.Expectation) (phase_logs : list str)
    (result : Result) : GTest unit :=
  for_each (check_has_header phase result) (pb.has_header expect) ;;
  for_each (check_no_header phase result) (pb.no_header expect) ;;
  (if decide (0 < length (pb.headers expect)) then
     for_each (λ m, FindString phase "header"%str m (header_lines (r_headers result)))
       (pb.headers expect)
   else mret tt) ;;
  for_each (λ m, FindString phase "body"%str m [r_body result]) (pb.body expect) ;;
  check_immediate phase expect result ;;
  for_each (λ m, FindString phase "log"%str m phase_logs) (pb.log expect).
End checks.

(** ** What an expectation means *)

Section meaning.
Context `{!Caseless} `{!CaselessOk _} `{!Absl} `{!AbslOk _} `{!Re2} `{!RunnerLibs}.
Context (env : pb.Env).

(** The texts that a matcher accepts; [None] for one that is not valid. *)
Definition accepted (m : pb.StringMatcher) : option (str -> Prop) :=
  match pb.matcher m with
  | Some (pb.exact s) => Some (λ t, t = s)
  | Some (pb.file_match f) =>
      match ReadContent f env with inr s => Some (λ t, t = s) | inl _ => None end
  | Some (pb.regex r) =>
      if re_ok (re_compile r) then Some (λ t, re_FullMatch t (re_compile r) = true) else None
  | None => None
  end.

(** One of the texts is accepted, or none for an inverted matcher. *)
Definition satisfied (m : pb.StringMatcher) (contents : list str) : Prop :=
  exists P, accepted m = Some P /\
    if pb.invert m then Forall (λ t, ~ P t) contents else Exists P contents.

(** The status of the headers lets the stream go on. *)
Definition continues (result : Result) : Prop :=
  header_status result = FilterHeadersStatus.Continue \/
  header_status result = FilterHeadersStatus.ContinueAndEndStream.

(** The immediate response that is expected was sent, with the codes and the
    details that are given; none was sent if none is expected. *)
Definition immediate_meets (expect : option pb.Immediate) (result : Result) : Prop :=
  match expect with
  | None =>
      continues result /\ http_code result = 0%Z
  | Some imm =>
      ~ continues result /\ http_code result <> 0%Z /\
      (forall x, pb.http_status imm = Some x -> http_code result = x) /\
      (forall x, pb.grpc_status imm = Some x -> grpc_code result = x) /\
      (forall x, pb.details imm = Some x -> r_details result = x)
  end.

Record meets (expect : pb.Expectation) (phase_logs : list str) (result : Result) : Prop := {
  meets_has_header h : h ∈ pb.has_header expect ->
    pb.key h <> [] /\ hm_get (pb.key h) (headers_map (r_headers result)) = Some (pb.value h);
  meets_no_header h : h ∈ pb.no_header expect ->
    pb.key h <> [] /\ hm_get (pb.key h) (headers_map (r_headers result)) = None;
  meets_headers m : m ∈ pb.headers expect ->
    satisfied m ((λ kv, kv.1 ++ ": "%str ++ kv.2) <$> r_headers result);
  meets_body m : m ∈ pb.body expect -> satisfied m [r_body result];
  meets_immediate : immediate_meets (pb.immediate expect) result;
  meets_log m : m ∈ pb.log expect -> satisfied m phase_logs;
}.

Lemma Matches_spec sm contents :
  Matches sm contents = true <->
  if invert_ sm then Forall (λ t, matches_one sm t = false) contents
  else Exists (λ t, matches_one sm t = true) contents.
Proof.
  induction contents as [|t contents IH]; cbn.
  - destruct (invert_ sm); [by rewrite Forall_nil|by rewrite Exists_nil].
  - destruct (invert_ sm); rewrite ?Forall_cons, ?Exists_cons; destruct (matches_one sm t); cbn;
      rewrite ?IH; intuition congruence.
Qed.

Lemma FindString_passes phase type m contents :
  passes (FindString env phase type m contents) tt <-> satisfied m contents.
Proof.
  assert (Hgo : forall sm P, Create m env = inr sm -> accepted m = Some P ->
    invert_ sm = pb.invert m ->
    (forall t, matches_one sm t = true <-> P t) ->
    passes (FindString env phase type m contents) tt <-> satisfied m contents).
  { intros sm P Hc Ha Hi HP. unfold FindString, satisfied. rewrite Hc, Ha.
    rewrite passes_unless, negb_false_iff, Matches_spec, Hi.
    assert (Hex : (exists P0, Some P = Some P0 /\
        (if pb.invert m then Forall (λ t, ~ P0 t) contents else Exists P0 contents)) <->
        (if pb.invert m then Forall (λ t, ~ P t) contents else Exists P contents)).
    { split; [by intros (? & [= <-] & ?)|eauto]. }
    rewrite Hex. destruct (pb.invert m).
    - apply Forall_iff. intros t. by rewrite <- HP, not_true_iff_false.
    - rewrite !Exists_exists. by setoid_rewrite HP. }
  assert (Hno : forall st, Create m env = inl st -> accepted m = None ->
    passes (FindString env phase type m contents) tt <-> satisfied m contents).
  { intros st Hc Ha. unfold FindString, satisfied. rewrite Hc, Ha.
    rewrite passes_failure. naive_solver. }
  unfold Create, accepted in *. destruct (pb.matcher m) as [[s|r|f]|].
  - eapply Hgo; [done..|]. intros t. apply bool_decide_eq_true.
  - destruct (re_ok _); [by eapply Hgo|by eapply Hno].
  - destruct (ReadContent f env); [by eapply Hno|]. eapply Hgo; [done..|].
    intros t. apply bool_decide_eq_true.
  - by eapply Hno.
Qed.

Lemma FindString_all_passes phase type ms contents :
  passes (for_each (λ m, FindString env phase type m contents) ms) tt <->
  forall m, m ∈ ms -> satisfied m contents.
Proof.
  rewrite passes_for_each, Forall_forall. by setoid_rewrite FindString_passes.
Qed.
Lemma check_has_header_passes phase result h :
  passes (check_has_header phase result h) tt <->
  pb.key h <> [] /\ hm_get (pb.key h) (headers_map (r_headers result)) = Some (pb.value h).
Proof.
  unfold check_has_header. rewrite passes_then, passes_assert, bool_decide_eq_true, headers_find_map.
  unfold hm_get. destruct (_ !! _) as [[k x]|]; cbn.
  - rewrite passes_unless, bool_decide_eq_false. split; intros [? Hx]; (split; [done|]).
    + f_equal. by apply dec_stable.
    + intros Hne. apply Hne. by injection Hx.
  - rewrite passes_failure. split; intros [_ ?]; done.
Qed.

Lemma check_no_header_passes phase result h :
  passes (check_no_header phase result h) tt <->
  pb.key h <> [] /\ hm_get (pb.key h) (headers_map (r_headers result)) = None.
Proof.
  unfold check_no_header. rewrite passes_then, passes_assert, bool_decide_eq_true, headers_find_map.
  unfold hm_get. destruct (_ !! _) as [[k x]|]; cbn.
  { rewrite passes_failure. split; intros [_ ?]; done. }
  split; intros [? _]; done.
Qed.

(** An optional code that must be the one of the result. *)
Lemma passes_optional {A} `{EqDecision A} (o : option A) (actual : A) (text : A -> str) :
  passes (match o with
          | Some x => if bool_decide (x <> actual) then ADD_FAILURE (text x) else mret tt
          | None => mret tt
          end) tt <-> forall x, o = Some x -> actual = x.
Proof.
  destruct o as [x|]; [|done]. rewrite passes_unless, bool_decide_eq_false. split.
  - intros Hx y [= ->]. symmetry. by apply dec_stable.
  - intros Hx Hne. apply Hne. symmetry. by apply Hx.
Qed.

Lemma check_immediate_passes phase expect result :
  passes (check_immediate phase expect result) tt <-> immediate_meets (pb.immediate expect) result.
Proof.
  unfold check_immediate. cbv zeta.
  rewrite !passes_then, !passes_unless, !passes_optional.
  unfold immediate_meets. fold (continues result).
  destruct (pb.immediate expect) as [imm|]; cbn [default from_option pb.http_status pb.grpc_status pb.details].
  - destruct (bool_decide_reflect (continues result)),
      (bool_decide_reflect (http_code result = 0%Z)); cbn; intuition congruence.
  - destruct (bool_decide_reflect (continues result)),
      (bool_decide_reflect (http_code result = 0%Z)); cbn; intuition congruence.
Qed.

(** C35. The check of a phase reports no failure exactly if the result meets
    the expectation: every header that is listed is there, in any case of its
    name, with exactly that value, or absent; the serialized headers, the body
    and the log lines of the phase each contain a match, or none for an
    inverted matcher; an immediate response was sent exactly if one is
    expected, with the codes and the details that are given; and no matcher
    or header key is invalid. *)
Theorem CheckPhaseResults_spec phase expect phase_logs result :
  passes (CheckPhaseResults env phase expect phase_logs result) tt <->
  meets expect phase_logs result.
Proof.
  unfold CheckPhaseResults. rewrite !passes_then, !FindString_all_passes, check_immediate_passes.
  rewrite !passes_for_each, !Forall_forall.
  setoid_rewrite check_has_header_passes. setoid_rewrite check_no_header_passes.
  assert (Hlines : header_lines (r_headers result) =
    ((λ kv, kv.1 ++ ": "%str ++ kv.2) <$> r_headers result)).
  { apply list_fmap_ext. intros i kv _. rewrite StrCat_ok. cbn. by rewrite app_nil_r. }
  assert (Hheaders : passes (if decide (0 < length (pb.headers expect)) then
      for_each (λ m, FindString env phase "header"%str m (header_lines (r_headers result)))
        (pb.headers expect) else mret tt) tt <->
    forall m, m ∈ pb.headers expect ->
      satisfied m ((λ kv, kv.1 ++ ": "%str ++ kv.2) <$> r_headers result)).
  { rewrite <- Hlines. destruct (decide _) as [|Hn]; [apply FindString_all_passes|].
    split; [|done]. intros _ m Hm. destruct (pb.headers expect); [by apply not_elem_of_nil in Hm|].
    cbn in Hn. lia. }
  rewrite Hheaders. split.
  - intros (? & ? & ? & ? & ? & ?). by split.
  - intros []. auto 10.
Qed.

End meaning.

(** ** A concrete instance *)

Definition runner_ref : @RunnerLibs re2_ref := {|
  Substitute format args := join "; "%str (format :: args);
  Status_ToString := status_message;
  ShortDebugString := pb.key;
  header_status_text st :=
    match st with
    | FilterHeadersStatus.Continue => "0"%str
    | FilterHeadersStatus.StopIteration => "1"%str
    | _ => "2"%str
    end;
  re_error _ := "bad"%str;
  open_file path := if decide (path = "missing"%str) then inl "no such file"%str else inr path;
  is_absolute := starts_with "/"%str;
  parent_path path := path;
  path_append a b := a ++ "/"%str ++ b;
  SplitByLength s n := pieces (length s) (Z.to_nat n) s;
  SplitByLengthMax s n k := pieces (Z.to_nat k) (Z.to_nat n) s;
  unix_nanos s := (s * 10 ^ 9)%Z;
|}.

#[export] Instance runner_ref_ok : RunnerLibsOk runner_ref.
Proof. by split. Qed.

Section witnesses.
#[local] Existing Instances caseless_ref absl_ref re2_ref runner_ref.

(** An immediate response, and an expectation that it meets. *)
Definition demo_result : Result :=
  mkResult FilterHeadersStatus.StopIteration [("Content-Type", "text/plain")]%str
    FilterDataStatus.Continue "Hello World"%str 200 0 [].
Definition demo_expectation : pb.Expectation :=
  pb.mkExpectation [pb.mkHeader "content-type"%str "text/plain"%str]
    [pb.mkHeader "location"%str []]
    [pb.mkStringMatcher true (Some (pb.exact "a: b"%str))]
    [pb.mkStringMatcher false (Some (pb.exact "Hello World"%str))]
    (Some (pb.mkImmediate (Some 200%Z) None (Some []))) [].

Lemma CheckPhaseResults_spec_witness :
  meets pb.no_env demo_expectation [] demo_result.
Proof.
  apply (CheckPhaseResults_spec pb.no_env "request_headers"%str demo_expectation [] demo_result).
  vm_compute. reflexivity.
Defined.
End witnesses.
