(* ===== verification/Inputs.v ===== *)
(** * The inputs of a test

    plugins/test/dynamic_test.cc: the headers of a phase are read from a file,
    from HTTP/1 text or from the test itself, and a body is cut into chunks. *)

From S2P Require Import Prelude Absl Headers Host Framework ThirdParty Pb Expect.

(** ** The inputs of a phase *)

(** The parser of HTTP/1 headers (quiche's Balsa) and of URLs (GURL). *)
Class HttpParser : Type := {
  BalsaHeaders : Type;
  (** [BalsaFrame], given whether a request is read, on some inputs one after
      the other: the text of its error code, or the headers. *)
  ProcessInput : bool -> list str -> str + BalsaHeaders;
  request_method : BalsaHeaders -> str;
  request_uri : BalsaHeaders -> str;
  response_code : BalsaHeaders -> str;
  Authority : BalsaHeaders -> str;
  lines : BalsaHeaders -> list (str * str);
  RemoveAllOfHeader : str -> BalsaHeaders -> BalsaHeaders;
  GURL : Type;
  parse_url : str -> GURL;
  uri_is_valid : GURL -> bool;
  Resolve : GURL -> str -> GURL;
  scheme : GURL -> str;
  PathForRequest : GURL -> str;
  host : GURL -> str;
  IntPort : GURL -> Z;
}.

Class HttpParserOk (P : HttpParser) : Prop := {
  lines_RemoveAllOfHeader name h :
    lines (RemoveAllOfHeader name h) = filter (λ kv, lower kv.1 <> lower name) (lines h);
}.

Section inputs.
Context `{Caseless} `{Absl} `{Re2} `{!RunnerLibs} `{HttpParser}.

Definition end_headers : str := let crlf := ascii_of_nat 13 :: nl in crlf ++ crlf.

(** The pseudo headers of HTTP/2 for a request, and what is left of it. *)
Definition emit_request (parsed : BalsaHeaders) (hdrs : headers)
    : StatusOr (BalsaHeaders * headers) :=
  let hdrs := InsertOrAppend ":method"%str (request_method parsed) hdrs in
  let uri := parse_url (request_uri parsed) in
  if uri_is_valid uri then
    let hdrs := InsertOrAppend ":scheme"%str (scheme uri) hdrs in
    let hdrs := InsertOrAppend ":path"%str (PathForRequest uri) hdrs in
    let hdrs := InsertOrAppend ":authority"%str
                  (if (0 <? IntPort uri)%Z
                   then StrCat [host uri; ":"%str; AlphaNum (IntPort uri)]
                   else host uri) hdrs in
    inr (RemoveAllOfHeader "Host"%str parsed, hdrs)
  else
    let base := parse_url "http://example.com"%str in
    let join := Resolve base (request_uri parsed) in
    if negb (uri_is_valid join) || bool_decide (PathForRequest join <> request_uri parsed) then
      inl (InvalidArgumentError (StrCat ["Invalid URI: "%str; request_uri parsed]))
    else
      let hdrs := InsertOrAppend ":path"%str (request_uri parsed) hdrs in
      if bool_decide (Authority parsed <> []) then
        let hdrs := InsertOrAppend ":authority"%str (Authority parsed) hdrs in
        inr (RemoveAllOfHeader "Host"%str parsed, hdrs)
      else inr (parsed, hdrs).

Definition ParseHTTP1Headers (content : str) (is_request : bool) (hdrs : headers)
    : StatusOr headers :=
  match ProcessInput is_request [content; end_headers] with
  | inl code => inl (InvalidArgumentError (StrCat ["Header parse error: "%str; code]))
  | inr parsed =>
      let emitted :=
        if is_request then emit_request parsed hdrs
        else inr (parsed, InsertOrAppend ":status"%str (response_code parsed) hdrs) in
      match emitted with
      | inl status => inl status
      | inr (parsed, hdrs) =>
          inr (fold_left (λ hdrs kv, InsertOrAppend (AsciiStrToLower kv.1) kv.2 hdrs)
                 (lines parsed) hdrs)
      end
  end.

Context (env : pb.Env).

Definition ParseHeaders (input : pb.Input) (is_request : bool) : StatusOr headers :=
  if bool_decide (pb.file input <> []) then
    match ReadContent (pb.file input) env with
    | inl status => inl status
    | inr content => ParseHTTP1Headers content is_request []
    end
  else if bool_decide (pb.content input <> []) then
    ParseHTTP1Headers (pb.content input) is_request []
  else
    inr (fold_left (λ hdrs h, InsertOrAppend (pb.key h) (pb.value h) hdrs) (pb.header input) []).

Definition ParseBodyInput (input : pb.Input) : StatusOr str :=
  if bool_decide (pb.file input <> []) then ReadContent (pb.file input) env
  else inr (pb.content input).

(** [None]: a division by zero, or a length that [ByLength] does not take. *)
Definition ChunkBody (complete_body : str) (test : pb.Test) : option (list str) :=
  match pb.body_chunking_plan test with
  | Some (pb.num_chunks n) =>
      if decide (n = 0%Z) then None
      else
        let chunk_length := to_int (size_of complete_body / wrap64 n) in
        if decide (0 < chunk_length)%Z
        then Some (SplitByLengthMax complete_body chunk_length (n - 1)) else None
  | plan =>
      let chunk_size := match plan with Some (pb.chunk_size n) => n | _ => 0%Z end in
      if decide (0 < chunk_size)%Z then Some (SplitByLength complete_body chunk_size) else None
  end.
End inputs.

Section chunks.
Context `{!Re2} `{!RunnerLibs} `{!RunnerLibsOk _}.

Lemma pieces_concat fuel n s : concat (pieces fuel n s) = s.
Proof.
  revert s. induction fuel as [|fuel IH]; intros s; cbn; [apply app_nil_r|].
  case_decide; cbn; [apply app_nil_r|]. by rewrite IH, take_drop.
Qed.

(** With enough cuts every piece but the last has [n] bytes, and the last one
    at most [n]. *)
Lemma pieces_spec fuel n s :
  0 < n -> length s <= fuel ->
  exists l t, pieces fuel n s = l ++ [t] /\ Forall (λ p, length p = n) l /\
    length t <= n /\ (s <> [] -> t <> []).
Proof.
  intros Hn. revert s. induction fuel as [|fuel IH]; intros s Hs; cbn.
  { exists [], s. repeat split; [constructor|lia|done]. }
  case_decide as Hlen.
  { exists [], s. repeat split; [constructor|lia|done]. }
  destruct (IH (drop n s)) as (l & t & -> & Hl & Ht & Hne); [rewrite length_drop; lia|].
  exists (take n s :: l), t. repeat split; [|lia|].
  - constructor; [|done]. rewrite length_take. lia.
  - intros _. apply Hne. intros Hd. apply (f_equal length) in Hd. rewrite length_drop in Hd.
    cbn in Hd. lia.
Qed.

(** A limited number of cuts in a text that is long enough for them all. *)
Lemma pieces_exact k n s :
  0 < n -> k * n < length s ->
  exists l t, pieces k n s = l ++ [t] /\ length l = k /\ Forall (λ p, length p = n) l /\
    length t = length s - k * n.
Proof.
  intros Hn. revert s. induction k as [|k IH]; intros s Hs; cbn [pieces].
  { exists [], s. repeat split; [constructor|lia]. }
  rewrite decide_False by lia.
  destruct (IH (drop n s)) as (l & t & -> & Hk & Hl & Ht); [rewrite length_drop; lia|].
  exists (take n s :: l), t. rewrite length_drop in Ht. repeat split.
  - cbn. lia.
  - constructor; [|done]. rewrite length_take. lia.
  - lia.
Qed.

(** C37. A chunking plan cuts a body into chunks that together are the body.
    A plan by number yields exactly that many, all but the last of equal
    length; a plan by size yields chunks of that size, of which only the last
    may be shorter, and it is not empty unless the body is.  A plan that asks
    for more chunks than the body has bytes, or for no positive number or
    size, has no result: it divides by zero or passes a length that absl's
    ByLength refuses. *)
Theorem ChunkBody_spec complete_body test plan :
  pb.body_chunking_plan test = Some plan ->
  (size_of complete_body < 2 ^ 31)%Z ->
  match plan with
  | pb.num_chunks n =>
      (- 2 ^ 31 <= n < 2 ^ 31)%Z ->
      if decide (0 < n <= size_of complete_body)%Z then
        exists l t, ChunkBody complete_body test = Some (l ++ [t]) /\
          concat (l ++ [t]) = complete_body /\ Z.of_nat (length l) = (n - 1)%Z /\
          Forall (λ p, size_of p = (size_of complete_body / n)%Z) l /\ t <> []
      else ChunkBody complete_body test = None
  | pb.chunk_size n =>
      if decide (0 < n)%Z then
        exists l t, ChunkBody complete_body test = Some (l ++ [t]) /\
          concat (l ++ [t]) = complete_body /\ Forall (λ p, size_of p = n) l /\
          (size_of t <= n)%Z /\ (complete_body <> [] -> t <> [])
      else ChunkBody complete_body test = None
  end.
Proof.
  intros Hplan Hsize. unfold ChunkBody. rewrite Hplan. destruct plan as [n|n].
  - intros Hn. assert (Hlen : (0 <= size_of complete_body)%Z) by (unfold size_of; lia).
    destruct (decide (n = 0%Z)) as [->|Hn0]; [by rewrite decide_False by lia|].
    case_decide as Hr.
    + rewrite wrap64_id by lia.
      assert (Hq : (0 < size_of complete_body / n <= size_of complete_body)%Z).
      { split; [apply Z.div_str_pos; lia|]. apply Z.div_le_upper_bound; nia. }
      rewrite to_int_id, decide_True by lia. rewrite SplitByLengthMax_ok by lia.
      destruct (pieces_exact (Z.to_nat (n - 1)) (Z.to_nat (size_of complete_body / n)) complete_body)
        as (l & t & Hp & Hk & Hl & Ht).
      { lia. }
      { pose proof (Z.mul_div_le (size_of complete_body) n). unfold size_of in *. nia. }
      exists l, t. rewrite Hp. split; [done|]. split; [by rewrite <- Hp, pieces_concat|].
      split; [unfold size_of; lia|]. split.
      * eapply Forall_impl; [exact Hl|]. cbn. intros p Hlp. unfold size_of in *. lia.
      * intros ->. cbn in Ht. pose proof (Z.mul_div_le (size_of complete_body) n).
        unfold size_of in *. nia.
    + rewrite decide_False; [done|]. intros Hc.
      enough (size_of complete_body / wrap64 n = 0)%Z as Hz
        by (rewrite Hz in Hc; vm_compute in Hc; discriminate).
      apply Z.div_small. split; [lia|]. unfold wrap64. destruct (decide (0 < n)%Z).
      * rewrite Z.mod_small by lia. lia.
      * rewrite <- (Z_mod_plus_full n 1 (2 ^ 64)), Z.mod_small by lia. lia.
  - case_decide as Hn; [|done]. rewrite SplitByLength_ok by done.
    destruct (pieces_spec (length complete_body) (Z.to_nat n) complete_body) as (l & t & Hp & Hl & Ht & Hne);
      [lia|done|].
    exists l, t. rewrite Hp. split; [done|]. split; [by rewrite <- Hp, pieces_concat|].
    split; [|split; [unfold size_of; lia|done]].
    eapply Forall_impl; [exact Hl|]. cbn. intros p Hlp. unfold size_of. lia.
Qed.
End chunks.

(** ** What a text of HTTP/1 headers becomes *)

Section http1.
Context `{!Caseless} `{!CaselessOk _} `{!Absl} `{!AbslOk _} `{!HttpParser} `{!HttpParserOk _}.

(** The values of the fields of one name, joined as in RFC 9110. *)
Definition join_value (value v : str) : str :=
  if decide (value = []) then v else value ++ ", "%str ++ v.
Definition joined (values : list str) : option str :=
  fold_left (λ o v, Some (join_value (default [] o) v)) values None.
Definition named (name : str) (l : list (str * str)) : list str :=
  (filter (λ kv, lower kv.1 = lower name) l).*2.

Lemma hm_get_append name k v m :
  hm_get name (hm_append k v m) =
  if decide (lower k = lower name) then Some (join_value (default [] (hm_get name m)) v)
  else hm_get name m.
Proof.
  unfold hm_append. case_decide as Hk.
  - rewrite hm_get_update_eq by done. unfold join_value, hm_get. by rewrite Hk.
  - by rewrite hm_get_update_ne.
Qed.

Lemma hm_get_append_all name l m :
  hm_get name (fold_left (λ m kv, hm_append kv.1 kv.2 m) l m) =
  fold_left (λ o v, Some (join_value (default [] o) v)) (named name l) (hm_get name m).
Proof.
  revert m. induction l as [|[k v] l IH]; intros m; [done|]. cbn [fold_left]. rewrite IH.
  cbn [fst snd]. rewrite hm_get_append. unfold named. rewrite filter_cons. cbn [fst].
  by case_decide.
Qed.

Lemma InsertOrAppend_all l m :
  ordered m ->
  ordered (fold_left (λ m kv, InsertOrAppend kv.1 kv.2 m) l m) /\
  headers_map (fold_left (λ m kv, InsertOrAppend kv.1 kv.2 m) l m) =
  fold_left (λ m kv, hm_append kv.1 kv.2 m) l (headers_map m).
Proof.
  revert m. induction l as [|[k v] l IH]; intros m Hm; [done|]. cbn.
  rewrite <- headers_map_append by done. apply IH. by apply InsertOrAppend_ordered.
Qed.

(** The pseudo headers of HTTP/2, and the fields that go with them: the host
    of a request is its authority. *)
Definition absolute (parsed : BalsaHeaders) : bool := uri_is_valid (parse_url (request_uri parsed)).

Definition pseudo_headers (is_request : bool) (parsed : BalsaHeaders) : list (str * str) :=
  if is_request then
    (":method"%str, request_method parsed) ::
    let uri := parse_url (request_uri parsed) in
    if absolute parsed then
      [(":scheme"%str, scheme uri); (":path"%str, PathForRequest uri);
       (":authority"%str, if (0 <? IntPort uri)%Z
                          then host uri ++ ":"%str ++ to_string (IntPort uri) else host uri)]
    else
      (":path"%str, request_uri parsed) ::
      if decide (Authority parsed = []) then [] else [(":authority"%str, Authority parsed)]
  else [(":status"%str, response_code parsed)].

Definition other_fields (is_request : bool) (parsed : BalsaHeaders) : list (str * str) :=
  if is_request && (absolute parsed || bool_decide (Authority parsed <> []))
  then filter (λ kv, lower kv.1 <> "host"%str) (lines parsed) else lines parsed.

(** The URI of a request is an absolute one, or a path with a query. *)
Definition uri_ok (is_request : bool) (parsed : BalsaHeaders) : bool :=
  let joined := Resolve (parse_url "http://example.com"%str) (request_uri parsed) in
  negb is_request || absolute parsed ||
  uri_is_valid joined && bool_decide (PathForRequest joined = request_uri parsed).

Lemma emit_spec (is_request : bool) parsed :
  (if is_request then emit_request parsed []
   else inr (parsed, InsertOrAppend ":status"%str (response_code parsed) [])
   : StatusOr (BalsaHeaders * headers)) =
  if uri_ok is_request parsed then
    inr (if is_request && (absolute parsed || bool_decide (Authority parsed <> []))
         then RemoveAllOfHeader "Host"%str parsed else parsed,
         fold_left (λ m kv, InsertOrAppend kv.1 kv.2 m) (pseudo_headers is_request parsed) [])
  else inl (InvalidArgumentError ("Invalid URI: "%str ++ request_uri parsed)).
Proof.
  destruct is_request; [|done]. unfold emit_request, uri_ok, pseudo_headers. cbv zeta.
  change (uri_is_valid (parse_url (request_uri parsed))) with (absolute parsed).
  destruct (absolute parsed) eqn:Ha; cbn [negb orb andb].
  - rewrite StrCat_ok, AlphaNum_ok. cbn [concat]. by rewrite app_nil_r.
  - rewrite StrCat_ok. cbn [concat]. rewrite app_nil_r.
    destruct (uri_is_valid (Resolve _ _)); cbn [negb orb andb]; [|done].
    destruct (bool_decide_reflect (PathForRequest (Resolve (parse_url "http://example.com"%str)
      (request_uri parsed)) = request_uri parsed)) as [Hp|Hp].
    + rewrite (bool_decide_false (PathForRequest _ <> _)) by (intros Hn; by apply Hn).
      destruct (decide (Authority parsed = [])) as [Hau|Hau].
      * rewrite (bool_decide_false (Authority parsed <> [])) by (intros Hn; by apply Hn). done.
      * rewrite (bool_decide_true (Authority parsed <> [])) by done. done.
    + by rewrite (bool_decide_true (PathForRequest _ <> _)).
Qed.

(** Names in lower case. *)
Definition lower_names (l : list (str * str)) : list (str * str) :=
  (λ kv, (lower kv.1, kv.2)) <$> l.

Lemma lower_names_lower l : Forall (λ kv, lower kv.1 = kv.1) (lower_names l).
Proof. apply Forall_fmap, Forall_true. intros kv. apply lower_idem. Qed.

Lemma named_lower_names name l :
  (filter (λ kv : str * str, lower kv.1 = lower name) (lower_names l)).*2 =
  (filter (λ kv : str * str, lower kv.1 = lower name) l).*2.
Proof.
  induction l as [|[k v] l IH]; [done|]. unfold lower_names in *. rewrite fmap_cons, !filter_cons.
  cbn [fst snd]. rewrite lower_idem. case_decide; cbn; by rewrite IH.
Qed.

Lemma lower_fields l m :
  fold_left (λ hdrs kv, InsertOrAppend (AsciiStrToLower kv.1) kv.2 hdrs) l m =
  fold_left (λ m kv, InsertOrAppend kv.1 kv.2 m) (lower_names l) m.
Proof.
  revert m. induction l as [|[k v] l IH]; intros m; [done|]. cbn. rewrite AsciiStrToLower_ok. apply IH.
Qed.

Lemma headers_update_lower k f m :
  lower k = k -> Forall (λ kv, lower kv.1 = kv.1) m ->
  Forall (λ kv, lower kv.1 = kv.1) (headers_update k f m).
Proof.
  intros Hk. induction 1 as [|[k' v] m Hk' Hm IH]; cbn; [by repeat constructor|].
  repeat case_match; repeat constructor; done.
Qed.

Lemma InsertOrAppend_lower l m :
  Forall (λ kv, lower kv.1 = kv.1) l -> Forall (λ kv, lower kv.1 = kv.1) m ->
  Forall (λ kv, lower kv.1 = kv.1) (fold_left (λ m kv, InsertOrAppend kv.1 kv.2 m) l m).
Proof.
  intros Hl. revert m. induction Hl as [|[k v] l Hk Hl IH]; intros m Hm; [done|]. cbn.
  apply IH. by apply headers_update_lower.
Qed.

Lemma pseudo_headers_lower is_request parsed :
  Forall (λ kv, lower kv.1 = kv.1) (pseudo_headers is_request parsed).
Proof.
  unfold pseudo_headers. destruct is_request; [|by repeat constructor].
  constructor; [done|]. cbv zeta. destruct (absolute parsed); [by repeat constructor|].
  case_decide; by repeat constructor.
Qed.

(** A text of HTTP/1 headers is refused exactly if its parser refuses it
    or the URI of a request is neither absolute nor a path; otherwise every
    header of the result has, under its name in any case, the values of the
    pseudo headers of HTTP/2 and of the fields of the text with that name,
    joined in their order, where the host of a request is given as its
    authority; all names are in lower case, and the result is an ordered map. *)
Theorem ParseHTTP1Headers_spec content is_request :
  match ProcessInput is_request [content; end_headers] with
  | inl code =>
      ParseHTTP1Headers content is_request [] =
      inl (InvalidArgumentError ("Header parse error: "%str ++ code))
  | inr parsed =>
      if uri_ok is_request parsed then
        exists hdrs, ParseHTTP1Headers content is_request [] = inr hdrs /\
          ordered hdrs /\ Forall (λ kv, lower kv.1 = kv.1) hdrs /\
          forall name, hm_get name (headers_map hdrs) =
            joined (named name (pseudo_headers is_request parsed ++ other_fields is_request parsed))
      else ParseHTTP1Headers content is_request [] =
             inl (InvalidArgumentError ("Invalid URI: "%str ++ request_uri parsed))
  end.
Proof.
  unfold ParseHTTP1Headers. destruct (ProcessInput _ _) as [code|parsed].
  { rewrite StrCat_ok. cbn. by rewrite app_nil_r. }
  cbv zeta. rewrite emit_spec. destruct (uri_ok is_request parsed); [|done].
  set (kept := if is_request && (absolute parsed || bool_decide (Authority parsed <> []))
               then RemoveAllOfHeader "Host"%str parsed else parsed).
  assert (Hkept : lines kept = other_fields is_request parsed).
  { unfold kept, other_fields. destruct (_ && _); [|done]. by rewrite lines_RemoveAllOfHeader. }
  rewrite Hkept. clearbody kept. eexists. split; [reflexivity|].
  rewrite lower_fields, <- fold_left_app.
  set (l := pseudo_headers is_request parsed ++ lower_names (other_fields is_request parsed)).
  destruct (InsertOrAppend_all l []) as [Ho Hm]; [constructor|]. split; [done|]. split.
  - apply InsertOrAppend_lower; [|constructor]. apply Forall_app. split; [|apply lower_names_lower].
    apply pseudo_headers_lower.
  - intros name. rewrite Hm, hm_get_append_all. unfold joined. f_equal.
    unfold named, l. by rewrite !filter_app, !fmap_app, named_lower_names.
Qed.
Lemma ParseHTTP1Headers_ordered content is_request hdrs :
  ParseHTTP1Headers content is_request [] = inr hdrs -> ordered hdrs.
Proof.
  unfold ParseHTTP1Headers. destruct (ProcessInput _ _) as [|parsed]; [done|]. cbv zeta.
  rewrite emit_spec. destruct (uri_ok _ _); [|done]. intros [= <-].
  rewrite lower_fields. do 2 apply InsertOrAppend_all. constructor.
Qed.

(** The headers of a phase are an ordered map, whatever they are read from. *)
Lemma ParseHeaders_ordered `{!Re2} `{!RunnerLibs} env input is_request hdrs :
  ParseHeaders env input is_request = inr hdrs -> ordered hdrs.
Proof.
  unfold ParseHeaders. case_bool_decide.
  { destruct (ReadContent _ _); [done|]. apply ParseHTTP1Headers_ordered. }
  case_bool_decide; [apply ParseHTTP1Headers_ordered|]. intros [= <-].
  assert (forall l m, ordered m ->
    ordered (fold_left (λ hdrs h, InsertOrAppend (pb.key h) (pb.value h) hdrs) l m)) as Hl.
  { induction l as [|h l IH]; intros m Hm; [done|]. apply IH. by apply InsertOrAppend_ordered. }
  apply Hl. constructor.
Qed.

End http1.

(** ** A concrete parser *)

Record http_text : Type := mkHttp { start_line : list str; text_fields : list (str * str) }.
Record url_text : Type := mkUrl { url_valid : bool; url_host : str; url_path : str }.

(** Lines, a first line of three words, and fields with a colon. *)
Definition http_ref : HttpParser := {|
  BalsaHeaders := http_text;
  ProcessInput _ inputs :=
    let ls := filter (.≠ []) (split_on (ascii_of_nat 10) (filter (.≠ ascii_of_nat 13) (concat inputs))) in
    match ls with
    | [] => inl "NO_STATUS_LINE"%str
    | first :: rest =>
        if decide (length (split_on " " first) = 3) then
          inr (mkHttp (split_on " " first)
                 (omap (λ l, kv ← cut_at ":" l; Some (kv.1, strip kv.2)) rest))
        else inl "FAILED_TO_FIND_WS"%str
    end;
  request_method h := default [] (start_line h !! 0);
  request_uri h := default [] (start_line h !! 1);
  response_code h := default [] (start_line h !! 1);
  Authority h := default [] (snd <$> List.find (λ kv, bool_decide (lower kv.1 = "host"%str)) (text_fields h));
  lines := text_fields;
  RemoveAllOfHeader name h :=
    mkHttp (start_line h) (filter (λ kv, lower kv.1 <> lower name) (text_fields h));
  GURL := url_text;
  parse_url s :=
    if starts_with "http://"%str s then
      match cut_at "/" (drop 7 s) with
      | Some (a, b) => mkUrl true a ("/"%char :: b)
      | None => mkUrl true (drop 7 s) "/"%str
      end
    else mkUrl false [] [];
  uri_is_valid := url_valid;
  Resolve base s := mkUrl (starts_with "/"%str s) (url_host base) s;
  scheme _ := "http"%str;
  PathForRequest := url_path;
  host := url_host;
  IntPort _ := (-1)%Z;
|}.

#[export] Instance http_ref_ok : HttpParserOk http_ref.
Proof. by split. Qed.

Section witnesses.
#[local] Existing Instances caseless_ref absl_ref re2_ref runner_ref http_ref.

Definition demo_test (plan : option pb.BodyChunkingPlan) : pb.Test :=
  pb.mkTest [] false plan [] None [] None [] pb.no_expectation pb.no_expectation pb.no_expectation.

Lemma ChunkBody_spec_witness :
  (exists l t, ChunkBody "abcdefgh"%str (demo_test (Some (pb.num_chunks 3))) = Some (l ++ [t]) /\
     concat (l ++ [t]) = "abcdefgh"%str) /\
  ChunkBody "ab"%str (demo_test (Some (pb.num_chunks 3))) = None.
Proof.
  split.
  - destruct (ChunkBody_spec "abcdefgh"%str (demo_test (Some (pb.num_chunks 3))) (pb.num_chunks 3))
      as (l & t & Hc & Hl & _); [reflexivity|vm_compute; reflexivity|lia|].
    exists l, t. exact (conj Hc Hl).
  - apply (ChunkBody_spec "ab"%str (demo_test (Some (pb.num_chunks 3))) (pb.num_chunks 3));
      [reflexivity|vm_compute; reflexivity|lia].
Defined.

Definition demo_request : str :=
  "GET /my/path?foo=bar HTTP/1.1"%str ++ nl ++ "Host: myhost.com"%str ++ nl ++
  "MyHeader: MyVal1"%str ++ nl ++ "MyHeader: MyVal2"%str ++ nl.

Lemma ParseHTTP1Headers_spec_witness :
  exists hdrs, ParseHTTP1Headers demo_request true [] = inr hdrs /\
    hm_get "myheader"%str (headers_map hdrs) = Some "MyVal1, MyVal2"%str.
Proof.
  pose proof (ParseHTTP1Headers_spec demo_request true) as Hw.
  destruct Hw as (hdrs & Hp & _ & _ & Hg). exists hdrs. split; [exact Hp|].
  rewrite (Hg "myheader"%str). vm_compute. reflexivity.
Defined.
End witnesses.
