(* ===== verification/Vm.v ===== *)
(** * The VM and the plugin in it

    plugins/test/framework.cc and framework.h: how a VM is created, loaded and
    given a plugin, the fixture of the native tests and the plugins it is
    instantiated with. *)

From S2P Require Import Prelude Absl Headers Host Framework ThirdParty Pb Expect.

(** ** Plugins *)

(** The VM with a plugin in it: what the calls of framework.cc into
    [proxy_wasm] yield, and the plugin's handlers. *)
Record Plugin : Type := mkPlugin {
  Stream : Type;
  start : bool;                       (* [start] returned a root context *)
  configure : bool;
  root_logs : option (list str);      (* the logs of [getRootContext] *)
  init_fails : bool;                  (* [isFailed] after the initialisation *)
  onCreate : Prog Stream;
  onRequestHeaders : Stream -> Z -> bool -> Prog (FilterHeadersStatus.t * Stream);
  onRequestBody : Stream -> Z -> bool -> Prog (FilterDataStatus.t * Stream);
  onResponseHeaders : Stream -> Z -> bool -> Prog (FilterHeadersStatus.t * Stream);
  onResponseBody : Stream -> Z -> bool -> Prog (FilterDataStatus.t * Stream);
  onDone : Stream -> Prog unit;
  onDelete : Stream -> Prog unit;
  shutdown_fails : bool;              (* [isFailed] after [startShutdown] *)
}.

Record ContextOptions : Type := mkOptions { log_file : option str; opt_clock_time : Z }.

Record PluginHandle : Type := mkHandle {
  plugin : Plugin;
  configuration : str;
  options : ContextOptions;
}.

(** The VMs of proxy_wasm. *)
Class WasmHost : Type := {
  TestVm : Type;
  makeVm : str -> TestVm;                                  (* of an engine *)
  setLogLevel : Z -> TestVm -> TestVm;
  (** The VM after a call that returned true. *)
  load : ContextOptions -> str -> TestVm -> option TestVm;
  initialize : TestVm -> option TestVm;
  (** What the VM does with a plugin of this configuration. *)
  plugin_of : TestVm -> str -> Plugin;
  (** Fields of a new context that the constructor leaves as they are. *)
  initial_phase : option WasmHeaderMapType;
  initial_callback : CallbackType;
}.

(** A millisecond after the Unix epoch, in nanoseconds. *)
Definition default_clock_time : Z := 1000000.

Section vm.
Context `{Absl} `{Re2} `{!RunnerLibs} `{WasmHost}.

Definition CreatePluginVm (engine wasm_bytes plugin_config : str) (min_log_level : Z)
    (options : ContextOptions) : StatusOr PluginHandle :=
  let vm := setLogLevel min_log_level (makeVm engine) in
  match load options wasm_bytes vm with
  | None => inl (FailedPreconditionError "Failed to load Wasm code"%str)
  | Some wasm =>
      match initialize wasm with
      | None => inl (FailedPreconditionError "Failed to initialize Wasm code"%str)
      | Some wasm => inr (mkHandle (plugin_of wasm plugin_config) plugin_config options)
      end
  end.

Definition InitializePlugin (handle : PluginHandle) : StatusOr unit :=
  if negb (start (plugin handle)) then inl (FailedPreconditionError "Plugin.start failed"%str)
  else if negb (configure (plugin handle)) then
    inl (FailedPreconditionError "Plugin.configure failed"%str)
  else inr tt.

Definition CreateProxyWasmPlugin (engine wasm_path plugin_config : str) (min_log_level : Z)
    : StatusOr PluginHandle :=
  match ReadDataFile wasm_path with
  | inl status => inl status
  | inr wasm =>
      match CreatePluginVm engine wasm plugin_config min_log_level
              (mkOptions None default_clock_time) with
      | inl status => inl status
      | inr handle =>
          match InitializePlugin handle with
          | inl status => inl status
          | inr _ => inr handle
          end
      end
  end.

(** ** [class HttpTest] *)

Definition trace_level : Z := 0.

(** [{engine, wasm-path}], and [handle_]. *)
Record HttpTest : Type := mkHttpTest {
  param : str * str;
  handle_ : option PluginHandle;
}.
Definition http_engine (t : HttpTest) : str := (param t).1.
Definition http_path (t : HttpTest) : str := (param t).2.

Definition CreatePlugin (plugin_config : str) (t : HttpTest) : Status * HttpTest :=
  match CreateProxyWasmPlugin (http_engine t) (http_path t) plugin_config trace_level with
  | inl status => (status, t)
  | inr handle => (OkStatus, mkHttpTest (param t) (Some handle))
  end.

(** The files beside the program, by their paths. *)
Definition FindPlugins (extension : str -> str) (directory : list str) : list str :=
  List.filter (λ entry, bool_decide (extension entry = ".wasm"%str)) directory.

(** [REGISTER_BENCH]: the name, the engine and the plugin. *)
Definition REGISTER_BENCH (fn : str) (filename : str -> str) (engines plugins : list str)
    : list (str * str * str) :=
  concat ((λ engine,
    (λ plugin, (StrCat [fn; "_"%str; engine; "_"%str; filename plugin], engine, plugin)) <$> plugins)
    <$> engines).

(** ** Creation succeeds or says what failed *)

(** The steps in the order in which they are tried. *)
Inductive creation (engine wasm_path plugin_config : str) (min_log_level : Z) :
    StatusOr PluginHandle -> Prop :=
  | no_file e :
      open_file wasm_path = inl e ->
      creation engine wasm_path plugin_config min_log_level
        (inl (NotFoundError (StrCat ["failed to open: "%str; wasm_path; ", error: "%str; e])))
  | no_load bytes :
      open_file wasm_path = inr bytes ->
      load (mkOptions None default_clock_time) bytes (setLogLevel min_log_level (makeVm engine)) = None ->
      creation engine wasm_path plugin_config min_log_level
        (inl (FailedPreconditionError "Failed to load Wasm code"%str))
  | no_initialize bytes vm :
      open_file wasm_path = inr bytes ->
      load (mkOptions None default_clock_time) bytes (setLogLevel min_log_level (makeVm engine)) = Some vm ->
      initialize vm = None ->
      creation engine wasm_path plugin_config min_log_level
        (inl (FailedPreconditionError "Failed to initialize Wasm code"%str))
  | loaded bytes vm vm' :
      open_file wasm_path = inr bytes ->
      load (mkOptions None default_clock_time) bytes (setLogLevel min_log_level (makeVm engine)) = Some vm ->
      initialize vm = Some vm' ->
      let p := plugin_of vm' plugin_config in
      creation engine wasm_path plugin_config min_log_level
        (if negb (start p) then inl (FailedPreconditionError "Plugin.start failed"%str)
         else if negb (configure p) then inl (FailedPreconditionError "Plugin.configure failed"%str)
         else inr (mkHandle p plugin_config (mkOptions None default_clock_time))).

Lemma CreateProxyWasmPlugin_spec engine wasm_path plugin_config min_log_level :
  creation engine wasm_path plugin_config min_log_level
    (CreateProxyWasmPlugin engine wasm_path plugin_config min_log_level).
Proof.
  unfold CreateProxyWasmPlugin, ReadDataFile, CreatePluginVm.
  destruct (open_file wasm_path) as [e|bytes] eqn:Ho; [by apply no_file|].
  destruct (load _ _ _) as [vm|] eqn:Hl; [|by eapply no_load].
  destruct (initialize vm) as [vm'|] eqn:Hi; [|by eapply no_initialize].
  pose proof (loaded engine wasm_path plugin_config min_log_level bytes vm vm' Ho Hl Hi) as Hc.
  cbv zeta in Hc. unfold InitializePlugin. cbn [plugin].
  destruct (start _); [|exact Hc]. destruct (configure _); exact Hc.
Qed.

(** The fixture has a plugin afterwards exactly if the status is OK; a plugin
    that was there before survives a failure. *)
Lemma CreatePlugin_handle plugin_config t :
  let '(status, t') := CreatePlugin plugin_config t in
  (status_code status = kOk /\ handle_ t' <> None) \/ (status_code status <> kOk /\ t' = t).
Proof.
  unfold CreatePlugin. pose proof (CreateProxyWasmPlugin_spec (http_engine t) (http_path t)
    plugin_config trace_level) as Hc.
  destruct (CreateProxyWasmPlugin _ _ _ _) as [status|handle]; [right|by left].
  split; [|done]. inversion Hc; subst; try discriminate.
  destruct (start _); cbn in *; [|simplify_eq; discriminate].
  destruct (configure _); cbn in *; simplify_eq; discriminate.
Qed.
End vm.
