(* ===== verification/Runner.v ===== *)
(** * The test runner

    plugins/test/dynamic_test.cc: how a test of a suite is executed against a
    plugin and judged, and when it passes. *)

From S2P Require Import Prelude Absl Headers Host Framework Rules ThirdParty ResponseSamples Pb Gtest Expect Inputs Vm.

(** ** Loading a plugin *)

Definition INFO : Z := 3.
Definition CRITICAL : Z := 6.

Section loading.
Context `{Absl} `{Re2} `{!RunnerLibs} `{WasmHost}.
Context (engine : str) (env : pb.Env) (cfg : pb.Test).

Definition LoadWasm (benchmark : bool) : StatusOr PluginHandle :=
  let ll := if decide (pb.log_level env = 0%Z) then INFO else pb.log_level env in
  let ll := if benchmark then CRITICAL else ll in
  let log_level := (ll - 1)%Z in
  match ReadDataFile (pb.wasm_path env) with
  | inl status => inl status
  | inr wasm =>
      let config :=
        if bool_decide (pb.config_path env <> []) then ReadDataFile (pb.config_path env)
        else inr [] in
      match config with
      | inl status => inl status
      | inr plugin_config =>
          let opt := mkOptions
            (if negb benchmark && bool_decide (pb.log_path env <> [])
             then Some (pb.log_path env) else None)
            (if decide (pb.time_secs env <> 0%Z) then unix_nanos (pb.time_secs env) else default_clock_time) in
          CreatePluginVm engine wasm plugin_config log_level opt
      end
  end.
End loading.

Section streams.
Context `{Caseless} `{Absl} `{HostAbi} `{WasmHost}.
Context (cfg : pb.Test) (handle : PluginHandle).

(** A stream: the plugin's fields of it and the context of the framework. *)
Definition stream : Type := Stream (plugin handle) * TestHttpContext.

(** The constructor of [TestHttpContext]. *)
Definition new_stream : option stream :=
  run (onCreate (plugin handle))
    (mkContext ((λ p, (pb.path p, pb.property_value p)) <$> pb.properties cfg)
       (configuration handle) (opt_clock_time (options handle)) [] 0 0 false
       initial_phase empty_result false [] initial_callback 0).

Definition send_request_headers (m : headers) (st : stream) : option (Result * stream) :=
  '(r, x, s) ← SendRequestHeaders (onRequestHeaders (plugin handle) st.1) m st.2;
  Some (r, (x, s)).
Definition send_response_headers (m : headers) (st : stream) : option (Result * stream) :=
  '(r, x, s) ← SendResponseHeaders (onResponseHeaders (plugin handle) st.1) m st.2;
  Some (r, (default st.1 x, s)).
Definition send_request_body (chunk : str) (end_of_stream : bool) (st : stream)
    : option (Result * stream) :=
  '(r, x, s) ← SendRequestBody (onRequestBody (plugin handle) st.1) chunk end_of_stream st.2;
  Some (r, (default st.1 x, s)).
Definition send_response_body (chunk : str) (end_of_stream : bool) (st : stream)
    : option (Result * stream) :=
  '(r, x, s) ← SendResponseBody (onResponseBody (plugin handle) st.1) chunk end_of_stream st.2;
  Some (r, (default st.1 x, s)).
Definition tear_down (st : stream) : option stream :=
  s ← TearDown (onDone (plugin handle) st.1) (onDelete (plugin handle) st.1) st.2;
  Some (st.1, s).
End streams.

(** ** [DynamicTest::TestBody] *)

Section test_body.
Context `{Caseless} `{Absl} `{HostAbi} `{Re2} `{!RunnerLibs} `{HttpParser} `{WasmHost}.
Context (engine : str) (env : pb.Env) (cfg : pb.Test).
(** What a call during which the VM fails had logged. *)
Context (logs_of_failed_call : list str).

Definition vm_failed {A} (phase : str) : GTest A :=
  FAIL (Substitute ("[$0] Wasm VM failed! Logs: "%str ++ nl ++ "$1"%str ++ nl)
          [phase; StrJoin logs_of_failed_call nl]).

(** [ASSERT_TRUE(x.ok()) << x.status()], and [*x]. *)
Definition assert_ok {A} (x : StatusOr A) : GTest A :=
  match x with inl status => FAIL (Status_ToString status) | inr a => mret a end.

(** A call into the VM and [ASSERT_VM_HEALTH]. *)
Definition healthy {A} (phase : str) (r : option A) : GTest A :=
  match r with None => vm_failed phase | Some a => mret a end.

Section with_plugin.
Context (handle : PluginHandle).
Abbreviation stream := (stream handle).

Definition run_headers_test (phase : str) (invoke : option pb.Invocation) (is_request : bool)
    (send : headers -> stream -> option (Result * stream)) (st : stream) : GTest stream :=
  match invoke with
  | None => mret st
  | Some invoke =>
      headers ← assert_ok (ParseHeaders env (pb.input invoke) is_request);
      '(res, st) ← healthy phase (send headers st);
      as_call (CheckPhaseResults env phase (pb.result invoke) (phase_logs st.2) res) ;;
      mret st
  end.

Section body.
Context (phase : str) (invoke_wasm : str -> bool -> stream -> option (Result * stream)).

(** The loop over the chunks; [body] is what the plugin returned so far. *)
Fixpoint send_chunks (chunks : list str) (body : str) (st : stream) : GTest (str * stream) :=
  match chunks with
  | [] => mret (body, st)
  | chunk :: chunks =>
      '(res, st) ← healthy phase (invoke_wasm chunk (bool_decide (chunks = [])) st);
      send_chunks chunks (body ++ r_body res) st
  end.

Definition chunks_of (complete_input_body : str) : GTest (list str) :=
  match pb.body_chunking_plan cfg with
  | Some _ =>
      match ChunkBody complete_input_body cfg with
      | Some chunks => mret chunks
      | None => abort
      end
  | None => mret [complete_input_body]
  end.

Definition result_of_body (body : str) : Result :=
  set_body_result FilterDataStatus.Continue body empty_result.

Fixpoint run_invocations (invocations : list pb.Invocation) (st : stream) : GTest stream :=
  match invocations with
  | [] => mret st
  | invocation :: invocations =>
      complete_input_body ← assert_ok (ParseBodyInput env (pb.input invocation));
      chunks ← chunks_of complete_input_body;
      '(body, st) ← send_chunks chunks [] st;
      as_call (CheckPhaseResults env phase (pb.result invocation) (phase_logs st.2)
                 (result_of_body body)) ;;
      run_invocations invocations st
  end.

Definition run_body_test (invocations : list pb.Invocation) (st : stream) : GTest stream :=
  if decide (length invocations = 0) then mret st
  else if decide (length invocations <> 1 /\ pb.body_chunking_plan cfg <> None) then
    FAIL "Cannot specify body_chunking_plan with multiple body invocations"%str
  else run_invocations invocations st.
End body.

Definition run_stream : GTest unit :=
  st ← healthy "stream_init"%str (new_stream cfg handle);
  as_call (CheckSideEffects env "stream_init"%str (pb.stream_init cfg) (phase_logs st.2)) ;;
  st ← run_headers_test "request_headers"%str (pb.request_headers cfg) true
         (send_request_headers handle) st;
  st ← ASSERT_NO_FATAL_FAILURE (run_body_test "request_body"%str (send_request_body handle)
         (pb.request_body cfg) st);
  st ← run_headers_test "response_headers"%str (pb.response_headers cfg) false
         (send_response_headers handle) st;
  st ← ASSERT_NO_FATAL_FAILURE (run_body_test "response_body"%str (send_response_body handle)
         (pb.response_body cfg) st);
  st ← healthy "stream_destroy"%str (tear_down handle st);
  as_call (CheckSideEffects env "stream_destroy"%str (pb.stream_destroy cfg) (phase_logs st.2)) ;;
  ASSERT_TRUE (negb (shutdown_fails (plugin handle)))
    ("[plugin_destroy] Wasm VM failed!"%str ++ nl).
End with_plugin.

Definition TestBody : GTest unit :=
  handle ← assert_ok (LoadWasm engine env false);
  assert_ok (InitializePlugin handle) ;;
  match root_logs (plugin handle) with
  | None => FAIL "root_context"%str
  | Some logs =>
      (if init_fails (plugin handle) then vm_failed "plugin_init"%str else mret tt) ;;
      as_call (CheckSideEffects env "plugin_init"%str (pb.plugin_init cfg) logs) ;;
      run_stream handle
  end.
End test_body.

(** ** When a test passes *)

Section verdict.
Context `{!Caseless} `{!CaselessOk _} `{!Absl} `{!AbslOk _} `{!HostAbi} `{!Re2} `{!RunnerLibs}.
Context `{!HttpParser} `{!WasmHost}.
Context (engine : str) (env : pb.Env) (cfg : pb.Test) (logs_of_failed_call : list str).

Definition logs_meet (expect : pb.Expectation) (phase_logs : list str) : Prop :=
  forall m, m ∈ pb.log expect -> satisfied env m phase_logs.

Section with_plugin.
Context (handle : PluginHandle).
Abbreviation stream := (stream handle).

(** A headers phase takes the stream from [st] to [st'] as its expectation
    says, or does nothing if the test has no such phase. *)
Definition headers_phase (invoke : option pb.Invocation) (is_request : bool)
    (send : headers -> stream -> option (Result * stream)) (st st' : stream) : Prop :=
  match invoke with
  | None => st' = st
  | Some invoke => exists m r,
      ParseHeaders env (pb.input invoke) is_request = inr m /\ send m st = Some (r, st') /\
      meets env (pb.result invoke) (phase_logs st'.2) r
  end.

(** The chunks of a body go to the plugin one after the other, the last one
    as the end of the stream. *)
Inductive feeds (invoke : str -> bool -> stream -> option (Result * stream)) :
    list str -> stream -> list str -> stream -> Prop :=
  | feeds_nil st : feeds invoke [] st [] st
  | feeds_cons chunk chunks st r st1 outs st2 :
      invoke chunk (bool_decide (chunks = [])) st = Some (r, st1) ->
      feeds invoke chunks st1 outs st2 ->
      feeds invoke (chunk :: chunks) st (r_body r :: outs) st2.

(** What is judged of a body is the text the plugin returned for its chunks,
    and the log lines of the last chunk. *)
Inductive bodies_phase (invoke : str -> bool -> stream -> option (Result * stream)) :
    list pb.Invocation -> stream -> stream -> Prop :=
  | bodies_nil st : bodies_phase invoke [] st st
  | bodies_cons inv invs complete_body chunks st outs st1 st2 :
      ParseBodyInput env (pb.input inv) = inr complete_body ->
      (match pb.body_chunking_plan cfg with
       | Some _ => ChunkBody complete_body cfg
       | None => Some [complete_body]
       end) = Some chunks ->
      feeds invoke chunks st outs st1 ->
      meets env (pb.result inv) (phase_logs st1.2) (result_of_body (concat outs)) ->
      bodies_phase invoke invs st1 st2 ->
      bodies_phase invoke (inv :: invs) st st2.

Definition body_phase (invoke : str -> bool -> stream -> option (Result * stream))
    (invs : list pb.Invocation) (st st' : stream) : Prop :=
  (pb.body_chunking_plan cfg <> None -> length invs <= 1) /\ bodies_phase invoke invs st st'.

(** The life of the stream, phase by phase. *)
Definition stream_meets : Prop :=
  exists st0 st1 st2 st3 st4 st5,
    new_stream cfg handle = Some st0 /\
    logs_meet (pb.stream_init cfg) (phase_logs st0.2) /\
    headers_phase (pb.request_headers cfg) true (send_request_headers handle) st0 st1 /\
    body_phase (send_request_body handle) (pb.request_body cfg) st1 st2 /\
    headers_phase (pb.response_headers cfg) false (send_response_headers handle) st2 st3 /\
    body_phase (send_response_body handle) (pb.response_body cfg) st3 st4 /\
    tear_down handle st4 = Some st5 /\
    logs_meet (pb.stream_destroy cfg) (phase_logs st5.2) /\
    shutdown_fails (plugin handle) = false.

Lemma passes_healthy {A} phase (r : option A) a :
  passes (healthy logs_of_failed_call phase r) a <-> r = Some a.
Proof. destruct r as [b|]; cbn; [rewrite passes_ret; split; congruence|done]. Qed.

Lemma passes_assert_ok {A} (x : StatusOr A) a : passes (assert_ok x) a <-> x = inr a.
Proof. destruct x as [st|b]; cbn; [done|]. rewrite passes_ret. split; congruence. Qed.

Lemma passes_side_effects phase expect logs :
  passes (as_call (CheckSideEffects env phase expect logs)) tt <-> logs_meet expect logs.
Proof. rewrite passes_as_call. apply FindString_all_passes. Qed.

Lemma run_headers_test_passes phase invoke is_request send st st' :
  passes (run_headers_test env logs_of_failed_call handle phase invoke is_request send st) st' <->
  headers_phase invoke is_request send st st'.
Proof.
  unfold run_headers_test, headers_phase. destruct invoke as [invoke|].
  2: { rewrite passes_ret. split; congruence. }
  rewrite passes_bind. setoid_rewrite passes_assert_ok. split.
  - intros (m & Hm & Hp). apply passes_bind in Hp as ([r st1] & Hs & Hp).
    apply passes_healthy in Hs. apply passes_then in Hp as [Hc Hr].
    apply passes_ret in Hr as ->. rewrite passes_as_call, CheckPhaseResults_spec in Hc. eauto.
  - intros (m & r & Hm & Hs & Hc). exists m. split; [done|]. apply passes_bind.
    exists (r, st'). rewrite passes_healthy. split; [done|]. apply passes_then.
    by rewrite passes_as_call, CheckPhaseResults_spec, passes_ret.
Qed.

Lemma send_chunks_passes phase invoke chunks body st out st' :
  passes (send_chunks logs_of_failed_call handle phase invoke chunks body st) (out, st') <->
  exists outs, feeds invoke chunks st outs st' /\ out = body ++ concat outs.
Proof.
  revert body st. induction chunks as [|chunk chunks IH]; intros body st; cbn.
  - rewrite passes_ret. split.
    + intros [= <- <-]. exists []. rewrite app_nil_r. split; [constructor|done].
    + intros (outs & Hf & ->). inversion Hf; subst. by rewrite app_nil_r.
  - rewrite passes_bind. setoid_rewrite passes_healthy. split.
    + intros ([r st1] & Hi & Hp). apply IH in Hp as (outs & Hf & ->).
      exists (r_body r :: outs). split; [by econstructor|]. cbn. by rewrite <- app_assoc.
    + intros (outs & Hf & ->). inversion Hf as [|? ? ? r st1 outs1 ? Hi Hf1]; subst.
      exists (r, st1). split; [done|]. apply IH. exists outs1. split; [done|].
      cbn. by rewrite <- app_assoc.
Qed.

Lemma run_invocations_passes phase invoke invs st st' :
  passes (run_invocations env cfg logs_of_failed_call handle phase invoke invs st) st' <->
  bodies_phase invoke invs st st'.
Proof.
  revert st. induction invs as [|inv invs IH]; intros st; cbn.
  { rewrite passes_ret. split; [intros ->; constructor|by inversion 1]. }
  rewrite passes_bind. setoid_rewrite passes_assert_ok. split.
  - intros (complete & Hb & Hp). apply passes_bind in Hp as (chunks & Hc & Hp).
    apply passes_bind in Hp as ([out st1] & Hs & Hp). apply send_chunks_passes in Hs as (outs & Hf & ->).
    apply passes_then in Hp as [Hm Hp]. rewrite passes_as_call, CheckPhaseResults_spec in Hm.
    apply IH in Hp. econstructor; [done| |done..].
    unfold chunks_of in Hc. destruct (pb.body_chunking_plan cfg); [|by apply passes_ret in Hc as ->].
    destruct (ChunkBody _ _); [by apply passes_ret in Hc as ->|done].
  - inversion 1 as [|? ? complete chunks ? outs st1 ? Hb Hc Hf Hm Hp]; subst.
    exists complete. split; [done|]. apply passes_bind. exists chunks. split.
    { unfold chunks_of. destruct (pb.body_chunking_plan cfg); [|by injection Hc as <-].
      by rewrite Hc. }
    apply passes_bind. exists (concat outs, st1). rewrite send_chunks_passes.
    split; [by exists outs|]. apply passes_then. rewrite passes_as_call, CheckPhaseResults_spec.
    by rewrite IH.
Qed.

Lemma run_body_test_passes phase invoke invs st st' :
  passes (ASSERT_NO_FATAL_FAILURE
            (run_body_test env cfg logs_of_failed_call handle phase invoke invs st)) st' <->
  body_phase invoke invs st st'.
Proof.
  rewrite passes_no_fatal. unfold run_body_test, body_phase.
  destruct invs as [|inv invs]; cbn [length].
  { rewrite decide_True by done. rewrite passes_ret. split.
    - intros ->. split; [intros _; lia|constructor].
    - intros [_ Hb]. by inversion Hb. }
  rewrite decide_False by done. rewrite <- (run_invocations_passes phase).
  case_decide as Hplan.
  2: { split; [|by intros []]. intros Hp. split; [|done]. intros Hpl.
       destruct (decide (S (length invs) = 1)); [lia|]. by destruct Hplan. }
  split; [done|]. intros [Hl _]. exfalso.
  destruct Hplan as [Hne Hp]. specialize (Hl Hp). lia.
Qed.

Lemma run_stream_passes :
  passes (run_stream env cfg logs_of_failed_call handle) tt <-> stream_meets.
Proof.
  unfold run_stream, stream_meets. split.
  - intros Hp. apply passes_bind in Hp as (st0 & Hst0 & Hp). apply passes_healthy in Hst0.
    apply passes_then in Hp as [Hi Hp]. apply passes_side_effects in Hi.
    apply passes_bind in Hp as (st1 & Hst1 & Hp). apply run_headers_test_passes in Hst1.
    apply passes_bind in Hp as (st2 & Hst2 & Hp). apply run_body_test_passes in Hst2.
    apply passes_bind in Hp as (st3 & Hst3 & Hp). apply run_headers_test_passes in Hst3.
    apply passes_bind in Hp as (st4 & Hst4 & Hp). apply run_body_test_passes in Hst4.
    apply passes_bind in Hp as (st5 & Hst5 & Hp). apply passes_healthy in Hst5.
    apply passes_then in Hp as [Hd Hp]. apply passes_side_effects in Hd.
    apply passes_assert, negb_true_iff in Hp. by exists st0, st1, st2, st3, st4, st5.
  - intros (st0 & st1 & st2 & st3 & st4 & st5 & Hst0 & Hi & Hst1 & Hst2 & Hst3 & Hst4 & Hst5 & Hd & Hs).
    apply passes_bind. exists st0. rewrite passes_healthy. split; [done|].
    apply passes_then. rewrite passes_side_effects. split; [done|].
    apply passes_bind. exists st1. rewrite run_headers_test_passes. split; [done|].
    apply passes_bind. exists st2. rewrite run_body_test_passes. split; [done|].
    apply passes_bind. exists st3. rewrite run_headers_test_passes. split; [done|].
    apply passes_bind. exists st4. rewrite run_body_test_passes. split; [done|].
    apply passes_bind. exists st5. rewrite passes_healthy. split; [done|].
    apply passes_then. rewrite passes_side_effects. split; [done|].
    by rewrite passes_assert, negb_true_iff.
Qed.
End with_plugin.

(** The plugin is loaded and configured, and its stream goes as the test says. *)
Definition test_meets : Prop :=
  exists handle logs,
    LoadWasm engine env false = inr handle /\ InitializePlugin handle = inr tt /\
    root_logs (plugin handle) = Some logs /\ init_fails (plugin handle) = false /\
    logs_meet (pb.plugin_init cfg) logs /\ stream_meets handle.

Lemma TestBody_passes : passes (TestBody engine env cfg logs_of_failed_call) tt <-> test_meets.
Proof.
  unfold TestBody, test_meets. split.
  - intros Hp. apply passes_bind in Hp as (handle & Hl & Hp). apply passes_assert_ok in Hl.
    apply passes_bind in Hp as ([] & Hi & Hp). apply passes_assert_ok in Hi.
    destruct (root_logs (plugin handle)) as [logs|] eqn:Hr; [|done].
    apply passes_then in Hp as [Hf Hp]. apply passes_then in Hp as [Hs Hp].
    apply passes_side_effects in Hs. apply run_stream_passes in Hp.
    exists handle, logs. destruct (init_fails _); done.
  - intros (handle & logs & Hl & Hi & Hr & Hf & Hs & Hp). apply passes_bind. exists handle.
    rewrite passes_assert_ok. split; [done|]. apply passes_bind. exists tt.
    rewrite passes_assert_ok, Hr, Hf. split; [done|]. apply passes_then. split; [done|].
    apply passes_then. by rewrite passes_side_effects, run_stream_passes.
Qed.

(** C10. A test passes, that is, it reports no failure, exactly if the plugin
    loads and configures, and there is a run of one stream through the phases
    the test has, none of which makes the VM fail, in which the result of
    every phase meets its expectation: the headers of a phase are those of its
    input; the chunks of a body arrive in order, the last one alone as the end
    of the stream, and what is judged is the concatenation of the bodies the
    plugin returned; and the log lines of every phase are as expected. *)
Theorem TestBody_spec : passes (TestBody engine env cfg logs_of_failed_call) tt <-> test_meets.
Proof. apply TestBody_passes. Qed.

Section phases.
Context (handle : PluginHandle).
Abbreviation stream := (stream handle).

(** C39. In a stream that has sent a local response, the response headers are
    never shown to the plugin, and the check of that phase succeeds exactly if
    an empty result without log lines meets the expectation: a test that goes
    on after an immediate response, but expects no header, body or line, still
    passes. *)
Theorem after_local_response phase inv (st st' : stream) :
  sent_local_response st.2 = true ->
  passes (run_headers_test env logs_of_failed_call handle phase (Some inv) false
            (send_response_headers handle) st) st' <->
  (exists m, ParseHeaders env (pb.input inv) false = inr m) /\
  meets env (pb.result inv) [] empty_result /\
  st' = (st.1, set_result empty_result (clear_phase_logs st.2)).
Proof.
  intros Hs. rewrite run_headers_test_passes. unfold headers_phase, send_response_headers.
  unfold SendResponseHeaders. cbn. rewrite Hs. cbn. split.
  - by intros (m & r & Hm & [= <- <-] & Hmeets); eauto.
  - intros ([m Hm] & Hmeets & ->). by exists m, empty_result.
Qed.

(** A body phase in which an immediate response is expected is never met. *)
Lemma bodies_phase_immediate invoke invs inv st st' :
  bodies_phase handle invoke invs st st' -> inv ∈ invs -> pb.immediate (pb.result inv) = None.
Proof.
  induction 1 as [|inv' invs ? ? ? ? ? ? _ _ _ Hm _ IH]; intros Hin.
  { by apply not_elem_of_nil in Hin. }
  apply elem_of_cons in Hin as [->|Hin]; [|auto].
  pose proof (meets_immediate _ _ _ _ Hm) as Hi.
  destruct (pb.immediate (pb.result inv')); [|done]. destruct Hi as (Hc & _).
  exfalso. apply Hc. by left.
Qed.

(** The log lines of a state that the VM lets through. *)
Definition visible_logs (w : HostView) : list str :=
  (filter (λ l, cmpLogLevel l.1 = true) (logs w)).*2.

(** What is proved of a plugin on the abstract host decides its tests: if
    the request headers of a test parse to [m], and the plugin's handler, run
    on the abstract host with these headers, ends only in states whose result
    and log lines meet the expectation, then the runner finds no failure in
    the phase, for every host library. *)
Theorem request_headers_test_sound `{!HostAbiOk _} phase inv m (st : stream) :
  ParseHeaders env (pb.input inv) true = inr m ->
  wp (onRequestHeaders (plugin handle) st.1 (Z.of_nat (length m)) false)
    (λ x w, forall r, ordered (r_headers r) -> headers_result RequestHeaders x.1 w r ->
            meets env (pb.result inv) (visible_logs w) r)
    (host_view (enter_headers RequestHeaders CbRequestHeaders m st.2)) ->
  exists st', passes (run_headers_test env logs_of_failed_call handle phase (Some inv) true
                        (send_request_headers handle) st) st'.
Proof.
  intros Hm Hwp. assert (Ho : ordered m) by (by eapply ParseHeaders_ordered).
  set (h := onRequestHeaders (plugin handle) st.1) in *.
  assert (exists r x s' , SendRequestHeaders h m st.2 = Some (r, x, s') /\
            meets env (pb.result inv) (phase_logs s') r) as (r & x & s' & Hsend & Hmeets).
  { eapply run_wp in Hwp as ([status x] & s' & w & Hrun & Hrel & HQ); [|by apply host_view_rel].
    unfold SendRequestHeaders. unfold enter_headers in Hrun. rewrite Hrun. cbn.
    eexists _, _, _. split; [reflexivity|]. cbn. rewrite (rel_logs _ _ Hrel). apply HQ.
    - apply (rel_ordered _ _ Hrel).
    - by eapply headers_result_rel. }
  eexists (x, s'). rewrite run_headers_test_passes. exists m, r. split; [done|].
  unfold send_request_headers. fold h. by rewrite Hsend.
Qed.
End phases.

(** C38. A test that expects an immediate response in a body phase never
    passes, whatever the plugin does: of the results of a body only the text
    is kept, so that a local response sent by a body handler is not seen. *)
Theorem immediate_in_body_fails inv :
  inv ∈ pb.request_body cfg ++ pb.response_body cfg ->
  pb.immediate (pb.result inv) <> None ->
  ~ passes (TestBody engine env cfg logs_of_failed_call) tt.
Proof.
  intros Hin Hne Hp. apply TestBody_passes in Hp as (handle & ? & _ & _ & _ & _ & _ & Hst).
  destruct Hst as (st0 & st1 & st2 & st3 & st4 & st5 & _ & _ & _ & [_ Hreq] & _ & [_ Hresp] & _).
  apply elem_of_app in Hin as [Hin|Hin]; eauto using bodies_phase_immediate.
Qed.
End verdict.

(** ** A concrete host, with the plugin of samples/local_reply *)

Section demo.
Context `{Sdk}.

Definition local_reply_plugin : Plugin := {|
  Stream := unit;
  start := true;
  configure := true;
  root_logs := Some [];
  init_fails := false;
  onCreate := mret tt;
  onRequestHeaders _ n e := st ← LocalReply.onRequestHeaders n e; mret (st, tt);
  onRequestBody _ n e := st ← LocalReply.onRequestBody n e; mret (st, tt);
  onResponseHeaders _ n e := st ← LocalReply.onResponseHeaders n e; mret (st, tt);
  onResponseBody _ _ _ := mret (FilterDataStatus.Continue, tt);
  onDone _ := mret tt;
  onDelete _ := mret tt;
  shutdown_fails := false;
|}.

Definition wasm_ref : WasmHost := {|
  TestVm := unit;
  makeVm _ := tt;
  setLogLevel _ _ := tt;
  load _ _ _ := Some tt;
  initialize _ := Some tt;
  plugin_of _ _ := local_reply_plugin;
  initial_phase := None;
  initial_callback := CbNone;
|}.

(** The test of samples/local_reply/tests.textpb. *)
Definition hello_expectation : pb.Expectation :=
  pb.mkExpectation [pb.mkHeader "Content-Type"%str "text/plain"%str] [] []
    [pb.mkStringMatcher false (Some (pb.exact "Hello World"%str))]
    (Some (pb.mkImmediate (Some 200%Z) None (Some []))) [].
Definition hello_invocation : pb.Invocation := pb.mkInvocation pb.no_input hello_expectation.
Definition hello_test (bodies : list pb.Invocation) : pb.Test :=
  pb.mkTest "SendHelloWorldResponse"%str false None [] (Some hello_invocation) bodies None []
    pb.no_expectation pb.no_expectation pb.no_expectation.
Definition hello_env : pb.Env := pb.mkEnv [] "local_reply.wasm"%str [] 0 [] 0 0 0.
End demo.

Section witnesses.
#[local] Existing Instances caseless_ref absl_ref abi_ref sdk_ref re2_ref runner_ref http_ref wasm_ref.

Lemma TestBody_spec_witness : test_meets "v8"%str hello_env (hello_test []).
Proof.
  apply (TestBody_spec "v8"%str hello_env (hello_test []) []). vm_compute. reflexivity.
Defined.

Definition hello_handle : PluginHandle :=
  mkHandle local_reply_plugin [] (mkOptions None 0).
Definition hello_stream : stream hello_handle :=
  (tt, set_sent true (mkContext [] [] 0 [] 0 0 false None empty_result false [] CbNone 0)).

Lemma after_local_response_witness :
  exists st', passes (run_headers_test hello_env [] hello_handle "response_headers"%str
    (Some (pb.mkInvocation pb.no_input pb.no_expectation)) false
    (send_response_headers hello_handle) hello_stream) st'.
Proof.
  eexists. apply (after_local_response hello_env [] hello_handle "response_headers"%str
    (pb.mkInvocation pb.no_input pb.no_expectation) hello_stream).
  - reflexivity.
  - split; [by exists []|]. split; [|reflexivity].
    split; try (intros ? Hin; by apply not_elem_of_nil in Hin).
    split; [by left|reflexivity].
Defined.

Definition fresh_stream : stream hello_handle :=
  (tt, mkContext [] [] 0 [] 0 0 false None empty_result false [] CbNone 0).

Lemma request_headers_test_sound_witness :
  exists st', passes (run_headers_test hello_env [] hello_handle "request_headers"%str
    (Some hello_invocation) true (send_request_headers hello_handle) fresh_stream) st'.
Proof.
  apply (request_headers_test_sound hello_env [] hello_handle "request_headers"%str
    hello_invocation [] fresh_stream); [reflexivity|].
  cbn. apply wp_bind_2.
  eapply wp_mono; [|apply (LocalReply_spec _ 0 false); reflexivity].
  intros status w (-> & Hresp & _ & Hlogs). cbn. intros r Hord [Hstatus Hr].
  rewrite Hresp in Hstatus, Hr. injection Hr as Hcode Hdetails Hbody Hhdrs.
  split; try (intros ? Hin; by apply not_elem_of_nil in Hin).
  - intros h Hh. apply list_elem_of_singleton in Hh as ->. split; [discriminate|].
    rewrite <- Hhdrs. vm_compute. reflexivity.
  - intros h Hh. apply list_elem_of_singleton in Hh as ->. eexists. split; [reflexivity|].
    left. symmetry. exact Hbody.
  - cbn. unfold continues. rewrite Hstatus, <- Hcode. split; [intros [|]; discriminate|].
    split; [discriminate|]. split; [intros x [= <-]; reflexivity|].
    split; [discriminate|]. intros x [= <-]. symmetry. exact Hdetails.
Defined.

Lemma immediate_in_body_fails_witness :
  ~ passes (TestBody "v8"%str hello_env (hello_test [hello_invocation]) []) tt.
Proof.
  apply (immediate_in_body_fails "v8"%str hello_env (hello_test [hello_invocation]) [] hello_invocation);
    [apply elem_of_app; left; left|discriminate].
Defined.
End witnesses.
