(* ===== verification/Verified.v ===== *)
(** * Tests of verified plugins

    What a test of plugins/test/dynamic_test.cc asks of a plugin, stated on the
    abstract host alone: [test_spec] follows the phases of [TestBody] and, for
    each one, asks with [wp] that the plugin's handler leaves a result and log
    lines as expected.  The theorem of this file says that the runner then finds
    no failure, whatever the host library does within its contract.  It composes
    the framework's refinement of the abstract host over the whole life of a
    stream. *)

From S2P Require Import Prelude Absl Headers Host Framework Rules ThirdParty ResponseSamples Pb Gtest Expect Inputs Vm Runner.

(** ** What does not change in a context *)

Section config.
Context `{!Caseless} `{!CaselessOk _} `{!Absl} `{!AbslOk _} `{!HostAbi} `{!HostAbiOk _}.
Implicit Types s : TestHttpContext.

(** The fields that are set by the constructor only, and the one that is set by
    the destructor. *)
Definition fixed_fields s : list (str * str) * str * Z * bool :=
  (cfg_properties s, plugin_config s, clock_time s, torn_down s).

Lemma exec_fixed c s : fixed_fields (exec c s).2 = fixed_fields s.
Proof.
  destruct c; simpl; try done.
  - unfold fw_addHeaderMapValue. by case_decide.
  - unfold fw_replaceHeaderMapValue. by case_decide.
  - unfold fw_removeHeaderMapValue. by case_decide.
  - unfold fw_setHeaderMapPairs. case_decide; [|done]. by rewrite setHeaderMapPairs_fold.
  - by destruct (getBuffer b s) as [[]|].
  - unfold fw_sendLocalResponse. by case_decide.
Qed.

Lemma run_fixed {A} (p : Prog A) s a s' :
  run p s = Some (a, s') -> fixed_fields s' = fixed_fields s.
Proof.
  revert s. induction p as [x| |c k IH]; intros s; simpl; [by intros [= _ <-]|done|].
  pose proof (exec_fixed c s) as Hf. destruct (exec c s) as [r s1]. intros Hrun.
  by rewrite (IH _ _ Hrun).
Qed.

(** A handler at the start of a phase, and what the abstract host says of the
    context after it. *)
Lemma run_phase {A} (p : Prog A) s (Q : A -> HostView -> Prop) :
  ordered (r_headers (result s)) -> phase_logs s = [] -> wp p Q (host_view s) ->
  exists a s' w, run p s = Some (a, s') /\ fw_rel s' w /\ Q a w /\
    fixed_fields s' = fixed_fields s /\ phase s' = phase s /\
    current_callback s' = current_callback s.
Proof.
  intros Ho Hl Hwp. eapply run_wp in Hwp as (a & s' & w & Hrun & Hrel & HQ); [|by apply host_view_rel].
  exists a, s', w. pose proof (run_fixed _ _ _ _ Hrun) as Hf.
  pose proof (run_frame _ _ _ _ Hrun) as (Hp & Hc & _).
  by split_and!.
Qed.

Lemma rel_sent s w : fw_rel s w -> sent_local_response s = bool_decide (is_Some (response w)).
Proof.
  intros Hr. pose proof (rel_response _ _ Hr) as Hresp. unfold response_rel in Hresp.
  by destruct (sent_local_response s); rewrite Hresp.
Qed.
End config.

(** ** What a test asks of a plugin *)

Section spec.
Context `{!Caseless} `{!Absl} `{!HostAbi} `{!Re2} `{!RunnerLibs} `{!HttpParser} `{!WasmHost}.
Context (env : pb.Env) (cfg : pb.Test) (handle : PluginHandle).

(** The context that the constructor makes, before [onCreate]. *)
Definition initial_context : TestHttpContext :=
  mkContext ((λ p, (pb.path p, pb.property_value p)) <$> pb.properties cfg)
    (configuration handle) (opt_clock_time (options handle)) [] 0 0 false
    initial_phase empty_result false [] initial_callback 0.

(** A stream between two phases: the plugin's fields, whether it has sent a
    local response, the log lines of the last call, and the header map that
    can be reached, which is none once a phase with headers is over. *)
Record Between : Type := mkBetween {
  fields : Stream (plugin handle);
  answered : bool;
  last_logs : list str;
  open_map : option WasmHeaderMapType;
}.

Definition after (x : Stream (plugin handle)) (w : HostView) (p : option WasmHeaderMapType) : Between :=
  mkBetween x (bool_decide (is_Some (response w))) (visible_logs w) p.
Definition skipped (a : Between) : Between := mkBetween (fields a) true [] (open_map a).

(** What a handler sees when it starts. *)
Definition headers_view (t : WasmHeaderMapType) (c : CallbackType) (m : headers) : HostView :=
  host_view (enter_headers t c m initial_context).
Definition body_view (p : option WasmHeaderMapType) (c : CallbackType) (chunk : str) : HostView :=
  host_view (set_phase p (enter_body c chunk initial_context)).

(** A phase with headers; after a local response, response headers are not
    shown to the plugin. *)
Definition headers_spec (t : WasmHeaderMapType) (c : CallbackType) (is_request : bool)
    (h : Stream (plugin handle) -> Z -> bool -> Prog (FilterHeadersStatus.t * Stream (plugin handle)))
    (invoke : option pb.Invocation) (K : Between -> Prop) (a : Between) : Prop :=
  match invoke with
  | None => K a
  | Some inv => exists m,
      ParseHeaders env (pb.input inv) is_request = inr m /\
      if answered a then
        is_request = false /\ meets env (pb.result inv) [] empty_result /\ K (skipped a)
      else
        wp (h (fields a) (Z.of_nat (length m)) false)
          (λ y w, (forall r, ordered (r_headers r) -> headers_result t y.1 w r ->
                     meets env (pb.result inv) (visible_logs w) r) /\ K (after y.2 w None))
          (headers_view t c m)
  end.

Section bodies.
Context (b : WasmBufferType) (c : CallbackType).
Context (h : Stream (plugin handle) -> Z -> bool -> Prog (FilterDataStatus.t * Stream (plugin handle))).

(** The chunks of a body; [K] of the text that the plugin returned. *)
Fixpoint chunks_spec (chunks : list str) (body : str) (K : str -> Between -> Prop) (a : Between) : Prop :=
  match chunks with
  | [] => K body a
  | chunk :: chunks =>
      if answered a then chunks_spec chunks body K (skipped a)
      else
        wp (h (fields a) (size_of chunk) (bool_decide (chunks = [])))
          (λ y w, forall out, buffers w !! b = Some out ->
             chunks_spec chunks (body ++ out) K (after y.2 w (open_map a)))
          (body_view (open_map a) c chunk)
  end.

Fixpoint invocations_spec (invs : list pb.Invocation) (K : Between -> Prop) (a : Between) : Prop :=
  match invs with
  | [] => K a
  | inv :: invs => exists complete_body chunks,
      ParseBodyInput env (pb.input inv) = inr complete_body /\
      (match pb.body_chunking_plan cfg with
       | Some _ => ChunkBody complete_body cfg
       | None => Some [complete_body]
       end) = Some chunks /\
      chunks_spec chunks [] (λ body a,
        meets env (pb.result inv) (last_logs a) (result_of_body body) /\
        invocations_spec invs K a) a
  end.

Definition body_spec (invs : list pb.Invocation) (K : Between -> Prop) (a : Between) : Prop :=
  (pb.body_chunking_plan cfg <> None -> length invs <= 1) /\ invocations_spec invs K a.
End bodies.

(** What the handlers of the end of a stream can rely on. *)
Definition closing_view (v : HostView) : Prop :=
  logs v = [] /\ properties v = properties (host_view initial_context) /\
  now v = opt_clock_time (options handle) /\
  buffers v !! PluginConfiguration = Some (configuration handle).

Definition closing_spec (a : Between) : Prop :=
  forall v, closing_view v ->
    wp (onDone (plugin handle) (fields a))
      (λ _, wp (onDelete (plugin handle) (fields a))
              (λ _ w, logs_meet env (pb.stream_destroy cfg) (visible_logs w))) v.

(** The whole test. *)
Definition stream_spec : Prop :=
  wp (onCreate (plugin handle))
    (λ x w, response w = None /\ logs_meet env (pb.stream_init cfg) (visible_logs w) /\
      headers_spec RequestHeaders CbRequestHeaders true (onRequestHeaders (plugin handle))
        (pb.request_headers cfg)
      (body_spec HttpRequestBody CbRequestBody (onRequestBody (plugin handle)) (pb.request_body cfg)
      (headers_spec ResponseHeaders CbResponseHeaders false (onResponseHeaders (plugin handle))
        (pb.response_headers cfg)
      (body_spec HttpResponseBody CbResponseBody (onResponseBody (plugin handle)) (pb.response_body cfg)
       closing_spec))) (after x w initial_phase))
    (host_view initial_context).

Definition test_spec : Prop :=
  exists logs,
    InitializePlugin handle = inr tt /\ root_logs (plugin handle) = Some logs /\
    init_fails (plugin handle) = false /\ logs_meet env (pb.plugin_init cfg) logs /\
    stream_spec /\ shutdown_fails (plugin handle) = false.
End spec.

(** ** The runner agrees *)

Section soundness.
Context `{!Caseless} `{!CaselessOk _} `{!Absl} `{!AbslOk _} `{!HostAbi} `{!HostAbiOk _}.
Context `{!Re2} `{!RunnerLibs} `{!HttpParser} `{!WasmHost}.
Context (engine : str) (env : pb.Env) (cfg : pb.Test) (logs_of_failed_call : list str).

Section with_plugin.
Context (handle : PluginHandle).
Abbreviation stream := (stream handle).
Abbreviation Between := (Between handle).
Implicit Types s : TestHttpContext.

(** The stream of the runner that a description stands for. *)
Record rep (a : Between) (st : stream) : Prop := {
  rep_fields : st.1 = fields handle a;
  rep_answered : sent_local_response st.2 = answered handle a;
  rep_logs : phase_logs st.2 = last_logs handle a;
  rep_map : phase st.2 = open_map handle a;
  rep_ordered : ordered (r_headers (result st.2));
  rep_fixed : fixed_fields st.2 = fixed_fields (initial_context cfg handle);
}.

Lemma enter_headers_view t c m s :
  c = CbRequestHeaders \/ c = CbResponseHeaders -> sent_local_response s = false ->
  fixed_fields s = fixed_fields (initial_context cfg handle) ->
  host_view (enter_headers t c m s) = headers_view cfg handle t c m.
Proof.
  intros Hc Hs [= Hp Hg Ht _]. unfold headers_view, host_view. cbn. rewrite Hs, Hp, Hg, Ht.
  by destruct Hc as [-> | ->].
Qed.

Lemma enter_body_view p c chunk s :
  phase s = p -> sent_local_response s = false ->
  fixed_fields s = fixed_fields (initial_context cfg handle) ->
  host_view (enter_body c chunk s) = body_view cfg handle p c chunk.
Proof.
  intros Hph Hs [= Hp Hg Ht _]. unfold body_view, host_view. cbn. by rewrite Hs, Hp, Hg, Ht, Hph.
Qed.

(** A stream after a handler that ended in the abstract state [w]. *)
Lemma rep_after x s s' w p :
  fw_rel s w -> fixed_fields s = fixed_fields (initial_context cfg handle) ->
  sent_local_response s' = sent_local_response s -> phase_logs s' = phase_logs s ->
  fixed_fields s' = fixed_fields s -> r_headers (result s') = r_headers (result s) ->
  phase s' = p -> rep (after handle x w p) (x, s').
Proof.
  intros Hr Hf Hs Hl Hf' Hh Hp. split; cbn; try done.
  - rewrite Hs. by apply rel_sent.
  - rewrite Hl. apply (rel_logs _ _ Hr).
  - rewrite Hh. apply (rel_ordered _ _ Hr).
  - by rewrite Hf'.
Qed.

Lemma rep_skipped a st :
  rep a st -> answered handle a = true ->
  rep (skipped handle a) (st.1, set_result empty_result (clear_phase_logs st.2)).
Proof.
  intros Hr Ha. destruct Hr. split; cbn; try done; [congruence|constructor].
Qed.

Lemma new_stream_spec (Q : Stream (plugin handle) -> HostView -> Prop) :
  wp (onCreate (plugin handle)) Q (host_view (initial_context cfg handle)) ->
  exists x s w, new_stream cfg handle = Some (x, s) /\ Q x w /\ phase_logs s = visible_logs w /\
    rep (after handle x w initial_phase) (x, s).
Proof.
  intros Hwp. apply run_phase in Hwp as (x & s & w & Hrun & Hrel & HQ & Hf & Hp & _); [|constructor|done].
  exists x, s, w. split; [exact Hrun|]. split; [done|]. split; [apply (rel_logs _ _ Hrel)|].
  by eapply rep_after.
Qed.

Section headers.
Context (t : WasmHeaderMapType) (c : CallbackType) (m : headers).

(** The two phases with headers, when the handler runs. *)
Lemma headers_handler (h : Stream (plugin handle) -> Z -> bool -> Prog (FilterHeadersStatus.t * Stream (plugin handle)))
    a (st : stream) (Q : FilterHeadersStatus.t * Stream (plugin handle) -> HostView -> Prop) :
  c = CbRequestHeaders \/ c = CbResponseHeaders -> ordered m ->
  rep a st -> answered handle a = false ->
  wp (h (fields handle a) (Z.of_nat (length m)) false) Q (headers_view cfg handle t c m) ->
  exists status x s w,
    run (h st.1 (Z.of_nat (length m)) false) (enter_headers t c m st.2) = Some (status, x, s) /\
    Q (status, x) w /\ phase_logs s = visible_logs w /\ ordered (r_headers (result s)) /\
    headers_result t status w (set_header_status (abi_headers_status (sent_local_response s) status) (result s)) /\
    forall r, r_headers r = r_headers (result s) ->
      rep (after handle x w None) (x, set_phase None (set_result r s)).
Proof.
  intros Hc Hm Hr Ha Hwp. rewrite <- (enter_headers_view t c m st.2) in Hwp;
    [|done|by rewrite (rep_answered _ _ Hr)|apply (rep_fixed _ _ Hr)].
  rewrite <- (rep_fields _ _ Hr) in Hwp.
  apply run_phase in Hwp as ([status x] & s & w & Hrun & Hrel & HQ & Hf & _); [|done..].
  exists status, x, s, w. split; [done|]. split; [done|]. split; [apply (rel_logs _ _ Hrel)|].
  split; [apply (rel_ordered _ _ Hrel)|]. split; [by eapply headers_result_rel|].
  intros r Hh. eapply rep_after; [exact Hrel| |done..].
  rewrite Hf. apply (rep_fixed _ _ Hr).
Qed.
End headers.

Lemma request_headers_spec_sound invoke K a st :
  headers_spec env cfg handle RequestHeaders CbRequestHeaders true
    (onRequestHeaders (plugin handle)) invoke K a -> rep a st ->
  exists st' a', headers_phase env handle invoke true (send_request_headers handle) st st' /\
    rep a' st' /\ K a'.
Proof.
  unfold headers_spec, headers_phase. destruct invoke as [inv|]; [|by eauto].
  intros (m & Hm & Hspec) Hr. destruct (answered handle a) eqn:Ha; [by destruct Hspec|].
  assert (ordered m) as Ho by (by eapply ParseHeaders_ordered).
  eapply headers_handler in Hspec as (status & x & s & w & Hrun & [Hmeets HK] & Hl & Hos & Hres & Hrep); [|by auto..].
  set (r := set_header_status (abi_headers_status (sent_local_response s) status) (result s)) in *.
  exists (x, set_phase None (set_result r s)), (after handle x w None).
  split; [|split; [by apply Hrep|exact HK]]. exists m, r. split; [done|]. split.
  - unfold send_request_headers, SendRequestHeaders. unfold enter_headers in Hrun. rewrite Hrun. reflexivity.
  - cbn [snd]. cbn. rewrite Hl. by apply Hmeets.
Qed.

Lemma response_headers_spec_sound invoke K a st :
  headers_spec env cfg handle ResponseHeaders CbResponseHeaders false
    (onResponseHeaders (plugin handle)) invoke K a -> rep a st ->
  exists st' a', headers_phase env handle invoke false (send_response_headers handle) st st' /\
    rep a' st' /\ K a'.
Proof.
  unfold headers_spec, headers_phase. destruct invoke as [inv|]; [|by eauto].
  intros (m & Hm & Hspec) Hr. destruct (answered handle a) eqn:Ha.
  - destruct Hspec as (_ & Hmeets & HK). eexists _, _. split; [|split; [by apply rep_skipped|exact HK]].
    exists m, empty_result. split; [done|]. split; [|done].
    unfold send_response_headers, SendResponseHeaders. cbn. by rewrite (rep_answered _ _ Hr), Ha.
  - assert (ordered m) as Ho by (by eapply ParseHeaders_ordered).
    eapply headers_handler in Hspec as (status & x & s & w & Hrun & [Hmeets HK] & Hl & Hos & Hres & Hrep); [|by auto..].
    set (r := set_header_status (abi_headers_status (sent_local_response s) status) (result s)) in *.
    exists (x, set_phase None (set_result r s)), (after handle x w None).
    split; [|split; [by apply Hrep|exact HK]]. exists m, r. split; [done|]. split.
    + unfold send_response_headers, SendResponseHeaders. cbn. rewrite (rep_answered _ _ Hr), Ha.
      unfold enter_headers in Hrun. cbn in Hrun. unfold set_result, clear_phase_logs, set_logs in *.
      cbn in *. rewrite Hrun. reflexivity.
    + cbn [snd]. cbn. rewrite Hl. by apply Hmeets.
Qed.
(** The two phases with bodies: [send] is the call of the framework, which runs
    [h] in the callback [c], where the buffer [b] is the chunk. *)
Section bodies.
Context (b : WasmBufferType) (c : CallbackType).
Context (h : Stream (plugin handle) -> Z -> bool -> Prog (FilterDataStatus.t * Stream (plugin handle))).
Context (send : str -> bool -> stream -> option (Result * stream)).
Hypothesis send_skips : forall chunk e st,
  sent_local_response st.2 = true ->
  send chunk e st = Some (empty_result, (st.1, set_result empty_result (clear_phase_logs st.2))).
Hypothesis send_runs : forall chunk e st status x s,
  sent_local_response st.2 = false ->
  run (h st.1 (size_of chunk) e) (enter_body c chunk st.2) = Some (status, x, s) ->
  let r := set_body_result (abi_data_status (sent_local_response s) status) (body_buffer s) (result s) in
  send chunk e st = Some (r, (x, set_result r (set_body (moved_from (body_buffer s)) s))).
Hypothesis buffer_visible : forall s, current_callback s = c -> visible_buffer b s = Some (body_buffer s).

Lemma chunks_spec_sound chunks body K a st :
  chunks_spec cfg handle b c h chunks body K a -> rep a st ->
  exists outs st' a', feeds handle send chunks st outs st' /\ rep a' st' /\ K (body ++ concat outs) a'.
Proof.
  revert body a st. induction chunks as [|chunk chunks IH]; intros body a st Hspec Hr; cbn in Hspec.
  { exists [], st, a. rewrite app_nil_r. split; [constructor|done]. }
  destruct (answered handle a) eqn:Ha.
  - assert (sent_local_response st.2 = true) as Hs by (by rewrite (rep_answered _ _ Hr)).
    eapply IH in Hspec as (outs & st' & a' & Hf & Hr' & HK); [|by apply rep_skipped].
    exists ([] :: outs), st', a'. split; [|done].
    eapply (feeds_cons _ _ _ _ _ empty_result); [by apply send_skips|exact Hf].
  - assert (sent_local_response st.2 = false) as Hs by (by rewrite (rep_answered _ _ Hr)).
    rewrite <- (enter_body_view _ c chunk st.2) in Hspec; [|apply (rep_map _ _ Hr)|done|apply (rep_fixed _ _ Hr)].
    rewrite <- (rep_fields _ _ Hr) in Hspec.
    apply run_phase in Hspec as ([status x] & s & w & Hrun & Hrel & HQ & Hf & Hp & Hc); [|constructor|done].
    eapply IH in HQ as (outs & st' & a' & Hfeeds & Hr' & HK).
    + exists (body_buffer s :: outs), st', a'. split; [|split; [done|]].
      * exact (feeds_cons _ _ _ _ _ _ _ _ _ (send_runs _ _ _ _ _ _ Hs Hrun) Hfeeds).
      * cbn [concat]. by rewrite app_assoc.
    + rewrite (rel_buffers _ _ Hrel). apply buffer_visible. by rewrite Hc.
    + eapply rep_after; [exact Hrel| |done..|].
      * rewrite Hf. apply (rep_fixed _ _ Hr).
      * cbn. rewrite Hp. apply (rep_map _ _ Hr).
Qed.

Lemma invocations_spec_sound invs K a st :
  invocations_spec env cfg handle b c h invs K a -> rep a st ->
  exists st' a', bodies_phase env cfg handle send invs st st' /\ rep a' st' /\ K a'.
Proof.
  revert a st. induction invs as [|inv invs IH]; intros a st Hspec Hr; cbn in Hspec.
  { exists st, a. split; [constructor|done]. }
  destruct Hspec as (complete & chunks & Hb & Hc & Hspec).
  eapply chunks_spec_sound in Hspec as (outs & st1 & a1 & Hf & Hr1 & Hmeets & Hspec); [|done].
  eapply IH in Hspec as (st2 & a2 & Hbodies & Hr2 & HK); [|done].
  exists st2, a2. split; [|done]. econstructor; [done..| |done].
  by rewrite (rep_logs _ _ Hr1).
Qed.

Lemma body_spec_sound invs K a st :
  body_spec env cfg handle b c h invs K a -> rep a st ->
  exists st' a', body_phase env cfg handle send invs st st' /\ rep a' st' /\ K a'.
Proof.
  intros [Hl Hspec] Hr. eapply invocations_spec_sound in Hspec as (st' & a' & ? & ? & ?); [|done].
  exists st', a'. by split.
Qed.
End bodies.

Lemma request_body_spec_sound invs K a st :
  body_spec env cfg handle HttpRequestBody CbRequestBody (onRequestBody (plugin handle)) invs K a ->
  rep a st ->
  exists st' a', body_phase env cfg handle (send_request_body handle) invs st st' /\ rep a' st' /\ K a'.
Proof.
  apply body_spec_sound.
  - intros chunk e s' Hs. unfold send_request_body, SendRequestBody. cbn. by rewrite Hs.
  - intros chunk e s' status x s Hs Hrun. unfold send_request_body, SendRequestBody. cbn. rewrite Hs.
    unfold enter_body in Hrun. by rewrite Hrun.
  - intros s Hc. unfold visible_buffer, getBuffer. by rewrite Hc.
Qed.

Lemma response_body_spec_sound invs K a st :
  body_spec env cfg handle HttpResponseBody CbResponseBody (onResponseBody (plugin handle)) invs K a ->
  rep a st ->
  exists st' a', body_phase env cfg handle (send_response_body handle) invs st st' /\ rep a' st' /\ K a'.
Proof.
  apply body_spec_sound.
  - intros chunk e s' Hs. unfold send_response_body, SendResponseBody. cbn. by rewrite Hs.
  - intros chunk e s' status x s Hs Hrun. unfold send_response_body, SendResponseBody. cbn. rewrite Hs.
    unfold enter_body in Hrun. by rewrite Hrun.
  - intros s Hc. unfold visible_buffer, getBuffer. by rewrite Hc.
Qed.

Lemma closing_spec_sound a st :
  closing_spec env cfg handle a -> rep a st ->
  exists st', tear_down handle st = Some st' /\
    logs_meet env (pb.stream_destroy cfg) (phase_logs st'.2).
Proof.
  intros Hspec Hr. destruct st as [x s]. pose proof (rep_fields _ _ Hr) as Hx. cbn in Hx. subst x.
  pose proof (rep_fixed _ _ Hr) as Hfix. cbn in Hfix. injection Hfix as Hp Hg Ht Htd.
  assert (closing_view cfg handle (host_view (clear_phase_logs s))) as Hv.
  { split; [done|]. cbn. rewrite Hp, Hg, Ht. split; [done|]. split; [done|].
    by destruct (current_callback s). }
  apply Hspec, run_phase in Hv as (u & s1 & w & Hrun & Hrel & Hwp & Hf & _);
    [|apply (rep_ordered _ _ Hr)|done].
  eapply run_wp in Hwp as (u' & s2 & w' & Hrun' & Hrel' & Hl); [|done].
  exists (fields handle a, set_torn_down s2). split; [|cbn; by rewrite (rel_logs _ _ Hrel')].
  unfold tear_down, TearDown. cbn [fst snd]. rewrite Htd, Hrun. cbn. by rewrite Hrun'.
Qed.

Lemma stream_spec_sound :
  stream_spec env cfg handle -> shutdown_fails (plugin handle) = false -> stream_meets env cfg handle.
Proof.
  intros Hspec Hshut. apply new_stream_spec in Hspec as (x & s0 & w & Hnew & (Hw & Hi & Hspec) & Hl & Hr0).
  eapply request_headers_spec_sound in Hspec as (st1 & a1 & Hp1 & Hr1 & Hspec); [|exact Hr0].
  eapply request_body_spec_sound in Hspec as (st2 & a2 & Hp2 & Hr2 & Hspec); [|exact Hr1].
  eapply response_headers_spec_sound in Hspec as (st3 & a3 & Hp3 & Hr3 & Hspec); [|exact Hr2].
  eapply response_body_spec_sound in Hspec as (st4 & a4 & Hp4 & Hr4 & Hspec); [|exact Hr3].
  eapply closing_spec_sound in Hspec as (st5 & Hp5 & Hd); [|exact Hr4].
  exists (x, s0), st1, st2, st3, st4, st5. cbn [snd]. rewrite Hl. by split_and!.
Qed.
End with_plugin.

Lemma test_spec_passes handle :
  LoadWasm engine env false = inr handle -> test_spec env cfg handle ->
  passes (TestBody engine env cfg logs_of_failed_call) tt.
Proof.
  intros Hl (logs & Hi & Hr & Hf & Hlogs & Hspec & Hs). apply TestBody_passes.
  exists handle, logs. split_and!; try done. by apply stream_spec_sound.
Qed.

(** C2. The abstract host decides whole tests: if the plugin is loaded, and
    what a test asks of it is proved with [wp] phase by phase, each handler on
    the headers or the chunk that the test sends, with the fields and the local
    response that the earlier phases left, then the runner loads the plugin,
    takes a stream through every phase, and reports no failure, for every host
    library that keeps its contract. *)
Theorem verified_test_passes handle :
  LoadWasm engine env false = inr handle -> test_spec env cfg handle ->
  passes (TestBody engine env cfg logs_of_failed_call) tt.
Proof. apply test_spec_passes. Qed.
End soundness.

(** ** The test of samples/local_reply *)

Section witnesses.
#[local] Existing Instances caseless_ref absl_ref abi_ref sdk_ref re2_ref runner_ref http_ref wasm_ref.

(** The immediate response that is expected is the one the handler sends. *)
Lemma hello_meets st w r :
  st = FilterHeadersStatus.StopIteration ->
  response w = Some (mkLocalResponse 200 [] "Hello World"%str
    (hm_of_pairs [("Content-Type", "text/plain"); (":status", "200")]%str)) ->
  headers_result RequestHeaders st w r -> meets hello_env hello_expectation (visible_logs w) r.
Proof.
  intros -> Hresp [Hstatus Hr]. rewrite Hresp in Hstatus, Hr. injection Hr as Hcode Hdetails Hbody Hhdrs.
  split; try (intros ? Hin; by apply not_elem_of_nil in Hin).
  - intros h Hh. apply list_elem_of_singleton in Hh as ->. split; [discriminate|].
    rewrite <- Hhdrs. vm_compute. reflexivity.
  - intros h Hh. apply list_elem_of_singleton in Hh as ->. eexists. split; [reflexivity|].
    left. symmetry. exact Hbody.
  - cbn. unfold continues. rewrite Hstatus, <- Hcode. split; [intros [|]; discriminate|].
    split; [discriminate|]. split; [intros x [= <-]; reflexivity|].
    split; [discriminate|]. intros x [= <-]. symmetry. exact Hdetails.
Qed.

Definition loaded_handle : PluginHandle :=
  mkHandle local_reply_plugin [] (mkOptions None default_clock_time).

Lemma hello_test_spec : test_spec hello_env (hello_test []) loaded_handle.
Proof.
  exists []. split_and!; [done..|by intros m ?%not_elem_of_nil| |done].
  split; [done|]. split; [by intros m ?%not_elem_of_nil|].
  exists []. split; [reflexivity|]. cbn [answered after]. rewrite bool_decide_false by (by intros []).
  apply wp_bind_2. eapply wp_mono; [|by apply (LocalReply_spec _ 0 false)].
  intros st w (-> & Hresp & _). split; [intros r _; by apply hello_meets|].
  split; [by intros []|]. cbn. split; [by intros []|]. intros v _. cbn. by intros m ?%not_elem_of_nil.
Qed.

Lemma verified_test_passes_witness :
  passes (TestBody "v8"%str hello_env (hello_test []) []) tt.
Proof.
  apply (verified_test_passes "v8"%str hello_env (hello_test []) [] loaded_handle);
    [reflexivity|apply hello_test_spec].
Defined.
End witnesses.
