(* ===== verification/Suites.v ===== *)
(** * The test suites of the samples

    tests.textpb of the samples that edit headers or answer requests, and that
    their plugins pass them: for every host library, SDK and VM within their
    contracts, the runner of plugins/test/dynamic_test.cc reports no failure. *)

From S2P Require Import Prelude Absl Headers Host Framework Rules ThirdParty HeaderSamples ResponseSamples Bodies.
From S2P Require Import Pb Gtest Expect Inputs Vm Runner Verified.

(** ** Plugins without a state *)

(** A plugin whose contexts have no fields; the handlers it does not declare
    are those of the SDK, which let everything pass. *)
Definition stateless_plugin (rq rs : Z -> bool -> Prog FilterHeadersStatus.t)
    (rqb rsb : Z -> bool -> Prog FilterDataStatus.t) : Plugin := {|
  Stream := unit;
  start := true;
  configure := true;
  root_logs := Some [];
  init_fails := false;
  onCreate := mret tt;
  onRequestHeaders _ n e := st ← rq n e; mret (st, tt);
  onRequestBody _ n e := st ← rqb n e; mret (st, tt);
  onResponseHeaders _ n e := st ← rs n e; mret (st, tt);
  onResponseBody _ n e := st ← rsb n e; mret (st, tt);
  onDone _ := mret tt;
  onDelete _ := mret tt;
  shutdown_fails := false;
|}.

Definition pass_headers (_ : Z) (_ : bool) : Prog FilterHeadersStatus.t :=
  mret FilterHeadersStatus.Continue.
Definition pass_data (_ : Z) (_ : bool) : Prog FilterDataStatus.t :=
  mret FilterDataStatus.Continue.

Definition headers_plugin (rq rs : Z -> bool -> Prog FilterHeadersStatus.t) : Plugin :=
  stateless_plugin rq rs pass_data pass_data.

(** ** Tests of one phase *)

(** The notation of the suites. *)
Definition hdrs (l : list (str * str)) : list pb.Header := (λ kv, pb.mkHeader kv.1 kv.2) <$> l.
Definition has (l : list (str * str)) (no : list str) : pb.Expectation :=
  pb.mkExpectation (hdrs l) ((λ k, pb.mkHeader k []) <$> no) [] [] None [].
Definition replies (status : Z) (l : list (str * str)) : pb.Expectation :=
  pb.mkExpectation (hdrs l) [] [] [] (Some (pb.mkImmediate (Some status) None (Some []))) [].
Definition invocation (input : list (str * str)) (result : pb.Expectation) : pb.Invocation :=
  pb.mkInvocation (pb.mkInput (hdrs input) [] []) result.
Definition request_test (name : str) (benchmark : bool) (input : list (str * str))
    (result : pb.Expectation) : pb.Test :=
  pb.mkTest name benchmark None [] (Some (invocation input result)) [] None []
    pb.no_expectation pb.no_expectation pb.no_expectation.
Definition response_test (name : str) (benchmark : bool) (input : list (str * str))
    (result : pb.Expectation) : pb.Test :=
  pb.mkTest name benchmark None [] None [] (Some (invocation input result)) []
    pb.no_expectation pb.no_expectation pb.no_expectation.

(** A test of request bodies, by their contents and what is expected of each. *)
Definition request_body_test (name : str) (plan : option pb.BodyChunkingPlan)
    (bodies : list (str * str)) : pb.Test :=
  pb.mkTest name false plan [] None
    ((λ io, pb.mkInvocation (pb.mkInput [] io.1 [])
       (pb.mkExpectation [] [] [] [pb.mkStringMatcher false (Some (pb.exact io.2))] None [])) <$> bodies)
    None [] pb.no_expectation pb.no_expectation pb.no_expectation.

(** ** The suites *)

Section suites.
Context `{Absl} `{Sdk}.

(** add_request_header *)
Definition add_request_header_tests : list pb.Test :=
  [request_test "AddsRequestHeader" true [] (has [("Message", "hello"); ("Welcome", "warm")] []);
   request_test "UpdatesRequestHeader" true [("Message", "hey"); ("Welcome", "cold")]
     (has [("Message", "hey, hello"); ("Welcome", "warm")] []);
   request_test "RequestAndResponse" true [] (has [("Message", "hello")] []);
   request_test "CaseInsensitiveUpdates" false [("message", "hey"); ("welcome", "cold")]
     (has [("message", "hey, hello"); ("welcome", "warm")] [])]%str.

(** add_response_header *)
Definition add_response_header_tests : list pb.Test :=
  [response_test "NoDefaultResponseHeader" false [] (has [] ["Message"]);
   response_test "LeavesResponseHeader" false [("Message", "non-matching")]
     (has [("Message", "non-matching")] []);
   response_test "ExtendsResponseHeader" true [("Message", "foo")] (has [("Message", "foo, bar")] []);
   response_test "RemovesResponseHeader" true [("Welcome", "any")] (has [] ["Welcome"]);
   response_test "RequestAndResponse" true [("Message", "foo")] (has [("Message", "foo, bar")] []);
   response_test "CaseInsensitiveLookup" false [("message", "foo")] (has [("message", "foo, bar")] []);
   response_test "CaseInsensitiveRemoval" false [("welcome", "any")] (has [] ["welcome"])]%str.

(** overwrite_header *)
Definition overwrite_header_tests : list pb.Test :=
  [request_test "DoNotAddRequestHeader" false [("OtherHeader", "OtherValue")]
     (has [("OtherHeader", "OtherValue")] ["RequestHeader"]);
   response_test "DoAddResponseHeader" false [("OtherHeader", "OtherValue")]
     (has [("ResponseHeader", "changed"); ("OtherHeader", "OtherValue")] []);
   request_test "OverwriteRequestHeader" false
     [("RequestHeader", "SomeHeaderValue"); ("OtherHeader", "OtherValue")]
     (has [("RequestHeader", "changed"); ("OtherHeader", "OtherValue")] []);
   response_test "OverwriteResponseHeader" false
     [("ResponseHeader", "SomeHeaderValue"); ("OtherHeader", "OtherValue")]
     (has [("ResponseHeader", "changed"); ("OtherHeader", "OtherValue")] [])]%str.

(** normalize_header *)
Definition normalize_header_tests : list pb.Test :=
  [request_test "NoHeaderSet" false [] (has [("client-device-type", "unknown")] []);
   request_test "WithMobileHeaderHintEqTrue" false
     [("Sec-CH-UA-Mobile", "?1"); ("User-Agent", "Chrome...")]
     (has [("client-device-type", "mobile")] []);
   request_test "WithMobileHeaderHintEqFalse" false
     [("Sec-CH-UA-Mobile", "?0"); ("User-Agent", "Chrome...")]
     (has [("client-device-type", "unknown")] []);
   request_test "WithMobileUserAgent" false [("User-Agent", "Chrome/... Mobile/...")]
     (has [("client-device-type", "mobile")] [])]%str.

(** overwrite_errcode *)
Definition overwrite_errcode_tests : list pb.Test :=
  [response_test "With500StatusCodeChangeTo404" false [(":status", "500")] (has [(":status", "404")] []);
   response_test "With502StatusCodeChangeTo404" false [(":status", "502")] (has [(":status", "404")] []);
   response_test "With200StatusCodeNothingChanges" false [(":status", "200")]
     (has [(":status", "200")] [])]%str.

(** remove_cookie *)
Definition remove_cookie_tests : list pb.Test :=
  [response_test "RemovesSingleSetCookie" false [("Set-Cookie", "sessionid=1234")] (has [] ["Set-Cookie"]);
   response_test "RemovesMultipleSetCookies" false
     [("Set-Cookie", "sessionid=1234"); ("Set-Cookie", "user=john")] (has [] ["Set-Cookie"]);
   response_test "LeavesOtherHeaders" false
     [("Content-Type", "text/html"); ("Set-Cookie", "sessionid=abcd")]
     (has [("Content-Type", "text/html")] ["Set-Cookie"]);
   response_test "NoSetCookieInResponse" false [] (has [] ["Set-Cookie"]);
   response_test "CaseInsensitiveRemoval" false [("set-cookie", "sessionid=5678")]
     (has [] ["set-cookie"]);
   response_test "MixedCaseRemoval" false [("SeT-CoOkIe", "test=value")] (has [] ["SeT-CoOkIe"]);
   response_test "CombinedHeaderOperations" false
     [("Set-Cookie", "to-be-removed"); ("Cache-Control", "max-age=3600")]
     (has [("Cache-Control", "max-age=3600")] ["Set-Cookie"])]%str.

(** redirect *)
Definition redirect_tests : list pb.Test :=
  [request_test "NoRedirect" false [(":path", "/main/somepage/otherpage")]
     (has [(":path", "/main/somepage/otherpage")] ["Location"]);
   request_test "DoRedirect" false [(":path", "/foo/images/picture.png")]
     (replies 301 [("Location", "/bar/images/picture.png")]);
   request_test "DoRedirect" false [(":path", "/main/foo/images/picture.png")]
     (has [(":path", "/main/foo/images/picture.png")] ["Location"])]%str.

(** add_custom_response *)
Definition add_custom_response_tests : list pb.Test :=
  [response_test "NoRedirect" false [(":status", "200")] (has [(":status", "200")] ["Location"]);
   response_test "DoRedirect" false [(":status", "501")]
     (replies 302 [("Location",
                    "https://storage.googleapis.com/www.example.com/server-error.html");
                   ("Origin-Status", "501")])]%str.

(** add_device_type *)
Definition desktop_agent : str :=
  "Mozilla/5.0 (Windows NT 10.0; Win64; x64) AppleWebKit/537.36 (KHTML, like Gecko) Chrome/91.0.4472.124 Safari/537.36"%str.
Definition device_test (name : str) (input : list (str * str)) (device : str) : pb.Test :=
  request_test name false input (has [("x-device-type"%str, device)] []).
Definition add_device_type_tests : list pb.Test :=
  [device_test "DetectDesktopUserAgent" [("user-agent", desktop_agent)] "desktop";
   device_test "DetectIPhoneUserAgent"
     [("user-agent", "Mozilla/5.0 (iPhone; CPU iPhone OS 14_6 like Mac OS X) AppleWebKit/605.1.15 (KHTML, like Gecko) Version/14.0 Mobile/15E148 Safari/604.1")] "phone";
   device_test "DetectIPadUserAgent"
     [("user-agent", "Mozilla/5.0 (iPad; CPU OS 14_6 like Mac OS X) AppleWebKit/605.1.15 (KHTML, like Gecko) Version/14.0 Mobile/15E148 Safari/604.1")] "tablet";
   device_test "DetectAndroidPhoneUserAgent"
     [("user-agent", "Mozilla/5.0 (Linux; Android 10; SM-G960U) AppleWebKit/537.36 (KHTML, like Gecko) Chrome/91.0.4472.120 Mobile Safari/537.36")] "phone";
   device_test "DetectAndroidTabletUserAgent"
     [("user-agent", "Mozilla/5.0 (Linux; Android 10; SM-T510) AppleWebKit/537.36 (KHTML, like Gecko) Chrome/91.0.4472.120 Safari/537.36")] "tablet";
   device_test "DetectBotUserAgent"
     [("user-agent", "Mozilla/5.0 (compatible; Googlebot/2.1; +http://www.google.com/bot.html)")] "bot";
   device_test "MissingUserAgent" [] "other";
   device_test "CaseInsensitivity" [("User-Agent", "MOZILLA/5.0 (IPHONE; CPU iPhone OS)")] "phone";
   request_test "BenchmarkDetection" true [("user-agent", desktop_agent); ("host", "example.com")]
     (has [("x-device-type", "desktop")] [])]%str.

(** body_chunking, the tests whose inputs are not in files *)
Definition body_chunking_tests : list pb.Test :=
  [request_body_test "NumChunkWithContentInput" (Some (pb.num_chunks 5))
     [("1234567890", "12foo34foo56foo78foo90foo")];
   request_body_test "ChunkSizeWithContentInput" (Some (pb.chunk_size 2))
     [("1234567890", "12foo34foo56foo78foo90foo")];
   request_body_test "NoChunking" None [("12", "12foo"); ("34", "34foo"); ("56", "56foo")]]%str.

(** The plugins with their suites. *)
Definition shipped_suites : list (Plugin * list pb.Test) :=
  [(headers_plugin AddRequestHeader.onRequestHeaders pass_headers, add_request_header_tests);
   (headers_plugin pass_headers AddResponseHeader.onResponseHeaders, add_response_header_tests);
   (headers_plugin OverwriteHeader.onRequestHeaders OverwriteHeader.onResponseHeaders,
    overwrite_header_tests);
   (headers_plugin NormalizeHeader.onRequestHeaders pass_headers, normalize_header_tests);
   (headers_plugin pass_headers OverwriteErrcode.onResponseHeaders, overwrite_errcode_tests);
   (headers_plugin pass_headers RemoveCookie.onResponseHeaders, remove_cookie_tests);
   (headers_plugin Redirect.onRequestHeaders pass_headers, redirect_tests);
   (headers_plugin pass_headers AddCustomResponse.onResponseHeaders, add_custom_response_tests);
   (headers_plugin AddDeviceType.onRequestHeaders pass_headers, add_device_type_tests);
   (stateless_plugin pass_headers pass_headers BodyChunking.onRequestBody BodyChunking.onResponseBody,
    body_chunking_tests)].
End suites.

(** ** What a handler does with headers *)

Inductive Outcome : Type :=
  | Edits (m : hmap)
  | Replies (r : LocalResponse).

Definition outcome (t : WasmHeaderMapType) (o : Outcome) (st : FilterHeadersStatus.t)
    (w : HostView) : Prop :=
  match o with
  | Edits m => st = FilterHeadersStatus.Continue /\ maps w !! t = Some m /\ response w = None
  | Replies r => response w = Some r
  end.

(** [f] is what the handler [p] does in the phase of [t]; it says nothing of
    the headers for which it is [None]. *)
Definition acts_as (t : WasmHeaderMapType) (p : Z -> bool -> Prog FilterHeadersStatus.t)
    (f : hmap -> option Outcome) : Prop :=
  forall v m o n e, maps v !! t = Some m -> response v = None -> can_respond v = true ->
    f m = Some o -> wp (p n e) (outcome t o) v.

(** An expectation about headers and an immediate response is met. *)
Definition expected (e : pb.Expectation) (o : Outcome) : bool :=
  let m := match o with Edits m => m | Replies r => lr_headers r end in
  bool_decide (pb.headers e = [] /\ pb.body e = [] /\ pb.log e = []) &&
  forallb (λ h, bool_decide (pb.key h <> [] /\ hm_get (pb.key h) m = Some (pb.value h)))
    (pb.has_header e) &&
  forallb (λ h, bool_decide (pb.key h <> [] /\ hm_get (pb.key h) m = None)) (pb.no_header e) &&
  match o, pb.immediate e with
  | Edits _, None => true
  | Replies r, Some imm =>
      bool_decide (lr_code r <> 0%Z /\ pb.grpc_status imm = None) &&
      match pb.http_status imm with Some c => bool_decide (lr_code r = c) | None => true end &&
      match pb.details imm with Some d => bool_decide (lr_details r = d) | None => true end
  | _, _ => false
  end.

Section passing.
Context `{!Caseless} `{!CaselessOk _} `{!Absl} `{!AbslOk _} `{!HostAbi} `{!HostAbiOk _}.
Context `{!Re2} `{!RunnerLibs} `{!HttpParser} `{!WasmHost}.
(** The host library stops the filters once a local response was sent. *)
Context (reply_stops : forall st,
  abi_headers_status true st = FilterHeadersStatus.StopAllIterationAndWatermark).
Context (env : pb.Env).

Lemma expected_meets e o t st w r logs :
  expected e o = true -> outcome t o st w -> headers_result t st w r -> meets env e logs r.
Proof.
  unfold expected. rewrite !andb_true_iff, !forallb_forall, bool_decide_eq_true.
  intros [[[(Hh & Hb & Hl) Hhas] Hno] Himm] Ho [Hst Hr].
  assert (headers_map (r_headers r) = match o with Edits m => m | Replies r => lr_headers r end) as Hm.
  { destruct o as [m|lr]; cbn in Ho.
    - destruct Ho as (_ & Hm & Hn). rewrite Hn in Hr. destruct Hr as [Hr _]. congruence.
    - rewrite Ho in Hr. by rewrite Hr. }
  split.
  - intros h Hin. rewrite Hm. eapply bool_decide_eq_true, Hhas, list_elem_of_In, Hin.
  - intros h Hin. rewrite Hm. eapply bool_decide_eq_true, Hno, list_elem_of_In, Hin.
  - rewrite Hh. by intros m ?%not_elem_of_nil.
  - rewrite Hb. by intros m ?%not_elem_of_nil.
  - destruct o as [m|lr], (pb.immediate e) as [imm|]; try done; cbn in Ho.
    + destruct Ho as (-> & _ & Hn). rewrite Hn in Hst, Hr. destruct Hr as [_ Hc].
      split; [|done]. left. by rewrite Hst, bool_decide_false, abi_continue_ok by (by intros []).
    + rewrite Ho in Hst, Hr. rewrite !andb_true_iff, bool_decide_eq_true in Himm.
      destruct Himm as [[[Hc Hg] Hs] Hd]. rewrite Hr in Hc, Hs, Hd. cbn in Hc, Hs, Hd.
      unfold immediate_meets, continues. rewrite Hst, bool_decide_true, reply_stops by eauto.
      split; [by intros []|]. split; [done|]. split; [|split].
      * intros x Hx. rewrite Hx in Hs. by apply bool_decide_eq_true in Hs.
      * rewrite Hg. done.
      * intros x Hx. rewrite Hx in Hd. by apply bool_decide_eq_true in Hd.
  - rewrite Hl. by intros m ?%not_elem_of_nil.
Qed.

Section plugin.
Context (rq rs : Z -> bool -> Prog FilterHeadersStatus.t).
Context (config : str) (opt : ContextOptions).
Abbreviation handle := (mkHandle (headers_plugin rq rs) config opt).

(** The header map that the runner makes of the input of a test. *)
Lemma ParseHeaders_pairs input result is_request :
  exists m, ParseHeaders env (pb.input (invocation input result)) is_request = inr m /\
    headers_map m = hm_of_pairs_append input.
Proof.
  exists (headers_of_pairs InsertOrAppend input). split.
  - unfold ParseHeaders, headers_of_pairs. cbn. f_equal.
    generalize (@nil (str * str)). induction input as [|kv input IH]; intros m; [done|]. apply IH.
  - rewrite (headers_map_of_pairs _ hm_append); [done|]. intros k x m Hm.
    by split; [apply InsertOrAppend_ordered|apply headers_map_append].
Qed.

(** What follows the one phase of a test asks for nothing. *)
Lemma closing_nothing cfg a :
  pb.log (pb.stream_destroy cfg) = [] -> closing_spec env cfg handle a.
Proof. intros Hl v _. cbn. intros m. rewrite Hl. by intros ?%not_elem_of_nil. Qed.

(** A phase with the handler [p] whose behaviour is known. *)
Lemma headers_phase_spec t c is_request p f input result o (K : Between handle -> Prop) cfg a :
  acts_as t p f -> f (hm_of_pairs_append input) = Some o -> expected result o = true ->
  c = CbRequestHeaders \/ c = CbResponseHeaders -> answered handle a = false ->
  (forall w, K (after handle tt w None)) ->
  headers_spec env cfg handle t c is_request
    (λ _ n e, st ← p n e; mret (st, tt)) (Some (invocation input result)) K a.
Proof.
  intros Hp Hf He Hc Ha HK. destruct (ParseHeaders_pairs input result is_request) as (m & Hm & Hmap).
  exists m. split; [exact Hm|]. rewrite Ha. apply wp_bind_2.
  eapply wp_mono; [|eapply (Hp _ (hm_of_pairs_append input)); [| | |exact Hf]].
  - intros st w Ho. split; [|apply HK]. intros r _ Hr. by eapply expected_meets.
  - rewrite <- Hmap. apply lookup_singleton_eq.
  - done.
  - cbn. by destruct Hc as [-> | ->].
Qed.

Context (f : hmap -> option Outcome) (name : str) (benchmark : bool).
Context (input : list (str * str)) (result : pb.Expectation).
Hypothesis He : match f (hm_of_pairs_append input) with
                | Some o => expected result o | None => false end = true.

Lemma request_test_spec :
  acts_as RequestHeaders rq f -> test_spec env (request_test name benchmark input result) handle.
Proof.
  intros Hp. destruct (f _) as [o|] eqn:Hf in He; [|done]. exists []. split_and!; [done..|by intros m ?%not_elem_of_nil| |done].
  split; [done|]. split; [by intros m ?%not_elem_of_nil|].
  eapply headers_phase_spec; [exact Hp|exact Hf|exact He|by left|done|].
  intros w. split; [done|]. cbn. split; [done|]. cbn. by apply closing_nothing.
Qed.

Lemma response_test_spec :
  acts_as ResponseHeaders rs f -> test_spec env (response_test name benchmark input result) handle.
Proof.
  intros Hp. destruct (f _) as [o|] eqn:Hf in He; [|done]. exists []. split_and!; [done..|by intros m ?%not_elem_of_nil| |done].
  split; [done|]. split; [by intros m ?%not_elem_of_nil|].
  cbn [headers_spec request_test response_test pb.request_headers]. split; [done|].
  eapply headers_phase_spec; [exact Hp|exact Hf|exact He|by right|done|].
  intros w. split; [done|]. by apply closing_nothing.
Qed.
End plugin.

(** *** Bodies *)

Section data.
Context (rq rs : Z -> bool -> Prog FilterHeadersStatus.t) (p rsb : Z -> bool -> Prog FilterDataStatus.t).
Context (config : str) (opt : ContextOptions) (cfg : pb.Test).
Abbreviation handle := (mkHandle (stateless_plugin rq rs p rsb) config opt).

(** The handler passes on [g chunk] for a chunk. *)
Context (g : str -> str).
Hypothesis p_acts : forall v chunk e,
  buffers v !! HttpRequestBody = Some chunk -> response v = None ->
  wp (p (size_of chunk) e) (λ _ w, buffers w !! HttpRequestBody = Some (g chunk) /\ response w = None) v.

Abbreviation h := (λ (_ : unit) n e, st ← p n e; mret (st, tt)).

Lemma request_chunks_spec chunks body (K : str -> Between handle -> Prop) a :
  answered handle a = false ->
  (forall a', answered handle a' = false -> K (body ++ concat (g <$> chunks)) a') ->
  chunks_spec cfg handle HttpRequestBody CbRequestBody h chunks body K a.
Proof.
  revert body a. induction chunks as [|chunk chunks IH]; intros body a Ha HK; cbn.
  { apply HK in Ha. by rewrite app_nil_r in Ha. }
  rewrite Ha. apply wp_bind_2. eapply wp_mono; [|by apply p_acts].
  intros st w [Hb Hr] out Hout. cbn in Hout. rewrite Hb in Hout. injection Hout as <-.
  apply IH; [by cbn; rewrite Hr|]. intros a' Ha'. apply HK in Ha'. cbn in Ha'. by rewrite <- app_assoc.
Qed.

(** A body with its chunks, and what is expected of it. *)
Definition chunked (body : str) (chunks : list str) : Prop :=
  match pb.body_chunking_plan cfg with
  | Some _ => ChunkBody body cfg
  | None => Some [body]
  end = Some chunks.

Lemma request_invocations_spec bodies (K : Between handle -> Prop) a :
  (forall io, io ∈ bodies -> exists chunks, chunked io.1 chunks /\ concat (g <$> chunks) = io.2) ->
  answered handle a = false -> (forall a', answered handle a' = false -> K a') ->
  invocations_spec env cfg handle HttpRequestBody CbRequestBody h
    (pb.request_body (request_body_test [] None bodies)) K a.
Proof.
  revert a. induction bodies as [|io bodies IH]; intros a Hio Ha HK; cbn; [by apply HK|].
  destruct (Hio io) as (chunks & Hc & Hg); [by left|].
  exists io.1, chunks. split; [done|]. split; [exact Hc|]. apply request_chunks_spec; [done|].
  intros a' Ha'. cbn. rewrite Hg. split; [|apply IH; [|done..]].
  - split; cbn; try (by intros ? ?%not_elem_of_nil).
    + intros m Hm. apply list_elem_of_singleton in Hm as ->. eexists. split; [reflexivity|].
      by left.
    + split; [by left|done].
  - intros io' Hin. apply Hio. by right.
Qed.
End data.

Lemma request_body_test_spec rq rs p rsb config opt g name plan bodies :
  (forall v chunk e, buffers v !! HttpRequestBody = Some chunk -> response v = None ->
     wp (p (size_of chunk) e)
       (λ _ w, buffers w !! HttpRequestBody = Some (g chunk) /\ response w = None) v) ->
  (plan <> None -> length bodies <= 1) ->
  (forall io, io ∈ bodies -> exists chunks,
     chunked (request_body_test name plan bodies) io.1 chunks /\ concat (g <$> chunks) = io.2) ->
  test_spec env (request_body_test name plan bodies)
    (mkHandle (stateless_plugin rq rs p rsb) config opt).
Proof.
  intros Hp Hplan Hio. exists []. split_and!; [done..|by intros m ?%not_elem_of_nil| |done].
  split; [done|]. split; [by intros m ?%not_elem_of_nil|]. split.
  { cbn. by rewrite length_fmap. }
  eapply (request_invocations_spec _ _ _ _ _ _ (request_body_test name plan bodies) g Hp);
    [exact Hio|done|]. intros a' Ha'. split; [cbn; lia|]. intros v _. cbn.
  by intros m ?%not_elem_of_nil.
Qed.

(** ** The handlers *)

Section handlers.
Context `{!Sdk} `{!SdkOk _}.

(** A handler that returns after one edit of the headers. *)
Lemma acts_edit t p (g : hmap -> hmap) :
  (forall v m n e, maps v !! t = Some m -> response v = None ->
     exists w, returns (p n e) v FilterHeadersStatus.Continue w /\
       maps w !! t = Some (g m) /\ response w = None) ->
  acts_as t p (λ m, Some (Edits (g m))).
Proof.
  intros Hp v m o n e Hm Hr _ [= <-]. destruct (Hp v m n e Hm Hr) as (w & Hw & ? & ?).
  eapply wp_mono; [|exact Hw]. by intros st w' [-> ->].
Qed.

Lemma pass_headers_acts t : acts_as t pass_headers (λ m, Some (Edits m)).
Proof. by intros v m o n e Hm Hr _ [= <-]. Qed.

(** The same for a handler that leaves the headers alone or stores a map. *)
Lemma acts_returns t p (g : hmap -> hmap) :
  (forall v m n e, maps v !! t = Some m -> response v = None ->
     exists w, returns (p n e) v FilterHeadersStatus.Continue w /\
       (w = with_map t (g m) v \/ w = v /\ g m = m)) ->
  acts_as t p (λ m, Some (Edits (g m))).
Proof.
  intros Hp. apply acts_edit. intros v m n e Hm Hr.
  destruct (Hp v m n e Hm Hr) as (w & Hw & [-> | [-> ->]]); eexists; (split; [exact Hw|]); [|done].
  split; [apply lookup_insert_eq|done].
Qed.

Lemma add_request_header_acts :
  acts_as RequestHeaders AddRequestHeader.onRequestHeaders
    (λ m, Some (Edits (hm_set "Welcome"%str "warm"%str (hm_append "Message"%str "hello"%str m)))).
Proof.
  apply acts_returns. intros v m n e Hm Hr. eexists. split; [by apply AddRequestHeader_spec|by left].
Qed.

Lemma add_response_header_acts :
  acts_as ResponseHeaders AddResponseHeader.onResponseHeaders
    (λ m, Some (Edits (hm_erase "Welcome"%str
       (if decide (hm_get "Message"%str m = Some "foo"%str)
        then hm_append "Message"%str "bar"%str m else m)))).
Proof.
  apply acts_returns. intros v m n e Hm Hr. eexists. split; [by apply AddResponseHeader_spec|by left].
Qed.

Lemma overwrite_header_request_acts `{!SdkNonNull _} :
  acts_as RequestHeaders OverwriteHeader.onRequestHeaders
    (λ m, Some (Edits (if decide (default [] (hm_get "RequestHeader"%str m) = []) then m
                       else hm_set "RequestHeader"%str "changed"%str m))).
Proof.
  apply acts_returns. intros v m n e Hm Hr. eexists. split; [by apply OverwriteHeader_request_spec|].
  case_decide; [by right|by left].
Qed.

Lemma overwrite_header_response_acts :
  acts_as ResponseHeaders OverwriteHeader.onResponseHeaders
    (λ m, Some (Edits (hm_set "ResponseHeader"%str "changed"%str m))).
Proof.
  apply acts_returns. intros v m n e Hm Hr. eexists. split; [by apply OverwriteHeader_response_spec|by left].
Qed.

Lemma normalize_header_acts :
  acts_as RequestHeaders NormalizeHeader.onRequestHeaders
    (λ m, Some (Edits (hm_append "client-device-type"%str (client_device_type m) m))).
Proof.
  apply acts_returns. intros v m n e Hm Hr. eexists. split; [by apply NormalizeHeader_spec|by left].
Qed.

Lemma overwrite_errcode_acts :
  acts_as ResponseHeaders OverwriteErrcode.onResponseHeaders
    (λ m, Some (Edits (if server_error (default [] (hm_get ":status"%str m))
                       then hm_set ":status"%str "404"%str m else m))).
Proof.
  apply acts_returns. intros v m n e Hm Hr. eexists. split; [by apply OverwriteErrcode_spec|].
  destruct (server_error _); [by left|by right].
Qed.

Lemma remove_cookie_acts :
  acts_as ResponseHeaders RemoveCookie.onResponseHeaders
    (λ m, Some (Edits (hm_erase "Set-Cookie"%str m))).
Proof.
  apply acts_returns. intros v m n e Hm Hr. eexists. split; [by apply RemoveCookie_spec|by left].
Qed.

(** The detector does not depend on more of Abseil than its contract. *)
Lemma DetectDeviceType_ref ua :
  AddDeviceType.DetectDeviceType ua = @AddDeviceType.DetectDeviceType absl_ref ua.
Proof.
  assert (forall subs, AddDeviceType.ContainsAny ua subs = @AddDeviceType.ContainsAny absl_ref ua subs) as Hc.
  { induction subs as [|k subs IH]; cbn [AddDeviceType.ContainsAny]; [done|]. by rewrite !StrContains_ok, IH. }
  unfold AddDeviceType.DetectDeviceType, AddDeviceType.IsBot, AddDeviceType.IsTablet,
    AddDeviceType.IsMobile, AddDeviceType.IsDesktop.
  by rewrite !Hc, !StrContains_ok.
Qed.

Lemma add_device_type_acts :
  acts_as RequestHeaders AddDeviceType.onRequestHeaders
    (λ m, Some (Edits (hm_set "x-device-type"%str
       (@AddDeviceType.DetectDeviceType absl_ref (lower (default [] (hm_get "user-agent"%str m)))) m))).
Proof.
  apply acts_returns. intros v m n e Hm Hr. rewrite <- DetectDeviceType_ref. eexists.
  split; [|by left]. unfold AddDeviceType.onRequestHeaders. wp_auto; wp_close.
Qed.

Lemma redirect_acts :
  acts_as RequestHeaders Redirect.onRequestHeaders (λ m,
    p ← hm_get ":path"%str m;
    Some (if starts_with "/foo/"%str p then
            let rest := drop 5 p in
            Replies (mkLocalResponse 301 [] ("Content moved to /bar/"%str ++ rest)
                       (hm_of_pairs [("Location"%str, "/bar/"%str ++ rest)]))
          else Edits m)).
Proof.
  intros v m o n e Hm Hr Hc. destruct (hm_get ":path"%str m) as [p|] eqn:Hp; cbn [mbind option_bind]; [|done].
  intros <-%(inj Some).
  destruct (Redirect_spec v m n e Hc Hm p Hp) as [Hyes Hno].
  destruct (starts_with "/foo/"%str p) eqn:Hs.
  - apply starts_with_spec in Hs as [rest ->]. eapply wp_mono; [|by apply (Hyes rest)].
    intros st w (_ & Hw & _). exact Hw.
  - eapply wp_mono; [|apply Hno].
    + by intros st w [-> ->].
    + intros rest ->. by rewrite starts_with_app in Hs.
Qed.

Lemma add_custom_response_acts :
  acts_as ResponseHeaders AddCustomResponse.onResponseHeaders (λ m,
    s ← hm_get ":status"%str m;
    Some (if server_error s then
            Replies (mkLocalResponse 302 [] []
              (hm_of_pairs [("Origin-Status"%str, s);
                            ("Location"%str, AddCustomResponse.redirect_page)]))
          else Edits m)).
Proof.
  intros v m o n e Hm Hr Hc. destruct (hm_get ":status"%str m) as [s|] eqn:Hs; cbn [mbind option_bind]; [|done].
  intros <-%(inj Some).
  pose proof (AddCustomResponse_spec v m n e Hc s Hm Hs) as Hspec.
  destruct (server_error s); eapply wp_mono; [|exact Hspec| |exact Hspec].
  - intros st w (_ & Hw & _). exact Hw.
  - by intros st w [-> ->].
Qed.

Lemma body_chunking_acts v chunk e :
  buffers v !! HttpRequestBody = Some chunk -> response v = None ->
  wp (BodyChunking.onRequestBody (size_of chunk) e)
    (λ _ w, buffers w !! HttpRequestBody =
              Some (if decide (chunk = []) then [] else chunk ++ "foo"%str) /\ response w = None) v.
Proof.
  intros Hb Hr. unfold BodyChunking.onRequestBody. rewrite size_zero.
  case_bool_decide; case_decide; try done; [by subst|].
  apply wp_bind_2. eapply append_chunk; [done..|]. wp_auto.
  split; [apply lookup_insert_eq|done].
Qed.
End handlers.

(** ** The suites *)

Context `{!Sdk} `{!SdkOk _} `{!SdkNonNull _} `{!RunnerLibsOk _}.

Create HintDb acts.
#[local] Hint Resolve pass_headers_acts add_request_header_acts add_response_header_acts
  overwrite_header_request_acts overwrite_header_response_acts normalize_header_acts
  overwrite_errcode_acts remove_cookie_acts redirect_acts add_custom_response_acts add_device_type_acts : acts.

(** Every test of a suite whose plugin's handlers are known, by evaluation. *)
Local Ltac suite :=
  repeat (apply Forall_cons_2;
    [intros config opt;
     first [eapply request_test_spec; [|solve [eauto 3 with acts]]
           |eapply response_test_spec; [|solve [eauto 3 with acts]]];
     vm_compute; reflexivity|]);
  apply Forall_nil_2.

Definition suite_spec (suite : Plugin * list pb.Test) : Prop :=
  Forall (λ cfg, forall config opt, test_spec env cfg (mkHandle suite.1 config opt)) suite.2.

Lemma body_chunking_suite :
  suite_spec (stateless_plugin pass_headers pass_headers BodyChunking.onRequestBody
                BodyChunking.onResponseBody, body_chunking_tests).
Proof.
  assert (ChunkBody "1234567890"%str (request_body_test [] (Some (pb.num_chunks 5)) []) =
            Some (pieces 4 2 "1234567890"%str)) as Hn.
  { transitivity (Some (SplitByLengthMax "1234567890"%str 2 4)); [reflexivity|].
    by rewrite SplitByLengthMax_ok. }
  assert (ChunkBody "1234567890"%str (request_body_test [] (Some (pb.chunk_size 2)) []) =
            Some (pieces 10 2 "1234567890"%str)) as Hs.
  { transitivity (Some (SplitByLength "1234567890"%str 2)); [reflexivity|].
    by rewrite SplitByLength_ok. }
  unfold suite_spec. cbn [fst snd]. repeat (apply Forall_cons_2;
    [intros config opt; eapply request_body_test_spec; [apply body_chunking_acts|cbn; lia||done|intros io Hin]|]);
    [..|apply Forall_nil_2].
  - apply list_elem_of_singleton in Hin as ->. eexists. split; [exact Hn|vm_compute; reflexivity].
  - apply list_elem_of_singleton in Hin as ->. eexists. split; [exact Hs|vm_compute; reflexivity].
  - repeat (apply elem_of_cons in Hin as [->|Hin];
      [eexists; split; [reflexivity|vm_compute; reflexivity]|]). by apply not_elem_of_nil in Hin.
Qed.

Lemma shipped_suites_spec : Forall suite_spec shipped_suites.
Proof.
  do 9 (apply Forall_cons_2; [unfold suite_spec; cbn [fst snd]; suite|]).
  apply Forall_cons_2; [apply body_chunking_suite|apply Forall_nil_2].
Qed.

(** C11. The test suites that are shipped with add_request_header,
    add_response_header, overwrite_header, normalize_header, overwrite_errcode,
    remove_cookie, redirect, add_custom_response, add_device_type and
    body_chunking (those that read no files) pass: whenever the runner loads one
    of these plugins, every one of its tests that is transcribed here reports no
    failure, whatever the SDK, the header map's order of names, the VM's host
    library and the engine do within their contracts. *)
Theorem shipped_tests_pass engine logs P tests cfg config opt :
  (P, tests) ∈ shipped_suites -> cfg ∈ tests ->
  LoadWasm engine env false = inr (mkHandle P config opt) ->
  passes (TestBody engine env cfg logs) tt.
Proof.
  intros Hs Hc Hl. eapply test_spec_passes; [exact Hl|].
  pose proof shipped_suites_spec as Hall. rewrite Forall_forall in Hall.
  specialize (Hall _ Hs). unfold suite_spec in Hall. rewrite Forall_forall in Hall. by apply Hall.
Qed.
End passing.

(** ** A VM with one of the plugins *)

Section witnesses.
#[local] Existing Instances caseless_ref absl_ref abi_ref sdk_ref re2_ref runner_ref http_ref.

Definition add_request_header_plugin : Plugin :=
  headers_plugin AddRequestHeader.onRequestHeaders pass_headers.

#[local] Instance suite_ref : WasmHost := {|
  TestVm := unit;
  makeVm _ := tt;
  setLogLevel _ _ := tt;
  load _ _ _ := Some tt;
  initialize _ := Some tt;
  plugin_of _ _ := add_request_header_plugin;
  initial_phase := None;
  initial_callback := CbNone;
|}.

Lemma shipped_tests_pass_witness :
  Forall (λ cfg, passes (TestBody "v8"%str hello_env cfg []) tt) add_request_header_tests.
Proof.
  assert (forall st, abi_headers_status true st = FilterHeadersStatus.StopAllIterationAndWatermark)
    as Hstops by reflexivity.
  apply Forall_forall. intros cfg Hcfg.
  apply (shipped_tests_pass Hstops hello_env "v8"%str [] add_request_header_plugin
           add_request_header_tests cfg [] (mkOptions None default_clock_time));
    [left|exact Hcfg|reflexivity].
Defined.
End witnesses.
