(* ===== verification/Bench.v ===== *)
(** * The additional streams of the benchmarks

    plugins/test/dynamic_test.cc: [AdditionalStream], the streams that live
    beside the one that is measured. *)

From S2P Require Import Prelude Absl Headers Host Framework Rules ThirdParty ResponseSamples Pb Gtest Expect Inputs Vm Runner.

(** ** [class AdditionalStream] *)

Inductive NextAction : Type :=
  | kCreate | kSendRequestHeaders | kSendRequestBody | kSendResponseHeaders
  | kSendResponseBody | kDestroy.

(** [stream_]: null, a stream, or one whose VM has failed. *)
Inductive StreamPtr (A : Type) : Type :=
  | NoStream
  | Live (st : A)
  | Dead.
Arguments NoStream {A}.
Arguments Live {A}.
Arguments Dead {A}.

(** One round of the loop in [Advance]: it uses a null pointer, returns an
    error, returns OK, or goes round again. *)
Inductive Round (A : Type) : Type :=
  | Crashes
  | Returns_error (status : Status)
  | Returns_ok (a : A)
  | Goes_on (a : A).
Arguments Crashes {A}.
Arguments Returns_error {A}.
Arguments Returns_ok {A}.
Arguments Goes_on {A}.

Section additional_stream.
Context `{Caseless} `{Absl} `{HostAbi} `{WasmHost}.
Context (handle : PluginHandle) (cfg : pb.Test).
(** The pointers that the constructor is given. *)
Context (request_headers_ response_headers_ : option headers)
  (request_body_chunks_ response_body_chunks_ : option (list str)).
(** [isFailed] of the VM when [Advance] is called, which another stream may
    have caused: a call into a VM that has failed does nothing. *)
Context (failed : bool).

Definition in_vm {A} (r : option A) : option A := if failed then None else r.
#[global] Arguments in_vm : simpl never.

Record AdditionalStream : Type := mkAdditional {
  remaining_request_body_chunks_ : list str;
  remaining_response_body_chunks_ : list str;
  stream_ : StreamPtr (stream handle);
  next_action_ : NextAction;
}.

Definition new_additional_stream : AdditionalStream := mkAdditional [] [] NoStream kCreate.

Definition vm_failed_status : Status := InternalError "VM failed!"%str.

(** A call on the stream, then the check of the VM. *)
Definition on_stream (send : stream handle -> option (Result * stream handle))
    (s : AdditionalStream) : Round AdditionalStream :=
  match stream_ s with
  | NoStream => Crashes
  | Dead => Returns_error vm_failed_status
  | Live st =>
      match in_vm (send st) with
      | None => Returns_error vm_failed_status
      | Some (_, st) =>
          Returns_ok (mkAdditional (remaining_request_body_chunks_ s)
            (remaining_response_body_chunks_ s) (Live st) (next_action_ s))
      end
  end.

Definition with_action (a : NextAction) (s : AdditionalStream) : AdditionalStream :=
  mkAdditional (remaining_request_body_chunks_ s) (remaining_response_body_chunks_ s) (stream_ s) a.

Definition advance_round (s : AdditionalStream) : Round AdditionalStream :=
  match next_action_ s with
  | kCreate =>
      Returns_ok (mkAdditional
        (default (remaining_request_body_chunks_ s) request_body_chunks_)
        (default (remaining_response_body_chunks_ s) response_body_chunks_)
        (match in_vm (new_stream cfg handle) with Some st => Live st | None => Dead end)
        kSendRequestHeaders)
  | kSendRequestHeaders =>
      match request_headers_ with
      | None => Goes_on (with_action kSendRequestBody s)
      | Some m => on_stream (send_request_headers handle m) (with_action kSendRequestBody s)
      end
  | kSendRequestBody =>
      match remaining_request_body_chunks_ s with
      | chunk :: rest =>
          on_stream (send_request_body handle chunk (bool_decide (rest = [])))
            (mkAdditional rest (remaining_response_body_chunks_ s) (stream_ s) kSendRequestBody)
      | [] => Goes_on (with_action kSendResponseHeaders s)
      end
  | kSendResponseHeaders =>
      match response_headers_ with
      | None => Goes_on (with_action kSendResponseBody s)
      | Some m => on_stream (send_response_headers handle m) (with_action kSendResponseBody s)
      end
  | kSendResponseBody =>
      match remaining_response_body_chunks_ s with
      | chunk :: rest =>
          on_stream (send_response_body handle chunk (bool_decide (rest = [])))
            (mkAdditional (remaining_request_body_chunks_ s) rest (stream_ s) kSendResponseBody)
      | [] => Goes_on (with_action kDestroy s)
      end
  | kDestroy =>
      (* the destructor of the context tears it down *)
      match stream_ s with
      | Dead => Returns_error vm_failed_status
      | NoStream => Returns_ok (mkAdditional (remaining_request_body_chunks_ s)
                                  (remaining_response_body_chunks_ s) NoStream kCreate)
      | Live st =>
          match in_vm (tear_down handle st) with
          | None => Returns_error vm_failed_status
          | Some _ => Returns_ok (mkAdditional (remaining_request_body_chunks_ s)
                                    (remaining_response_body_chunks_ s) NoStream kCreate)
          end
      end
  end.

(** [while (true)]; [None]: a null pointer is used, or the fuel is spent. *)
Fixpoint advance_loop (fuel : nat) (s : AdditionalStream) : option (StatusOr AdditionalStream) :=
  match fuel with
  | 0 => None
  | S fuel =>
      match advance_round s with
      | Crashes => None
      | Returns_error status => Some (inl status)
      | Returns_ok s => Some (inr s)
      | Goes_on s => advance_loop fuel s
      end
  end.

(** At most four rounds only change the next action. *)
Definition Advance : AdditionalStream -> option (StatusOr AdditionalStream) := advance_loop 5.

(** ** The life of an additional stream *)

Inductive Action : Type :=
  | Creates
  | Sends (send : stream handle -> option (Result * stream handle))
  | Destroys.

(** What an action makes of the stream. *)
Definition act (a : Action) (p : StreamPtr (stream handle)) : StatusOr (StreamPtr (stream handle)) :=
  match a, p with
  | Creates, _ => inr (match in_vm (new_stream cfg handle) with Some st => Live st | None => Dead end)
  | Sends send, Live st =>
      match in_vm (send st) with Some (_, st) => inr (Live st) | None => inl vm_failed_status end
  | Destroys, Live st =>
      match in_vm (tear_down handle st) with Some _ => inr NoStream | None => inl vm_failed_status end
  | _, _ => inl vm_failed_status
  end.

Definition headers_actions (send : headers -> stream handle -> option (Result * stream handle))
    (m : option headers) : list Action :=
  match m with Some m => [Sends (send m)] | None => [] end.

(** Every chunk in its order, the last one alone as the end of the stream. *)
Fixpoint body_actions (send : str -> bool -> stream handle -> option (Result * stream handle))
    (chunks : list str) : list Action :=
  match chunks with
  | [] => []
  | [chunk] => [Sends (send chunk true)]
  | chunk :: chunks => Sends (send chunk false) :: body_actions send chunks
  end.

Definition response_script (chunks : list str) : list Action :=
  headers_actions (send_response_headers handle) response_headers_ ++
  body_actions (send_response_body handle) chunks ++ [Destroys].

(** One life of the stream. *)
Definition script : list Action :=
  Creates ::
  headers_actions (send_request_headers handle) request_headers_ ++
  body_actions (send_request_body handle) (default [] request_body_chunks_) ++
  response_script (default [] response_body_chunks_).

(** What is left of it. *)
Definition todo (s : AdditionalStream) : list Action :=
  let requests := body_actions (send_request_body handle) (remaining_request_body_chunks_ s) in
  match next_action_ s with
  | kCreate => script
  | kSendRequestHeaders =>
      headers_actions (send_request_headers handle) request_headers_ ++ requests ++
      response_script (remaining_response_body_chunks_ s)
  | kSendRequestBody => requests ++ response_script (remaining_response_body_chunks_ s)
  | kSendResponseHeaders => response_script (remaining_response_body_chunks_ s)
  | kSendResponseBody =>
      body_actions (send_response_body handle) (remaining_response_body_chunks_ s) ++ [Destroys]
  | kDestroy => [Destroys]
  end.

(** Before a stream is created there is none, and no chunk is left; while it
    sends the response, no chunk of the request is left. *)
Definition additional_ok (s : AdditionalStream) : Prop :=
  match next_action_ s with
  | kCreate => remaining_request_body_chunks_ s = [] /\ remaining_response_body_chunks_ s = [] /\
               stream_ s = NoStream
  | kSendRequestHeaders | kSendRequestBody => stream_ s <> NoStream
  | kSendResponseHeaders | kSendResponseBody =>
      stream_ s <> NoStream /\ remaining_request_body_chunks_ s = []
  | kDestroy => stream_ s <> NoStream /\ remaining_request_body_chunks_ s = [] /\
                remaining_response_body_chunks_ s = []
  end.
Definition next_todo (rest : list Action) : list Action :=
  match rest with [] => script | _ => rest end.

Definition rank (a : NextAction) : nat :=
  match a with
  | kCreate | kDestroy => 0
  | kSendResponseBody => 1
  | kSendResponseHeaders => 2
  | kSendRequestBody => 3
  | kSendRequestHeaders => 4
  end.

(** The state does what is to be done next. *)
Definition performs (s : AdditionalStream) (r : StatusOr AdditionalStream) : Prop :=
  exists a rest, todo s = a :: rest /\
    match act a (stream_ s) with
    | inl status => r = inl status
    | inr p => exists s', r = inr s' /\ additional_ok s' /\ stream_ s' = p /\ todo s' = next_todo rest
    end.

Lemma body_actions_cons send chunk rest :
  body_actions send (chunk :: rest) =
  Sends (send chunk (bool_decide (rest = []))) :: body_actions send rest.
Proof. by destruct rest. Qed.

Lemma next_todo_response l chunks :
  next_todo (l ++ response_script chunks) = l ++ response_script chunks.
Proof.
  unfold response_script. destruct l; [|done]. cbn. destruct (headers_actions _ _); [|done]. cbn.
  by destruct (body_actions _ _).
Qed.

Lemma next_todo_destroy l : next_todo (l ++ [Destroys]) = l ++ [Destroys].
Proof. by destruct l. Qed.

(** A call on the stream, the state being [s'] afterwards. *)
Lemma on_stream_performs send s s0 rest :
  todo s = Sends send :: rest -> stream_ s0 = stream_ s -> stream_ s <> NoStream ->
  (forall st, let s' := mkAdditional (remaining_request_body_chunks_ s0)
                          (remaining_response_body_chunks_ s0) (Live st) (next_action_ s0) in
     additional_ok s' /\ todo s' = next_todo rest) ->
  exists r, performs s r /\
    on_stream send s0 = match r with inl e => Returns_error e | inr s' => Returns_ok s' end.
Proof.
  intros Htodo Heq Hne Hafter. unfold performs, on_stream. rewrite Heq, Htodo.
  destruct (stream_ s) as [|st|] eqn:Hs; [done| |].
  - destruct (in_vm (send st)) as [[r st']|] eqn:Hsend.
    + eexists (inr _). split; [|reflexivity]. eexists _, _. split; [done|]. cbn. rewrite Hsend.
      destruct (Hafter st') as [Hok Ht]. eexists. split; [done|]. by split.
    + eexists (inl _). split; [|reflexivity]. eexists _, _. split; [done|]. cbn. by rewrite Hsend.
  - eexists (inl _). split; [|reflexivity]. by eexists _, _.
Qed.

(** One round: nothing happens and the next action comes closer, or what is
    to be done next is done. *)
Lemma advance_round_spec s :
  additional_ok s ->
  (exists s', advance_round s = Goes_on s' /\ additional_ok s' /\ todo s' = todo s /\
     stream_ s' = stream_ s /\ rank (next_action_ s') < rank (next_action_ s)) \/
  (exists r, performs s r /\
     advance_round s = match r with inl e => Returns_error e | inr s' => Returns_ok s' end).
Proof.
  intros Hok. destruct s as [req resp p a]. unfold additional_ok in Hok. cbn in Hok.
  unfold advance_round. destruct a; cbn [next_action_ stream_ remaining_request_body_chunks_ remaining_response_body_chunks_ with_action] in *.
  - destruct Hok as (-> & -> & ->). right. eexists (inr _). split; [|reflexivity].
    eexists _, _. split; [reflexivity|]. eexists. split; [reflexivity|].
    split; [by cbn; destruct (in_vm (new_stream _ _))|]. split; [done|].
    by rewrite app_assoc, next_todo_response, <- app_assoc.
  - destruct request_headers_ as [m|] eqn:Hm.
    + right. eapply on_stream_performs; [unfold todo; cbn; by rewrite Hm|done|done|].
      intros st. cbn. split; [done|]. by rewrite next_todo_response.
    + left. eexists. split; [reflexivity|]. split; [done|]. unfold todo; cbn. rewrite Hm.
      repeat split. lia.
  - destruct req as [|chunk rest].
    + left. eexists. split; [reflexivity|]. repeat split; cbn; [done|lia].
    + right. eapply on_stream_performs; [unfold todo; cbn [next_action_ remaining_request_body_chunks_]; by rewrite body_actions_cons|done|done|].
      intros st. cbn. split; [done|]. by rewrite next_todo_response.
  - destruct Hok as [Hp ->]. destruct response_headers_ as [m|] eqn:Hm.
    + right. eapply on_stream_performs; [unfold todo, response_script; cbn; by rewrite Hm|done|done|].
      intros st. cbn. split; [done|]. by rewrite next_todo_destroy.
    + left. eexists. split; [reflexivity|]. split; [done|].
      unfold todo, response_script; cbn. rewrite Hm. repeat split. lia.
  - destruct Hok as [Hp ->]. destruct resp as [|chunk rest].
    + left. eexists. split; [reflexivity|]. repeat split; cbn; [done|lia].
    + right. eapply on_stream_performs; [unfold todo; cbn [next_action_ remaining_response_body_chunks_]; by rewrite body_actions_cons|done|done|].
      intros st. cbn. split; [done|]. by rewrite next_todo_destroy.
  - destruct Hok as (Hp & -> & ->). right. destruct p as [|st|]; [done| |].
    + destruct (in_vm (tear_down handle st)) eqn:Ht.
      * eexists (inr _). split; [|reflexivity]. eexists _, _. split; [reflexivity|]. cbn.
        rewrite Ht. by eexists.
      * eexists (inl _). split; [|reflexivity]. eexists _, _. split; [reflexivity|]. cbn.
        by rewrite Ht.
    + eexists (inl _). split; [|reflexivity]. by eexists _, _.
Qed.

Lemma advance_loop_spec fuel s :
  additional_ok s -> rank (next_action_ s) < fuel ->
  exists r, advance_loop fuel s = Some r /\ performs s r.
Proof.
  revert s. induction fuel as [|fuel IH]; intros s Hok Hf; [lia|]. cbn.
  destruct (advance_round_spec s Hok) as [(s' & -> & Hok' & Ht & Hs & Hr)|(r & Hp & ->)].
  - destruct (IH s') as (r & Hl & Hp); [done|lia|]. exists r. split; [done|].
    unfold performs in *. by rewrite <- Ht, <- Hs.
  - exists r. split; [by destruct r|done].
Qed.

(** Some calls of [Advance], up to the first error. *)
Fixpoint advances (n : nat) (s : AdditionalStream) : option (StatusOr AdditionalStream) :=
  match n with
  | 0 => Some (inr s)
  | S n =>
      match Advance s with
      | Some (inr s) => advances n s
      | r => r
      end
  end.

Fixpoint acts (l : list Action) (p : StreamPtr (stream handle)) : StatusOr (StreamPtr (stream handle)) :=
  match l with
  | [] => inr p
  | a :: l => match act a p with inl status => inl status | inr p => acts l p end
  end.

Lemma advances_spec l l' s :
  additional_ok s -> todo s = l ++ l' -> l <> [] ->
  match acts l (stream_ s) with
  | inl status => advances (length l) s = Some (inl status)
  | inr p => exists s', advances (length l) s = Some (inr s') /\ additional_ok s' /\
               stream_ s' = p /\ todo s' = next_todo l'
  end.
Proof.
  revert s. induction l as [|a l IH]; intros s Hok Ht Hne; [done|].
  cbn [acts advances length app] in *.
  destruct (advance_loop_spec 5 s) as (r & Hr & a' & rest & Ht' & Hp); [done|destruct (next_action_ s); cbn; lia|].
  unfold Advance. rewrite Hr. rewrite Ht' in Ht. injection Ht as -> Hrest.
  destruct (act a (stream_ s)) as [status|p]; [by rewrite Hp|].
  destruct Hp as (s1 & -> & Hok1 & Hs1 & Ht1). destruct l as [|b l].
  - cbn in *. subst rest. exists s1. done.
  - rewrite <- Hs1. apply IH; [done| |done]. rewrite Ht1, Hrest. done.
Qed.

(** What a stream does before it is destroyed. *)
Definition measured : list Action :=
  Creates ::
  headers_actions (send_request_headers handle) request_headers_ ++
  body_actions (send_request_body handle) (default [] request_body_chunks_) ++
  headers_actions (send_response_headers handle) response_headers_ ++
  body_actions (send_response_body handle) (default [] response_body_chunks_).

Lemma script_measured : script = measured ++ [Destroys].
Proof. unfold script, response_script, measured. cbn. by rewrite !app_assoc. Qed.

Lemma acts_app l l' p :
  acts (l ++ l') p = match acts l p with inl status => inl status | inr p => acts l' p end.
Proof. revert p. induction l as [|a l IH]; intros p; cbn; [done|]. destruct (act a p); [done|]. apply IH. Qed.

Lemma acts_script_end p : acts script NoStream = inr p -> p = NoStream.
Proof.
  rewrite script_measured, acts_app. destruct (acts measured _) as [|q]; [done|]. cbn.
  destruct q as [|st|]; cbn; [done| |done]. destruct (in_vm (tear_down _ _)); [|done]. by intros [= <-].
Qed.

(** C16. An additional stream lives over and over: each call of [Advance] ends
    and does exactly one thing, and [length script] calls, starting from a new
    one, create a stream, send the request headers, the chunks of the request
    body, the response headers and the chunks of the response body that are
    given, in this order, each chunk once and the last one of a body alone as
    its end, destroy the stream, and leave the object as it was at first; if
    the VM fails on the way, the call that notices it returns the error. *)
Theorem AdditionalStream_lives :
  advances (length script) new_additional_stream =
  Some (match acts script NoStream with
        | inl status => inl status
        | inr _ => inr new_additional_stream
        end).
Proof.
  assert (Hscript : script <> []) by done.
  pose proof (advances_spec script [] new_additional_stream) as Hspec.
  rewrite app_nil_r in Hspec. specialize (Hspec ltac:(done) eq_refl Hscript). cbn [stream_ new_additional_stream] in Hspec.
  destruct (acts script NoStream) as [status|p] eqn:Ha; [done|].
  destruct Hspec as (s' & -> & Hok & Hs & Ht). do 2 f_equal.
  pose proof (acts_script_end _ Ha) as Hp.
  rewrite Hp in Hs. clear Hp Ha. destruct s' as [req resp q a]. cbn in Hs. subst q. unfold additional_ok in Hok. cbn in Hok.
  destruct a; try (by destruct Hok). by destruct Hok as (-> & -> & _).
Qed.

End additional_stream.

(** ** Witnesses *)

Section witnesses.
#[local] Existing Instances caseless_ref absl_ref abi_ref sdk_ref re2_ref runner_ref http_ref wasm_ref.

(** A stream of samples/local_reply with request headers and two chunks of a
    response: create, headers, two chunks, destroy. *)
Lemma AdditionalStream_lives_witness :
  advances hello_handle (hello_test []) (Some []) None (Some []) (Some ["a"; "b"]%str) false 5
    (new_additional_stream hello_handle) = Some (inr (new_additional_stream hello_handle)).
Proof.
  pose proof (AdditionalStream_lives hello_handle (hello_test []) (Some []) None (Some [])
    (Some ["a"; "b"]%str) false) as Hw.
  transitivity (Some (match acts hello_handle (hello_test []) false (script hello_handle (Some []) None
                               (Some []) (Some ["a"; "b"]%str)) NoStream with
                      | inl status => inl status
                      | inr _ => inr (new_additional_stream hello_handle)
                      end)); [exact Hw|vm_compute; reflexivity].
Defined.
End witnesses.
