(* ===== verification/BenchRuns.v ===== *)
(** * The benchmarks of the runner

    plugins/test/dynamic_test.cc: the inputs of a benchmark, its statistics and
    the three loops that are measured: the life of a plugin, the life of a
    stream, and the handlers of a stream among others. *)

From S2P Require Import Prelude Absl Headers Host Framework Rules ThirdParty ResponseSamples Pb Gtest Expect Inputs Vm Runner Bench.

(** ** Functions that drive a benchmark *)

(** What a benchmark tells its library. *)
Inductive BenchCall : Type :=
  | SkipWithError (text : str)
  | Counter (name : str) (value : Z)
  | PauseTiming
  | ResumeTiming.

(** It aborts the process, has returned early, or goes on. *)
Inductive BenchFlow (A : Type) : Type :=
  | BenchAborts
  | BenchReturns
  | BenchGoesOn (a : A).
Arguments BenchAborts {A}.
Arguments BenchReturns {A}.
Arguments BenchGoesOn {A}.

Record BenchRun (A : Type) : Type := mkBench {
  bench_flow : BenchFlow A;
  bench_calls : list BenchCall;
}.
Arguments mkBench {A}.
Arguments bench_flow {A}.
Arguments bench_calls {A}.

#[export] Instance BenchRun_ret : MRet BenchRun := λ A a, mkBench (BenchGoesOn a) [].
#[export] Instance BenchRun_bind : MBind BenchRun := λ A B f m,
  match bench_flow m with
  | BenchAborts => mkBench BenchAborts (bench_calls m)
  | BenchReturns => mkBench BenchReturns (bench_calls m)
  | BenchGoesOn a => mkBench (bench_flow (f a)) (bench_calls m ++ bench_calls (f a))
  end.

Definition bench_abort {A} : BenchRun A := mkBench BenchAborts [].
Definition tell (calls : list BenchCall) : BenchRun unit := mkBench (BenchGoesOn tt) calls.

(** [state.SkipWithError(text); return;] *)
Definition skip_with_error {A} (text : str) : BenchRun A :=
  mkBench BenchReturns [SkipWithError text].

(** The rules for what a composition comes to. *)
Lemma bench_bind_goes {A B} (f : A -> BenchRun B) m b :
  bench_flow (m ≫= f) = BenchGoesOn b <->
  exists a, bench_flow m = BenchGoesOn a /\ bench_flow (f a) = BenchGoesOn b.
Proof.
  unfold mbind, BenchRun_bind. destruct (bench_flow m) as [| |a]; cbn.
  1,2: split; [discriminate|intros (? & [=] & _)].
  split; [intros Hf; by exists a|]. intros (a' & [= <-] & Hf). done.
Qed.

Lemma bench_bind_aborts {A B} (f : A -> BenchRun B) m :
  bench_flow (m ≫= f) = BenchAborts <->
  bench_flow m = BenchAborts \/ exists a, bench_flow m = BenchGoesOn a /\ bench_flow (f a) = BenchAborts.
Proof.
  unfold mbind, BenchRun_bind. destruct (bench_flow m) as [| |a]; cbn.
  - split; [by left|reflexivity].
  - split; [discriminate|]. intros [[=]|(? & [=] & _)].
  - split; [intros Hf; right; by exists a|]. intros [[=]|(a' & [= <-] & Hf)]. done.
Qed.

Lemma bench_bind_eq {A B} (f : A -> BenchRun B) m a calls :
  m = mkBench (BenchGoesOn a) calls ->
  m ≫= f = mkBench (bench_flow (f a)) (calls ++ bench_calls (f a)).
Proof. by intros ->. Qed.

(** ** The inputs *)

(** The view of the memory of the VM: the address and the size. *)
Class BenchHost : Type := {
  sysconf_PAGESIZE : Z;
  (** [mincore]: [errno], or what it writes for the pages. *)
  mincore : Z -> Z -> Z + list Z;
  ErrnoToStatus : Z -> str -> Status;
  getMemorySize : Plugin -> Z;
  getMemory : Plugin -> Z -> option (Z * Z);
  file_size : str -> Z;
  (** The bytes and entries that the root context has logged, and a stream
      during whose calls the VM failed. *)
  root_log_stats : Plugin -> Z * Z;
  failed_log_stats : Z * Z;
  (** What the VM holds after a plugin was shut down. *)
  restarted : Plugin -> Plugin;
  (** [absl::Uniform(bitgen_, 0U, n)], the k-th one. *)
  Uniform : nat -> nat -> nat;
}.
Section bench.
Context `{Caseless} `{Absl} `{HostAbi} `{Re2} `{!RunnerLibs} `{HttpParser} `{WasmHost}.
Context (engine : str) (env : pb.Env) (cfg : pb.Test).

(** The chunks of several bodies without a plan, or of the one body with it.
    [None]: the process aborts. *)
Fixpoint prep_invocations (test : pb.Test) (invocations : list pb.Invocation) (chunks : list str)
    : option (StatusOr (list str)) :=
  match invocations with
  | [] => Some (inr chunks)
  | invocation :: invocations =>
      match ParseBodyInput env (pb.input invocation) with
      | inl status => Some (inl status)
      | inr complete_input_body =>
          match pb.body_chunking_plan test with
          | Some _ =>
              chunks ← ChunkBody complete_input_body cfg;
              prep_invocations test invocations chunks
          | None => prep_invocations test invocations (chunks ++ [complete_input_body])
          end
      end
  end.

Definition PrepBodyCallbackBenchmark (test : pb.Test) (invocations : list pb.Invocation)
    : option (StatusOr (list str)) :=
  if decide (length invocations = 0) then Some (inr [])
  else if decide (length invocations <> 1 /\ pb.body_chunking_plan test <> None) then
    Some (inl (InvalidArgumentError
      "Cannot specify body_chunking_plan with multiple body invocations"%str))
  else prep_invocations test invocations [].

(** [BM_RETURN_IF_ERROR], and the value. *)
Definition bm_ok {A} (x : StatusOr A) : BenchRun A :=
  match x with inl status => skip_with_error (Status_ToString status) | inr a => mret a end.
Definition or_abort {A} (x : option A) : BenchRun A :=
  match x with None => bench_abort | Some a => mret a end.
Record BenchInputs : Type := mkInputs {
  bench_request_headers : option headers;
  bench_response_headers : option headers;
  bench_request_chunks : list str;
  bench_response_chunks : list str;
}.

Definition request_input : pb.Input :=
  default pb.no_input (pb.input <$> pb.request_headers cfg).

(** The inputs; the response headers too are parsed from the input of
    [request_headers]. *)
Definition bench_inputs : BenchRun BenchInputs :=
  request_headers ←
    match pb.request_headers cfg with
    | Some _ => h ← bm_ok (ParseHeaders env request_input true); mret (Some h)
    | None => mret None
    end;
  response_headers ←
    match pb.response_headers cfg with
    | Some _ => h ← bm_ok (ParseHeaders env request_input false); mret (Some h)
    | None => mret None
    end;
  request_body ← or_abort (PrepBodyCallbackBenchmark cfg (pb.request_body cfg));
  request_body_chunks ← bm_ok request_body;
  response_body ← or_abort (PrepBodyCallbackBenchmark cfg (pb.response_body cfg));
  response_body_chunks ← bm_ok response_body;
  mret (mkInputs request_headers response_headers request_body_chunks response_body_chunks).

(** ** Statistics *)

Context `{BenchHost}.

(** On Linux. *)
Definition GetResidentMemoryUsageBytes (memory : Z * Z) : StatusOr Z :=
  let '(data, size) := memory in
  if decide (data = 0%Z) then inl (InvalidArgumentError "Memory is null."%str)
  else if decide (size = 0%Z) then inr 0%Z
  else if decide (sysconf_PAGESIZE <= 0)%Z then
    inl (InternalError "Failed to determine system page size."%str)
  else
    let kPageSize := sysconf_PAGESIZE in
    if decide (data mod kPageSize <> 0)%Z then inl (InvalidArgumentError "Memory is not aligned."%str)
    else
      let num_pages := (wrap64 (size + kPageSize - 1) / kPageSize)%Z in
      match mincore data size with
      | inl errno => inl (ErrnoToStatus errno "mincore failed."%str)
      | inr page_status =>
          let resident_pages :=
            length (List.filter (λ status, Z.testbit status 0) (take (Z.to_nat num_pages) page_status)) in
          inr (wrap64 (Z.of_nat resident_pages * kPageSize))
      end.

(** [stats]: the bytes and entries the context has logged. *)
Definition EmitStats (handle : PluginHandle) (stats : Z * Z) : list BenchCall :=
  let memory_size := getMemorySize (plugin handle) in
  let '(logging_bytes, logging_entries) := stats in
  let rest :=
    [Counter "LogsSizeB"%str logging_bytes; Counter "LogEntries"%str logging_entries;
     Counter "WasmSizeB"%str (file_size (pb.wasm_path env))] in
  Counter "WasmMemoryVsz"%str memory_size ::
  match getMemory (plugin handle) memory_size with
  | None => rest
  | Some memory_view =>
      match GetResidentMemoryUsageBytes memory_view with
      | inr resident_memory_bytes => Counter "WasmMemoryRss"%str resident_memory_bytes :: rest
      | inl status =>
          if decide (status_code status <> kUnimplemented) then
            [SkipWithError (Status_ToString status)]
          else rest
      end
  end.

(** [BM_RETURN_IF_FAILED] *)
Definition vm_failed_return {A} : BenchRun A := skip_with_error "VM failed!"%str.
Definition bm_return_if_failed (failed : bool) : BenchRun unit :=
  if failed then vm_failed_return else mret tt.

(** ** [BenchPluginLifecycle] *)

(** The loop, [n] rounds of it. *)
Fixpoint plugin_rounds (n : nat) (first : bool) (handle : PluginHandle) : BenchRun unit :=
  match n with
  | 0 => mret tt
  | S n =>
      bm_ok (InitializePlugin handle) ;;
      (if first then
         match root_logs (plugin handle) with
         | None => bench_abort
         | Some _ => tell (EmitStats handle (root_log_stats (plugin handle)))
         end
       else mret tt) ;;
      bm_return_if_failed (init_fails (plugin handle) || shutdown_fails (plugin handle)) ;;
      plugin_rounds n false
        (mkHandle (restarted (plugin handle)) (configuration handle) (options handle))
  end.

Definition BenchPluginLifecycle (n : nat) : BenchRun unit :=
  handle ← bm_ok (LoadWasm engine env true);
  plugin_rounds n true handle.

(** ** The streams of a benchmark *)

Section streams.
Context (handle : PluginHandle).
Abbreviation stream := (stream handle).
Context (request_headers_ response_headers_ : option headers)
  (request_body_chunks_ response_body_chunks_ : option (list str)).

(** Whether the VM has failed, the additional streams, and the measured one. *)
Record Streams : Type := mkStreams {
  has_failed : bool;
  additional_streams : list (AdditionalStream handle);
  own : StreamPtr stream;
}.

Definition is_dead (p : StreamPtr stream) : bool :=
  match p with Dead => true | _ => false end.

(** [additional_streams[i].Advance()] *)
Definition advance_stream (i : nat) (b : Streams) : BenchRun Streams :=
  s ← or_abort (additional_streams b !! i);
  r ← or_abort (Advance handle cfg request_headers_ response_headers_ request_body_chunks_
                  response_body_chunks_ (has_failed b) s);
  s ← bm_ok r;
  mret (mkStreams (has_failed b || is_dead (stream_ handle s))
          (<[i := s]> (additional_streams b)) (own b)).

Fixpoint advance_times (times i : nat) (b : Streams) : BenchRun Streams :=
  match times with
  | 0 => mret b
  | S times => b ← advance_stream i b; advance_times times i b
  end.

(** [k] additional streams, each advanced some times. *)
Fixpoint add_streams (k times : nat) (b : Streams) : BenchRun Streams :=
  match k with
  | 0 => mret b
  | S k =>
      b ← advance_times times (length (additional_streams b))
            (mkStreams (has_failed b) (additional_streams b ++ [new_additional_stream handle]) (own b));
      add_streams k times b
  end.

(** A fraction of the additional streams; [draw] numbers are drawn before. *)
Fixpoint advance_random (rate draw : nat) (b : Streams) : BenchRun Streams :=
  match rate with
  | 0 => mret b
  | S rate =>
      b ← advance_stream (Uniform draw (length (additional_streams b))) b;
      advance_random rate (S draw) b
  end.

(** [stream.emplace(handle, &cfg_)] destroys the old stream and constructs a
    new one. *)
Definition emplace (b : Streams) : Streams :=
  let failed := has_failed b ||
    match own b with Live st => bool_decide (tear_down handle st = None) | _ => false end in
  match in_vm failed (new_stream cfg handle) with
  | Some st => mkStreams failed (additional_streams b) (Live st)
  | None => mkStreams true (additional_streams b) Dead
  end.

(** A call on the measured stream and the check of the VM. *)
Definition on_own (send : stream -> option (Result * stream)) (b : Streams) : BenchRun Streams :=
  match own b with
  | NoStream => bench_abort
  | Dead => vm_failed_return
  | Live st =>
      match in_vm (has_failed b) (send st) with
      | None => vm_failed_return
      | Some (_, st) => mret (mkStreams (has_failed b) (additional_streams b) (Live st))
      end
  end.

Definition send_own_headers (send : headers -> stream -> option (Result * stream))
    (m : option headers) (b : Streams) : BenchRun Streams :=
  match m with Some m => on_own (send m) b | None => mret b end.

Fixpoint send_own_body (send : str -> bool -> stream -> option (Result * stream))
    (chunks : list str) (b : Streams) : BenchRun Streams :=
  match chunks with
  | [] => mret b
  | chunk :: chunks =>
      b ← on_own (send chunk (bool_decide (chunks = []))) b;
      send_own_body send chunks b
  end.

(** What the measured stream has logged; an empty [std::optional] aborts. *)
Definition own_stats (b : Streams) : BenchRun (Z * Z) :=
  match own b with
  | NoStream => bench_abort
  | Dead => mret failed_log_stats
  | Live st => mret (logging_bytes st.2, logging_entries st.2)
  end.

(** One round of [BenchHttpHandlers]. *)
Definition handlers_round (rate draw : nat) (b : Streams) : BenchRun Streams :=
  tell [PauseTiming] ;;
  let b := emplace b in
  b ← (if decide (additional_streams b = []) then mret b else advance_random rate draw b);
  tell [ResumeTiming] ;;
  b ← send_own_headers (send_request_headers handle) request_headers_ b;
  b ← send_own_body (send_request_body handle) (default [] request_body_chunks_) b;
  b ← send_own_headers (send_response_headers handle) response_headers_ b;
  send_own_body (send_response_body handle) (default [] response_body_chunks_) b.

Fixpoint handlers_rounds (n rate draw : nat) (b : Streams) : BenchRun Streams :=
  match n with
  | 0 => mret b
  | S n => b ← handlers_round rate draw b; handlers_rounds n rate (draw + rate) b
  end.

(** The loop of [BenchStreamLifecycle]. *)
Fixpoint lifecycle_rounds (n : nat) (first : bool) (b : Streams) : BenchRun unit :=
  match n with
  | 0 => mret tt
  | S n =>
      let b := emplace (mkStreams (has_failed b) (additional_streams b) NoStream) in
      bm_return_if_failed (has_failed b) ;;
      let b :=
        match own b with
        | Live st =>
            match in_vm (has_failed b) (tear_down handle st) with
            | Some st => mkStreams (has_failed b) (additional_streams b) (Live st)
            | None => mkStreams true (additional_streams b) Dead
            end
        | _ => b
        end in
      (if first then stats ← own_stats b; tell (EmitStats handle stats) else mret tt) ;;
      lifecycle_rounds n false b
  end.
End streams.
Arguments mkStreams {handle}.
Arguments has_failed {handle}.
Arguments additional_streams {handle}.
Arguments own {handle}.

Definition load_plugin : BenchRun PluginHandle :=
  handle ← bm_ok (LoadWasm engine env true);
  bm_ok (InitializePlugin handle) ;;
  bm_return_if_failed (init_fails (plugin handle)) ;;
  mret handle.

Definition num_additional : nat := Z.to_nat (pb.num_additional_streams env).

Definition BenchStreamLifecycle (n : nat) : BenchRun unit :=
  handle ← load_plugin;
  b ← add_streams handle None None None None num_additional 1 (mkStreams false [] NoStream);
  lifecycle_rounds handle n true b.

(** Three by default; the number of the configuration is converted to [int]. *)
Definition advance_rate : nat :=
  if decide (0 < pb.additional_stream_advance_rate env)%Z
  then Z.to_nat (to_int (pb.additional_stream_advance_rate env)) else 3.

Definition BenchHttpHandlers (n : nat) : BenchRun unit :=
  handle ← load_plugin;
  inputs ← bench_inputs;
  let m := bench_request_headers inputs in
  let m' := bench_response_headers inputs in
  let chunks := Some (bench_request_chunks inputs) in
  let chunks' := Some (bench_response_chunks inputs) in
  b ← add_streams handle m m' chunks chunks' num_additional 2 (mkStreams false [] NoStream);
  b ← handlers_rounds handle m m' chunks chunks' n advance_rate 0 b;
  stats ← own_stats handle b;
  tell (EmitStats handle stats).
End bench.
Arguments mkStreams {handle}.
Arguments has_failed {handle}.
Arguments additional_streams {handle}.
Arguments own {handle}.

(** ** The inputs of a benchmark *)

(** A test with other response headers. *)
Definition with_response_headers (invocation : pb.Invocation) (cfg : pb.Test) : pb.Test :=
  pb.mkTest (pb.name cfg) (pb.benchmark cfg) (pb.body_chunking_plan cfg) (pb.properties cfg)
    (pb.request_headers cfg) (pb.request_body cfg) (Some invocation) (pb.response_body cfg)
    (pb.plugin_init cfg) (pb.stream_init cfg) (pb.stream_destroy cfg).

Section bench_properties.
Context `{!Caseless} `{!Absl} `{!Re2} `{!RunnerLibs} `{!HttpParser}.
Context (env : pb.Env).

Lemma prep_invocations_plan cfg cfg' invs chunks :
  pb.body_chunking_plan cfg = pb.body_chunking_plan cfg' ->
  prep_invocations env cfg cfg invs chunks = prep_invocations env cfg' cfg' invs chunks.
Proof.
  intros Hplan. revert chunks. induction invs as [|inv invs IH]; intros chunks; cbn; [done|].
  destruct (ParseBodyInput _ _) as [|b]; [done|]. rewrite Hplan.
  destruct (pb.body_chunking_plan cfg') eqn:Hp; [|apply IH].
  replace (ChunkBody b cfg') with (ChunkBody b cfg) by (unfold ChunkBody; by rewrite Hplan, Hp).
  destruct (ChunkBody b cfg); [apply IH|done].
Qed.

(** A benchmark of the handlers never reads the input of the response
    headers: whatever the test says of it, the plugin is measured on the
    request's input parsed as a response, and a test whose two inputs are read
    with different results is not measured on its own response. *)
Theorem bench_inputs_ignore_response cfg inv inv' :
  bench_inputs env (with_response_headers inv cfg) =
    bench_inputs env (with_response_headers inv' cfg) /\
  forall inputs, bench_flow (bench_inputs env (with_response_headers inv cfg)) = BenchGoesOn inputs ->
    exists m, bench_response_headers inputs = Some m /\
      ParseHeaders env (default pb.no_input (pb.input <$> pb.request_headers cfg)) false = inr m.
Proof.
  split.
  - unfold bench_inputs, PrepBodyCallbackBenchmark, request_input. cbn.
    by rewrite !(prep_invocations_plan (with_response_headers inv cfg) (with_response_headers inv' cfg)).
  - unfold bench_inputs, request_input. cbn. intros inputs Hin.
    apply bench_bind_goes in Hin as (req & _ & Hin).
    apply bench_bind_goes in Hin as (resp & Hresp & Hin).
    apply bench_bind_goes in Hresp as (m & Hm & [= <-]).
    apply bench_bind_goes in Hin as (? & _ & Hin).
    apply bench_bind_goes in Hin as (? & _ & Hin).
    apply bench_bind_goes in Hin as (? & _ & Hin).
    apply bench_bind_goes in Hin as (? & _ & [= <-]).
    exists m. split; [done|]. unfold bm_ok in Hm. destruct (ParseHeaders _ _ _); [done|].
    by injection Hm as ->.
Qed.
End bench_properties.

(** ** What a benchmark measures *)

(** The function does not abort, and if it goes on, its value satisfies [Q]. *)
Definition runs {A} (m : BenchRun A) (Q : A -> Prop) : Prop :=
  match bench_flow m with
  | BenchAborts => False
  | BenchReturns => True
  | BenchGoesOn a => Q a
  end.

Lemma runs_bind {A B} (m : BenchRun A) (f : A -> BenchRun B) P Q :
  runs m P -> (forall a, P a -> runs (f a) Q) -> runs (m ≫= f) Q.
Proof.
  unfold runs, mbind, BenchRun_bind. destruct (bench_flow m) as [| |a]; cbn; intros Hm Hf; [done..|exact (Hf a Hm)].
Qed.

Lemma runs_bm_ok `{Re2} `{!RunnerLibs} {A} (x : StatusOr A) (Q : A -> Prop) :
  (forall a, x = inr a -> Q a) -> runs (bm_ok x) Q.
Proof. destruct x as [st|a]; cbn; auto. Qed.

Lemma runs_any {A} (m : BenchRun A) : bench_flow m <> BenchAborts -> runs m (λ _, True).
Proof. unfold runs. by destruct (bench_flow m). Qed.

Section measured_streams.
Context `{!Caseless} `{!Absl} `{!HostAbi} `{!Re2} `{!RunnerLibs} `{!WasmHost} `{!BenchHost}.
Context (cfg : pb.Test) (handle : PluginHandle).
Context (m m' : option headers) (c c' : option (list str)).

Abbreviation bench_streams := (Streams handle).
Abbreviation acts := (acts handle cfg).
Abbreviation measured := (measured handle m m' c c').
Abbreviation script := (script handle m m' c c').

(** *** The calls on the measured stream *)

Definition sends : list (Action handle) :=
  headers_actions handle (send_request_headers handle) m ++
  body_actions handle (send_request_body handle) (default [] c) ++
  headers_actions handle (send_response_headers handle) m' ++
  body_actions handle (send_response_body handle) (default [] c').

(** What actions on the measured stream come to. *)
Definition perform (l : list (Action handle)) (b : bench_streams) : BenchRun bench_streams :=
  match acts (has_failed b) l (own b) with
  | inl _ => vm_failed_return
  | inr p => mret (mkStreams (has_failed b) (additional_streams b) p)
  end.

Lemma perform_app l l' b : perform (l ++ l') b = perform l b ≫= perform l'.
Proof.
  unfold perform. rewrite acts_app. destruct (acts (has_failed b) l (own b)) as [st|p]; [done|].
  unfold mbind, BenchRun_bind. cbn. by destruct (acts _ l' p).
Qed.

Lemma perform_cons a l b : perform (a :: l) b = perform [a] b ≫= perform l.
Proof. exact (perform_app [a] l b). Qed.

Lemma perform_nil b : perform [] b = mret b.
Proof. by destruct b. Qed.

Lemma acts_sends failed send p p' : acts failed [Sends handle send] p = inr p' -> p' <> NoStream.
Proof. destruct p as [|st|]; cbn; [done| |done]. destruct (in_vm failed (send st)) as [[]|]; [|done]. by intros [= <-]. Qed.

Lemma on_own_perform send b :
  own b <> NoStream -> on_own handle send b = perform [Sends handle send] b.
Proof.
  intros Hown. unfold on_own, perform. destruct (own b) as [|st|] eqn:Ho; [done| |done]. cbn.
  by destruct (in_vm (has_failed b) (send st)) as [[]|].
Qed.

Lemma send_own_headers_perform send hs b :
  own b <> NoStream -> send_own_headers handle send hs b = perform (headers_actions handle send hs) b.
Proof. intros Hown. destruct hs; [by apply on_own_perform|symmetry; apply perform_nil]. Qed.

(** The stream is there after a call on it. *)
Lemma perform_then {A} l b (f g : bench_streams -> BenchRun A) :
  (forall p, acts (has_failed b) l (own b) = inr p -> p <> NoStream) ->
  (forall b', own b' <> NoStream -> f b' = g b') -> perform l b ≫= f = perform l b ≫= g.
Proof.
  intros Hl Hfg. unfold perform. destruct (acts _ l _) as [st|p]; [done|].
  unfold mbind, BenchRun_bind. cbn. rewrite Hfg; [done|]. by apply Hl.
Qed.

Lemma send_own_body_perform send chunks b :
  own b <> NoStream -> send_own_body handle send chunks b = perform (body_actions handle send chunks) b.
Proof.
  revert b. induction chunks as [|chunk chunks IH]; intros b Hown; [symmetry; apply perform_nil|].
  rewrite body_actions_cons. rewrite perform_cons. cbn [send_own_body].
  rewrite on_own_perform by done. apply perform_then; [apply acts_sends|]. intros b'. apply IH.
Qed.

(** Actions that only send leave a stream. *)
Lemma sends_own failed l p p' :
  Forall (λ a, exists send, a = Sends handle send) l -> p <> NoStream ->
  acts failed l p = inr p' -> p' <> NoStream.
Proof.
  intros Hl. revert p. induction Hl as [|? l (send & ->) _ IH]; intros p Hp; cbn [Bench.acts].
  - by intros [= <-].
  - destruct (act handle cfg failed (Sends handle send) p) as [|q] eqn:Ha; [done|].
    apply IH. apply (acts_sends failed send p). cbn [Bench.acts]. by rewrite Ha.
Qed.

Lemma headers_actions_send send hs :
  Forall (λ a, exists send, a = Sends handle send) (headers_actions handle send hs).
Proof. destruct hs; repeat constructor. by eexists. Qed.

Lemma body_actions_send send chunks :
  Forall (λ a, exists send, a = Sends handle send) (body_actions handle send chunks).
Proof.
  induction chunks as [|chunk chunks IH]; [constructor|]. rewrite body_actions_cons.
  constructor; [by eexists|done].
Qed.

Lemma sends_send : Forall (λ a, exists send, a = Sends handle send) sends.
Proof. unfold sends. rewrite !Forall_app. eauto using headers_actions_send, body_actions_send. Qed.

(** The four calls of a round are the actions of a stream. *)
Lemma round_sends b :
  own b <> NoStream ->
  (b ← send_own_headers handle (send_request_headers handle) m b;
   b ← send_own_body handle (send_request_body handle) (default [] c) b;
   b ← send_own_headers handle (send_response_headers handle) m' b;
   send_own_body handle (send_response_body handle) (default [] c') b) = perform sends b.
Proof.
  intros Hown. unfold sends. rewrite !perform_app, send_own_headers_perform by done.
  apply perform_then; [intros p; apply sends_own; [apply headers_actions_send|done]|].
  intros b1 Hb1. rewrite perform_app, send_own_body_perform by done.
  apply perform_then; [intros p; apply sends_own; [apply body_actions_send|done]|].
  intros b2 Hb2. rewrite perform_app, send_own_headers_perform by done.
  apply perform_then; [intros p; apply sends_own; [apply headers_actions_send|done]|].
  intros b3 Hb3. by apply send_own_body_perform.
Qed.

Lemma measured_sends : measured = Creates handle :: sends.
Proof. reflexivity. Qed.

(** *** Nothing is undefined *)

Definition streams_ok (b : bench_streams) : Prop := Forall (additional_ok handle) (additional_streams b).

(** [b'] has the streams of [b] later in their lives. *)
Definition advanced (b b' : bench_streams) : Prop :=
  streams_ok b' /\ own b' = own b /\ length (additional_streams b') = length (additional_streams b).

Lemma advanced_trans b1 b2 b3 : advanced b1 b2 -> advanced b2 b3 -> advanced b1 b3.
Proof. intros (_ & Ho & Hl) (Hok & Ho' & Hl'). split; [done|]. by rewrite Ho', Hl', Ho, Hl. Qed.

Lemma Advance_performs failed s :
  additional_ok handle s ->
  exists r, Advance handle cfg m m' c c' failed s = Some r /\ performs handle cfg m m' c c' failed s r.
Proof. intros Hok. apply advance_loop_spec; [done|]. destruct (next_action_ handle s); cbn; lia. Qed.

Lemma advance_stream_runs i b :
  streams_ok b -> i < length (additional_streams b) ->
  runs (advance_stream cfg handle m m' c c' i b) (advanced b).
Proof.
  intros Hok Hi. apply lookup_lt_is_Some in Hi as [s Hs]. unfold advance_stream. rewrite Hs.
  pose proof (proj1 (Forall_lookup _ _) Hok _ _ Hs) as Hsok.
  destruct (Advance_performs (has_failed b) s Hsok) as (r & Hr & a & rest & _ & Hp).
  eapply (runs_bind _ _ (λ x, x = s)); [done|]. intros ? ->. rewrite Hr.
  eapply (runs_bind _ _ (λ x, x = r)); [done|]. intros ? ->.
  eapply runs_bind; [apply (runs_bm_ok _ (λ s', r = inr s')); auto|]. intros s' ->.
  unfold runs, mret, BenchRun_ret. cbn [bench_flow].
  split; [|split; [done|apply length_insert]]. apply Forall_insert; [done|].
  destruct (act handle cfg (has_failed b) a (stream_ handle s)) as [|p]; [done|].
  by destruct Hp as (? & [= <-] & Hok' & _).
Qed.

Lemma advance_times_runs times i b :
  streams_ok b -> i < length (additional_streams b) ->
  runs (advance_times cfg handle m m' c c' times i b) (advanced b).
Proof.
  revert b. induction times as [|times IH]; intros b Hok Hi; [done|]. cbn [advance_times].
  eapply runs_bind; [by apply advance_stream_runs|]. intros b1 Hb1.
  assert (runs (advance_times cfg handle m m' c c' times i b1) (advanced b1)) as Hr
    by (destruct Hb1 as (? & _ & Hl); apply IH; [done|by rewrite Hl]).
  revert Hr. unfold runs. destruct (bench_flow _); eauto using advanced_trans.
Qed.

Lemma add_streams_runs k times b :
  streams_ok b ->
  runs (add_streams cfg handle m m' c c' k times b) (λ b', streams_ok b' /\ own b' = own b).
Proof.
  revert b. induction k as [|k IH]; intros b Hok; [done|]. cbn [add_streams].
  eapply runs_bind; [apply advance_times_runs|].
  - apply Forall_app. split; [done|]. by repeat constructor.
  - cbn. rewrite length_app. cbn. lia.
  - intros b1 (Hok1 & Ho & _). specialize (IH b1 Hok1). revert IH. unfold runs.
    destruct (bench_flow _); [done..|]. intros [? Ho']. split; [done|]. by rewrite Ho', Ho.
Qed.

Hypothesis Uniform_range : forall k n, 0 < n -> Uniform k n < n.

Lemma advance_random_runs rate draw b :
  streams_ok b -> additional_streams b <> [] ->
  runs (advance_random cfg handle m m' c c' rate draw b) (advanced b).
Proof.
  revert draw b. induction rate as [|rate IH]; intros draw b Hok Hne; [done|]. cbn [advance_random].
  eapply runs_bind.
  - apply advance_stream_runs; [done|]. apply Uniform_range. by destruct (additional_streams b); [|cbn; lia].
  - intros b1 Hb1. assert (runs (advance_random cfg handle m m' c c' rate (S draw) b1) (advanced b1)) as Hr.
    { destruct Hb1 as (? & _ & Hl). apply IH; [done|]. intros He. rewrite He in Hl. by destruct (additional_streams b). }
    revert Hr. unfold runs. destruct (bench_flow _); eauto using advanced_trans.
Qed.

Lemma emplace_own b : own (emplace cfg handle b) <> NoStream.
Proof. unfold emplace. by destruct (in_vm _ _). Qed.

Lemma emplace_live b st :
  own (emplace cfg handle b) = Live st -> in_vm false (new_stream cfg handle) = Some st.
Proof.
  unfold emplace, in_vm. destruct (has_failed b || _); cbn; [done|].
  destruct (new_stream cfg handle); cbn; congruence.
Qed.

(** If the calls of a round succeed, they do on a new stream. *)
Lemma round_measured failed b p :
  acts failed sends (own (emplace cfg handle b)) = inr p ->
  exists q, acts false measured NoStream = inr q.
Proof.
  rewrite measured_sends. cbn [Bench.acts act]. pose proof sends_send as Hs.
  destruct sends as [|a l]; [by eexists|]. apply Forall_inv in Hs as [send ->]. cbn [Bench.acts act].
  destruct (own (emplace cfg handle b)) as [|st|] eqn:Ho; [done| |done].
  apply emplace_live in Ho as ->. destruct failed; [done|]. intros Ha. exists p. exact Ha.
Qed.

Lemma perform_runs l b :
  runs (perform l b) (λ b', exists p, acts (has_failed b) l (own b) = inr p /\
    b' = mkStreams (has_failed b) (additional_streams b) p).
Proof. unfold perform. destruct (acts _ l _) as [|p]; [done|]. cbn. by exists p. Qed.

Lemma handlers_round_runs rate draw b :
  streams_ok b ->
  runs (handlers_round cfg handle m m' c c' rate draw b) (λ b',
    streams_ok b' /\ own b' <> NoStream /\ exists p, acts false measured NoStream = inr p).
Proof.
  intros Hok. unfold handlers_round. eapply (runs_bind _ _ (λ _, True)); [done|]. intros [] _.
  eapply (runs_bind _ _ (advanced (emplace cfg handle b))).
  { assert (streams_ok (emplace cfg handle b)) as Hok'
      by (unfold emplace; by destruct (in_vm _ _)).
    destruct (decide _) as [He|He]; [by repeat split|by apply advance_random_runs]. }
  intros b1 (Hok1 & Ho & _). eapply (runs_bind _ _ (λ _, True)); [done|]. intros [] _.
  rewrite round_sends by (rewrite Ho; apply emplace_own).
  pose proof (perform_runs sends b1) as Hr. revert Hr. unfold runs.
  destruct (bench_flow _) as [| |b']; [done..|]. intros (p & Hp & ->). split; [done|]. split.
  - eapply sends_own; [apply sends_send| |exact Hp]. rewrite Ho. apply emplace_own.
  - rewrite Ho in Hp. by eapply round_measured.
Qed.

Lemma handlers_rounds_runs n rate draw b :
  streams_ok b -> 0 < n ->
  runs (handlers_rounds cfg handle m m' c c' n rate draw b) (λ b',
    own b' <> NoStream /\ exists p, acts false measured NoStream = inr p).
Proof.
  revert draw b. induction n as [|n IH]; intros draw b Hok Hn; [lia|]. cbn [handlers_rounds].
  eapply runs_bind; [by apply handlers_round_runs|]. intros b1 (Hok1 & Ho1 & Hp1).
  destruct n as [|n]; [done|]. apply IH; [done|lia].
Qed.

(** *** A plugin whose streams live to their end *)

Hypothesis script_lives : acts false script NoStream = inr NoStream.

Lemma measured_lives :
  exists st0 st, new_stream cfg handle = Some st0 /\ acts false sends (Live st0) = inr (Live st) /\
    acts false measured NoStream = inr (Live st) /\ tear_down handle st <> None.
Proof.
  pose proof script_lives as Hs. rewrite script_measured, acts_app in Hs.
  destruct (acts false measured NoStream) as [|p] eqn:Hm; [done|]. destruct p as [|st|]; [done| |done].
  rewrite measured_sends in Hm. cbn [Bench.acts act] in Hm. unfold in_vm in Hm.
  assert (tear_down handle st <> None) as Ht.
  { revert Hs. cbn. unfold in_vm. by destruct (tear_down handle st). }
  destruct (new_stream cfg handle) as [st0|] eqn:Hn; [by exists st0, st|].
  exfalso. pose proof sends_send as Hsend. destruct sends as [|a l]; [done|].
  apply Forall_inv in Hsend as [send ->]. done.
Qed.

(** A stream that is as far as it can be. *)
Definition alive (s : AdditionalStream handle) : Prop :=
  additional_ok handle s /\ exists l, script = l ++ todo handle m m' c c' s /\
    acts false l NoStream = inr (stream_ handle s).

Lemma new_alive : alive (new_additional_stream handle).
Proof. split; [by repeat split|]. by exists []. Qed.

Lemma act_dead a p p' st0 :
  new_stream cfg handle = Some st0 -> act handle cfg false a p = inr p' -> p' <> Dead.
Proof.
  intros Hn. destruct a as [|send|], p as [|st|]; cbn; unfold in_vm; rewrite ?Hn; try done;
    try (by intros [= <-]).
  - destruct (send st) as [[]|]; [|done]. by intros [= <-].
  - destruct (tear_down handle st); [|done]. by intros [= <-].
Qed.

Lemma alive_advance s :
  alive s -> exists s', Advance handle cfg m m' c c' false s = Some (inr s') /\ alive s' /\
    stream_ handle s' <> Dead.
Proof.
  intros (Hok & l & Hl & Ha). destruct measured_lives as (st0 & _ & Hn & _).
  destruct (Advance_performs false s Hok) as (r & Hr & a & rest & Ht & Hp).
  pose proof script_lives as Hs. rewrite Hl, acts_app, Ha, Ht in Hs. cbn [Bench.acts] in Hs.
  destruct (act handle cfg false a (stream_ handle s)) as [|p] eqn:Hact; [done|].
  destruct Hp as (s' & -> & Hok' & Hs' & Ht'). exists s'. split; [done|].
  split; [|rewrite Hs'; by eapply act_dead]. split; [done|]. rewrite Ht'. destruct rest as [|a' rest].
  - exists []. injection Hs as ->. by rewrite Hs'.
  - exists (l ++ [a]). rewrite <- app_assoc. cbn [app next_todo]. rewrite <- Ht. split; [done|].
    rewrite acts_app, Ha, Hs'. cbn [Bench.acts]. by rewrite Hact.
Qed.

Definition all_alive (b : bench_streams) : Prop :=
  has_failed b = false /\ Forall alive (additional_streams b).

(** The function goes on, silently, with the streams of [b] alive. *)
Definition keeps_alive (b : bench_streams) (r : BenchRun bench_streams) : Prop :=
  exists b', r = mret b' /\ all_alive b' /\ own b' = own b /\
    length (additional_streams b') = length (additional_streams b).

Lemma keeps_alive_refl b : all_alive b -> keeps_alive b (mret b).
Proof. intros Hb. by exists b. Qed.

Lemma keeps_alive_bind b b0 r (f : bench_streams -> BenchRun bench_streams) :
  own b0 = own b -> length (additional_streams b0) = length (additional_streams b) ->
  keeps_alive b0 r -> (forall b1, all_alive b1 ->
    length (additional_streams b1) = length (additional_streams b0) -> keeps_alive b1 (f b1)) ->
  keeps_alive b (r ≫= f).
Proof.
  intros Ho Hl (b1 & -> & Hb1 & Ho1 & Hl1) Hf. destruct (Hf b1 Hb1 Hl1) as (b2 & Hf2 & Hb2 & Ho2 & Hl2).
  exists b2. unfold mbind, BenchRun_bind. cbn. rewrite Hf2. split; [done|]. split; [done|]. split; congruence.
Qed.

Lemma advance_stream_alive i b :
  all_alive b -> i < length (additional_streams b) ->
  keeps_alive b (advance_stream cfg handle m m' c c' i b).
Proof.
  intros [Hf Hall] Hi. apply lookup_lt_is_Some in Hi as [s Hs].
  destruct (alive_advance s) as (s' & Hadv & Hs' & Hd); [by eapply Forall_lookup|].
  unfold advance_stream. rewrite Hs. cbn [or_abort]. unfold mbind at 1, BenchRun_bind at 1. cbn [bench_flow mret BenchRun_ret].
  rewrite Hf, Hadv. eexists. split; [reflexivity|]. cbn [has_failed additional_streams own].
  split; [split; [by destruct (stream_ handle s')|by apply Forall_insert]|].
  split; [done|]. apply length_insert.
Qed.

Lemma advance_times_alive times i b :
  all_alive b -> i < length (additional_streams b) ->
  keeps_alive b (advance_times cfg handle m m' c c' times i b).
Proof.
  revert b. induction times as [|times IH]; intros b Hb Hi; [by apply keeps_alive_refl|].
  cbn [advance_times]. apply (keeps_alive_bind _ b); [done..|by apply advance_stream_alive|].
  intros b1 Hb1 Hl. apply IH; [done|by rewrite Hl].
Qed.

Lemma advance_random_alive rate draw b :
  all_alive b -> additional_streams b <> [] ->
  keeps_alive b (advance_random cfg handle m m' c c' rate draw b).
Proof.
  revert draw b. induction rate as [|rate IH]; intros draw b Hb Hne; [by apply keeps_alive_refl|].
  assert (0 < length (additional_streams b)) as Hlen by (destruct (additional_streams b); [done|cbn; lia]).
  cbn [advance_random]. apply (keeps_alive_bind _ b); [done..|apply advance_stream_alive; auto|].
  intros b1 Hb1 Hl. apply IH; [done|]. intros He. rewrite He in Hl. cbn in Hl. lia.
Qed.

Lemma add_streams_alive k times b :
  all_alive b ->
  exists b', add_streams cfg handle m m' c c' k times b = mret b' /\ all_alive b' /\ own b' = own b.
Proof.
  revert b. induction k as [|k IH]; intros b [Hf Hall]; [by exists b|]. cbn [add_streams].
  destruct (advance_times_alive times (length (additional_streams b))
    (mkStreams (has_failed b) (additional_streams b ++ [new_additional_stream handle]) (own b)))
    as (b1 & -> & Hb1 & Ho1 & _).
  - split; [done|]. apply Forall_app. split; [done|]. constructor; [apply new_alive|done].
  - cbn. rewrite length_app. cbn. lia.
  - destruct (IH b1 Hb1) as (b2 & Hb2 & Hal2 & Ho2). exists b2. rewrite Ho1 in Ho2.
    split; [|done]. unfold mbind, BenchRun_bind. cbn. by rewrite Hb2.
Qed.

(** Before a round: no stream yet, or one that has done all its calls. *)
Definition before_round (st : stream handle) (b : bench_streams) : Prop :=
  all_alive b /\ (own b = NoStream \/ own b = Live st).

Lemma handlers_round_alive st0 st rate draw b :
  new_stream cfg handle = Some st0 -> acts false sends (Live st0) = inr (Live st) ->
  tear_down handle st <> None -> before_round st b ->
  exists b', handlers_round cfg handle m m' c c' rate draw b =
      mkBench (BenchGoesOn b') [PauseTiming; ResumeTiming] /\ all_alive b' /\ own b' = Live st.
Proof.
  intros Hn Hsends Ht [[Hf Hall] Hown].
  assert (emplace cfg handle b = mkStreams false (additional_streams b) (Live st0)) as He.
  { unfold emplace. rewrite Hf. destruct Hown as [->| ->]; cbn; [|rewrite bool_decide_false by done];
      unfold in_vm; by rewrite Hn. }
  unfold handlers_round. rewrite He.
  set (b0 := mkStreams false (additional_streams b) (Live st0)).
  assert (keeps_alive b0 (if decide (additional_streams b0 = []) then mret b0
    else advance_random cfg handle m m' c c' rate draw b0)) as (b1 & -> & Hb1 & Ho1 & _).
  { assert (all_alive b0) by done. destruct (decide _); [by apply keeps_alive_refl|by apply advance_random_alive]. }
  cbn in Ho1. unfold mbind at 1 2 3, BenchRun_bind at 1 2 3. cbn [bench_flow bench_calls tell mret BenchRun_ret].
  rewrite round_sends by (by rewrite Ho1). destruct Hb1 as [Hf1 Hall1]. unfold perform.
  rewrite Hf1, Ho1, Hsends. eexists. split; [reflexivity|]. done.
Qed.

Lemma handlers_rounds_alive st0 st n rate draw b :
  new_stream cfg handle = Some st0 -> acts false sends (Live st0) = inr (Live st) ->
  tear_down handle st <> None -> before_round st b -> 0 < n ->
  exists b', handlers_rounds cfg handle m m' c c' n rate draw b =
      mkBench (BenchGoesOn b') (concat (replicate n [PauseTiming; ResumeTiming])) /\ own b' = Live st.
Proof.
  intros Hn Hsends Ht. revert draw b. induction n as [|n IH]; intros draw b Hb Hpos; [lia|].
  cbn [handlers_rounds].
  destruct (handlers_round_alive st0 st rate draw b Hn Hsends Ht Hb) as (b1 & -> & Hb1 & Ho1).
  unfold mbind, BenchRun_bind. cbn [bench_flow bench_calls].
  destruct n as [|n]; [by exists b1|].
  destruct (IH (draw + rate) b1) as (b2 & -> & Ho2); [split; [done|by right]|lia|]. by exists b2.
Qed.
End measured_streams.

Section benchmarks.
Context `{!Caseless} `{!Absl} `{!HostAbi} `{!Re2} `{!RunnerLibs} `{!HttpParser} `{!WasmHost} `{!BenchHost}.
Context (engine : str) (env : pb.Env) (cfg : pb.Test).

(** What the measured streams and the additional ones are given. *)
Definition measured_of (handle : PluginHandle) (i : BenchInputs) : list (Action handle) :=
  measured handle (bench_request_headers i) (bench_response_headers i)
    (Some (bench_request_chunks i)) (Some (bench_response_chunks i)).
Definition script_of (handle : PluginHandle) (i : BenchInputs) : list (Action handle) :=
  script handle (bench_request_headers i) (bench_response_headers i)
    (Some (bench_request_chunks i)) (Some (bench_response_chunks i)).

(** Inputs that are read leave no trace. *)
Lemma bench_inputs_silent i :
  bench_flow (bench_inputs env cfg) = BenchGoesOn i -> bench_inputs env cfg = mret i.
Proof.
  unfold bench_inputs, bm_ok, or_abort, skip_with_error, bench_abort, mbind, BenchRun_bind, mret, BenchRun_ret.
  destruct (pb.request_headers cfg); [destruct (ParseHeaders env (request_input cfg) true)|];
    try discriminate;
    (destruct (pb.response_headers cfg); [destruct (ParseHeaders env (request_input cfg) false)|];
      try discriminate);
    (destruct (PrepBodyCallbackBenchmark env cfg cfg (pb.request_body cfg)) as [[]|]; try discriminate);
    (destruct (PrepBodyCallbackBenchmark env cfg cfg (pb.response_body cfg)) as [[]|]; try discriminate);
    cbn; congruence.
Qed.

Lemma load_plugin_runs :
  runs (load_plugin engine env) (λ handle, LoadWasm engine env true = inr handle).
Proof.
  unfold load_plugin. eapply runs_bind; [apply (runs_bm_ok _ (λ h, LoadWasm engine env true = inr h)); auto|].
  intros handle Hl. eapply runs_bind; [apply (runs_bm_ok _ (λ _, True)); auto|]. intros _ _.
  eapply (runs_bind _ _ (λ _, True)); [by destruct (init_fails _)|]. done.
Qed.


(** The whole benchmark, for streams that live to their end. *)
Lemma BenchHttpHandlers_runs_to_end handle inputs n :
  (forall k size, 0 < size -> Uniform k size < size) -> 0 < n ->
  LoadWasm engine env true = inr handle -> InitializePlugin handle = inr tt ->
  init_fails (plugin handle) = false ->
  bench_flow (bench_inputs env cfg) = BenchGoesOn inputs ->
  acts handle cfg false (script_of handle inputs) NoStream = inr NoStream ->
  exists st, acts handle cfg false (measured_of handle inputs) NoStream = inr (Live st) /\
    BenchHttpHandlers engine env cfg n =
      mkBench (BenchGoesOn tt)
        (concat (replicate n [PauseTiming; ResumeTiming]) ++
         EmitStats env handle (logging_bytes st.2, logging_entries st.2)).
Proof.
  intros Huniform Hn Hload Hinit Hfails Hin Hs.
  destruct (measured_lives cfg handle _ _ _ _ Hs) as (st0 & st & Hnew & Hsends & Hm & Ht).
  exists st. split; [exact Hm|]. unfold BenchHttpHandlers, load_plugin.
  rewrite Hload. cbn [bm_ok]. unfold mbind, BenchRun_bind. cbn [bench_flow bench_calls mret BenchRun_ret].
  rewrite Hinit, Hfails. cbn [bm_ok bm_return_if_failed bench_flow bench_calls mret BenchRun_ret].
  rewrite (bench_inputs_silent inputs Hin). cbn [bench_flow bench_calls mret BenchRun_ret].
  destruct (add_streams_alive cfg handle _ _ _ _ Hs (num_additional env) 2
    (mkStreams false [] NoStream)) as (b & Hb & Hal & Hown); [done|].
  rewrite Hb. cbn [bench_flow bench_calls mret BenchRun_ret].
  destruct (handlers_rounds_alive cfg handle _ _ _ _ Huniform Hs st0 st n (advance_rate env) 0 b)
    as (b' & Hb' & Hown'); [done..|split; [done|by left]|done|].
  rewrite Hb'. cbn [bench_flow bench_calls]. unfold own_stats. rewrite Hown'. cbn. done.
Qed.


(** The life of a stream is measured without an error; the statistics are
    those after the first one was torn down. *)
Lemma lifecycle_round_lives handle st0 st n first (b : Streams handle) :
  has_failed b = false -> new_stream cfg handle = Some st0 -> tear_down handle st0 = Some st ->
  lifecycle_rounds env cfg handle (S n) first b =
    (tell (if first then EmitStats env handle (logging_bytes st.2, logging_entries st.2) else []) ;;
     lifecycle_rounds env cfg handle n false (mkStreams false (additional_streams b) (Live st))).
Proof.
  intros Hf Hnew Htear. cbn [lifecycle_rounds]. unfold emplace.
  cbn [own has_failed additional_streams]. rewrite Hf. unfold in_vm. cbn [orb]. rewrite Hnew.
  cbn [own has_failed additional_streams]. rewrite Htear. by destruct first.
Qed.

Lemma lifecycle_rounds_lives handle st0 st n first (b : Streams handle) :
  has_failed b = false -> new_stream cfg handle = Some st0 -> tear_down handle st0 = Some st ->
  lifecycle_rounds env cfg handle (S n) first b =
    mkBench (BenchGoesOn tt)
      (if first then EmitStats env handle (logging_bytes st.2, logging_entries st.2) else []).
Proof.
  intros Hf Hnew Htear. revert first b Hf. induction n as [|n IH]; intros first b Hf;
    rewrite (lifecycle_round_lives handle st0 st) by done; [|rewrite IH by done];
    unfold mbind, BenchRun_bind; cbn; by rewrite app_nil_r.
Qed.

Lemma BenchStreamLifecycle_lives handle st0 st n :
  LoadWasm engine env true = inr handle -> InitializePlugin handle = inr tt ->
  init_fails (plugin handle) = false ->
  new_stream cfg handle = Some st0 -> tear_down handle st0 = Some st ->
  BenchStreamLifecycle engine env cfg (S n) =
    mkBench (BenchGoesOn tt) (EmitStats env handle (logging_bytes st.2, logging_entries st.2)).
Proof.
  intros Hload Hinit Hfails Hnew Htear.
  assert (acts handle cfg false (script handle None None None None) NoStream = inr NoStream) as Hs
    by (cbn; unfold in_vm; rewrite Hnew; by rewrite Htear).
  unfold BenchStreamLifecycle, load_plugin.
  rewrite Hload. cbn [bm_ok]. unfold mbind, BenchRun_bind. cbn [bench_flow bench_calls mret BenchRun_ret].
  rewrite Hinit, Hfails. cbn [bm_ok bm_return_if_failed bench_flow bench_calls mret BenchRun_ret].
  destruct (add_streams_alive cfg handle _ _ _ _ Hs (num_additional env) 1
    (mkStreams false [] NoStream)) as (b & Hb & [Hf _] & Hown); [done|].
  rewrite Hb. cbn [bench_flow bench_calls mret BenchRun_ret].
  by rewrite (lifecycle_rounds_lives handle st0 st n true b).
Qed.

(** A resident set is made of pages of the memory. *)
Lemma GetResidentMemoryUsageBytes_bounds data size r :
  (0 <= size)%Z -> (0 < sysconf_PAGESIZE)%Z -> (size + sysconf_PAGESIZE - 1 < 2 ^ 64)%Z ->
  GetResidentMemoryUsageBytes (data, size) = inr r ->
  (0 <= r <= size + sysconf_PAGESIZE - 1)%Z /\ (r mod sysconf_PAGESIZE = 0)%Z.
Proof.
  intros Hs Hpage Hp. unfold GetResidentMemoryUsageBytes. destruct (decide (data = 0%Z)); [discriminate|].
  destruct (decide (size = 0%Z)) as [->|]; [intros [= <-]; split; [lia|by apply Z.mod_0_l; lia]|].
  destruct (decide (sysconf_PAGESIZE <= 0)%Z); [discriminate|].
  destruct (decide _); [discriminate|]. destruct (mincore data size) as [|pages]; [discriminate|].
  intros [= <-]. unfold wrap64 at 2 4 6. rewrite (Z.mod_small (size + sysconf_PAGESIZE - 1)) by lia.
  set (num := ((size + sysconf_PAGESIZE - 1) / sysconf_PAGESIZE)%Z).
  set (l := List.filter _ _).
  assert (0 <= num)%Z by (apply Z.div_pos; lia).
  assert (length l <= Z.to_nat num) as Hl.
  { etransitivity; [apply List.filter_length_le|]. rewrite length_take. lia. }
  assert (num * sysconf_PAGESIZE <= size + sysconf_PAGESIZE - 1)%Z
    by (rewrite Z.mul_comm; apply Z.mul_div_le; lia).
  assert (Z.of_nat (length l) * sysconf_PAGESIZE <= num * sysconf_PAGESIZE)%Z
    by (apply Z.mul_le_mono_nonneg_r; lia).
  unfold wrap64. rewrite Z.mod_small by (split; [apply Z.mul_nonneg_nonneg|]; lia).
  split; [split; [apply Z.mul_nonneg_nonneg|]; lia|]. apply Z.mod_mul. lia.
Qed.
End benchmarks.

(** ** Witnesses *)

Section witnesses.
#[local] Existing Instances caseless_ref absl_ref abi_ref sdk_ref re2_ref runner_ref http_ref wasm_ref.

(** A request parses, and its input is what is sent as the response. *)
Lemma bench_inputs_ignore_response_witness :
  exists inputs m,
    bench_flow (bench_inputs hello_env (with_response_headers hello_invocation (hello_test []))) =
      BenchGoesOn inputs /\ bench_response_headers inputs = Some m.
Proof.
  destruct (bench_flow (bench_inputs hello_env (with_response_headers hello_invocation (hello_test []))))
    as [| |inputs] eqn:Hb; [vm_compute in Hb; discriminate..|].
  pose proof (bench_inputs_ignore_response hello_env (hello_test []) hello_invocation
    hello_invocation) as [_ Hw].
  destruct (Hw inputs Hb) as (m & Hm & _). exists inputs, m. exact (conj eq_refl Hm).
Defined.

(** Two additional streams that take turns, on Linux pages. *)
Definition bench_host_ref : BenchHost := {|
  sysconf_PAGESIZE := 4096%Z;
  mincore _ _ := inr [1; 0]%Z;
  ErrnoToStatus _ := InternalError;
  getMemorySize _ := 8192%Z;
  getMemory _ size := Some (4096, size)%Z;
  file_size _ := 100%Z;
  root_log_stats _ := (0, 0)%Z;
  failed_log_stats := (0, 0)%Z;
  restarted p := p;
  Uniform k n := k mod n;
|}.
#[local] Existing Instance bench_host_ref.

Definition bench_env : pb.Env := pb.mkEnv [] "local_reply.wasm"%str [] 0 [] 0 2 1.
Definition bench_handle : PluginHandle := mkHandle local_reply_plugin [] (mkOptions None default_clock_time).
Definition demo_inputs : BenchInputs :=
  match bench_flow (bench_inputs bench_env (hello_test [])) with
  | BenchGoesOn i => i
  | _ => mkInputs None None [] []
  end.

Lemma Uniform_ref k size : 0 < size -> Uniform k size < size.
Proof. intros Hs. apply Nat.mod_upper_bound. lia. Qed.


End witnesses.
