(* ===== verification/Main.v ===== *)
(** * The command line of the runner

    plugins/test/runner_main.cc: the configuration of a run is read from one of
    two files, flags override parts of it; every test of the suite is
    registered with gtest for every engine, and the exit status of the program
    is the verdict. *)

From S2P Require Import Prelude Absl Headers Host Framework ThirdParty YamlProto Pb Gtest Expect Inputs Vm Runner Bench BenchRuns.

Record Flags : Type := mkFlags {
  FLAGS_proto : str;
  FLAGS_yaml : str;
  FLAGS_plugin : str;
  FLAGS_config : str;
  FLAGS_logfile : str;
  FLAGS_loglevel : Z;
  FLAGS_test : bool;
  FLAGS_bench : bool;
  FLAGS_num_additional_streams : Z;
  FLAGS_additional_stream_advance_rate : Z;
}.

Inductive InputFormat : Type := TEXTPROTO | YAML | UNKNOWN.

Section runner_main.
Context `{Absl} `{Re2} `{!RunnerLibs} `{YamlCpp} `{!Protobuf}.
(** [TextFormat::ParseFromString] *)
Context (ParseFromString : str -> option pb.TestSuite).

(** The file to read and its format. *)
Definition input_file (flags : Flags) : StatusOr (str * InputFormat) :=
  let '(cfg_path, format) :=
    if bool_decide (FLAGS_proto flags <> []) then (FLAGS_proto flags, TEXTPROTO)
    else ([], UNKNOWN) in
  if bool_decide (FLAGS_yaml flags <> []) then
    match format with
    | UNKNOWN => inr (FLAGS_yaml flags, YAML)
    | _ => inl (InvalidArgumentError "Cannot specify both --proto and --yaml flags"%str)
    end
  else
    match format with
    | UNKNOWN => inl (InvalidArgumentError "Either --proto or --yaml flag is required."%str)
    | _ => inr (cfg_path, format)
    end.

Definition parse_suite (format : InputFormat) (cfg_bytes : str) : StatusOr pb.TestSuite :=
  match format with
  | TEXTPROTO =>
      match ParseFromString cfg_bytes with
      | Some tests => inr tests
      | None => inl (InvalidArgumentError "Failed to parse input textproto"%str)
      end
  | YAML =>
      match ConvertYamlToTestSuite cfg_bytes with
      | inl status =>
          inl (InvalidArgumentError
                 (StrCat ["Failed to parse input YAML: "%str; status_message status]))
      | inr suite => inr (pb.TestSuite_of suite)
      end
  | UNKNOWN => inl (InvalidArgumentError "Unsupported input format"%str)
  end.

(** The flags that are given replace the settings of the file. *)
Definition apply_flags (flags : Flags) (cfg_path : str) (env : pb.Env) : pb.Env :=
  pb.mkEnv cfg_path
    (if bool_decide (FLAGS_plugin flags <> []) then FLAGS_plugin flags else pb.wasm_path env)
    (if bool_decide (FLAGS_config flags <> []) then FLAGS_config flags else pb.config_path env)
    (if decide (FLAGS_loglevel flags <> 0%Z) then FLAGS_loglevel flags else pb.log_level env)
    (if bool_decide (FLAGS_logfile flags <> []) then FLAGS_logfile flags else pb.log_path env)
    (pb.time_secs env)
    (if decide (0 < FLAGS_num_additional_streams flags)%Z
     then FLAGS_num_additional_streams flags else pb.num_additional_streams env)
    (if decide (0 < FLAGS_additional_stream_advance_rate flags)%Z
     then FLAGS_additional_stream_advance_rate flags else pb.additional_stream_advance_rate env).

Definition ParseInputs (flags : Flags) : StatusOr pb.TestSuite :=
  match input_file flags with
  | inl status => inl status
  | inr (cfg_path, format) =>
      match ReadDataFile cfg_path with
      | inl status => inl status
      | inr cfg_bytes =>
          match parse_suite format cfg_bytes with
          | inl status => inl status
          | inr tests =>
              inr (pb.mkTestSuite (apply_flags flags cfg_path (pb.env tests)) (pb.test tests))
          end
      end
  end.

(** ** [RunTests] and [main] *)

Context `{!Caseless} `{!HostAbi} `{!HttpParser} `{!WasmHost} `{!BenchHost}.
(** [getWasmEngines]; what a call during which the VM fails had logged. *)
Context (engines : list str) (logs_of_failed_call : str -> pb.Test -> list str).

(** What [RegisterTest] is given: the names and the body. *)
Record RegisteredTest : Type := mkRegistered {
  suite_name : str;
  test_name : str;
  test_body : GTest unit;
}.

(** [RUN_ALL_TESTS]: [None] if a test aborts the process. *)
Context (RUN_ALL_TESTS : list RegisteredTest -> option Z).

(** A benchmark by its name, for the number of rounds that the library
    chooses. *)
Record Benchmark : Type := mkBenchmark {
  benchmark_name : str;
  benchmark_body : nat -> BenchRun unit;
}.

Inductive Event : Type :=
  | Prints (text : str)
  | RunsBenchmarks (l : list Benchmark).

Definition register_benchmarks (engine : str) (env : pb.Env) (test : pb.Test) (have_benchmarks : bool)
    : list Benchmark :=
  (if have_benchmarks then []
   else [mkBenchmark (Substitute "Bench_$0.PluginLifecycle"%str [engine])
           (BenchPluginLifecycle engine env);
         mkBenchmark (Substitute "Bench_$0.StreamLifecycle"%str [engine])
           (BenchStreamLifecycle engine env test)]) ++
  [mkBenchmark (Substitute "Bench_$0.$1"%str [engine; pb.name test]) (BenchHttpHandlers engine env test)].

(** The loop over the tests for one engine. *)
Fixpoint register_tests (engine : str) (env : pb.Env) (tests : list pb.Test)
    (have_benchmarks : bool) : list RegisteredTest * list Benchmark * bool :=
  match tests with
  | [] => ([], [], have_benchmarks)
  | test :: tests =>
      let registered := mkRegistered (StrCat ["Test_"%str; engine]) (pb.name test)
        (TestBody engine env test (logs_of_failed_call engine test)) in
      let '(benches, have) :=
        if pb.benchmark test then (register_benchmarks engine env test have_benchmarks, true)
        else ([], have_benchmarks) in
      let '(ts, bs, have) := register_tests engine env tests have in
      (registered :: ts, benches ++ bs, have)
  end.

Fixpoint register_engines (engines : list str) (cfg : pb.TestSuite) (have_benchmarks : bool)
    : list RegisteredTest * list Benchmark * bool :=
  match engines with
  | [] => ([], [], have_benchmarks)
  | engine :: engines =>
      let '(ts, bs, have) := register_tests engine (pb.env cfg) (pb.test cfg) have_benchmarks in
      let '(ts', bs', have) := register_engines engines cfg have in
      (ts ++ ts', bs ++ bs', have)
  end.

(** What happens in the process, and the status; [None]: it is aborted. *)
Definition RunTests (flags : Flags) (cfg : pb.TestSuite) : option (list Event * Status) :=
  let '(tests, benchmarks, have_benchmarks) := register_engines engines cfg false in
  '(events, tests_ok) ←
    (if FLAGS_test flags then
       n ← RUN_ALL_TESTS tests; Some ([], (n =? 0)%Z)
     else Some ([Prints ("Skipping tests due to --test=false"%str ++ nl)], true));
  let bench_events :=
    if have_benchmarks then
      if FLAGS_bench flags then [RunsBenchmarks benchmarks]
      else [Prints ("Skipping benchmarks due to --bench=false"%str ++ nl)]
    else [] in
  Some (events ++ bench_events,
        if tests_ok : bool then OkStatus else AbortedError "tests failed"%str).

Definition run_main (flags : Flags) : option (list Event * Status) :=
  match ParseInputs flags with
  | inl status => Some ([], status)
  | inr cfg => RunTests flags cfg
  end.

(** The exit status of the program; its message goes to the standard error. *)
Definition main (flags : Flags) : option Z :=
  '(_, res) ← run_main flags;
  Some (if decide (status_code res <> kOk) then 1%Z else 0%Z).

(** ** The verdict of a run *)

Section verdict.
Context `{!AbslOk _} `{!CaselessOk _}.
(** What gtest documents: zero exactly if no test failed. *)
Hypothesis RUN_ALL_TESTS_ok : forall l,
  RUN_ALL_TESTS l = Some 0%Z <-> Forall (λ t, passes (test_body t) tt) l.

Lemma input_file_error flags st : input_file flags = inl st -> status_code st <> kOk.
Proof.
  unfold input_file. destruct (bool_decide _), (bool_decide _); intros Hi; inversion Hi;
    subst; discriminate.
Qed.

Lemma parse_suite_error format text st : parse_suite format text = inl st -> status_code st <> kOk.
Proof.
  unfold parse_suite. destruct format; [destruct (ParseFromString text)| |];
    [intros Hi; inversion Hi; subst; discriminate..| |intros Hi; inversion Hi; subst; discriminate].
  destruct (ConvertYamlToTestSuite text); intros Hi; inversion Hi; subst; discriminate.
Qed.

Lemma ParseInputs_error flags st : ParseInputs flags = inl st -> status_code st <> kOk.
Proof.
  unfold ParseInputs. destruct (input_file flags) as [st1|[path format]] eqn:Hi;
    [intros [= <-]; by eapply input_file_error|].
  unfold ReadDataFile. destruct (open_file path) as [e|bytes]; [intros [= <-]; discriminate|].
  destruct (parse_suite format bytes) as [st2|suite] eqn:Hs; [|discriminate].
  intros [= <-]. by eapply parse_suite_error.
Qed.

Lemma register_tests_bodies engine env tests have (P : GTest unit -> Prop) :
  Forall (λ t, P (test_body t)) (register_tests engine env tests have).1.1 <->
  Forall (λ t, P (TestBody engine env t (logs_of_failed_call engine t))) tests.
Proof.
  revert have. induction tests as [|test tests IH]; intros have.
  { split; intros; apply Forall_nil; exact I. }
  cbn [register_tests]. destruct (if pb.benchmark test then _ else _) as [benches have'].
  specialize (IH have'). destruct (register_tests engine env tests have') as [[ts bs] have''].
  cbn [fst] in *. by rewrite !Forall_cons, IH.
Qed.

Lemma register_engines_bodies es cfg have (P : GTest unit -> Prop) :
  Forall (λ t, P (test_body t)) (register_engines es cfg have).1.1 <->
  forall engine, engine ∈ es -> Forall (λ t, P (TestBody engine (pb.env cfg) t
    (logs_of_failed_call engine t))) (pb.test cfg).
Proof.
  revert have. induction es as [|engine es IH]; intros have.
  - split; [|by constructor]. intros _ engine Hin. by apply not_elem_of_nil in Hin.
  - cbn [register_engines]. pose proof (register_tests_bodies engine (pb.env cfg) (pb.test cfg) have P)
      as Ht. destruct (register_tests _ _ _ have) as [[ts bs] have'].
    specialize (IH have'). destruct (register_engines es cfg have') as [[ts' bs'] have''].
    cbn [fst] in *. rewrite Forall_app, Ht, IH. split.
    + intros [Hhd Htl] engine' Hin. apply elem_of_cons in Hin as [->|Hin]; [exact Hhd|by apply Htl].
    + intros Hall. split; [apply Hall; left|]. intros engine' Hin. apply Hall. by right.
Qed.

Lemma exit_code st :
  (if decide (status_code st <> kOk) then 1%Z else 0%Z) = 0%Z <-> status_code st = kOk.
Proof.
  destruct (decide _) as [Hst|Hst]; split; intros Hc; try congruence. by apply dec_stable.
Qed.

Lemma RunTests_ok flags cfg :
  (x ← RunTests flags cfg; Some (if decide (status_code x.2 <> kOk) then 1%Z else 0%Z)) = Some 0%Z <->
  (FLAGS_test flags = true -> RUN_ALL_TESTS (register_engines engines cfg false).1.1 = Some 0%Z).
Proof.
  unfold RunTests. destruct (register_engines engines cfg false) as [[tests benchmarks] have].
  cbn [fst]. destruct (FLAGS_test flags); cbn.
  - destruct (RUN_ALL_TESTS tests) as [n|]; cbn; [|split; [discriminate|intros Hn; by specialize (Hn eq_refl)]].
    destruct (Z.eqb_spec n 0) as [->|Hn]; cbn; split; [done..|].
    intros Hz. specialize (Hz eq_refl). congruence.
  - split; [done|]. reflexivity.
Qed.

End verdict.

(** ** Errors of the configuration *)

(** A YAML file that is not a test suite is reported with the prefix of the
    runner in front of the one of the converter. *)
Lemma ParseInputs_yaml_error `{!AbslOk _} flags text st :
  FLAGS_proto flags = [] -> FLAGS_yaml flags <> [] ->
  open_file (FLAGS_yaml flags) = inr text -> ConvertYamlToTestSuite text = inl st ->
  ParseInputs flags =
    inl (InvalidArgumentError ("Failed to parse input YAML: "%str ++ status_message st)).
Proof.
  intros Hp Hy Ho Hc. unfold ParseInputs, input_file.
  rewrite (bool_decide_false (FLAGS_proto flags <> [])) by (intros Hn; by apply Hn).
  rewrite (bool_decide_true (FLAGS_yaml flags <> [])) by done.
  unfold ReadDataFile. rewrite Ho. unfold parse_suite. rewrite Hc, StrCat_ok. cbn.
  by rewrite app_nil_r.
Qed.
End runner_main.

(** ** Witnesses *)

Section witnesses.
#[local] Existing Instances caseless_ref absl_ref abi_ref sdk_ref re2_ref runner_ref http_ref wasm_ref.
#[local] Existing Instances bench_host_ref yaml_ref msg_ref.

(** A gtest that runs every test, and a text format of one file. *)
Definition test_passes (t : RegisteredTest) : bool :=
  match test_body t with mkGTest (Continues _) [] => true | _ => false end.
Definition gtest_ref (l : list RegisteredTest) : option Z :=
  Some (if forallb test_passes l then 0%Z else 1%Z).
Definition text_format_ref (text : str) : option pb.TestSuite :=
  if decide (text = "suite.textpb"%str) then Some (pb.mkTestSuite hello_env [hello_test []]) else None.
Definition flags_ref : Flags :=
  mkFlags "suite.textpb"%str [] [] [] [] 0 true true 0 0.

Lemma gtest_ref_ok l : gtest_ref l = Some 0%Z <-> Forall (λ t, passes (test_body t) tt) l.
Proof.
  unfold gtest_ref. induction l as [|t l IH]; cbn; [split; [constructor|reflexivity]|].
  rewrite Forall_cons, <- IH. unfold test_passes, passes.
  destruct (test_body t) as [[|?|[]] [|? ?]]; cbn;
    (split; [intros Hp; try discriminate; auto|intros [Hp ?]; try discriminate; assumption]).
Qed.

End witnesses.
