(* ===== verification/LuaApi.v ===== *)
(** * The objects of the Lua plugin's API

    samples/lua/envoy_lua_api.cc: headers, bodies, the TLS connection, metrics
    and the handle, as a script sees them.  A method returns an [absl::Status]
    or an [absl::StatusOr]. *)

From S2P Require Import Prelude Absl Headers Host Rules.

(** What the SDK makes of a property in [getValue<T>], and the text of a
    [WasmResult]. *)
Class LuaSdk : Type := {
  value_string : HostResult str -> option str;
  value_bool : HostResult str -> option bool;
  value_uint64 : HostResult str -> option Z;
  result_text : WasmResult -> str;
}.

Class LuaSdkOk (L : LuaSdk) : Prop := {
  value_string_done s : value_string (Done s) = Some s;
  value_string_failed r : r <> Ok -> value_string (Failed r) = None;
}.

(** ** Encodings *)

Definition hex_upper (n : Z) : ascii :=
  if (n <? 10)%Z then of_code (n + 48) else of_code (n + 55).

Definition unreserved (c : ascii) : bool :=
  is_alnum c || bool_decide (c ∈ "-_.~"%str).

Fixpoint UrlEncode (value : str) : str :=
  match value with
  | [] => []
  | c :: value =>
      if unreserved c then c :: UrlEncode value
      else "%"%char :: hex_upper (code c / 16) :: hex_upper (code c mod 16) :: UrlEncode value
  end.

(** The loop over the lines of 64 characters; the fuel is the text's length. *)
Fixpoint pem_lines (fuel : nat) (s : str) : str :=
  match fuel, s with
  | S fuel, _ :: _ => take 64 s ++ nl ++ pem_lines fuel (drop 64 s)
  | _, _ => []
  end.

Section api.
Context `{Absl} `{Sdk} `{LuaSdk}.

Definition Base64DerToUrlEncodedPem (b64_der : str) : str :=
  let b64_der := StripPrefix b64_der ":"%str in
  let b64_der := StripSuffix b64_der ":"%str in
  let pem := "-----BEGIN CERTIFICATE-----"%str ++ nl in
  let pem := pem ++ pem_lines (length b64_der) b64_der in
  let pem := pem ++ "-----END CERTIFICATE-----"%str ++ nl in
  UrlEncode pem.

(** ** Properties *)

Definition getValue_string (path : list str) : Prog (option str) :=
  r ← call (GetProperty path); mret (value_string r).

Definition GetBoolValue (path : list str) : Prog bool :=
  r ← call (GetProperty path);
  match value_bool r with
  | Some out => mret out
  | None =>
      r ← call (GetProperty path);
      match value_uint64 r with
      | Some out_int => mret (negb (out_int =? 0)%Z)
      | None => mret false
      end
  end.

(** [ParseTime] of RFC 3339 texts, in seconds since the epoch. *)
Definition FetchTimestampProperty (ParseTime : str -> option Z) (path : list str) : Prog Z :=
  timestamp_str ← getValue_string path;
  match timestamp_str with
  | Some ((_ :: _) as s) => mret (default 0%Z (ParseTime s))
  | _ => mret 0%Z
  end.

(** ** [class Header]

    The field [is_passed_on_] is absent or asks the stream whether its
    headers have been passed on; [passed_on] is the answer. *)
Record Header : Type := mkHeader { type_ : WasmHeaderMapType; is_passed_on_ : bool }.

Definition refuses (h : Header) (passed_on : bool) : bool :=
  is_passed_on_ h && passed_on &&
  bool_decide (type_ h = RequestHeaders \/ type_ h = ResponseHeaders).

Definition refusal : Status :=
  InternalError "attempt to mutate headers after they have been passed on"%str.

(** The status of a mutation with the result [r]. *)
Definition mutation_status (what : str) (r : WasmResult) : Status :=
  if decide (r <> Ok) then InternalError (StrCat [what; result_text r]) else OkStatus.

Definition Header_Add (h : Header) (passed_on : bool) (key value : str) : Prog Status :=
  if refuses h passed_on then mret refusal
  else
    result ← call (AddHeaderMapValue (type_ h) key value);
    mret (mutation_status "Failed to add header: "%str result).

Definition Header_Remove (h : Header) (passed_on : bool) (key : str) : Prog Status :=
  if refuses h passed_on then mret refusal
  else
    result ← call (RemoveHeaderMapValue (type_ h) key);
    mret (mutation_status "Failed to remove header: "%str result).

Definition Header_Replace (h : Header) (passed_on : bool) (key value : str) : Prog Status :=
  if refuses h passed_on then mret refusal
  else
    result ← call (ReplaceHeaderMapValue (type_ h) key value);
    mret (mutation_status "Failed to replace header: "%str result).

Definition Header_SetHttp1ReasonPhrase (_ : Header) (_ : str) : Prog Status :=
  mret (UnimplementedError "Header::SetHttp1ReasonPhrase is not supported"%str).

Definition Header_Get (h : Header) (key : str) : Prog (StatusOr (option str)) :=
  d ← getHeaderMapValue (type_ h) key;
  match d with
  | Some d => match data d with Some _ => mret (inr (Some (toString d))) | None => mret (inr None) end
  | None => mret (inr None)
  end.

Definition getHeaderMapPairs (t : WasmHeaderMapType) : Prog (option (list (str * str))) :=
  r ← call (GetHeaderMapPairs t); mret (pairs_ptr r).

(** The loops over the pairs. *)
Fixpoint value_at (key : str) (index count : Z) (pairs : list (str * str)) : option str :=
  match pairs with
  | [] => None
  | (header_key, header_value) :: pairs =>
      if EqualsIgnoreCase header_key key then
        if (count =? index)%Z then Some header_value
        else value_at key index (count + 1) pairs
      else value_at key index count pairs
  end.

Fixpoint count_values (key : str) (count : Z) (pairs : list (str * str)) : Z :=
  match pairs with
  | [] => count
  | (header_key, _) :: pairs =>
      count_values key (if EqualsIgnoreCase header_key key then count + 1 else count)%Z pairs
  end.

Definition Header_GetAtIndex (h : Header) (key : str) (index : Z)
    : Prog (StatusOr (option str)) :=
  if (index <? 0)%Z then mret (inl (InvalidArgumentError "index must be non-negative"%str))
  else
    d ← getHeaderMapPairs (type_ h);
    match d with
    | None => mret (inl (InternalError "Failed to get header pairs for GetAtIndex"%str))
    | Some pairs => mret (inr (value_at key index 0 pairs))
    end.

Definition Header_GetNumValues (h : Header) (key : str) : Prog (StatusOr Z) :=
  d ← getHeaderMapPairs (type_ h);
  match d with
  | None => mret (inl (InternalError "Failed to get header pairs for GetNumValues"%str))
  | Some pairs => mret (inr (count_values key 0 pairs))
  end.

Definition Header_GetPairs (h : Header) : Prog (StatusOr (list (str * str))) :=
  r ← call (GetHeaderMapPairs (type_ h));
  match r with
  | Failed r =>
      if decide (r = NotFound) then mret (inr [])
      else mret (inl (InternalError (StrCat ["Failed to get header pairs: "%str; result_text r])))
  | Done pairs => mret (inr pairs)
  end.

(** ** [class Buffer] *)

Definition Buffer_GetLength (b : WasmBufferType) : Prog (StatusOr Z) :=
  r ← call (GetBufferStatus b);
  match r with
  | Failed r =>
      mret (inl (InternalError (StrCat ["Failed to get buffer status: "%str; result_text r])))
  | Done size => mret (inr size)
  end.

Definition Buffer_GetBytes (b : WasmBufferType) (index length : Z) : Prog (StatusOr str) :=
  r ← call (GetBufferBytes b index length);
  match r with
  | Failed r =>
      mret (inl (InternalError (StrCat ["Failed to get buffer bytes: "%str; result_text r])))
  | Done s => mret (inr s)
  end.

Definition Buffer_SetBytes (b : WasmBufferType) (string : str) : Prog Status :=
  r ← call (GetBufferStatus b);
  match r with
  | Failed r =>
      mret (InternalError (StrCat ["Failed to get buffer status for SetBytes: "%str;
                                   result_text r]))
  | Done length =>
      r ← setBuffer b 0 length string;
      mret (mutation_status "Failed to set buffer: "%str r)
  end.
End api.

(** ** [class SslConnection] and its users *)

Section ssl.
Context `{Absl} `{LuaSdk}.

Definition connection (name : str) : list str := ["connection"%str; name].

(** A string property that is empty when the host does not have it. *)
Definition plain_property (name : str) : Prog str :=
  out ← getValue_string (connection name); mret (default [] out).

Definition unsupported (name : str) : Status :=
  UnimplementedError ("Property SslConnection::"%str ++ name ++ " is unsupported."%str).

Definition PeerCertificatePresented : Prog bool :=
  mtls ← GetBoolValue (connection "mtls"%str);
  if mtls : bool then mret true else GetBoolValue (connection "client_cert_present"%str).

Definition PeerCertificateValidated : Prog bool :=
  valid ← GetBoolValue (connection "peer_certificate_valid"%str);
  if valid : bool then mret true
  else GetBoolValue (connection "client_cert_chain_verified"%str).

(** A property as a list of one name, if it is there and not empty. *)
Definition single_property (name : str) : Prog (list str) :=
  out ← getValue_string (connection name);
  mret (match out with Some ((_ :: _) as out) => [out] | _ => [] end).

Definition GetUriSanLocalCertificate : Prog (list str) :=
  single_property "uri_san_local_certificate"%str.
Definition GetDnsSansLocalCertificate : Prog (list str) :=
  single_property "dns_san_local_certificate"%str.
Definition GetSha256PeerCertificateDigest : Prog str :=
  plain_property "sha256_peer_certificate_digest"%str.
Definition GetSerialNumberPeerCertificate : Prog str :=
  plain_property "client_cert_serial_number"%str.
Definition GetSubjectPeerCertificate : Prog str :=
  plain_property "subject_peer_certificate"%str.
Definition GetSubjectLocalCertificate : Prog str :=
  plain_property "subject_local_certificate"%str.
Definition GetTlsVersion : Prog str := plain_property "tls_version"%str.

Definition GetIssuerPeerCertificate : Status := unsupported "GetIssuerPeerCertificate"%str.
Definition GetSha256PeerCertificateIssuerDigest : Status :=
  unsupported "GetSha256PeerCertificateIssuerDigest"%str.
Definition GetSerialNumberPeerCertificateIssuer : Status :=
  unsupported "GetSerialNumberPeerCertificateIssuer"%str.
Definition GetParsedSubjectPeerCertificate : Status :=
  unsupported "GetParsedSubjectPeerCertificate"%str.
Definition GetOidsPeerCertificate : Status := unsupported "GetOidsPeerCertificate"%str.
Definition GetOidsLocalCertificate : Status := unsupported "GetOidsLocalCertificate"%str.
Definition GetSessionId : Status := unsupported "GetSessionId"%str.
Definition GetCiphersuiteString : Status := unsupported "GetCiphersuiteString"%str.

(** The names of a list in base64; what does not decode is left out. *)
Fixpoint decode_sans (sans : list str) (decoded_sans : list str) : list str :=
  match sans with
  | [] => decoded_sans
  | san :: sans =>
      match Base64Unescape san with
      | Some decoded => decode_sans sans (decoded_sans ++ [decoded])
      | None => decode_sans sans decoded_sans
      end
  end.

Definition encoded_sans (name : str) : Prog (list str) :=
  out ← getValue_string (connection name);
  mret (match out with
        | Some ((_ :: _) as out) => decode_sans (StrSplit out ",") []
        | _ => []
        end).

Definition GetUriSanPeerCertificate : Prog (list str) :=
  sans ← single_property "uri_san_peer_certificate"%str;
  match sans with
  | _ :: _ => mret sans
  | [] =>
      decoded_sans ← encoded_sans "client_cert_uri_sans"%str;
      spiffe ← single_property "client_cert_spiffe_id"%str;
      mret (decoded_sans ++ spiffe)
  end.

Definition GetDnsSansPeerCertificate : Prog (list str) :=
  sans ← single_property "dns_san_peer_certificate"%str;
  match sans with
  | _ :: _ => mret sans
  | [] => encoded_sans "client_cert_dnsname_sans"%str
  end.

Definition GetUrlEncodedPemEncodedPeerCertificate : Prog str :=
  out ← getValue_string (connection "client_cert_leaf"%str);
  mret (match out with Some ((_ :: _) as out) => Base64DerToUrlEncodedPem out | _ => [] end).

Definition GetUrlEncodedPemEncodedPeerCertificateChain : Prog str :=
  leaf_out ← getValue_string (connection "client_cert_leaf"%str);
  let full_chain :=
    match leaf_out with
    | Some ((_ :: _) as leaf) => Base64DerToUrlEncodedPem leaf
    | _ => []
    end in
  chain_out ← getValue_string (connection "client_cert_chain"%str);
  mret (match chain_out with
        | Some ((_ :: _) as chain) =>
            fold_left (λ full_chain cert, full_chain ++ Base64DerToUrlEncodedPem cert)
              (StrSplit chain ",") full_chain
        | _ => full_chain
        end).

Definition GetValidFromPeerCertificate (ParseTime : str -> option Z) : Prog Z :=
  FetchTimestampProperty ParseTime (connection "client_cert_valid_not_before"%str).
Definition GetExpirationPeerCertificate (ParseTime : str -> option Z) : Prog Z :=
  FetchTimestampProperty ParseTime (connection "client_cert_valid_not_after"%str).

Definition GetCiphersuiteId : Prog str :=
  out ← getValue_string (connection "tls_cipher_suite"%str);
  mret (match out with
        | Some ((_ :: _) as out) => StrCat ["0x"%str; AsciiStrToLower out]
        | _ => []
        end).

(** Whether there is a TLS connection to ask. *)
Definition GetDownstreamSslConnection : Prog (option unit) :=
  out ← getValue_string (connection "tls_version"%str);
  mret (match out with Some _ => Some tt | None => None end).
Definition Connection_GetSsl : Prog (option unit) :=
  out ← getValue_string (connection "tls_version"%str);
  mret (match out with Some _ => Some tt | None => None end).
End ssl.

(** ** Metrics

    The host's metric calls are parameters; [M] is the host's state. *)

Section metrics.
Context `{Absl} `{LuaSdk} {M : Type}
  (incrementMetric recordMetric : Z -> Z -> M -> WasmResult * M)
  (getMetric : Z -> M -> HostResult Z).

(** The status of a call that returned [r]. *)
Definition metric_status (what : str) (r : WasmResult * M) : Status * M :=
  (if decide (r.1 <> Ok) then InternalError (StrCat [what; result_text r.1]) else OkStatus, r.2).

Definition Counter_Inc (metric_id_ : Z) (m : M) : Status * M :=
  metric_status "Failed to increment counter: "%str (incrementMetric metric_id_ 1 m).

Definition Counter_Add (metric_id_ amount : Z) (m : M) : Status * M :=
  if (amount <? 0)%Z then
    (InvalidArgumentError "Failed to add to counter: amount cannot be negative"%str, m)
  else metric_status "Failed to add to counter: "%str (incrementMetric metric_id_ amount m).

Definition Counter_GetValue (metric_id_ : Z) (m : M) : StatusOr Z :=
  match getMetric metric_id_ m with
  | Failed r => inl (InternalError (StrCat ["Failed to get counter value: "%str; result_text r]))
  | Done value => inr value
  end.

Definition Gauge_Inc (metric_id_ : Z) (m : M) : Status * M :=
  metric_status "Failed to increment gauge: "%str (incrementMetric metric_id_ 1 m).

Definition Gauge_Dec (metric_id_ : Z) (m : M) : Status * M :=
  metric_status "Failed to decrement gauge: "%str (incrementMetric metric_id_ (-1) m).

Definition Gauge_Add (metric_id_ amount : Z) (m : M) : Status * M :=
  if (amount <? 0)%Z then
    (InvalidArgumentError "Failed to add to gauge: amount cannot be negative"%str, m)
  else metric_status "Failed to add to gauge: "%str (incrementMetric metric_id_ amount m).

Definition Gauge_Sub (metric_id_ amount : Z) (m : M) : Status * M :=
  if (amount <? 0)%Z then
    (InvalidArgumentError "Failed to subtract from gauge: amount cannot be negative"%str, m)
  else metric_status "Failed to subtract from gauge: "%str
         (incrementMetric metric_id_ (- amount) m).

Definition Gauge_Set (metric_id_ value : Z) (m : M) : Status * M :=
  if (value <? 0)%Z then
    (InvalidArgumentError "Failed to set gauge: value cannot be negative"%str, m)
  else metric_status "Failed to set gauge: "%str (recordMetric metric_id_ value m).

Definition Gauge_GetValue (metric_id_ : Z) (m : M) : StatusOr Z :=
  match getMetric metric_id_ m with
  | Failed r => inl (InternalError (StrCat ["Failed to get gauge: "%str; result_text r]))
  | Done value => inr value
  end.

Definition Histogram_RecordValue (metric_id_ value : Z) (m : M) : Status * M :=
  metric_status "Failed to record histogram: "%str (recordMetric metric_id_ (wrap64 value) m).
End metrics.

(** ** [class Handle] *)

Definition Handle_GetHeaders (is_request_ : bool) : Header :=
  mkHeader (if is_request_ then RequestHeaders else ResponseHeaders) true.
Definition Handle_GetBody (is_request_ : bool) : WasmBufferType :=
  if is_request_ then HttpRequestBody else HttpResponseBody.
Definition Handle_GetTrailers (is_request_ : bool) : Header :=
  mkHeader (if is_request_ then RequestTrailers else ResponseTrailers) true.

(** ** Encodings *)

(** The inverse of [UrlEncode]. *)
Fixpoint url_decode (s : str) : option str :=
  match s with
  | [] => Some []
  | c :: s =>
      if decide (c = "%"%char) then
        match s with
        | a :: b :: s => x ← hex_value a; y ← hex_value b; t ← url_decode s;
                         Some (of_code (16 * x + y) :: t)
        | _ => None
        end
      else (c ::.) <$> url_decode s
  end.

Definition url_safe (c : ascii) : bool := unreserved c || bool_decide (c = "%"%char).

Definition all_chars (P : ascii -> bool) : bool :=
  forallb (λ n, P (ascii_of_nat n)) (seq 0 256).

Lemma all_chars_spec P c : all_chars P = true -> P c = true.
Proof.
  unfold all_chars. rewrite forallb_forall. intros HP.
  rewrite <- (ascii_nat_embedding c). apply HP, in_seq.
  pose proof (nat_ascii_bounded c). lia.
Qed.

(** What one character contributes, by inspection of the 256 of them. *)
Definition hex_ok (c : ascii) : bool :=
  bool_decide
    (hex_value (hex_upper (code c / 16)) = Some (code c / 16)%Z /\
     hex_value (hex_upper (code c mod 16)) = Some (code c mod 16)%Z /\
     of_code (16 * (code c / 16) + code c mod 16) = c /\
     url_safe (hex_upper (code c / 16)) = true /\ url_safe (hex_upper (code c mod 16)) = true).

Lemma hex_upper_inv c :
  hex_value (hex_upper (code c / 16)) = Some (code c / 16)%Z /\
  hex_value (hex_upper (code c mod 16)) = Some (code c mod 16)%Z /\
  of_code (16 * (code c / 16) + code c mod 16) = c /\
  url_safe (hex_upper (code c / 16)) = true /\ url_safe (hex_upper (code c mod 16)) = true.
Proof.
  assert (hex_ok c = true) as Hc; [|by apply bool_decide_eq_true in Hc].
  apply all_chars_spec. vm_compute. reflexivity.
Qed.

Lemma url_decode_encode s : url_decode (UrlEncode s) = Some s.
Proof.
  induction s as [|c s IH]; [done|]. simpl. destruct (unreserved c) eqn:Hc; simpl.
  - rewrite decide_False by (intros ->; vm_compute in Hc; discriminate). by rewrite IH.
  - destruct (hex_upper_inv c) as (-> & -> & Hcode & _). rewrite IH. simpl. by rewrite Hcode.
Qed.

(** URL encoding loses nothing, and what it yields is made of unreserved
    characters and escapes only. *)
Theorem UrlEncode_roundtrip s :
  url_decode (UrlEncode s) = Some s /\ Forall (λ c, url_safe c = true) (UrlEncode s).
Proof.
  split; [apply url_decode_encode|]. induction s as [|c s IH]; [done|]. simpl.
  destruct (unreserved c) eqn:Hc.
  - constructor; [unfold url_safe; by rewrite Hc|done].
  - destruct (hex_upper_inv c) as (_ & _ & _ & Hsa & Hsb). by repeat constructor.
Qed.

(** The text without one colon at either end. *)
Definition without_colons (s : str) : str :=
  let s := match s with c :: t => if decide (c = ":"%char) then t else s | [] => [] end in
  match last s with
  | Some c => if decide (c = ":"%char) then take (length s - 1) s else s
  | None => s
  end.

Lemma pem_lines_spec fuel s :
  length s <= fuel ->
  exists lines, pem_lines fuel s = concat ((λ l, l ++ nl) <$> lines) /\ concat lines = s /\
    Forall (λ l, 0 < length l <= 64) lines.
Proof.
  revert s. induction fuel as [|fuel IH]; intros s Hs.
  - destruct s; [by exists []|simpl in Hs; lia].
  - destruct s as [|c s]; [by exists []|]. cbn [pem_lines].
    destruct (IH (drop 64 (c :: s))) as (lines & -> & Hc & Hl).
    { rewrite length_drop. cbn [length] in *. lia. }
    exists (take 64 (c :: s) :: lines). split; [|split].
    + cbn [fmap list_fmap concat]. by rewrite <- app_assoc.
    + cbn [concat]. by rewrite Hc, take_drop.
    + constructor; [|done]. rewrite length_take. cbn [length]. lia.
Qed.

Section api_specs.
Context `{!Absl} `{!AbslOk _} `{!Sdk} `{!SdkOk _} `{!LuaSdk}.
Implicit Types v : HostView.

(** The certificate that a script is handed decodes to a PEM file: the
    base64 text of the property, without the colons around it, in non-empty
    lines of at most 64 characters between the two markers. *)
Theorem Base64DerToUrlEncodedPem_spec b64_der :
  exists lines,
    url_decode (Base64DerToUrlEncodedPem b64_der) =
      Some ("-----BEGIN CERTIFICATE-----"%str ++ nl ++ concat ((λ l, l ++ nl) <$> lines) ++
            "-----END CERTIFICATE-----"%str ++ nl) /\
    concat lines = without_colons b64_der /\ Forall (λ l, 0 < length l <= 64) lines.
Proof.
  unfold Base64DerToUrlEncodedPem. absl. cbv zeta.
  set (s1 := if starts_with _ b64_der then _ else _).
  set (s2 := if starts_with _ (reverse s1) then _ else _).
  assert (s2 = without_colons b64_der) as <-.
  { unfold s2, without_colons.
    assert (s1 = match b64_der with
                 | c :: t => if decide (c = ":"%char) then t else b64_der | [] => [] end) as <-.
    { unfold s1. destruct b64_der as [|c t]; [done|]. simpl.
      destruct (decide (c = ":"%char)) as [->|Hne]; [done|].
      by rewrite bool_decide_false by congruence. }
    destruct s1 as [|c s1 _] using rev_ind; [done|]. rewrite last_snoc, reverse_snoc. simpl.
    destruct (decide (c = ":"%char)) as [->|Hne]; [done|].
    by rewrite bool_decide_false by congruence. }
  destruct (pem_lines_spec (length s2) s2) as (lines & -> & Hc & Hl); [done|].
  exists lines. split_and!; [|done..].
  by rewrite url_decode_encode, <- !app_assoc.
Qed.

(** A header object mutates the headers of its kind, unless it watches
    the stream and the stream has passed its headers on: then nothing is
    changed and the script is told so.  Trailers are never refused. *)
Theorem Header_mutations_spec h passed_on key x m v :
  maps v !! type_ h = Some m -> response v = None ->
  let refused := refuses h passed_on in
  let next (f : hmap -> hmap) := if refused then v else with_map (type_ h) (f m) v in
  let st := if refused then refusal else OkStatus in
  returns (Header_Add h passed_on key x) v st (next (hm_append key x)) /\
  returns (Header_Remove h passed_on key) v st (next (hm_erase key)) /\
  returns (Header_Replace h passed_on key x) v st (next (hm_set key x)) /\
  (refused = true <->
   is_passed_on_ h = true /\ passed_on = true /\
   (type_ h = RequestHeaders \/ type_ h = ResponseHeaders)).
Proof.
  intros Hm Hr refused next st. subst refused next st. unfold returns.
  split_and!.
  1-3: unfold Header_Add, Header_Remove, Header_Replace, mutation_status;
    destruct (refuses h passed_on); [done|]; apply wp_bind_2;
    first [eapply wp_addHeader|eapply wp_removeHeader|eapply wp_replaceHeader]; [done..|];
    by rewrite decide_False by (intros Hok; by apply Hok).
  unfold refuses. rewrite !andb_true_iff, bool_decide_eq_true. tauto.
Qed.

(** What the loops over the pairs find, for a name that occurs once. *)
Lemma count_values_filter key count l :
  count_values key count l =
  (count + Z.of_nat (length (filter (λ kv, lower kv.1 = lower key) l)))%Z.
Proof.
  revert count. induction l as [|[k x] l IH]; intros count; simpl; [lia|].
  rewrite IH, EqualsIgnoreCase_ok, filter_cons. simpl.
  case_bool_decide; case_decide; try done; simpl; lia.
Qed.

Lemma value_at_filter key index count l :
  (count <= index)%Z ->
  value_at key index count l =
  snd <$> filter (λ kv, lower kv.1 = lower key) l !! Z.to_nat (index - count).
Proof.
  revert count. induction l as [|[k x] l IH]; intros count Hc; [done|].
  cbn [value_at]. rewrite EqualsIgnoreCase_ok, filter_cons. cbn [fst].
  case_bool_decide as Hk; case_decide; try done.
  - destruct (Z.eqb_spec count index) as [->|Hne].
    + by rewrite Z.sub_diag.
    + rewrite IH by lia.
      replace (Z.to_nat (index - count)) with (S (Z.to_nat (index - (count + 1)))) by lia. done.
  - by apply IH.
Qed.

(** Over a host that keeps one entry per name, a header object counts
    one value of a name that is present and none of another; the value at
    index 0 is the one that [get] returns, there is none at the others, and
    a negative index is an error. *)
Theorem Header_index_spec h key index m v :
  maps v !! type_ h = Some m -> hm_wf m ->
  returns (Header_Get h key) v (inr (hm_get key m)) v /\
  returns (Header_GetNumValues h key) v
    (inr (if decide (is_Some (hm_get key m)) then 1 else 0)%Z) v /\
  returns (Header_GetAtIndex h key index) v
    (if (index <? 0)%Z then inl (InvalidArgumentError "index must be non-negative"%str)
     else inr (if (index =? 0)%Z then hm_get key m else None)) v.
Proof.
  intros Hm Hwf. unfold returns. split_and!.
  - unfold Header_Get. apply wp_bind_2. eapply wp_getHeader; [done| |].
    + intros x Hx. rewrite Hx. done.
    + intros Hx. rewrite Hx. done.
  - unfold Header_GetNumValues, getHeaderMapPairs. apply wp_bind_2, wp_bind_2.
    eapply wp_callPairs; [done|]. intros l Hl. apply wp_ret. rewrite pairs_ptr_done.
    apply wp_ret. split; [|done]. f_equal. rewrite count_values_filter, (entries_of_name key m l) by done.
    unfold hm_get. by destruct (m !! lower key).
  - unfold Header_GetAtIndex, getHeaderMapPairs.
    destruct (Z.ltb_spec index 0) as [Hi|Hi]; [done|].
    apply wp_bind_2, wp_bind_2. eapply wp_callPairs; [done|]. intros l Hl.
    apply wp_ret. rewrite pairs_ptr_done. apply wp_ret. split; [|done]. f_equal.
    rewrite value_at_filter, (entries_of_name key m l), Z.sub_0_r by done.
    unfold hm_get. destruct (Z.eqb_spec index 0) as [->|Hne].
    + by destruct (m !! lower key).
    + destruct (m !! lower key); simpl; [|done].
      by replace (Z.to_nat index) with (S (Z.to_nat (index - 1))) by lia.
Qed.

(** A body object reports the length of its body, reads any range inside
    of it, and replaces all of it. *)
Theorem Buffer_spec b s index len t v :
  buffers v !! b = Some s -> b <> PluginConfiguration -> (size_of s < 2 ^ 32)%Z ->
  (0 <= index)%Z -> (0 <= len)%Z -> (index + len <= size_of s)%Z ->
  returns (Buffer_GetLength b) v (inr (size_of s)) v /\
  returns (Buffer_GetBytes b index len) v
    (inr (substr s (Z.to_nat index) (Some (Z.to_nat len)))) v /\
  returns (Buffer_SetBytes b t) v OkStatus (with_buffer b t v).
Proof.
  intros Hb Hne Hs Hi Hl Hil. unfold returns. split_and!.
  - unfold Buffer_GetLength. apply wp_bind_2. by eapply wp_getBufferStatus.
  - unfold Buffer_GetBytes. apply wp_bind_2. by eapply wp_callRead; [done|lia..|].
  - unfold Buffer_SetBytes, mutation_status. apply wp_bind_2. eapply wp_getBufferStatus; [done|].
    apply wp_bind_2. eapply wp_setWholeBuffer; [done..|].
    by rewrite decide_False by (intros Hok; by apply Hok).
Qed.

(** A metric call with a negative amount is refused before the host sees it. *)
Lemma Gauge_negative {M} (inc rec : Z -> Z -> M -> WasmResult * M) id amount m :
  (amount < 0)%Z ->
  (Gauge_Add inc id amount m).2 = m /\ (Gauge_Sub inc id amount m).2 = m /\
  (Gauge_Set rec id amount m).2 = m /\ (Counter_Add inc id amount m).2 = m.
Proof.
  intros Ha. unfold Gauge_Add, Gauge_Sub, Gauge_Set, Counter_Add.
  by rewrite (proj2 (Z.ltb_lt _ _) Ha).
Qed.
End api_specs.

(** ** Witnesses *)

(** An SDK that takes a boolean of one byte and no integers. *)
Definition lua_sdk_ref : LuaSdk := {|
  value_string r := match r with Done s => Some s | Failed _ => None end;
  value_bool r := match r with Done [c] => Some (negb (code c =? 0)%Z) | _ => None end;
  value_uint64 _ := None;
  result_text _ := "failed"%str;
|}.

#[export] Instance lua_sdk_ref_ok : LuaSdkOk lua_sdk_ref.
Proof. by split. Qed.

Section witnesses.
Local Existing Instances absl_ref sdk_ref lua_sdk_ref.

Lemma Base64DerToUrlEncodedPem_spec_witness :
  exists lines, concat lines = "QUJD"%str /\
    url_decode (Base64DerToUrlEncodedPem ":QUJD:"%str) =
      Some ("-----BEGIN CERTIFICATE-----"%str ++ nl ++ concat ((λ l, l ++ nl) <$> lines) ++
            "-----END CERTIFICATE-----"%str ++ nl).
Proof.
  destruct (Base64DerToUrlEncodedPem_spec ":QUJD:"%str) as (lines & Hd & Hc & _).
  exists lines. split; [rewrite Hc; reflexivity|exact Hd].
Defined.

Definition lua_view : HostView :=
  sample_view RequestHeaders [("A"%str, "1"%str)].

(** Before the headers are passed on the object writes, and then no more. *)
Lemma Header_mutations_spec_witness :
  wp (Header_Replace (Handle_GetHeaders true) false "a"%str "2"%str)
    (λ st w, st = OkStatus /\ final_header RequestHeaders "a"%str w = Some "2"%str) lua_view /\
  wp (Header_Replace (Handle_GetHeaders true) true "a"%str "2"%str)
    (λ st w, st = refusal /\ final_header RequestHeaders "a"%str w = Some "1"%str) lua_view.
Proof.
  destruct (Header_mutations_spec (Handle_GetHeaders true) false "a"%str "2"%str _ lua_view
    eq_refl eq_refl) as (_ & _ & H1 & _).
  destruct (Header_mutations_spec (Handle_GetHeaders true) true "a"%str "2"%str _ lua_view
    eq_refl eq_refl) as (_ & _ & H2 & _).
  unfold returns in H1, H2.
  split; [revert H1|revert H2]; apply wp_mono; intros ? ? [-> ->]; split; reflexivity.
Defined.

Lemma Header_index_spec_witness :
  returns (Header_GetNumValues (Handle_GetHeaders true) "a"%str) lua_view (inr 1%Z) lua_view /\
  returns (Header_GetAtIndex (Handle_GetHeaders true) "a"%str 0) lua_view
    (inr (Some "1"%str)) lua_view.
Proof.
  assert (hm_wf (hm_of_pairs [("A"%str, "1"%str)])) as Hwf.
  { apply map_Forall_insert_2; [reflexivity|apply map_Forall_empty]. }
  destruct (Header_index_spec (Handle_GetHeaders true) "a"%str 0 _ lua_view eq_refl Hwf)
    as (_ & H1 & H2). split; [exact H1|exact H2].
Defined.

Lemma Buffer_spec_witness :
  returns (Buffer_GetBytes HttpRequestBody 1 2) (body_view HttpRequestBody "abcd"%str)
    (inr "bc"%str) (body_view HttpRequestBody "abcd"%str) /\
  returns (Buffer_SetBytes HttpRequestBody "x"%str) (body_view HttpRequestBody "abcd"%str)
    OkStatus
    (with_buffer HttpRequestBody "x"%str (body_view HttpRequestBody "abcd"%str)).
Proof.
  destruct (Buffer_spec HttpRequestBody "abcd"%str 1 2 "x"%str
    (body_view HttpRequestBody "abcd"%str)) as (_ & H1 & H2);
    [reflexivity|discriminate|reflexivity|lia|lia|vm_compute; congruence|].
  split; [exact H1|exact H2].
Defined.
End witnesses.
