(* ===== verification/LuaMethods.v ===== *)
(** * The methods of the Lua plugin's API

    samples/lua/envoy_lua_api.h: what each class of the API declares, an
    inductive type of calls for each, and the methods of envoy_lua_api.cc that
    LuaApi does not hold: the loggers, and the many that only report that they
    are not implemented. *)

From S2P Require Import Prelude Absl Headers Host Rules LuaApi.

(** ** [class Logger]; every class with a field [logger_] forwards to it *)

Inductive LogMember : Type :=
  | LogTrace | LogDebug | LogInfo | LogWarn | LogErr | LogCritical.

Definition Logger_Log (m : LogMember) (msg : str) : Prog unit :=
  match m with
  | LogTrace => LOG Ltrace msg
  | LogDebug => LOG Ldebug msg
  | LogInfo => LOG Linfo msg
  | LogWarn => LOG Lwarn msg
  | LogErr => LOG Lerror msg
  | LogCritical => LOG Lcritical msg
  end.

(** ** The members of the classes that are implemented *)

Inductive HeaderMember : Type :=
  | Header_Add_ | Header_Remove_ | Header_Replace_ | Header_SetHttp1ReasonPhrase_
  | Header_Get_ | Header_GetAtIndex_ | Header_GetNumValues_ | Header_GetPairs_.

Inductive BufferMember : Type :=
  | Buffer_GetLength_ | Buffer_GetBytes_ | Buffer_SetBytes_.

Inductive SslConnectionMember : Type :=
  | Ssl_PeerCertificatePresented | Ssl_PeerCertificateValidated
  | Ssl_GetUriSanLocalCertificate | Ssl_GetSha256PeerCertificateDigest
  | Ssl_GetSerialNumberPeerCertificate | Ssl_GetIssuerPeerCertificate
  | Ssl_GetSha256PeerCertificateIssuerDigest | Ssl_GetSerialNumberPeerCertificateIssuer
  | Ssl_GetSubjectPeerCertificate | Ssl_GetParsedSubjectPeerCertificate
  | Ssl_GetUriSanPeerCertificate | Ssl_GetSubjectLocalCertificate
  | Ssl_GetUrlEncodedPemEncodedPeerCertificate
  | Ssl_GetUrlEncodedPemEncodedPeerCertificateChain
  | Ssl_GetDnsSansPeerCertificate | Ssl_GetDnsSansLocalCertificate
  | Ssl_GetOidsPeerCertificate | Ssl_GetOidsLocalCertificate
  | Ssl_GetValidFromPeerCertificate | Ssl_GetExpirationPeerCertificate
  | Ssl_GetSessionId | Ssl_GetCiphersuiteId | Ssl_GetCiphersuiteString | Ssl_GetTlsVersion.

Inductive ConnectionMember : Type :=
  | Connection_GetSsl_.

Inductive CounterMember : Type := Counter_Inc_ | Counter_Add_ | Counter_GetValue_.

Inductive GaugeMember : Type :=
  | Gauge_Inc_ | Gauge_Dec_ | Gauge_Add_ | Gauge_Sub_ | Gauge_Set_ | Gauge_GetValue_.

Inductive HistogramMember : Type := Histogram_RecordValue_.

(** ** Calls of the classes that are mostly or wholly missing *)

Inductive ParsedNameCall : Type :=
  | ParsedName_GetCommonName | ParsedName_GetOrganizationName.

Inductive StreamInfoCall : Type :=
  | StreamInfo_GetProtocol | StreamInfo_GetRouteName | StreamInfo_GetVirtualClusterName
  | StreamInfo_GetDownstreamDirectLocalAddress | StreamInfo_GetDownstreamLocalAddress
  | StreamInfo_GetDownstreamDirectRemoteAddress | StreamInfo_GetDownstreamRemoteAddress
  | StreamInfo_GetRequestedServerName | StreamInfo_GetDynamicMetadata
  | StreamInfo_GetDynamicTypedMetadata (filter_name : str) | StreamInfo_GetFilterState
  | StreamInfo_GetDownstreamSslConnection | StreamInfo_DrainConnectionUponCompletion.

Inductive MetadataCall : Type :=
  | Metadata_Get (key : str) | Metadata_GetPairs.

Inductive DynamicMetadataCall : Type :=
  | DynamicMetadata_Get (filter_name : str)
  | DynamicMetadata_Set (filter_name key value : str)
  | DynamicMetadata_GetPairs.

Inductive FilterStateCall : Type :=
  | FilterState_Get (object_name : str)
  | FilterState_GetField (object_name field_name : str)
  | FilterState_Set (object_key factory_key payload : str).

Inductive ConnectionStreamInfoCall : Type :=
  | ConnectionStreamInfo_GetDynamicMetadata
  | ConnectionStreamInfo_GetDynamicTypedMetadata (filter_name : str).

Inductive VirtualHostCall : Type := VirtualHost_GetMetadata.
Inductive RouteCall : Type := Route_GetMetadata.

Inductive StatsScopeCall : Type :=
  | StatsScope_GetCounter (name : str)
  | StatsScope_GetGauge (name : str)
  | StatsScope_GetHistogram (name unit : str).

Inductive StrictMode : Type := kLax | kStrict.
Inductive CallMode : Type := kSynchronous | kAsynchronous.

(** The headers of a call: one value or several for a name. *)
Definition HttpHeaders : Type := gmap str str + gmap str (gmap str str).

Inductive HandleCall : Type :=
  | Handle_GetBodyChunks
  | Handle_HttpCall (cluster : str) (headers : HttpHeaders) (body : option str)
      (timeout_ms : Z) (mode : CallMode)
  | Handle_HttpCallOptions (cluster : str) (headers : HttpHeaders) (body : option str)
      (options : gmap str str)
  | Handle_Respond (headers : HttpHeaders) (body : option str)
  | Handle_GetMetadata | Handle_GetStreamInfo | Handle_GetConnection
  | Handle_GetConnectionStreamInfo
  | Handle_SetUpstreamOverrideHost (host : str) (strict : StrictMode)
  | Handle_ClearRouteCache
  | Handle_GetFilterContext
  | Handle_ImportPublicKey (keyder : str) (keyder_length : Z)
  | Handle_VerifySignature (hash_function : str) (signature : str) (signature_length : Z)
      (data : str) (data_length : Z)
  | Handle_Base64Escape (input : str)
  | Handle_GetTimestamp (format : option Z)
  | Handle_TimestampString (resolution : option Z)
  | Handle_GetVirtualHost
  | Handle_GetRoute
  | Handle_GetStats.

(** ** What is not implemented

    Every one of these methods returns the same error, whatever it is given. *)

Definition unimplemented : Status := UnimplementedError "unimplemented"%str.

Definition Metadata_call (c : MetadataCall) : Status :=
  match c with Metadata_Get _ => unimplemented | Metadata_GetPairs => unimplemented end.

Definition FilterState_call (c : FilterStateCall) : Status :=
  match c with
  | FilterState_Get _ => unimplemented
  | FilterState_GetField _ _ => unimplemented
  | FilterState_Set _ _ _ => unimplemented
  end.

Definition ConnectionStreamInfo_call (c : ConnectionStreamInfoCall) : Status :=
  match c with
  | ConnectionStreamInfo_GetDynamicMetadata => unimplemented
  | ConnectionStreamInfo_GetDynamicTypedMetadata _ => unimplemented
  end.

Definition DynamicMetadata_call (c : DynamicMetadataCall) : Status :=
  match c with
  | DynamicMetadata_Get _ => unimplemented
  | DynamicMetadata_Set _ _ _ => unimplemented
  | DynamicMetadata_GetPairs => unimplemented
  end.

Definition ParsedName_call (c : ParsedNameCall) : Status :=
  match c with
  | ParsedName_GetCommonName => UnimplementedError "ParsedName is unsupported."%str
  | ParsedName_GetOrganizationName => UnimplementedError "ParsedName is unsupported."%str
  end.

Definition VirtualHost_call (c : VirtualHostCall) : Status :=
  match c with VirtualHost_GetMetadata => unimplemented end.
Definition Route_call (c : RouteCall) : Status :=
  match c with Route_GetMetadata => unimplemented end.

Definition StatsScope_call (c : StatsScopeCall) : Status :=
  match c with
  | StatsScope_GetCounter _ => unimplemented
  | StatsScope_GetGauge _ => unimplemented
  | StatsScope_GetHistogram _ _ => unimplemented
  end.

Definition Handle_call (c : HandleCall) : Status :=
  match c with
  | Handle_GetBodyChunks => unimplemented
  | Handle_HttpCall _ _ _ _ _ => unimplemented
  | Handle_HttpCallOptions _ _ _ _ => unimplemented
  | Handle_Respond _ _ => unimplemented
  | Handle_GetMetadata => unimplemented
  | Handle_GetStreamInfo => unimplemented
  | Handle_GetConnection => unimplemented
  | Handle_GetConnectionStreamInfo => unimplemented
  | Handle_SetUpstreamOverrideHost _ _ => unimplemented
  | Handle_ClearRouteCache => unimplemented
  | Handle_GetFilterContext => unimplemented
  | Handle_ImportPublicKey _ _ => unimplemented
  | Handle_VerifySignature _ _ _ _ _ => unimplemented
  | Handle_Base64Escape _ => unimplemented
  | Handle_GetTimestamp _ => unimplemented
  | Handle_TimestampString _ => unimplemented
  | Handle_GetVirtualHost => unimplemented
  | Handle_GetRoute => unimplemented
  | Handle_GetStats => unimplemented
  end.

(** ** [class StreamInfo]: all but the TLS connection is missing *)

Section stream_info.
Context `{LuaSdk}.

(** The error, or whether there is a TLS connection. *)
Definition StreamInfo_call (c : StreamInfoCall) : Prog (StatusOr (option unit)) :=
  match c with
  | StreamInfo_GetProtocol => mret (inl unimplemented)
  | StreamInfo_GetRouteName => mret (inl unimplemented)
  | StreamInfo_GetVirtualClusterName => mret (inl unimplemented)
  | StreamInfo_GetDownstreamDirectLocalAddress => mret (inl unimplemented)
  | StreamInfo_GetDownstreamLocalAddress => mret (inl unimplemented)
  | StreamInfo_GetDownstreamDirectRemoteAddress => mret (inl unimplemented)
  | StreamInfo_GetDownstreamRemoteAddress => mret (inl unimplemented)
  | StreamInfo_GetRequestedServerName => mret (inl unimplemented)
  | StreamInfo_GetDynamicMetadata => mret (inl unimplemented)
  | StreamInfo_GetDynamicTypedMetadata _ => mret (inl unimplemented)
  | StreamInfo_GetFilterState => mret (inl unimplemented)
  | StreamInfo_GetDownstreamSslConnection =>
      ssl ← GetDownstreamSslConnection; mret (inr ssl)
  | StreamInfo_DrainConnectionUponCompletion => mret (inl unimplemented)
  end.
End stream_info.
