(* ===== verification/LuaStream.v ===== *)
(** * The Lua plugin: threads, coroutines and streams

    samples/lua/lua_state.cc, coroutine.cc and lua_plugin.cc.  The interpreter
    is a library: a script is a parameter, seen as the tree of the calls it
    makes into the plugin's API ([Script]); the plugin's code around it, which
    starts, suspends and resumes it as the stream goes on, is modelled here. *)

From S2P Require Import Prelude Absl Headers Host Rules LuaApi.

(** ** Scripts *)

Inductive YieldReason : Type :=
  | kNone | kWaitForHeaders | kWaitForBody | kWaitForBodyChunks | kWaitForTrailers
  | kWaitForHttp | kWaitToStart | kResponded.
Inductive ExecutionState : Type := kExited | kYielded.
Inductive LuaStreamCoroutineMode : Type := kRequest | kResponse.

#[export] Instance YieldReason_eq_dec : EqDecision YieldReason.
Proof. solve_decision. Defined.
#[export] Instance ExecutionState_eq_dec : EqDecision ExecutionState.
Proof. solve_decision. Defined.
#[export] Instance LuaStreamCoroutineMode_eq_dec : EqDecision LuaStreamCoroutineMode.
Proof. solve_decision. Defined.

(** The objects of the API besides handles, headers and bodies. *)
Inductive ApiObject : Type :=
  | StreamInfoObject | ConnectionObject | SslConnectionObject | ParsedNameObject
  | CounterObject (metric_id_ : Z) | GaugeObject (metric_id_ : Z) | HistogramObject (metric_id_ : Z).

(** The values that pass between a script and the API. *)
Inductive LuaValue : Type :=
  | LNil
  | LBoolean (b : bool)
  | LInteger (z : Z)
  | LString (s : str)
  | LPairs (l : list (str * str))
  | LHeader (h : Header)
  | LBuffer (b : WasmBufferType)
  | LStrings (l : list str)
  | LFunction
  | LHandle
  | LObject (o : ApiObject)
  | LStatus (st : Status)
  | LStatusOr (r : Status + LuaValue).

(** The calls of a script.  [NextBodyChunk] is the iterator that [bodyChunks]
    returns. *)
Inductive ApiCall : Type :=
  | HandleHeaders | HandleBody | HandleTrailers | NextBodyChunk
  | HeaderAdd (h : Header) (key value : str)
  | HeaderRemove (h : Header) (key : str)
  | HeaderReplace (h : Header) (key value : str)
  | HeaderSetHttp1ReasonPhrase (h : Header) (reason_phrase : str)
  | HeaderGet (h : Header) (key : str)
  | HeaderGetAtIndex (h : Header) (key : str) (index : Z)
  | HeaderGetNumValues (h : Header) (key : str)
  | HeaderGetPairs (h : Header)
  | BufferLength (b : WasmBufferType)
  | BufferGetBytes (b : WasmBufferType) (index length : Z)
  | BufferSetBytes (b : WasmBufferType) (string : str)
  | Log (level : LogLevel) (msg : str).

(** A call continues with its value, or with the message of the error it
    raised, which a script may catch; what [error] puts before the message, the
    place of the call, is known where the script goes on.  [Error] is an
    uncaught error; its object may be no string. *)
Inductive Script : Type :=
  | Return
  | Error (e : option str)
  | Api (c : ApiCall) (k : str + LuaValue -> Script).

(** ** The state *)

(** [LuaState::Thread] and its Lua thread: what is on its stack, last pushed
    last; the function below the arguments; where it stands when it has
    yielded. *)
Record Thread : Type := mkThread {
  stack : list LuaValue;
  callee : option Script;
  suspended : option (str + LuaValue -> Script);
  is_finished_ : bool;
  is_running_ : bool;
}.

Definition new_thread : Thread := mkThread [] None None false false.

Record LuaStreamCoroutine : Type := mkCoroutine {
  mode_ : LuaStreamCoroutineMode;
  state_ : ExecutionState;
  yield_reason_ : YieldReason;
  lua_thread_ : Thread;
  headers_passed_on_ : bool;
  received_headers_ : bool;
  received_body_ : bool;
  has_body_data_ : bool;
  body_chunk_consumed_ : bool;
  received_trailers_ : bool;
  stream_ended_ : bool;
}.

Definition new_coroutine (mode : LuaStreamCoroutineMode) : LuaStreamCoroutine :=
  mkCoroutine mode kYielded kWaitToStart new_thread
    false false false false false false false.

Section setters.
Implicit Types c : LuaStreamCoroutine.

Definition set_state (x : ExecutionState) c :=
  mkCoroutine (mode_ c) x (yield_reason_ c) (lua_thread_ c) (headers_passed_on_ c)
    (received_headers_ c) (received_body_ c) (has_body_data_ c) (body_chunk_consumed_ c)
    (received_trailers_ c) (stream_ended_ c).
Definition set_yield_reason (x : YieldReason) c :=
  mkCoroutine (mode_ c) (state_ c) x (lua_thread_ c) (headers_passed_on_ c)
    (received_headers_ c) (received_body_ c) (has_body_data_ c) (body_chunk_consumed_ c)
    (received_trailers_ c) (stream_ended_ c).
Definition set_thread (x : Thread) c :=
  mkCoroutine (mode_ c) (state_ c) (yield_reason_ c) x (headers_passed_on_ c)
    (received_headers_ c) (received_body_ c) (has_body_data_ c) (body_chunk_consumed_ c)
    (received_trailers_ c) (stream_ended_ c).
Definition MarkHeadersPassedOn c :=
  mkCoroutine (mode_ c) (state_ c) (yield_reason_ c) (lua_thread_ c) true
    (received_headers_ c) (received_body_ c) (has_body_data_ c) (body_chunk_consumed_ c)
    (received_trailers_ c) (stream_ended_ c).
(** The flags, in the order of the fields from [received_headers_] on. *)
Definition set_flags (headers body data consumed trailers ended : bool) c :=
  mkCoroutine (mode_ c) (state_ c) (yield_reason_ c) (lua_thread_ c) (headers_passed_on_ c)
    headers body data consumed trailers ended.
Definition set_consumed (x : bool) c :=
  set_flags (received_headers_ c) (received_body_ c) (has_body_data_ c) x
    (received_trailers_ c) (stream_ended_ c) c.
End setters.

(** ** Operations that may fail and change the coroutine *)

Definition Co (A : Type) : Type :=
  LuaStreamCoroutine -> Prog (LuaStreamCoroutine * StatusOr A).

Definition co_ret {A} (a : A) : Co A := λ c, mret (c, inr a).
Definition co_fail {A} (st : Status) : Co A := λ c, mret (c, inl st).
Definition co_get : Co LuaStreamCoroutine := λ c, mret (c, inr c).
Definition co_modify (f : LuaStreamCoroutine -> LuaStreamCoroutine) : Co unit :=
  λ c, mret (f c, inr tt).
(** [RETURN_IF_ERROR]: the rest is skipped, the changes so far stay. *)
Definition co_bind {A B} (f : A -> Co B) (m : Co A) : Co B := λ c,
  '(c, r) ← m c; match r with inl st => mret (c, inl st) | inr a => f a c end.
(** A [StatusOr] that is inspected. *)
Definition co_try {A} (m : Co A) : Co (StatusOr A) := λ c,
  '(c, r) ← m c; mret (c, inr r).

Notation "x ⇐ m ; k" := (co_bind (λ x : _, k) m)
  (at level 20, m at level 100, k at level 200, right associativity) : stdpp_scope.

Section lua.
Context `{Absl} `{Sdk} `{LuaSdk}.

(** ** The API as a script calls it *)

Definition is_request (c : LuaStreamCoroutine) : bool := bool_decide (mode_ c = kRequest).

(** What the unwrapper attached to the classes makes of a [Status] and of a
    [StatusOr]: the error's message is raised. *)
Definition unwrap_status (st : Status) : str + LuaValue :=
  if decide (status_code st = kOk) then inr LNil else inl (status_message st).
Definition unwrap {A} (f : A -> LuaValue) (r : StatusOr A) : str + LuaValue :=
  match r with inl st => inl (status_message st) | inr a => inr (f a) end.
Definition optional_string (o : option str) : LuaValue :=
  match o with Some s => LString s | None => LNil end.

(** A reason to yield, or the outcome. *)
Definition api (call : ApiCall) (c : LuaStreamCoroutine)
    : Prog (YieldReason + (str + LuaValue)) :=
  let passed_on := headers_passed_on_ c in
  match call with
  | HandleHeaders =>
      if negb (received_headers_ c) then mret (inl kWaitForHeaders)
      else mret (inr (inr (LHeader (Handle_GetHeaders (is_request c)))))
  | HandleBody =>
      if negb (received_body_ c) then mret (inl kWaitForBody)
      else mret (inr (inr (LBuffer (Handle_GetBody (is_request c)))))
  | HandleTrailers =>
      if negb (received_trailers_ c) then mret (inl kWaitForTrailers)
      else mret (inr (inr (LHeader (Handle_GetTrailers (is_request c)))))
  | NextBodyChunk => mret (inl kWaitForBodyChunks)
  | HeaderAdd h key value =>
      st ← Header_Add h passed_on key value; mret (inr (unwrap_status st))
  | HeaderRemove h key =>
      st ← Header_Remove h passed_on key; mret (inr (unwrap_status st))
  | HeaderReplace h key value =>
      st ← Header_Replace h passed_on key value; mret (inr (unwrap_status st))
  | HeaderSetHttp1ReasonPhrase h reason_phrase =>
      st ← Header_SetHttp1ReasonPhrase h reason_phrase; mret (inr (unwrap_status st))
  | HeaderGet h key => r ← Header_Get h key; mret (inr (unwrap optional_string r))
  | HeaderGetAtIndex h key index =>
      r ← Header_GetAtIndex h key index; mret (inr (unwrap optional_string r))
  | HeaderGetNumValues h key =>
      r ← Header_GetNumValues h key; mret (inr (unwrap LInteger r))
  | HeaderGetPairs h => r ← Header_GetPairs h; mret (inr (unwrap LPairs r))
  | BufferLength b => r ← Buffer_GetLength b; mret (inr (unwrap LInteger r))
  | BufferGetBytes b index length =>
      r ← Buffer_GetBytes b index length; mret (inr (unwrap LString r))
  | BufferSetBytes b string => st ← Buffer_SetBytes b string; mret (inr (unwrap_status st))
  | Log level msg => _ ← LOG level msg; mret (inr (inr LNil))
  end.

(** ** [LuaStreamCoroutine::Yield] and [lua_resume] *)

Inductive ResumeCode : Type :=
  | LUA_OK | LUA_YIELD | LUA_ERR (e : option str).

(** [k] is where the script goes on. *)
Definition Yield (reason : YieldReason) (k : str + LuaValue -> Script)
    (c : LuaStreamCoroutine) : LuaStreamCoroutine :=
  let t := lua_thread_ c in
  set_thread (mkThread [] (callee t) (Some k) (is_finished_ t) (is_running_ t))
    (set_yield_reason reason (set_state kYielded c)).

Fixpoint run_script (s : Script) (c : LuaStreamCoroutine)
    : Prog (LuaStreamCoroutine * ResumeCode) :=
  match s with
  | Return => mret (c, LUA_OK)
  | Error e => mret (c, LUA_ERR e)
  | Api call k =>
      r ← api call c;
      match r with
      | inl reason => mret (Yield reason k c, LUA_YIELD)
      | inr x => run_script (k x) c
      end
  end.

(** The [n_arg] values on top of the stack are the arguments: the first one
    is what a suspended script gets from its call. *)
Definition lua_resume (n_arg : nat) (c : LuaStreamCoroutine)
    : Prog (LuaStreamCoroutine * ResumeCode) :=
  let t := lua_thread_ c in
  let args := drop (length (stack t) - n_arg) (stack t) in
  let c := set_thread (mkThread [] None None (is_finished_ t) (is_running_ t)) c in
  match suspended t, callee t with
  | Some k, _ => run_script (k (inr (default LNil (head args)))) c
  | None, Some f => run_script f c
  | None, None => mret (c, LUA_ERR (Some "attempt to call a nil value"%str))
  end.

(** ** [class LuaState::Thread] *)

Definition ReadAndPopLuaError (raw_err : option str) : Status :=
  InternalError (default "Unknown Lua error"%str raw_err).

Definition set_running (x : bool) (c : LuaStreamCoroutine) : LuaStreamCoroutine :=
  let t := lua_thread_ c in
  set_thread (mkThread (stack t) (callee t) (suspended t) (is_finished_ t) x) c.
Definition set_finished (c : LuaStreamCoroutine) : LuaStreamCoroutine :=
  let t := lua_thread_ c in
  set_thread (mkThread (stack t) (callee t) (suspended t) true (is_running_ t)) c.

Definition Thread_Resume (n_arg : nat) : Co ExecutionState := λ c,
  let t := lua_thread_ c in
  if is_finished_ t then
    mret (c, inl (FailedPreconditionError "cannot resume dead thread"%str))
  else if bool_decide (length (stack t) < n_arg) then
    mret (c, inl (InvalidArgumentError "not enough arguments on stack to resume"%str))
  else if bool_decide (suspended t = None) && bool_decide (n_arg = length (stack t)) then
    mret (c, inl (InvalidArgumentError "not enough arguments on stack to resume"%str))
  else if is_running_ t then
    mret (c, inl (FailedPreconditionError "cannot resume a running thread"%str))
  else
    '(c, rc) ← lua_resume n_arg (set_running true c);
    let c := set_running false c in
    match rc with
    | LUA_OK => mret (set_finished c, inr kExited)
    | LUA_YIELD => mret (c, inr kYielded)
    | LUA_ERR e => mret (set_finished c, inl (ReadAndPopLuaError e))
    end.

Definition CanExecuteFunction : Co unit := λ c,
  let t := lua_thread_ c in
  if is_finished_ t then
    mret (c, inl (FailedPreconditionError "cannot execute on dead thread"%str))
  else match suspended t with
       | Some _ =>
           mret (c, inl (FailedPreconditionError "cannot execute on yielded thread"%str))
       | None => mret (c, inr tt)
       end.

(** [luabridge::push]; the parameter is the error of a push that fails. *)
Context (push_error : LuaValue -> option str).

Definition push_value (x : LuaValue) : Co unit :=
  co_modify (λ c,
    let t := lua_thread_ c in
    set_thread (mkThread (stack t ++ [x]) (callee t) (suspended t) (is_finished_ t)
                  (is_running_ t)) c).

Definition push (what : str) (x : LuaValue) : Co unit :=
  match push_error x with
  | Some message => co_fail (InternalError (StrCat [what; message]))
  | None => push_value x
  end.

(** The arguments of a call, or the message for the first one that cannot be
    pushed; what was pushed before it is popped again. *)
Fixpoint first_push_error (args : list LuaValue) : option str :=
  match args with
  | [] => None
  | x :: args => match push_error x with Some message => Some message | None => first_push_error args end
  end.

Definition push_args (args : list LuaValue) : Co unit :=
  co_modify (λ c,
    let t := lua_thread_ c in
    set_thread (mkThread (stack t ++ args) (callee t) (suspended t) (is_finished_ t)
                  (is_running_ t)) c).

(** On an early return the stack is as it was.  [globals] are the script's
    global functions. *)
Definition ExecuteFunctionImpl (globals : str -> option Script) (func_name : str)
    (args : list LuaValue) : Co ExecutionState :=
  match globals func_name with
  | None =>
      co_fail (NotFoundError (StrCat ["could not find "%str; func_name;
                                      " as a global function"%str]))
  | Some f =>
      match first_push_error args with
      | Some message =>
          co_fail (InternalError (StrCat ["Failed to push argument: "%str; message]))
      | None =>
          _ ⇐ co_modify (λ c, set_thread (mkThread (stack (lua_thread_ c)) (Some f)
                (suspended (lua_thread_ c)) (is_finished_ (lua_thread_ c))
                (is_running_ (lua_thread_ c))) c);
          _ ⇐ push_value LFunction;
          _ ⇐ push_args args;
          Thread_Resume (length args)
      end
  end.

(** [ExecuteFunction] with the handle, without an argument, with an integer. *)
Definition ExecuteFunction (globals : str -> option Script) (func_name : str)
    : Co ExecutionState :=
  _ ⇐ CanExecuteFunction; ExecuteFunctionImpl globals func_name [LHandle].
Definition ExecuteFunction_plain (globals : str -> option Script) (func_name : str)
    : Co ExecutionState :=
  _ ⇐ CanExecuteFunction; ExecuteFunctionImpl globals func_name [].
Definition ExecuteFunction_int (globals : str -> option Script) (func_name : str) (arg : Z)
    : Co ExecutionState :=
  _ ⇐ CanExecuteFunction; ExecuteFunctionImpl globals func_name [LInteger arg].

(** ** [class LuaStreamCoroutine] *)

Definition Resume (narg : nat) : Co ExecutionState :=
  c ⇐ co_get;
  if decide (state_ c = kExited) then
    co_fail (FailedPreconditionError "Cannot resume exited coroutine"%str)
  else
    _ ⇐ co_modify (set_yield_reason kNone);
    result ⇐ co_try (Thread_Resume narg);
    match result with
    | inl status => _ ⇐ co_modify (set_state kExited); co_fail status
    | inr st => _ ⇐ co_modify (set_state st); co_ret st
    end.

Definition body_of (c : LuaStreamCoroutine) : LuaValue :=
  LBuffer (if decide (mode_ c = kRequest) then HttpRequestBody else HttpResponseBody).
Definition headers_of (c : LuaStreamCoroutine) : LuaValue :=
  LHeader (mkHeader (if decide (mode_ c = kRequest) then RequestHeaders else ResponseHeaders)
             false).
Definition trailers_of (c : LuaStreamCoroutine) : LuaValue :=
  LHeader (mkHeader (if decide (mode_ c = kRequest) then RequestTrailers
                     else ResponseTrailers) false).

Definition Resume1 : Co unit := _ ⇐ Resume 1; co_ret tt.

(** The fuel bounds the iterations of the loop. *)
Fixpoint RunToCompletion (fuel : nat) : Co unit :=
  c ⇐ co_get;
  if decide (state_ c = kExited) then co_ret tt
  else
    match fuel with
    | 0 => λ _, Trap
    | S fuel =>
        match yield_reason_ c with
        | kWaitForBodyChunks =>
            _ ⇐ (if negb (body_chunk_consumed_ c) && has_body_data_ c then
                   _ ⇐ push "Failed to push final body chunk to coroutine: "%str (body_of c);
                   co_modify (set_consumed true)
                 else push "Failed to push nil to coroutine: "%str LNil);
            _ ⇐ Resume1;
            RunToCompletion fuel
        | kWaitForBody =>
            _ ⇐ push "Failed to push emptybody to coroutine: "%str (body_of c);
            _ ⇐ Resume1;
            RunToCompletion fuel
        | kWaitForTrailers =>
            _ ⇐ push "Failed to push empty trailers to coroutine: "%str (trailers_of c);
            _ ⇐ Resume1;
            RunToCompletion fuel
        | kWaitForHeaders | kWaitForHttp | kWaitToStart | kResponded | kNone => co_ret tt
        end
    end.

Definition get_state : Co ExecutionState := c ⇐ co_get; co_ret (state_ c).

(** Runs to completion if the stream has ended, and returns the state. *)
Definition finish_if_ended (fuel : nat) : Co ExecutionState :=
  c ⇐ co_get;
  _ ⇐ (if stream_ended_ c then RunToCompletion fuel else co_ret tt);
  get_state.

Definition Start (fuel : nat) (globals : str -> option Script) : Co ExecutionState :=
  c ⇐ co_get;
  if decide (state_ c <> kYielded \/ yield_reason_ c <> kWaitToStart) then
    co_fail (FailedPreconditionError "Cannot start already started coroutine"%str)
  else
    status ⇐ co_try (ExecuteFunction globals
      (if decide (mode_ c = kRequest) then "envoy_on_request"%str
       else "envoy_on_response"%str));
    match status with
    | inl status => _ ⇐ co_modify (set_state kExited); co_fail status
    | inr st => _ ⇐ co_modify (set_state st); finish_if_ended fuel
    end.

Definition HandleHeaders_ (fuel : nat) (num_headers : Z) (end_of_stream : bool)
    : Co ExecutionState :=
  _ ⇐ co_modify (λ c, set_flags true (received_body_ c) (has_body_data_ c)
        (body_chunk_consumed_ c) (received_trailers_ c) end_of_stream c);
  c ⇐ co_get;
  _ ⇐ (if decide (yield_reason_ c = kWaitForHeaders) then
         _ ⇐ push "Failed to push headers to coroutine: "%str (headers_of c);
         Resume1
       else co_ret tt);
  finish_if_ended fuel.

Definition HandleBody_ (fuel : nat) (body_buffer_length : Z) (end_of_stream : bool)
    : Co ExecutionState :=
  c ⇐ co_get;
  if stream_ended_ c then
    co_fail (FailedPreconditionError "Cannot handle body on ended stream"%str)
  else
    let data := (0 <? body_buffer_length)%Z in
    _ ⇐ co_modify (λ c, set_flags (received_headers_ c)
          (if end_of_stream then true else received_body_ c)
          (if data then true else has_body_data_ c)
          (if data then false else body_chunk_consumed_ c)
          (received_trailers_ c) end_of_stream c);
    c ⇐ co_get;
    if decide (state_ c = kExited) then get_state
    else
      _ ⇐ (if decide (yield_reason_ c = kWaitForBodyChunks \/
                      (yield_reason_ c = kWaitForBody /\ stream_ended_ c = true)) then
             _ ⇐ push "Failed to push body to coroutine: "%str (body_of c);
             _ ⇐ co_modify (set_consumed true);
             Resume1
           else co_ret tt);
      finish_if_ended fuel.

Definition HandleTrailers_ (fuel : nat) (num_trailers : Z) : Co ExecutionState :=
  c ⇐ co_get;
  if stream_ended_ c then
    co_fail (FailedPreconditionError "Cannot handle trailers on ended stream"%str)
  else if negb (received_headers_ c) then
    co_fail (FailedPreconditionError "Cannot process trailers before stream headers"%str)
  else if received_trailers_ c then
    co_fail (FailedPreconditionError "Trailers already received"%str)
  else
    _ ⇐ co_modify (λ c, set_flags (received_headers_ c) (received_body_ c)
          (has_body_data_ c) (body_chunk_consumed_ c) true true c);
    c ⇐ co_get;
    if decide (state_ c = kExited) then get_state
    else
      _ ⇐ (if decide (yield_reason_ c = kWaitForBody) then
             _ ⇐ push "Failed to push body to coroutine: "%str (body_of c); Resume1
           else co_ret tt);
      c ⇐ co_get;
      _ ⇐ (if decide (yield_reason_ c = kWaitForBodyChunks) then
             _ ⇐ push "Failed to push nil to coroutine: "%str LNil; Resume1
           else co_ret tt);
      c ⇐ co_get;
      _ ⇐ (if decide (yield_reason_ c = kWaitForTrailers) then
             _ ⇐ push "Failed to push trailers to coroutine: "%str (trailers_of c); Resume1
           else co_ret tt);
      _ ⇐ RunToCompletion fuel;
      get_state.

Definition HandleHttpResponse (headers body_size trailers : Z) : Co ExecutionState :=
  get_state.

(** ** The plugin's contexts *)

Definition AbslStatusToHttpStatusCode (status : Status) : Z :=
  match status_code status with
  | kOk => 200
  | kInvalidArgument | kFailedPrecondition | kOutOfRange => 400
  | kUnauthenticated => 401
  | kPermissionDenied => 403
  | kNotFound => 404
  | kAlreadyExists => 409
  | kResourceExhausted => 429
  | kUnimplemented => 501
  | kUnavailable => 503
  | kDeadlineExceeded => 504
  | kInternal | kUnknown | kDataLoss | kAborted | kCancelled => 500
  end.

Definition HandleEventError (status : Status) : Prog unit :=
  let http_code := AbslStatusToHttpStatusCode status in
  _ ← sendLocalResponse http_code "plugin_error"%str (status_message status) [];
  mret tt.

Definition no_coroutine : Status :=
  InternalError "No coroutine exists to process event"%str.

Definition HandleHeadersEvent (fuel : nat) (coroutine : option LuaStreamCoroutine)
    (num_headers : Z) (end_of_stream : bool)
    : Prog (FilterHeadersStatus.t * option LuaStreamCoroutine) :=
  match coroutine with
  | None =>
      _ ← HandleEventError no_coroutine;
      mret (FilterHeadersStatus.StopIteration, None)
  | Some c =>
      '(c, status) ← HandleHeaders_ fuel num_headers end_of_stream c;
      match status with
      | inl status =>
          _ ← HandleEventError status;
          mret (FilterHeadersStatus.StopIteration, Some c)
      | inr _ =>
          match yield_reason_ c with
          | kWaitForHttp | kWaitForBody | kResponded =>
              mret (FilterHeadersStatus.StopIteration, Some c)
          | _ => mret (FilterHeadersStatus.Continue, Some (MarkHeadersPassedOn c))
          end
      end
  end.

Definition HandleBodyEvent (fuel : nat) (coroutine : option LuaStreamCoroutine)
    (body_buffer_length : Z) (end_of_stream : bool)
    : Prog (FilterDataStatus.t * option LuaStreamCoroutine) :=
  match coroutine with
  | None =>
      _ ← HandleEventError no_coroutine;
      mret (FilterDataStatus.StopIterationNoBuffer, None)
  | Some c =>
      '(c, status) ← HandleBody_ fuel body_buffer_length end_of_stream c;
      match status with
      | inl status =>
          _ ← HandleEventError status;
          mret (FilterDataStatus.StopIterationNoBuffer, Some c)
      | inr _ =>
          match yield_reason_ c with
          | kWaitForHttp => mret (FilterDataStatus.StopIterationAndWatermark, Some c)
          | kWaitForBody => mret (FilterDataStatus.StopIterationAndBuffer, Some c)
          | kResponded => mret (FilterDataStatus.StopIterationNoBuffer, Some c)
          | _ => mret (FilterDataStatus.Continue, Some (MarkHeadersPassedOn c))
          end
      end
  end.

Definition HandleTrailersEvent (fuel : nat) (coroutine : option LuaStreamCoroutine)
    (num_trailers : Z) : Prog (FilterTrailersStatus.t * option LuaStreamCoroutine) :=
  match coroutine with
  | None =>
      _ ← HandleEventError no_coroutine;
      mret (FilterTrailersStatus.StopIteration, None)
  | Some c =>
      '(c, status) ← HandleTrailers_ fuel num_trailers c;
      match status with
      | inl status =>
          _ ← HandleEventError status;
          mret (FilterTrailersStatus.StopIteration, Some c)
      | inr _ =>
          match yield_reason_ c with
          | kWaitForHttp | kResponded => mret (FilterTrailersStatus.StopIteration, Some c)
          | _ => mret (FilterTrailersStatus.Continue, Some (MarkHeadersPassedOn c))
          end
      end
  end.

(** [class LuaHttpContext]; null until [onCreate]. *)
Record LuaHttpContext : Type := mkContext {
  request_coroutine_ : option LuaStreamCoroutine;
  response_coroutine_ : option LuaStreamCoroutine;
}.

(** [LuaState::NewThread]; the parameter is that [lua_newthread] fails. *)
Definition NewThread (failed : bool) : StatusOr Thread :=
  if failed then inl (InternalError "Could not create new thread"%str) else inr new_thread.

(** [status_text] is [absl::Status::ToString]. *)
Context (status_text : Status -> str).

(** One half of [onCreate]. *)
Definition create_coroutine (thread : StatusOr Thread) (mode : LuaStreamCoroutineMode)
    : Prog (option LuaStreamCoroutine) :=
  match thread with
  | inl status =>
      _ ← LOG_ERROR (StrCat ["[LuaHttpContext] onCreate: thread creation failed -- "%str;
                             status_text status]);
      mret None
  | inr t => mret (Some (set_thread t (new_coroutine mode)))
  end.

(** [lua_state] is whether [GetRootLuaState] is not null; the two booleans,
    whether the creation of the two threads fails. *)
Definition onCreate (lua_state failed_request failed_response : bool) : Prog LuaHttpContext :=
  if negb lua_state then
    _ ← LOG_ERROR (StrCat ["[LuaHttpContext] onCreate: root Lua state is null"%str]);
    mret (mkContext None None)
  else
    request ← create_coroutine (NewThread failed_request) kRequest;
    response ← create_coroutine (NewThread failed_response) kResponse;
    mret (mkContext request response).

(** Start the coroutine, and then handle the headers. *)
Definition start_and_handle (what : str) (fuel : nat) (globals : str -> option Script)
    (coroutine : option LuaStreamCoroutine) (num_headers : Z) (end_of_stream : bool)
    : Prog (FilterHeadersStatus.t * option LuaStreamCoroutine) :=
  match coroutine with
  | None =>
      _ ← HandleEventError no_coroutine;
      mret (FilterHeadersStatus.StopIteration, None)
  | Some c =>
      '(c, status) ← Start fuel globals c;
      match status with
      | inl status =>
          _ ← LOG_ERROR (StrCat [what; status_text status]);
          mret (FilterHeadersStatus.StopIteration, Some c)
      | inr _ => HandleHeadersEvent fuel (Some c) num_headers end_of_stream
      end
  end.

Definition onRequestHeaders (fuel : nat) (globals : str -> option Script)
    (ctx : LuaHttpContext) (num_headers : Z) (end_of_stream : bool)
    : Prog (FilterHeadersStatus.t * LuaHttpContext) :=
  '(st, c) ← start_and_handle "[LuaHttpContext] Failed to start request coroutine: "%str
    fuel globals (request_coroutine_ ctx) num_headers end_of_stream;
  mret (st, mkContext c (response_coroutine_ ctx)).

Definition onResponseHeaders (fuel : nat) (globals : str -> option Script)
    (ctx : LuaHttpContext) (num_headers : Z) (end_of_stream : bool)
    : Prog (FilterHeadersStatus.t * LuaHttpContext) :=
  '(st, c) ← start_and_handle "[LuaHttpContext] Failed to start response coroutine: "%str
    fuel globals (response_coroutine_ ctx) num_headers end_of_stream;
  mret (st, mkContext (request_coroutine_ ctx) c).

Definition onRequestBody (fuel : nat) (ctx : LuaHttpContext) (body_buffer_length : Z)
    (end_of_stream : bool) : Prog (FilterDataStatus.t * LuaHttpContext) :=
  '(st, c) ← HandleBodyEvent fuel (request_coroutine_ ctx) body_buffer_length end_of_stream;
  mret (st, mkContext c (response_coroutine_ ctx)).

Definition onResponseBody (fuel : nat) (ctx : LuaHttpContext) (body_buffer_length : Z)
    (end_of_stream : bool) : Prog (FilterDataStatus.t * LuaHttpContext) :=
  '(st, c) ← HandleBodyEvent fuel (response_coroutine_ ctx) body_buffer_length end_of_stream;
  mret (st, mkContext (request_coroutine_ ctx) c).

Definition onRequestTrailers (fuel : nat) (ctx : LuaHttpContext) (num_trailers : Z)
    : Prog (FilterTrailersStatus.t * LuaHttpContext) :=
  '(st, c) ← HandleTrailersEvent fuel (request_coroutine_ ctx) num_trailers;
  mret (st, mkContext c (response_coroutine_ ctx)).

Definition onResponseTrailers (fuel : nat) (ctx : LuaHttpContext) (num_trailers : Z)
    : Prog (FilterTrailersStatus.t * LuaHttpContext) :=
  '(st, c) ← HandleTrailersEvent fuel (response_coroutine_ ctx) num_trailers;
  mret (st, mkContext (request_coroutine_ ctx) c).

(** ** [class LuaState] and the root context

    [VM] is the interpreter; [luaL_newstate], [luaL_loadbuffer] with
    [lua_pcall], the opening of a library and the registration of the API's
    classes are its operations.  An error is its message object. *)
Section root.
Context {VM : Type} (luaL_newstate : option VM)
  (load_and_pcall open_library : str -> VM -> option (option str) * VM)
  (RegisterEnvoyApi : VM -> Status * VM).

(** The byte that compiled chunks begin with. *)
Definition LUA_SIGNATURE_0 : ascii := ascii_of_nat 27.

Definition ExecuteString (s : str) (vm : VM) : Status * VM :=
  if bool_decide (head s = Some LUA_SIGNATURE_0) then
    (InvalidArgumentError "Precompiled lua bytecode is not supported"%str, vm)
  else
    match load_and_pcall s vm with
    | (Some err, vm) => (ReadAndPopLuaError err, vm)
    | (None, vm) => (OkStatus, vm)
    end.

Definition kLuaLibs : list str :=
  [[]; "coroutine"%str; "table"%str; "string"%str; "math"%str].

Fixpoint open_libraries (libs : list str) (vm : VM) : Status * VM :=
  match libs with
  | [] => (OkStatus, vm)
  | name :: libs =>
      match open_library name vm with
      | (Some err, vm) =>
          (InternalError ("Could not open library "%str ++ name ++ ": "%str ++
                          status_message (ReadAndPopLuaError err)), vm)
      | (None, vm) => open_libraries libs vm
      end
  end.

Definition sandbox_script : str :=
  nl ++ "        local orig_rep = string.rep"%str ++
  nl ++ "        string.rep = function(s, n)"%str ++
  nl ++ "          if #s * n > 65536 then"%str ++
  nl ++ "            error('string.rep: size limit exceeded (max 64KB)')"%str ++
  nl ++ "          end"%str ++
  nl ++ "          return orig_rep(s, n)"%str ++
  nl ++ "        end"%str ++
  nl ++ "        load = nil"%str ++
  nl ++ "        loadstring = nil"%str ++
  nl ++ "        loadfile = nil"%str ++
  nl ++ "        dofile = nil"%str ++
  nl ++ "      "%str.

Definition Create : StatusOr VM :=
  match luaL_newstate with
  | None => inl (InternalError "Could not create new lua state"%str)
  | Some vm =>
      let '(st, vm) := open_libraries kLuaLibs vm in
      if decide (status_code st <> kOk) then inl st
      else
        let '(st, vm) := ExecuteString sandbox_script vm in
        if decide (status_code st <> kOk) then inl st
        else
          let '(st, vm) := RegisterEnvoyApi vm in
          if decide (status_code st <> kOk) then inl st else inr vm
  end.

(** The result and the field [lua_state_]. *)
Definition onConfigure (cfg_size : Z) (lua_state_ : option VM) : Prog (bool * option VM) :=
  match Create with
  | inl status =>
      _ ← LOG_ERROR (StrCat ["[LuaRootContext] onConfigure: "%str; status_text status]);
      mret (false, lua_state_)
  | inr vm =>
      if (0 <? cfg_size)%Z then
        config_data ← getBufferBytes PluginConfiguration 0 cfg_size;
        let no_config :=
          _ ← LOG_ERROR "[LuaRootContext] onConfigure: could not get config data"%str;
          mret (false, lua_state_) in
        match config_data with
        | None => no_config
        | Some config_data =>
            if (size_of (view config_data) =? 0)%Z then no_config
            else
              let '(status, vm) := ExecuteString (view config_data) vm in
              if decide (status_code status <> kOk) then
                _ ← LOG_ERROR (StrCat ["[LuaRootContext] onConfigure: lua error -- "%str;
                                       status_text status]);
                mret (false, lua_state_)
              else mret (true, Some vm)
        end
      else mret (true, Some vm)
  end.
End root.
End lua.
