(* ===== verification/LuaInv.v ===== *)
(** * The Lua plugin: the invariant of a stream's coroutine

    Runs of a program against any host, how often a script waits, and what the
    coroutine of a stream is between two events, over all histories of
    events. *)

From S2P Require Import Prelude Absl Headers Host Rules LuaApi LuaStream.

(** ** Runs against any host

    What a program may return, whatever the host answers; [ends Q p]: it
    returns, and what it returns satisfies [Q]. *)

Fixpoint may_return {A} (p : Prog A) (x : A) : Prop :=
  match p with
  | Ret a => a = x
  | Trap => False
  | Call c k => exists r, may_return (k r) x
  end.

Fixpoint ends {A} (Q : A -> Prop) (p : Prog A) : Prop :=
  match p with
  | Ret a => Q a
  | Trap => False
  | Call c k => forall r, ends Q (k r)
  end.

Section ends.
Context {A B : Type}.
Implicit Types (p : Prog A) (Q : A -> Prop).

Lemma ends_mono Q Q' p : (forall a, Q a -> Q' a) -> ends Q p -> ends Q' p.
Proof. intros HQ. induction p as [a| |c k IH]; simpl; eauto. Qed.

Lemma ends_bind p (f : A -> Prog B) (Q : B -> Prop) :
  ends (λ a, ends Q (f a)) p -> ends Q (p ≫= f).
Proof. induction p as [a| |c k IH]; simpl; eauto. Qed.

Lemma ends_ret (a : A) Q : Q a -> ends Q (mret a).
Proof. done. Qed.

Lemma ends_call c (Q : answer c -> Prop) : (forall r, Q r) -> ends Q (call c).
Proof. done. Qed.

Lemma ends_may_return Q p x : ends Q p -> may_return p x -> Q x.
Proof. induction p as [a| |c k IH]; simpl; [by intros ? <-|done|naive_solver]. Qed.

Lemma ends_and Q Q' p : ends Q p -> ends Q' p -> ends (λ a, Q a /\ Q' a) p.
Proof. induction p as [a| |c k IH]; simpl; [by split|done|]. intros H1 H2 r. apply IH; [apply H1|apply H2]. Qed.

Lemma ends_inhabited Q p (r0 : forall c, answer c) : ends Q p -> exists x, may_return p x.
Proof. induction p as [a| |c k IH]; simpl; [eauto|done|]. intros He.
       destruct (IH (r0 c) (He _)) as [x Hx]. eauto. Qed.
End ends.
#[global] Arguments ends : simpl never.

(** The program ends, and on every way it either sends a local response or
    returns what satisfies [Q]. *)
Fixpoint resolves {A} (Q : A -> Prop) (p : Prog A) : Prop :=
  match p with
  | Ret a => Q a
  | Trap => False
  | Call c k =>
      match c with
      | SendLocalResponse _ _ _ _ => forall r, ends (λ _, True) (k r)
      | _ => forall r, resolves Q (k r)
      end
  end.

Lemma ends_resolves {A} (Q : A -> Prop) (p : Prog A) : ends Q p -> resolves Q p.
Proof.
  induction p as [a| |c k IH]; [done..|]. intros He. cbn.
  assert (forall r, ends (λ _, True) (k r)) as Ht by (intros r; by eapply ends_mono; [|apply He]).
  destruct c; try exact Ht; intros r; apply IH, He.
Qed.

Lemma resolves_bind {A B} (R : A -> Prop) (Q : B -> Prop) (p : Prog A) (f : A -> Prog B) :
  ends R p -> (forall a, R a -> ends (λ _, True) (f a) /\ resolves Q (f a)) ->
  resolves Q (p ≫= f).
Proof.
  intros Hp Hf. induction p as [a| |c k IH]; [by apply Hf|done|]. cbn.
  assert (forall r, ends (λ _, True) (k r ≫= f)) as Ht.
  { intros r. apply ends_bind. eapply ends_mono; [|apply (Hp r)]. intros a Ha. by apply Hf. }
  destruct c; try exact Ht; intros r; apply IH, Hp.
Qed.

#[global] Arguments resolves : simpl never.

(** The same of an operation on the coroutine [c]. *)
Definition co_ends {A} (Q : LuaStreamCoroutine -> StatusOr A -> Prop) (m : Co A)
    (c : LuaStreamCoroutine) : Prop := ends (λ '(c', r), Q c' r) (m c).

Section co_ends.
Context {A B : Type}.
Implicit Types c : LuaStreamCoroutine.

Lemma co_ends_mono (Q Q' : LuaStreamCoroutine -> StatusOr A -> Prop) m c :
  (forall c' r, Q c' r -> Q' c' r) -> co_ends Q m c -> co_ends Q' m c.
Proof. intros HQ. apply ends_mono. intros [c' r]. apply HQ. Qed.

Lemma co_ends_ret (Q : LuaStreamCoroutine -> StatusOr A -> Prop) a c :
  Q c (inr a) -> co_ends Q (co_ret a) c.
Proof. done. Qed.

Lemma co_ends_fail (Q : LuaStreamCoroutine -> StatusOr A -> Prop) st c :
  Q c (inl st) -> co_ends Q (co_fail st) c.
Proof. done. Qed.

Lemma co_ends_bind (Q : LuaStreamCoroutine -> StatusOr B -> Prop) (f : A -> Co B) m c :
  co_ends (λ c' r, match r with inl st => Q c' (inl st) | inr a => co_ends Q (f a) c' end) m c ->
  co_ends Q (co_bind f m) c.
Proof.
  intros Hm. unfold co_ends, co_bind. apply ends_bind. eapply ends_mono; [|exact Hm].
  intros [c' [st|a]]; done.
Qed.

Lemma co_ends_get (Q : LuaStreamCoroutine -> StatusOr B -> Prop) (f : LuaStreamCoroutine -> Co B) c :
  co_ends Q (f c) c -> co_ends Q (co_bind f co_get) c.
Proof. done. Qed.

Lemma co_ends_modify (Q : LuaStreamCoroutine -> StatusOr B -> Prop) (f : unit -> Co B) g c :
  co_ends Q (f tt) (g c) -> co_ends Q (co_bind f (co_modify g)) c.
Proof. done. Qed.

Lemma co_ends_try (Q : LuaStreamCoroutine -> StatusOr B -> Prop) (f : StatusOr A -> Co B) m c :
  co_ends (λ c' r, co_ends Q (f r) c') m c -> co_ends Q (co_bind f (co_try m)) c.
Proof.
  intros Hm. unfold co_ends, co_bind, co_try. apply ends_bind, ends_bind.
  eapply ends_mono; [|exact Hm]. by intros [c' r].
Qed.
End co_ends.

(** ** How often a script waits *)

Definition is_wait (call : ApiCall) : bool :=
  match call with
  | HandleHeaders | HandleBody | HandleTrailers | NextBodyChunk => true
  | _ => false
  end.

(** On no path through the script there are more than [n] calls that may wait. *)
Fixpoint waits_within (n : nat) (s : Script) : Prop :=
  match s with
  | Return | Error _ => True
  | Api call k =>
      if is_wait call then
        match n with 0 => False | S n => forall x, waits_within n (k x) end
      else forall x, waits_within n (k x)
  end.

Lemma waits_within_le n m s : n <= m -> waits_within n s -> waits_within m s.
Proof.
  revert n m. induction s as [| |call k IH]; intros n m Hnm; simpl; [done..|].
  destruct (is_wait call); [|eauto].
  destruct n as [|n], m as [|m]; [done..|lia|]. intros Hs x. eapply IH; [|done]. lia.
Qed.

(** ** The states between two events *)

(** Not started. *)
Definition fresh (c : LuaStreamCoroutine) : Prop :=
  state_ c = kYielded /\ yield_reason_ c = kWaitToStart /\ lua_thread_ c = new_thread.

(** The flags of the stream, which only the events change. *)
Definition same_flags (c c' : LuaStreamCoroutine) : Prop :=
  mode_ c' = mode_ c /\ headers_passed_on_ c' = headers_passed_on_ c /\
  received_headers_ c' = received_headers_ c /\ received_body_ c' = received_body_ c /\
  received_trailers_ c' = received_trailers_ c /\ stream_ended_ c' = stream_ended_ c.

(** Moreover, a coroutine that was started stays so. *)
Definition same_stream (c c' : LuaStreamCoroutine) : Prop :=
  same_flags c c' /\ (fresh c' -> fresh c).

#[export] Instance same_flags_preorder : PreOrder same_flags.
Proof.
  split; [done|]. intros c c' c'' (?&?&?&?&?&?) (?&?&?&?&?&?). unfold same_flags.
  split_and!; congruence.
Qed.

#[export] Instance same_stream_preorder : PreOrder same_stream.
Proof. split; [done|]. intros c c' c'' [? ?] [? ?]. split; [by etrans|auto]. Qed.

(** The coroutine has exited. *)
Definition exited (c : LuaStreamCoroutine) : Prop :=
  state_ c = kExited /\ is_running_ (lua_thread_ c) = false /\
  (yield_reason_ c = kNone \/ yield_reason_ c = kWaitToStart).

Lemma exited_not_fresh c : exited c -> ~ fresh c.
Proof. intros (He & _) (Hf & _). congruence. Qed.

(** Suspended, with at most [n] more calls that may wait. *)
Definition parked (n : nat) (c : LuaStreamCoroutine) : Prop :=
  state_ c = kYielded /\
  exists f k, lua_thread_ c = mkThread [] f (Some k) false false /\
              forall x, waits_within n (k x).

Lemma parked_not_fresh n c : parked n c -> ~ fresh c.
Proof. intros (_ & f & k & Ht & _) (_ & _ & Hf). rewrite Ht in Hf. discriminate Hf. Qed.

(** It waits for something that is still to come. *)
Definition waiting (c : LuaStreamCoroutine) : Prop :=
  match yield_reason_ c with
  | kWaitForHeaders => received_headers_ c = false
  | kWaitForBody => received_body_ c = false
  | kWaitForTrailers => received_trailers_ c = false
  | kWaitForBodyChunks => True
  | _ => False
  end.

(** The invariant: between two events the coroutine has exited, or it has not
    been started, or it waits for an event that is still to come, in which case
    the stream has not ended; and a stream ends no sooner than its headers. *)
Definition co_inv (n : nat) (c : LuaStreamCoroutine) : Prop :=
  (exited c \/ fresh c \/ (parked n c /\ waiting c /\ stream_ended_ c = false)) /\
  (stream_ended_ c = true -> received_headers_ c = true).

Section resuming.
Context `{!Absl} `{!Sdk} `{!LuaSdk}.
Implicit Types c : LuaStreamCoroutine.

(** A call yields only if it may wait, and only for what is to come. *)
Lemma api_ends call c :
  ends (λ r, match r with
             | inl reason => is_wait call = true /\ waiting (set_yield_reason reason c)
             | inr _ => True
             end) (api call c).
Proof.
  destruct call; cbn [api is_wait];
    repeat match goal with
    | |- ends _ (if negb ?b then _ else _) => destruct b eqn:?; cbn [negb]
    | |- ends _ (mret _) => apply ends_ret
    | |- ends _ (_ ≫= _) => apply ends_bind
    end; try done.
  all: unfold Header_Add, Header_Remove, Header_Replace, Header_SetHttp1ReasonPhrase,
         Header_Get, Header_GetAtIndex, Header_GetNumValues, Header_GetPairs, Buffer_GetLength,
         Buffer_GetBytes, Buffer_SetBytes, getHeaderMapPairs, getHeaderMapValue, setBuffer, LOG.
  all: repeat match goal with
    | |- ends _ (mret _) => apply ends_ret
    | |- ends _ (Ret _) => apply ends_ret
    | |- ends _ (_ ≫= _) => apply ends_bind
    | |- ends _ (call _) => apply ends_call; intros ?
    | |- ends _ (if ?b then _ else _) => destruct b
    | |- ends _ (match ?x with _ => _ end) => destruct x
    end; try done.
Qed.

Lemma run_script_ends n s c :
  waits_within n s ->
  ends (λ '(c', rc),
    match rc with
    | LUA_YIELD => exists reason k m, n = S m /\ c' = Yield reason k c /\
        waiting c' /\ forall x, waits_within m (k x)
    | _ => c' = c
    end) (run_script s c).
Proof.
  induction s as [|e|call k IH]; intros Hs; [done..|]. cbn [run_script].
  apply ends_bind. eapply ends_mono; [|apply (api_ends call c)].
  intros [reason|x].
  - intros [Hw Hr]. cbn [waits_within] in Hs. rewrite Hw in Hs.
    destruct n as [|n]; [done|]. apply ends_ret. exists reason, k, n. done.
  - intros _. apply IH. cbn [waits_within] in Hs. destruct (is_wait call); [|done].
    destruct n as [|n]; [done|]. eapply waits_within_le; [|apply Hs]. lia.
Qed.

(** What a resumption leaves: an exit, which an error always is, or the next
    call that waits. *)
Definition resumed {A} (n : nat) (c c' : LuaStreamCoroutine) (r : StatusOr A) : Prop :=
  same_stream c c' /\
  (exited c' \/ exists m a, n = S m /\ r = inr a /\ parked m c' /\ waiting c').

(** [Thread_Resume] on a thread that can run. *)
Lemma Thread_Resume_ends n_arg n c s :
  is_finished_ (lua_thread_ c) = false -> is_running_ (lua_thread_ c) = false ->
  n_arg <= length (stack (lua_thread_ c)) ->
  (suspended (lua_thread_ c) = None -> n_arg <> length (stack (lua_thread_ c))) ->
  match suspended (lua_thread_ c) with
  | Some k => s = k (inr (default LNil (head (drop (length (stack (lua_thread_ c)) - n_arg)
                                                (stack (lua_thread_ c))))))
  | None => callee (lua_thread_ c) = Some s
  end ->
  waits_within n s ->
  co_ends (λ c' r, same_flags c c' /\ is_running_ (lua_thread_ c') = false /\
    match r with
    | inr kYielded => exists m, n = S m /\ parked m c' /\ waiting c'
    | _ => yield_reason_ c' = yield_reason_ c
    end) (Thread_Resume n_arg) c.
Proof.
  intros Hf Hr Hn Hne Hs Hw. unfold co_ends, Thread_Resume. cbv zeta. rewrite Hf.
  rewrite bool_decide_false by lia.
  assert (bool_decide (suspended (lua_thread_ c) = None) &&
          bool_decide (n_arg = length (stack (lua_thread_ c))) = false) as ->.
  { destruct (suspended (lua_thread_ c)) as [k|]; [by rewrite bool_decide_false by done|].
    rewrite (bool_decide_false (n_arg = _)) by auto. apply andb_false_r. }
  rewrite Hr. apply ends_bind. unfold lua_resume. cbv zeta.
  set (c0 := set_thread _ (set_running true c)).
  assert (ends (λ '(c', rc),
    match rc with
    | LUA_YIELD => exists reason k m, n = S m /\ c' = Yield reason k c0 /\
        waiting c' /\ forall x, waits_within m (k x)
    | _ => c' = c0
    end) (run_script s c0)) as Hrun by (eapply run_script_ends; exact Hw).
  cbn [set_running set_thread lua_thread_ suspended callee stack] in *.
  destruct (suspended (lua_thread_ c)) as [k|]; [rewrite <- Hs|rewrite Hs];
    (eapply ends_mono; [|exact Hrun]); intros [c' [| |e]];
    try (intros ->; apply ends_ret; split_and!; done).
  all: intros (reason & k' & m & -> & -> & Hwait & Hk); apply ends_ret;
    split_and!; [done..|];
    exists m; split_and!; [done| |done]; split; [done|];
    eexists _, k'; split; [|done]; subst c0; cbn; by rewrite Hf.
Qed.

(** A value to resume with is on the stack. *)
Definition loaded (n : nat) (c : LuaStreamCoroutine) : Prop :=
  state_ c = kYielded /\
  exists x f k, lua_thread_ c = mkThread [x] f (Some k) false false /\
                forall y, waits_within n (k y).

Lemma Resume1_ends n c : loaded n c -> co_ends (resumed n c) Resume1 c.
Proof.
  intros (Hst & x & f & k & Ht & Hk). unfold Resume1, Resume.
  apply co_ends_bind, co_ends_get. rewrite Hst. rewrite decide_False by done.
  apply co_ends_modify, co_ends_try.
  eapply co_ends_mono;
    [|eapply (Thread_Resume_ends 1 n _ (k (inr x))); cbn [set_yield_reason lua_thread_];
      rewrite ?Ht; cbn; first [done|lia|apply Hk]].
  intros c' [st|[]] (Hs & Hr & Hx).
  - apply co_ends_modify, co_ends_fail. split; [split; [exact Hs|by intros [? _]]|].
    left. split_and!; [done..|]. left. exact Hx.
  - apply co_ends_modify, co_ends_ret, co_ends_ret.
    split; [split; [exact Hs|by intros [? _]]|]. left. split_and!; [done..|]. left. exact Hx.
  - destruct Hx as (m & -> & Hp & Hw). apply co_ends_modify, co_ends_ret, co_ends_ret.
    split; [split; [exact Hs|intros Hf;
      destruct (parked_not_fresh m (set_state kYielded c') (conj eq_refl (proj2 Hp)) Hf)]|]. right. exists m, tt. split_and!; [done..| |exact Hw].
    destruct Hp as (? & Hp). split; [done|exact Hp].
Qed.

Lemma loaded_stream n c c1 : same_flags c c1 -> loaded n c1 -> same_stream c c1.
Proof.
  intros Hs (_ & x & f & k & Ht & _). split; [done|]. intros (_ & _ & Hf).
  rewrite Ht in Hf. discriminate Hf.
Qed.

Lemma Resume1_from n c c1 :
  same_flags c c1 -> loaded n c1 -> co_ends (resumed n c) Resume1 c1.
Proof.
  intros Hs Hl. pose proof (loaded_stream n c c1 Hs Hl).
  eapply co_ends_mono; [|by apply Resume1_ends]. intros c' r [Hs' ?].
  split; [by etrans|done].
Qed.

Context (push_error : LuaValue -> option str) (push_ok : forall x, push_error x = None).

(** A value on the stack of a suspended thread. *)
Definition pushed (x : LuaValue) c : LuaStreamCoroutine :=
  let t := lua_thread_ c in
  set_thread (mkThread (stack t ++ [x]) (callee t) (suspended t) (is_finished_ t)
                (is_running_ t)) c.

Lemma co_ends_push {A} (Q : LuaStreamCoroutine -> StatusOr A -> Prop) f what x c :
  co_ends Q (f tt) (pushed x c) -> co_ends Q (co_bind f (push push_error what x)) c.
Proof. unfold push. by rewrite push_ok. Qed.

Lemma pushed_loaded n x c : parked n c -> loaded n (pushed x c).
Proof.
  intros (Hst & f & k & Ht & Hk). split; [done|]. exists x, f, k. split; [|done].
  unfold pushed. by rewrite Ht.
Qed.

(** Resume with a value, and go on. *)
Lemma co_ends_resume {A} (Q : LuaStreamCoroutine -> StatusOr A -> Prop) f n c :
  loaded n c ->
  (forall c' (r : StatusOr unit), resumed n c c' r ->
     match r with inl st => Q c' (inl st) | inr _ => co_ends Q (f tt) c' end) ->
  co_ends Q (co_bind f Resume1) c.
Proof.
  intros Hl HQ. apply co_ends_bind. eapply co_ends_mono; [|by apply Resume1_ends].
  intros c' [st|[]] Hr; exact (HQ _ _ Hr).
Qed.

(** The stream has ended: nothing more is to come. *)
Definition settled (c c' : LuaStreamCoroutine) : Prop :=
  same_stream c c' /\ (exited c' \/ fresh c').

Lemma settled_trans c c' c'' : same_stream c c' -> settled c' c'' -> settled c c''.
Proof. intros Hs [Hs' Hx]. split; [by etrans|done]. Qed.

Lemma RunToCompletion_exited fuel c :
  exited c -> co_ends (λ c' _, settled c c') (RunToCompletion push_error fuel) c.
Proof.
  intros Hx. destruct fuel; cbn [RunToCompletion]; apply co_ends_get;
    (rewrite decide_True by apply Hx); (apply co_ends_ret; split; [done|by left]).
Qed.

Lemma RunToCompletion_ends n fuel c :
  n < fuel -> received_headers_ c = true ->
  exited c \/ fresh c \/ (parked n c /\ waiting c) ->
  co_ends (λ c' _, settled c c') (RunToCompletion push_error fuel) c.
Proof.
  revert n c. induction fuel as [|fuel IH]; intros n c Hn Hh Hc; [lia|].
  assert (forall c1, same_flags c c1 -> loaded n c1 ->
    co_ends (λ c' _, settled c c')
      (_ ⇐ Resume1; RunToCompletion push_error fuel) c1) as Hgo.
  { intros c1 Hf1 Hl. pose proof (loaded_stream n c c1 Hf1 Hl) as Hs1. eapply co_ends_resume; [done|].
    intros c2 [st|[]] (Hs2 & [Hx|(m & a & -> & Ha & Hp & Hw)]); try done.
    - split; [by etrans|by left].
    - eapply co_ends_mono; [|by apply RunToCompletion_exited].
      intros c3 r. apply settled_trans. by etrans.
    - eapply co_ends_mono; [|apply (IH m); [lia| |by auto]].
      + intros c3 r. apply settled_trans. by etrans.
      + transitivity (received_headers_ c1); [apply Hs2|]. rewrite <- Hh. apply Hs1. }
  cbn [RunToCompletion]. apply co_ends_get.
  destruct Hc as [Hx|[Hf|[Hp Hw]]].
  - rewrite decide_True by apply Hx. apply co_ends_ret. split; [done|by left].
  - rewrite decide_False by (destruct Hf; congruence).
    destruct Hf as (? & Hr & ?). rewrite Hr. apply co_ends_ret.
    split; [done|]. right. by split_and!.
  - rewrite decide_False by (destruct Hp; congruence).
    unfold waiting in Hw. destruct (yield_reason_ c); try done.
    + congruence.
    + apply co_ends_push. apply Hgo; [done|by apply pushed_loaded].
    + apply co_ends_bind. destruct (negb _ && _).
      * apply co_ends_push. apply (Hgo (set_consumed true (pushed _ c))); [done|].
        exact (pushed_loaded n _ c Hp).
      * unfold push. rewrite push_ok. apply (Hgo (pushed _ c)); [done|by apply pushed_loaded].
    + apply co_ends_push. apply Hgo; [done|by apply pushed_loaded].
Qed.

Lemma parked_le n m c : n <= m -> parked n c -> parked m c.
Proof.
  intros Hnm (Hst & f & k & Ht & Hk). split; [done|]. exists f, k. split; [done|].
  intros x. by eapply waits_within_le.
Qed.

Lemma co_inv_parked n c :
  co_inv n c -> yield_reason_ c <> kNone -> yield_reason_ c <> kWaitToStart ->
  parked n c /\ waiting c /\ stream_ended_ c = false.
Proof. intros [[(_&_&[?|?])|[(_&?&_)|?]] _] ??; done. Qed.

(** What is left after a part of a handler: the coroutine has exited, or as
    [P] has it. *)
Definition goes_on {A} (P : LuaStreamCoroutine -> Prop) (c c' : LuaStreamCoroutine)
    (r : StatusOr A) : Prop :=
  same_stream c c' /\ (exited c' \/ (exists a, r = inr a) /\ P c').

Lemma resume_if_ends (P : Prop) `{!Decision P} n m c :
  (P -> parked n c) -> (parked n c -> co_ends (resumed n c) m c) ->
  co_ends (goes_on (λ c', (c' = c /\ ~ P) \/ (parked n c' /\ waiting c')) c)
    (if decide P then m else co_ret tt) c.
Proof.
  intros HP Hm. destruct (decide P) as [Hyes|Hno].
  - eapply co_ends_mono; [|by apply Hm, HP].
    intros c' r (Hs & [Hx|(k & a & -> & -> & Hp & Hw)]); (split; [done|]); [by left|right].
    split; [by eexists|]. right. split; [|done]. eapply parked_le; [|done]. lia.
  - apply co_ends_ret. split; [done|]. right. split; [by eexists|]. by left.
Qed.

Lemma push_resume_ends n what x c :
  parked n c -> co_ends (resumed n c) (_ ⇐ push push_error what x; Resume1) c.
Proof.
  intros Hp. apply co_ends_push, Resume1_from; [done|by apply pushed_loaded].
Qed.

Definition at_rest (n : nat) c : Prop := exited c \/ fresh c \/ (parked n c /\ waiting c).

(** The last part of every handler. *)
Lemma finish_ends n fuel c :
  n < fuel -> (stream_ended_ c = true -> received_headers_ c = true) -> at_rest n c ->
  co_ends (λ c' _, same_stream c c' /\ co_inv n c') (finish_if_ended push_error fuel) c.
Proof.
  intros Hn Hh Hc. unfold finish_if_ended. apply co_ends_get. apply co_ends_bind.
  assert (forall c', settled c c' -> same_stream c c' /\ co_inv n c') as Hset.
  { intros c' [Hs Hx]. split; [done|]. split; [tauto|].
    destruct Hs as [(_&_&Hrec&_&_&He) _]. by rewrite Hrec, He. }
  destruct (stream_ended_ c) eqn:He.
  - eapply co_ends_mono; [|apply (RunToCompletion_ends n); auto].
    intros c' [st|[]] Hs; [by apply Hset|]. apply co_ends_get, co_ends_ret. by apply Hset.
  - apply co_ends_ret, co_ends_get, co_ends_ret. split; [done|].
    split; [|by rewrite He]. destruct Hc as [?|[?|[??]]]; auto.
Qed.

Lemma run_ends n fuel c :
  n < fuel -> received_headers_ c = true -> stream_ended_ c = true -> at_rest n c ->
  co_ends (λ c' _, same_stream c c' /\ co_inv n c')
    (_ ⇐ RunToCompletion push_error fuel; get_state) c.
Proof.
  intros Hn Hh He Hc. pose proof (finish_ends n fuel c Hn (λ _, Hh) Hc) as Hf. revert Hf.
  unfold finish_if_ended, co_ends at 1. unfold co_bind at 1, co_get. simpl. by rewrite He.
Qed.

(** What an event leaves; [ended]: it was the last one. *)
Definition handled (n : nat) (ended : Prop) (c c' : LuaStreamCoroutine) : Prop :=
  co_inv n c' /\ received_headers_ c' = true /\ (ended -> stream_ended_ c' = true) /\
  headers_passed_on_ c' = headers_passed_on_ c /\ (fresh c' -> fresh c).

(** [goes_on] into the last part. *)
Lemma co_ends_finish {A} n fuel (m : Co A) c :
  n < fuel -> (stream_ended_ c = true -> received_headers_ c = true) ->
  co_ends (goes_on (at_rest n) c) m c ->
  co_ends (λ c' _, same_stream c c' /\ co_inv n c')
    (_ ⇐ m; finish_if_ended push_error fuel) c.
Proof.
  intros Hn Hh Hm. apply co_ends_bind. eapply co_ends_mono; [|exact Hm].
  intros c' r [Hs Hx]. assert (stream_ended_ c' = true -> received_headers_ c' = true) as Hh'.
  { destruct Hs as [(_&_&Hrec&_&_&He) _]. by rewrite Hrec, He. }
  destruct r as [st|a].
  - split; [done|]. split; [|done]. destruct Hx as [?|[[? ?] _]]; [by left|done].
  - eapply co_ends_mono; [|apply (finish_ends n); [done|done|]].
    + intros c'' r [Hs' ?]. split; [by etrans|done].
    + destruct Hx as [?|[_ ?]]; [by left|done].
Qed.

Lemma CanExecuteFunction_ends (Q : LuaStreamCoroutine -> StatusOr unit -> Prop) c :
  lua_thread_ c = new_thread -> Q c (inr tt) -> co_ends Q CanExecuteFunction c.
Proof. unfold co_ends, CanExecuteFunction. cbv zeta. by intros ->. Qed.

Lemma Start_ends n fuel globals c :
  n < fuel -> (forall name s, globals name = Some s -> waits_within n s) -> co_inv n c ->
  co_ends (λ c' _, same_stream c c' /\ co_inv n c') (Start push_error fuel globals) c.
Proof.
  intros Hn Hg Hc. unfold Start. apply co_ends_get.
  destruct (decide _) as [|Hst]; [by apply co_ends_fail|].
  assert (fresh c) as Hfc.
  { destruct Hc as [[[Hx _]|[?|(_ & Hw & _)]] _]; [|done|].
    - exfalso. apply Hst. left. by rewrite Hx.
    - exfalso. apply Hst. right. unfold waiting in Hw. by intros Hr; rewrite Hr in Hw. }
  pose proof Hfc as (Hy & Hr & Ht).
  apply co_ends_try. unfold ExecuteFunction, ExecuteFunctionImpl.
  apply co_ends_bind, CanExecuteFunction_ends; [done|]. assert (forall st, co_ends (λ c' _, same_stream c c' /\ co_inv n c')
    (_ ⇐ co_modify (set_state kExited); co_fail (A := ExecutionState) st) c) as Hfail.
  { intros st. apply co_ends_modify, co_ends_fail. split; [done|]. split; [|apply Hc].
    left. split_and!; [done| |by right]. cbn. by rewrite Ht. }
  destruct (globals _) as [s|] eqn:Hs;  [|apply co_ends_fail, Hfail].
  cbn [first_push_error]. rewrite push_ok. apply co_ends_modify. unfold push_value, push_args.
  do 2 apply co_ends_modify.
  cbn [set_thread lua_thread_ stack callee suspended is_finished_ is_running_]. rewrite Ht.
  cbn [new_thread stack callee suspended is_finished_ is_running_ app].
  eapply co_ends_mono; [|eapply (Thread_Resume_ends 1 n _ s); cbn;
    first [done|lia|by eapply Hg]].
  assert (forall c', same_flags c c' -> stream_ended_ c' = true -> received_headers_ c' = true)
    as Hrec. { intros c' (_&_&->&_&_&->). apply Hc. }
  intros c' [st|[]] (Hs' & Hrun & Hx).
  - apply co_ends_modify, co_ends_fail. split; [exact (conj Hs' (λ _, Hfc))|]. split; [|by apply Hrec].
    left. split_and!; [done..|]. right. by rewrite <- Hr.
  - apply co_ends_modify. eapply co_ends_mono; [|apply (finish_ends n); [done|by apply Hrec|]].
    + intros c'' r [Hs'' ?]. split; [|done]. transitivity (set_state kExited c'); [exact (conj Hs' (λ _, Hfc))|exact Hs''].
    + left. split_and!; [done..|]. right. by rewrite <- Hr.
  - destruct Hx as (m & -> & Hp & Hw). apply co_ends_modify.
    eapply co_ends_mono; [|apply (finish_ends (S m)); [done|by apply Hrec|]].
    + intros c'' r [Hs'' ?]. split; [|done]. transitivity (set_state kYielded c'); [exact (conj Hs' (λ _, Hfc))|exact Hs''].
    + right. right. split; [|exact Hw]. eapply (parked_le m); [lia|].
      split; [done|apply Hp].
Qed.

Lemma HandleHeaders_ends n fuel num_headers end_of_stream c :
  n < fuel -> co_inv n c ->
  co_ends (λ c' _, handled n (end_of_stream = true) c c')
    (HandleHeaders_ push_error fuel num_headers end_of_stream) c.
Proof.
  intros Hn Hc. unfold HandleHeaders_. apply co_ends_modify, co_ends_get.
  set (c1 := set_flags true _ _ _ _ _ c).
  eapply co_ends_mono; [|apply (co_ends_finish n); [done|done|]].
  { intros c' _ [[(_&Hp&Hh&_&_&He) Hf] Hi].
    split_and!; [done|exact Hh|by rewrite He|exact Hp|exact Hf]. }
  eapply co_ends_mono; [|eapply (resume_if_ends (yield_reason_ c1 = kWaitForHeaders) n)].
  - intros c' r [Hs [Hx|[Hr [[-> Hne]|?]]]]; (split; [done|]); [by left|right..];
      (split; [done|]); [|by right; right].
    destruct Hc as [[Hx|[Hf|(Hp & Hw & _)]] _]; [by left|by right; left|].
    right. right. split; [exact Hp|]. unfold waiting in *. cbn in *.
    by destruct (yield_reason_ c).
  - intros Hr. eapply (co_inv_parked n c); [done|cbn in Hr; congruence..].
  - apply push_resume_ends.
Qed.

Lemma HandleBody_ends n fuel body_buffer_length end_of_stream c :
  n < fuel -> co_inv n c -> received_headers_ c = true ->
  co_ends (λ c' _, handled n (stream_ended_ c = true \/ end_of_stream = true) c c')
    (HandleBody_ push_error fuel body_buffer_length end_of_stream) c.
Proof.
  intros Hn Hc Hh. unfold HandleBody_. apply co_ends_get.
  destruct (stream_ended_ c) eqn:He; [apply co_ends_fail; by split_and!|].
  cbv zeta. apply co_ends_modify, co_ends_get.
  set (c1 := set_flags _ _ _ _ _ _ c).
  destruct (decide (state_ c1 = kExited)) as [Hx|Hx].
  { apply co_ends_get, co_ends_ret. split_and!; [|done|by intros [?|?]|done|done].
    split; [|done]. left. destruct Hc as [[Hc|[Hc|Hc]] _]; [exact Hc|..];
      destruct Hc as [Hc ?]; [|destruct Hc as [Hc ?]]; cbn in Hx; congruence. }
  eapply co_ends_mono; [|apply (co_ends_finish n); [done|done|]].
  { intros c' _ [[(_&Hp&Hh'&_&_&He') Hf] Hi].
    split_and!; [done|by rewrite Hh'| |exact Hp|exact Hf]. rewrite He'. by intros [?|?]. }
  eapply co_ends_mono; [|eapply (resume_if_ends _ n)].
  - intros c' r [Hs [Hy|[Hr [[-> Hne]|?]]]]; (split; [done|]); [by left|right..];
      (split; [done|]); [|by right; right].
    destruct Hc as [[Hy|[Hf|(Hp & Hw & _)]] _]; [by left|by right; left|].
    right. right. split; [exact Hp|]. subst c1. unfold waiting in *. cbn in *.
    destruct (yield_reason_ c); try done; [].
    destruct end_of_stream; [|done]. exfalso. apply Hne. auto.
  - intros Hr. eapply (co_inv_parked n c); [done|..]; cbn in Hr; intuition congruence.
  - intros Hp. apply co_ends_push, co_ends_modify.
    apply Resume1_from; [done|exact (pushed_loaded n _ c1 Hp)].
Qed.

(** Waiting for trailers that have come. *)
Definition soon_at_rest (n : nat) c : Prop :=
  exited c \/ fresh c \/ (parked n c /\ (waiting c \/ yield_reason_ c = kWaitForTrailers)).

(** One of the three resumptions of [HandleTrailers]. *)
Lemma trailers_step {A} (Q : LuaStreamCoroutine -> StatusOr A -> Prop) f n reason what x c :
  reason <> kNone -> reason <> kWaitToStart -> soon_at_rest n c ->
  (forall c' st, same_stream c c' -> exited c' -> Q c' (inl st)) ->
  (forall c', same_stream c c' -> soon_at_rest n c' ->
     (yield_reason_ c' = kWaitForTrailers -> waiting c' \/ reason <> kWaitForTrailers) ->
     co_ends Q (f tt) c') ->
  co_ends Q (co_bind f (if decide (yield_reason_ c = reason)
                        then _ ⇐ push push_error what x; Resume1 else co_ret tt)) c.
Proof.
  intros Hn Hw Hc Hl Hf. apply co_ends_bind.
  eapply co_ends_mono; [|eapply (resume_if_ends _ n); [|apply push_resume_ends]].
  - intros c' [st|[]] [Hs Hx]; [destruct Hx as [?|[[? ?] _]]; [by apply Hl|done]|].
    apply Hf; [done|..]; destruct Hx as [Hx|[_ [[-> Hne]|[Hp Hwt]]]].
    + by left.
    + done.
    + right. right. auto.
    + intros Hr. destruct Hx as (_ & _ & [?|?]); congruence.
    + intros Hr. right. congruence.
    + by left.
  - intros Hr. destruct Hc as [(_&_&[?|?])|[(_&?&_)|[? _]]]; congruence.
Qed.

Lemma HandleTrailers_ends n fuel num_trailers c :
  n < fuel -> co_inv n c -> received_headers_ c = true ->
  co_ends (λ c' _, handled n (received_trailers_ c = false) c c')
    (HandleTrailers_ push_error fuel num_trailers) c.
Proof.
  intros Hn Hc Hh. unfold HandleTrailers_. apply co_ends_get.
  destruct (stream_ended_ c) eqn:He; [apply co_ends_fail; by split_and!|].
  rewrite Hh. destruct (received_trailers_ c) eqn:Ht; [apply co_ends_fail; by split_and!|].
  cbn [negb]. apply co_ends_modify, co_ends_get. set (c1 := set_flags _ _ _ _ _ _ c).
  assert (exited c1 \/ fresh c1 \/
    (parked n c1 /\ (waiting c1 \/ yield_reason_ c1 = kWaitForTrailers))) as Hc1.
  { destruct Hc as [[?|[?|(Hp & Hw & _)]] _]; [by left|by right; left|right; right].
    split; [exact Hp|]. unfold waiting in *. cbn in *. destruct (yield_reason_ c); auto. }
  assert (received_headers_ c1 = true /\ stream_ended_ c1 = true /\
    headers_passed_on_ c1 = headers_passed_on_ c /\ (fresh c1 -> fresh c))
    as (Hh1 & He1 & Hp1 & Hf1) by done.
  clearbody c1. destruct (decide (state_ c1 = kExited)) as [Hx|Hx].
  { apply co_ends_get, co_ends_ret. split_and!; [|done..]. split; [|done]. left.
    destruct Hc1 as [?|[[? _]|[[? _] _]]]; [done|congruence..]. }
  assert (forall c', same_stream c1 c' -> co_inv n c' -> handled n (false = false) c c') as Hend.
  { intros c' [(_&Hp&Hh'&_&_&He') Hf] ?. unfold handled. rewrite He', Hp, Hh'. split_and!; auto. }
  assert (forall c' (st : Status), same_stream c1 c' -> exited c' ->
    handled n (false = false) c c') as Hexit.
  { intros c' _ Hs ?. apply Hend; [done|]. split; [by left|].
    by destruct Hs as [(_&_&->&_) _]. }
  apply (trailers_step _ _ n); [done..|by apply Hexit|]. intros c2 Hs2 Hc2 _. apply co_ends_get.
  apply (trailers_step _ _ n); [done..|intros c' st ??; apply (Hexit c' st); [by etrans|done]|].
  intros c3 Hs3 Hc3 _. apply co_ends_get.
  apply (trailers_step _ _ n); [done..|intros c' st ??; apply (Hexit c' st); [by do 2 (etrans; [done|])|done]|].
  intros c4 Hs4 Hc4 Hw4.
  assert (same_stream c1 c4) as Hs by (by do 2 (etrans; [done|])).
  assert (received_headers_ c4 = true /\ stream_ended_ c4 = true) as [Hh4 He4].
  { destruct Hs as [(_&_&->&_&_&->) _]. done. }
  assert (at_rest n c4) as Hr4.
  { destruct Hc4 as [?|[?|[? [?|Hr]]]]; [by left|by right; left|by right; right|].
    right. right. split; [done|]. by destruct (Hw4 Hr). }
  eapply co_ends_mono; [|exact (run_ends n fuel c4 Hn Hh4 He4 Hr4)].
  intros c' _ [??]. apply Hend; [by etrans|done].
Qed.
End resuming.

(** ** Events and histories *)

(** Whether a filter status lets the stream go on. *)
Class Verdict (T : Type) := goes_through : T -> bool.
#[export] Instance headers_verdict : Verdict FilterHeadersStatus.t := λ st,
  match st with FilterHeadersStatus.Continue => true | _ => false end.
#[export] Instance data_verdict : Verdict FilterDataStatus.t := λ st,
  match st with FilterDataStatus.Continue => true | _ => false end.
#[export] Instance trailers_verdict : Verdict FilterTrailersStatus.t := λ st,
  match st with FilterTrailersStatus.Continue => true | _ => false end.

Section events.
Context `{!Absl} `{!Sdk} `{!LuaSdk}.
Context (push_error : LuaValue -> option str) (fuel : nat) (globals : str -> option Script).

(** A coroutine in the course of a stream, and whether one of its handlers
    let the stream go on; the host delivers the headers first, and once. *)
Inductive reachable : LuaStreamCoroutine -> bool -> Prop :=
  | reach_new mode : reachable (new_coroutine mode) false
  | reach_start c passed c' r :
      reachable c passed -> may_return (Start push_error fuel globals c) (c', r) ->
      reachable c' passed
  | reach_headers c passed num_headers end_of_stream st c' :
      reachable c passed -> received_headers_ c = false ->
      may_return (HandleHeadersEvent push_error fuel (Some c) num_headers end_of_stream)
        (st, Some c') ->
      reachable c' (passed || goes_through st)
  | reach_body c passed body_buffer_length end_of_stream st c' :
      reachable c passed -> received_headers_ c = true ->
      may_return (HandleBodyEvent push_error fuel (Some c) body_buffer_length end_of_stream)
        (st, Some c') ->
      reachable c' (passed || goes_through st)
  | reach_trailers c passed num_trailers st c' :
      reachable c passed -> received_headers_ c = true ->
      may_return (HandleTrailersEvent push_error fuel (Some c) num_trailers) (st, Some c') ->
      reachable c' (passed || goes_through st).

(** What an event returns. *)
Definition event_handled `{Verdict T} (n : nat) (ended : Prop) (c : LuaStreamCoroutine)
    (x : T * option LuaStreamCoroutine) : Prop :=
  exists c', x.2 = Some c' /\ co_inv n c' /\ received_headers_ c' = true /\
    (ended -> stream_ended_ c' = true) /\
    headers_passed_on_ c' = headers_passed_on_ c || goes_through x.1 /\
    (fresh c' -> fresh c).

Lemma HandleEventError_ends status (Q : unit -> Prop) : Q tt -> ends Q (HandleEventError status).
Proof.
  intros HQ. unfold HandleEventError, sendLocalResponse. apply ends_bind.
  apply ends_call. by intros r.
Qed.

(** An event whose operation on the coroutine does as [handled] says. *)
Lemma handled_stop `{Verdict T} n ended c c' (st : T) :
  goes_through st = false -> handled n ended c c' -> event_handled n ended c (st, Some c').
Proof.
  intros Hst (? & ? & ? & Hp & ?). exists c'. cbn [fst snd].
  rewrite Hst, orb_false_r. by split_and!.
Qed.

Lemma handled_pass `{Verdict T} n ended c c' (st : T) :
  goes_through st = true -> handled n ended c c' ->
  event_handled n ended c (st, Some (MarkHeadersPassedOn c')).
Proof.
  intros Hst (Hi & Hh & He & Hp & Hf). exists (MarkHeadersPassedOn c'). cbn [fst snd].
  rewrite Hst, orb_true_r. split_and!; [done|exact Hi|exact Hh|exact He|done|exact Hf].
Qed.

(** An error of an event is answered with a local response. *)
Lemma HandleEventError_resolves {A} status (Q : A -> Prop) a :
  ends (λ _, True) (_ ← HandleEventError status; mret a) /\
  resolves Q (_ ← HandleEventError status; mret a).
Proof. split; by intros r. Qed.

(** The coroutine of a stream that has ended waits for nothing. *)
Lemma ended_not_waiting n c :
  co_inv n c -> stream_ended_ c = true ->
  yield_reason_ c = kNone \/ yield_reason_ c = kWaitToStart.
Proof.
  intros [Hi _] He. destruct Hi as [(_ & _ & ?)|[(_ & ? & _)|(_ & _ & Hn)]]; [done|by right|].
  congruence.
Qed.

Context (push_ok : forall x, push_error x = None) (n : nat) (fuel_enough : n < fuel).

Lemma HandleHeadersEvent_ends num_headers end_of_stream c :
  co_inv n c ->
  ends (event_handled n (end_of_stream = true) c)
    (HandleHeadersEvent push_error fuel (Some c) num_headers end_of_stream).
Proof.
  intros Hc. unfold HandleHeadersEvent. apply ends_bind.
  eapply ends_mono; [|by apply (HandleHeaders_ends push_error push_ok n)].
  intros [c' [st|st]] Hh.
  - apply ends_bind, HandleEventError_ends. by apply handled_stop.
  - destruct (yield_reason_ c'); apply ends_ret;
      first [by apply handled_stop|by apply handled_pass].
Qed.

Lemma HandleBodyEvent_ends body_buffer_length end_of_stream c :
  co_inv n c -> received_headers_ c = true ->
  ends (event_handled n (stream_ended_ c = true \/ end_of_stream = true) c)
    (HandleBodyEvent push_error fuel (Some c) body_buffer_length end_of_stream).
Proof.
  intros Hc Hr. unfold HandleBodyEvent. apply ends_bind.
  eapply ends_mono; [|by apply (HandleBody_ends push_error push_ok n)].
  intros [c' [st|st]] Hh.
  - apply ends_bind, HandleEventError_ends. by apply handled_stop.
  - destruct (yield_reason_ c'); apply ends_ret;
      first [by apply handled_stop|by apply handled_pass].
Qed.

Lemma HandleTrailersEvent_ends num_trailers c :
  co_inv n c -> received_headers_ c = true ->
  ends (event_handled n (received_trailers_ c = false) c)
    (HandleTrailersEvent push_error fuel (Some c) num_trailers).
Proof.
  intros Hc Hr. unfold HandleTrailersEvent. apply ends_bind.
  eapply ends_mono; [|by apply (HandleTrailers_ends push_error push_ok n)].
  intros [c' [st|st]] Hh.
  - apply ends_bind, HandleEventError_ends. by apply handled_stop.
  - destruct (yield_reason_ c'); apply ends_ret;
      first [by apply handled_stop|by apply handled_pass].
Qed.

(** The last event of a stream lets it go on, or answers it. *)
Definition let_through `{Verdict T} (x : T * option LuaStreamCoroutine) : Prop :=
  goes_through x.1 = true.

Lemma HandleHeadersEvent_resolves num_headers c :
  co_inv n c -> resolves let_through (HandleHeadersEvent push_error fuel (Some c) num_headers true).
Proof.
  intros Hc. unfold HandleHeadersEvent.
  eapply resolves_bind; [by apply (HandleHeaders_ends push_error push_ok n)|].
  intros [c' [st|st]] (Hi & _ & He & _); [apply HandleEventError_resolves|].
  destruct (ended_not_waiting n c' Hi (He eq_refl)) as [-> | ->]; done.
Qed.

Lemma HandleBodyEvent_resolves body_buffer_length c :
  co_inv n c -> received_headers_ c = true ->
  resolves let_through (HandleBodyEvent push_error fuel (Some c) body_buffer_length true).
Proof.
  intros Hc Hr. unfold HandleBodyEvent.
  eapply resolves_bind; [by apply (HandleBody_ends push_error push_ok n)|].
  intros [c' [st|st]] (Hi & _ & He & _); [apply HandleEventError_resolves|].
  destruct (ended_not_waiting n c' Hi (He (or_intror eq_refl))) as [-> | ->]; done.
Qed.

Lemma HandleTrailersEvent_resolves num_trailers c :
  co_inv n c -> received_headers_ c = true ->
  resolves let_through (HandleTrailersEvent push_error fuel (Some c) num_trailers).
Proof.
  intros Hc Hr. unfold HandleTrailersEvent. destruct (received_trailers_ c) eqn:Ht.
  - (* a second event of trailers is an error *)
    unfold HandleTrailers_, co_bind at 1, co_get. cbn. rewrite Hr, Ht. cbn.
    destruct (stream_ended_ c); apply (HandleEventError_resolves _ let_through).
  - eapply resolves_bind; [by apply (HandleTrailers_ends push_error push_ok n)|].
    intros [c' [st|st]] (Hi & _ & He & _); [apply HandleEventError_resolves|].
    destruct (ended_not_waiting n c' Hi (He Ht)) as [-> | ->]; done.
Qed.

Context (globals_bound : forall name s, globals name = Some s -> waits_within n s).

Lemma event_handled_inv `{Verdict T} ended c (st : T) c' :
  event_handled n ended c (st, Some c') ->
  co_inv n c' /\ headers_passed_on_ c' = headers_passed_on_ c || goes_through st.
Proof. by intros (? & [= <-] & ? & _ & _ & ? & _). Qed.

Lemma reachable_inv c passed :
  reachable c passed -> co_inv n c /\ headers_passed_on_ c = passed.
Proof.
  induction 1 as [mode|c passed c' r _ [Hi <-] Hm|c passed k e st c' _ [Hi <-] Hr Hm
                 |c passed k e st c' _ [Hi <-] Hr Hm|c passed k st c' _ [Hi <-] Hr Hm].
  - split; [|done]. split; [|done]. right. by left.
  - eapply ends_may_return in Hm; [|by apply (Start_ends push_error push_ok n)].
    destruct Hm as [[(_ & Hp & _) _] ?]. by rewrite Hp.
  - eapply ends_may_return in Hm; [|by apply HandleHeadersEvent_ends].
    by eapply event_handled_inv.
  - eapply ends_may_return in Hm; [|by apply HandleBodyEvent_ends].
    by eapply event_handled_inv.
  - eapply ends_may_return in Hm; [|by apply HandleTrailersEvent_ends].
    by eapply event_handled_inv.
Qed.
End events.
