(* ===== verification/LuaProps.v ===== *)
(** * The Lua plugin: its properties

    What the coroutine promises between events and at the end of a stream,
    body buffering, the check of late mutations, the configuration. *)

From S2P Require Import Prelude Absl Headers Host Rules LuaApi LuaStream LuaInv.

(** ** Operations on the coroutine against the abstract host *)

Definition co_wp {A} (m : Co A) (c : LuaStreamCoroutine)
    (Q : LuaStreamCoroutine -> StatusOr A -> HostView -> Prop) (v : HostView) : Prop :=
  wp (m c) (λ '(c', r), Q c' r) v.

Section co_wp.
Context {A B : Type}.
Implicit Types (c : LuaStreamCoroutine) (v : HostView).

Lemma co_wp_ret a c (Q : _ -> StatusOr A -> HostView -> Prop) v :
  Q c (inr a) v -> co_wp (co_ret a) c Q v.
Proof. done. Qed.

Lemma co_wp_fail st c (Q : _ -> StatusOr A -> HostView -> Prop) v :
  Q c (inl st) v -> co_wp (co_fail st) c Q v.
Proof. done. Qed.

Lemma co_wp_bind (m : Co A) (f : A -> Co B) c Q v :
  co_wp m c (λ c' r w, match r with inl st => Q c' (inl st) w | inr a => co_wp (f a) c' Q w end) v ->
  co_wp (co_bind f m) c Q v.
Proof.
  intros Hm. unfold co_wp, co_bind. apply wp_bind_2. eapply wp_mono; [|exact Hm].
  by intros [c' [st|a]] w.
Qed.

Lemma co_wp_get (f : LuaStreamCoroutine -> Co B) c Q v :
  co_wp (f c) c Q v -> co_wp (co_bind f co_get) c Q v.
Proof. done. Qed.

Lemma co_wp_modify (f : unit -> Co B) g c Q v :
  co_wp (f tt) (g c) Q v -> co_wp (co_bind f (co_modify g)) c Q v.
Proof. done. Qed.

Lemma co_wp_try (m : Co A) (f : StatusOr A -> Co B) c Q v :
  co_wp m c (λ c' r w, co_wp (f r) c' Q w) v -> co_wp (co_bind f (co_try m)) c Q v.
Proof.
  intros Hm. unfold co_wp, co_bind, co_try. apply wp_bind_2, wp_bind_2.
  eapply wp_mono; [|exact Hm]. by intros [c' r] w.
Qed.

Lemma wp_co (m : Co A) c (P : LuaStreamCoroutine * StatusOr A -> HostView -> Prop) v :
  co_wp m c (λ c' r w, P (c', r) w) v -> wp (m c) P v.
Proof. apply wp_mono. by intros [c' r] w. Qed.

Lemma co_wp_push `{!Absl} (f : unit -> Co B) push_error what x c Q v :
  push_error x = None -> co_wp (f tt) (pushed x c) Q v ->
  co_wp (co_bind f (push push_error what x)) c Q v.
Proof. unfold push. by intros ->. Qed.
End co_wp.

(** What the plugin makes of the end of a resumption. *)
Definition after_resume (c : LuaStreamCoroutine) (rc : ResumeCode)
    : LuaStreamCoroutine * StatusOr unit :=
  let c := set_running false c in
  match rc with
  | LUA_OK => (set_state kExited (set_finished c), inr tt)
  | LUA_YIELD => (set_state kYielded c, inr tt)
  | LUA_ERR e => (set_state kExited (set_finished c), inl (ReadAndPopLuaError e))
  end.

Lemma co_wp_Resume1 `{!Absl} `{!Sdk} `{!LuaSdk} c x f k
    (Q : _ -> StatusOr unit -> HostView -> Prop) v :
  state_ c = kYielded -> lua_thread_ c = mkThread [x] f (Some k) false false ->
  wp (run_script (k (inr x)) (set_thread (mkThread [] None None false true)
        (set_yield_reason kNone c)))
    (λ '(c', rc) w, let '(c', r) := after_resume c' rc in Q c' r w) v ->
  co_wp Resume1 c Q v.
Proof.
  destruct c as [mode st reason t pass h rb hd cons tr en]. cbn. intros -> -> Hw.
  unfold Resume1, Resume. apply co_wp_bind, co_wp_get. rewrite decide_False by done.
  apply co_wp_modify, co_wp_try. unfold co_wp, Thread_Resume. cbn.
  apply wp_bind_2. eapply wp_mono; [|exact Hw]. by intros [c' [| |e]] w HQ.
Qed.

Section theorems.
Context `{!Absl} `{!Sdk} `{!LuaSdk}.
Implicit Types c : LuaStreamCoroutine.


(** The coroutine an event leaves has exited. *)
Definition exits {T} (x : T * option LuaStreamCoroutine) : Prop :=
  exists c', x.2 = Some c' /\ state_ c' = kExited.

Lemma ended_exits `{Verdict T} n (ended : Prop) c (x : T * option LuaStreamCoroutine) :
  ended -> ~ fresh c -> event_handled n ended c x -> exits x.
Proof.
  intros He Hf (c' & Hx & [Hi _] & _ & Hend & _ & Hfr). exists c'. split; [done|].
  destruct Hi as [[? _]|[Hfr'|(_ & _ & Hne)]]; [done|by destruct Hf; auto|].
  rewrite Hend in Hne by done. done.
Qed.



Context `{!SdkOk _}.

(** A script that puts [s] in the place of the body. *)
Definition replace_body (s : str) : str + LuaValue -> Script := λ r,
  match r with
  | inr (LBuffer b) =>
      Api (BufferSetBytes b s) (λ r, match r with inl e => Error (Some e) | inr _ => Return end)
  | _ => Error None
  end.

Lemma run_replace_body c b s old (Q : LuaStreamCoroutine * ResumeCode -> HostView -> Prop) v :
  buffers v !! b = Some old -> b <> PluginConfiguration ->
  Q (c, LUA_OK) (with_buffer b s v) ->
  wp (run_script (replace_body s (inr (LBuffer b))) c) Q v.
Proof.
  intros Hb Hne HQ. cbn [replace_body run_script api]. apply wp_bind_2, wp_bind_2. unfold Buffer_SetBytes, mutation_status.
  apply wp_bind_2. eapply wp_getBufferStatus; [done|].
  apply wp_bind_2. eapply wp_setWholeBuffer; [done..|].
  rewrite decide_False by (intros Hok; by apply Hok). done.
Qed.

Lemma co_wp_finish_exited push_error fuel c
    (Q : LuaStreamCoroutine -> StatusOr ExecutionState -> HostView -> Prop) v :
  state_ c = kExited -> Q c (inr kExited) v ->
  co_wp (finish_if_ended push_error fuel) c Q v.
Proof.
  intros Hx HQ. apply co_wp_get, co_wp_bind.
  assert (co_wp get_state c Q v) as Hget.
  { unfold get_state. apply co_wp_get, co_wp_ret. by rewrite Hx. }
  destruct (stream_ended_ c); [|exact Hget].
  destruct fuel; cbn [RunToCompletion]; apply co_wp_get; (rewrite decide_True by done); exact Hget.
Qed.

(** C31. While the script waits for the body, the chunks are buffered and
    nothing else happens; with the last one it gets the whole body, and what
    it puts in its place goes on. *)
Theorem body_wait_spec push_error fuel c f s old len v :
  (forall x, push_error x = None) ->
  state_ c = kYielded -> yield_reason_ c = kWaitForBody -> stream_ended_ c = false ->
  lua_thread_ c = mkThread [] f (Some (replace_body s)) false false ->
  let b := if decide (mode_ c = kRequest) then HttpRequestBody else HttpResponseBody in
  buffers v !! b = Some old ->
  HandleBodyEvent push_error fuel (Some c) len false =
    mret (FilterDataStatus.StopIterationAndBuffer,
          Some (set_flags (received_headers_ c) (received_body_ c)
                  (if (0 <? len)%Z then true else has_body_data_ c)
                  (if (0 <? len)%Z then false else body_chunk_consumed_ c)
                  (received_trailers_ c) false c)) /\
  wp (HandleBodyEvent push_error fuel (Some c) len true)
    (λ '(st, o) w, st = FilterDataStatus.Continue /\ w = with_buffer b s v /\
       exists c', o = Some c' /\ state_ c' = kExited /\ headers_passed_on_ c' = true) v.
Proof.
  intros Hp Hst Hr He Ht b Hb. destruct c as [mode st reason t pass h rb hd cons tr en].
  cbn in Hst, Hr, He, Ht, b. subst st reason t en. split.
  - reflexivity.
  - unfold HandleBodyEvent. apply wp_bind_2, wp_co. unfold HandleBody_. apply co_wp_get.
    cbv zeta. apply co_wp_modify, co_wp_get. rewrite decide_False by done.
    rewrite decide_True by auto. apply co_wp_bind, co_wp_push; [done|]. apply co_wp_modify.
    eapply co_wp_Resume1; [done..|]. cbn. unfold body_of. cbn. fold b.
    eapply run_replace_body; [exact Hb|by destruct (decide _)|].
    apply co_wp_finish_exited; [done|]. apply wp_ret. split_and!; [done..|].
    by eexists.
Qed.

Lemma co_wp_finish_open push_error fuel c
    (Q : LuaStreamCoroutine -> StatusOr ExecutionState -> HostView -> Prop) v :
  stream_ended_ c = false -> Q c (inr (state_ c)) v ->
  co_wp (finish_if_ended push_error fuel) c Q v.
Proof. intros He HQ. apply co_wp_get. by rewrite He. Qed.

(** The start of a coroutine whose script has an entry point. *)
Lemma co_wp_Start push_error fuel globals mode s
    (Q : LuaStreamCoroutine -> StatusOr ExecutionState -> HostView -> Prop) v :
  (forall x, push_error x = None) ->
  globals (if decide (mode = kRequest) then "envoy_on_request"%str
           else "envoy_on_response"%str) = Some s ->
  wp (run_script s (set_thread (mkThread [] None None false true) (new_coroutine mode)))
    (λ '(c', rc) w,
       match after_resume c' rc with
       | (c', inl st) => Q c' (inl st) w
       | (c', inr _) => co_wp (finish_if_ended push_error fuel) c' Q w
       end) v ->
  co_wp (Start push_error fuel globals) (new_coroutine mode) Q v.
Proof.
  intros Hp Hs Hw. unfold Start. apply co_wp_get. rewrite decide_False by (intros [Hx|Hx]; by apply Hx).
  apply co_wp_try. unfold ExecuteFunction, ExecuteFunctionImpl. apply co_wp_bind. cbn [new_coroutine mode_].
  apply (wp_ret (new_coroutine mode, inr tt)). rewrite Hs. cbn [first_push_error]. rewrite Hp.
  unfold push_value, push_args.
  do 3 apply co_wp_modify. unfold co_wp, Thread_Resume. cbn.
  apply wp_bind_2. eapply wp_mono; [|exact Hw]. by intros [c' [| |e]] w HQ.
Qed.

(** A script that asks for the headers, waits for a chunk of the body, and
    then writes a header: through the object it has or through a new one. *)
Definition write_header (h : Header) (key x : str) : Script :=
  Api (HeaderReplace h key x) (λ r, match r with inl e => Error (Some e) | inr _ => Return end).

Lemma run_write_refused h key x c (Q : LuaStreamCoroutine * ResumeCode -> HostView -> Prop) v :
  refuses h (headers_passed_on_ c) = true ->
  Q (c, LUA_ERR (Some (status_message refusal))) v ->
  wp (run_script (write_header h key x) c) Q v.
Proof.
  intros Hr HQ. cbn [write_header run_script api]. unfold Header_Replace. rewrite Hr. exact HQ.
Qed.

Lemma run_write_allowed h key x c m (Q : LuaStreamCoroutine * ResumeCode -> HostView -> Prop) v :
  refuses h (headers_passed_on_ c) = false -> maps v !! type_ h = Some m -> response v = None ->
  Q (c, LUA_OK) (with_map (type_ h) (hm_set key x m) v) ->
  wp (run_script (write_header h key x) c) Q v.
Proof.
  intros Hr Hm Hv HQ. cbn [write_header run_script api]. unfold Header_Replace. rewrite Hr.
  apply wp_bind_2, wp_bind_2, wp_bind_2. eapply wp_replaceHeader; [done..|].
  apply wp_ret, wp_ret. unfold mutation_status.
  rewrite decide_False by (intros Hok; by apply Hok). exact HQ.
Qed.

Definition with_header_object (k : Header -> Script) : Script :=
  Api HandleHeaders (λ r, match r with inr (LHeader h) => k h | _ => Error None end).
Definition late_mutation (again : bool) (key x : str) : Script :=
  with_header_object (λ h, Api NextBodyChunk (λ _,
    if again then with_header_object (λ h, write_header h key x) else write_header h key x)).

(** The request's coroutine while it waits at [k]. *)
Definition waits_at (reason : YieldReason) (k : str + LuaValue -> Script) (passed received : bool)
    : LuaStreamCoroutine :=
  mkCoroutine kRequest kYielded reason (mkThread [] None (Some k) false false)
    passed received false false false false false.

Lemma Start_waits push_error fuel globals call k reason
    (Q : LuaStreamCoroutine -> StatusOr ExecutionState -> HostView -> Prop) v :
  (forall x, push_error x = None) -> globals "envoy_on_request"%str = Some (Api call k) ->
  (forall t, api call (set_thread t (new_coroutine kRequest)) = mret (inl reason)) ->
  Q (waits_at reason k false false) (inr kYielded) v ->
  co_wp (Start push_error fuel globals) (new_coroutine kRequest) Q v.
Proof.
  intros Hp Hg Ha HQ. eapply co_wp_Start; [done|exact Hg|].
  cbn [run_script]. rewrite Ha. by apply co_wp_finish_open.
Qed.

Lemma HandleHeadersEvent_waits push_error fuel num_headers k call k'
    (Q : FilterHeadersStatus.t * option LuaStreamCoroutine -> HostView -> Prop) v :
  (forall x, push_error x = None) ->
  k (inr (LHeader (mkHeader RequestHeaders false))) = Api call k' ->
  (forall c, api call c = mret (inl kWaitForBodyChunks)) ->
  Q (FilterHeadersStatus.Continue, Some (waits_at kWaitForBodyChunks k' true true)) v ->
  wp (HandleHeadersEvent push_error fuel (Some (waits_at kWaitForHeaders k false false))
        num_headers false) Q v.
Proof.
  intros Hp Hk Ha HQ. unfold HandleHeadersEvent. apply wp_bind_2, wp_co.
  unfold HandleHeaders_. apply co_wp_modify, co_wp_get. rewrite decide_True by done.
  apply co_wp_bind, co_wp_push; [done|]. eapply co_wp_Resume1; [done..|].
  unfold headers_of. cbn [mode_ set_flags waits_at]. rewrite decide_True, Hk by done.
  cbn [run_script]. rewrite Ha. by apply co_wp_finish_open.
Qed.

(** A chunk that ends the script, with success or with an error. *)
Lemma HandleBodyEvent_ends_script push_error fuel len k rc w
    (Q : FilterDataStatus.t * option LuaStreamCoroutine -> HostView -> Prop) v :
  (forall x, push_error x = None) ->
  (forall c P, headers_passed_on_ c = true -> received_headers_ c = true -> mode_ c = kRequest ->
     P (c, rc) w -> wp (run_script (k (inr (LBuffer HttpRequestBody))) c) P v) ->
  match rc with
  | LUA_OK => forall c, Q (FilterDataStatus.Continue, Some c) w
  | LUA_YIELD => False
  | LUA_ERR e => wp (HandleEventError (ReadAndPopLuaError e))
                   (λ _ w, forall c, Q (FilterDataStatus.StopIterationNoBuffer, Some c) w) w
  end ->
  wp (HandleBodyEvent push_error fuel (Some (waits_at kWaitForBodyChunks k true true)) len false)
    Q v.
Proof.
  intros Hp Hrun HQ. unfold HandleBodyEvent. apply wp_bind_2, wp_co. unfold HandleBody_.
  apply co_wp_get. cbv zeta. apply co_wp_modify, co_wp_get.
  rewrite decide_False by done. rewrite decide_True by auto.
  apply co_wp_bind, co_wp_push; [done|]. apply co_wp_modify.
  eapply co_wp_Resume1; [done..|]. unfold body_of. rewrite decide_True by done.
  apply Hrun; [done..|]. destruct rc as [| |e]; [|done|].
  - apply co_wp_finish_open; [done|]. apply wp_ret, HQ.
  - apply wp_bind_2. eapply wp_mono; [|exact HQ]. intros [] w' HQ'. apply HQ'.
Qed.

(** The headers of a request and a first chunk of its body. *)
Definition headers_then_chunk push_error status_text fuel globals num_headers len :=
  '(st1, ctx) ← onRequestHeaders push_error status_text fuel globals
    (mkContext (Some (new_coroutine kRequest)) None) num_headers false;
  '(st2, _) ← onRequestBody push_error fuel ctx len false;
  mret (st1, st2).

(** C30. Once the headers have been passed on, the object that a second call
    of [headers] returns refuses to mutate them, and the refusal becomes a
    local response; but the object that the first call returned, which had
    waited for the headers, still mutates them. *)
Theorem late_mutation_spec push_error status_text fuel globals again key x num_headers len m v :
  (forall x, push_error x = None) ->
  globals "envoy_on_request"%str = Some (late_mutation again key x) ->
  maps v !! RequestHeaders = Some m -> response v = None -> can_respond v = true ->
  wp (headers_then_chunk push_error status_text fuel globals num_headers len)
    (λ '(st1, st2) w, st1 = FilterHeadersStatus.Continue /\
       if again then
         st2 = FilterDataStatus.StopIterationNoBuffer /\
         exists m', w = with_response (mkLocalResponse 500 "plugin_error"%str
                          (status_message refusal) ∅) m' v
       else
         st2 = FilterDataStatus.Continue /\ w = with_map RequestHeaders (hm_set key x m) v) v.
Proof.
  intros Hp Hg Hm Hr Hc. apply wp_bind_2. unfold onRequestHeaders. apply wp_bind_2.
  cbn [request_coroutine_]. unfold start_and_handle. apply wp_bind_2, wp_co.
  eapply Start_waits; [done|exact Hg|done|].
  eapply HandleHeadersEvent_waits; [done|reflexivity|done|]. apply wp_ret.
  apply wp_bind_2, wp_bind_2. cbn [request_coroutine_]. destruct again.
  - apply (HandleBodyEvent_ends_script _ _ _ _ (LUA_ERR (Some (status_message refusal))) v);
      [done| |].
    + intros c P Hpass Hrec Hmode HP. cbn [with_header_object run_script api].
      rewrite Hrec. unfold is_request. rewrite Hmode.
      apply (run_write_refused (Handle_GetHeaders true)); [|done]. unfold refuses. by rewrite Hpass.
    + apply wp_bind_2, wp_respond; [done|]. intros m' ?. split; [done|]. split; [done|]. by exists m'.
  - apply (HandleBodyEvent_ends_script _ _ _ _ LUA_OK
      (with_map RequestHeaders (hm_set key x m) v)); [done| |done].
    intros c P Hpass Hrec Hmode HP.
    by apply (run_write_allowed (mkHeader RequestHeaders false) key x c m).
Qed.

Lemma Start_no_function push_error fuel globals mode
    (Q : LuaStreamCoroutine -> StatusOr ExecutionState -> HostView -> Prop) v :
  let name := if decide (mode = kRequest) then "envoy_on_request"%str
              else "envoy_on_response"%str in
  globals name = None ->
  Q (set_state kExited (new_coroutine mode))
    (inl (NotFoundError (StrCat ["could not find "%str; name; " as a global function"%str]))) v ->
  co_wp (Start push_error fuel globals) (new_coroutine mode) Q v.
Proof.
  intros name Hg HQ. unfold Start. apply co_wp_get.
  rewrite decide_False by (intros [Hx|Hx]; by apply Hx).
  apply co_wp_try. unfold ExecuteFunction, ExecuteFunctionImpl. apply co_wp_bind. cbn [new_coroutine mode_].
  apply (wp_ret (new_coroutine mode, inr tt)). fold name. rewrite Hg.
  by apply co_wp_fail, co_wp_modify, co_wp_fail.
Qed.

(** When the script does not define the entry point of a direction, the
    headers of that direction are stopped: the plugin logs an error, sends no
    response and touches nothing, so that nothing lets the stream go on. *)
Theorem missing_entry_point push_error status_text fuel globals other k end_of_stream v :
  let err (direction name : str) := [(Lerror,
    StrCat ["[LuaHttpContext] Failed to start "%str ++ direction ++ " coroutine: "%str;
            status_text (NotFoundError
              (StrCat ["could not find "%str; name; " as a global function"%str]))])] in
  (globals "envoy_on_request"%str = None ->
   wp (onRequestHeaders push_error status_text fuel globals
         (mkContext (Some (new_coroutine kRequest)) other) k end_of_stream)
     (λ '(st, ctx) w, st = FilterHeadersStatus.StopIteration /\
        w = logged (err "request"%str "envoy_on_request"%str) v /\
        response_coroutine_ ctx = other) v) /\
  (globals "envoy_on_response"%str = None ->
   wp (onResponseHeaders push_error status_text fuel globals
         (mkContext other (Some (new_coroutine kResponse))) k end_of_stream)
     (λ '(st, ctx) w, st = FilterHeadersStatus.StopIteration /\
        w = logged (err "response"%str "envoy_on_response"%str) v /\
        request_coroutine_ ctx = other) v).
Proof.
  intros err. split; intros Hg;
    [unfold onRequestHeaders|unfold onResponseHeaders]; apply wp_bind_2;
    cbn [request_coroutine_ response_coroutine_]; unfold start_and_handle;
    apply wp_bind_2, wp_co; apply Start_no_function; try exact Hg;
    apply wp_bind_2, wp_LOG; by split_and!.
Qed.

(** *** The configuration of the plugin *)

Section configuration.
Context {VM : Type} (luaL_newstate : option VM)
  (load_and_pcall open_library : str -> VM -> option (option str) * VM)
  (RegisterEnvoyApi : VM -> Status * VM).

(** What is left of an interpreter that took a step without an error. *)
Definition succeeds (r : option (option str) * VM) : option VM :=
  match r with (None, vm) => Some vm | (Some _, _) => None end.
Definition registers (r : Status * VM) : option VM :=
  if decide (status_code r.1 = kOk) then Some r.2 else None.

(** A new state: the libraries, the sandbox and the API. *)
Definition created : option VM :=
  vm ← luaL_newstate;
  vm ← foldl (λ o name, vm ← o; succeeds (open_library name vm)) (Some vm) kLuaLibs;
  vm ← succeeds (load_and_pcall sandbox_script vm);
  registers (RegisterEnvoyApi vm).

(** The state of the plugin with the script [config], which runs after all
    of this and must not be compiled. *)
Definition configured (config : str) : option VM :=
  vm ← created;
  if decide (config = []) then Some vm
  else if decide (head config = Some LUA_SIGNATURE_0) then None
  else succeeds (load_and_pcall config vm).

Lemma registers_failed st (vm : VM) : status_code st <> kOk -> registers (st, vm) = None.
Proof. intros Hst. unfold registers. cbn. by rewrite decide_False. Qed.

Lemma registers_done st (vm : VM) : ~ status_code st <> kOk -> registers (st, vm) = Some vm.
Proof. intros Hst. unfold registers. cbn. by rewrite decide_True by (by apply dec_stable). Qed.

Lemma open_libraries_spec libs vm :
  registers (open_libraries open_library libs vm) =
  foldl (λ o name, vm ← o; succeeds (open_library name vm)) (Some vm) libs.
Proof.
  assert (forall libs, foldl (λ o name, vm ← o; succeeds (open_library name vm)) None libs
                       = None) as HN by (clear libs; induction libs; done).
  revert vm. induction libs as [|name libs IH]; intros vm; [done|]. cbn [open_libraries foldl].
  change (mbind (M := option) ?f (Some vm)) with (f vm). cbv beta.
  destruct (open_library name vm) as [[err|] vm']; simpl; [by rewrite HN|apply IH].
Qed.

Lemma ExecuteString_spec s vm :
  registers (ExecuteString load_and_pcall s vm) =
  if decide (head s = Some LUA_SIGNATURE_0) then None else succeeds (load_and_pcall s vm).
Proof.
  unfold ExecuteString. case_decide as Hs; [by rewrite bool_decide_true|].
  rewrite bool_decide_false by done. by destruct (load_and_pcall s vm) as [[err|] vm'].
Qed.

Lemma Create_spec :
  match Create luaL_newstate load_and_pcall open_library RegisterEnvoyApi with
  | inl _ => created = None
  | inr vm => created = Some vm
  end.
Proof.
  unfold Create, created. destruct luaL_newstate as [vm|]; [|done].
  cbn [mbind option_bind]. rewrite <- open_libraries_spec.
  destruct (open_libraries _ _ _) as [st vm1].
  destruct (decide (status_code st <> kOk)) as [Hst|Hst];
    [by rewrite registers_failed|rewrite registers_done by done; cbn [mbind option_bind]].
  assert (succeeds (load_and_pcall sandbox_script vm1) =
          registers (ExecuteString load_and_pcall sandbox_script vm1)) as ->.
  { rewrite ExecuteString_spec. by rewrite decide_False by done. }
  destruct (ExecuteString _ _ _) as [st2 vm2].
  destruct (decide (status_code st2 <> kOk)) as [Hst2|Hst2];
    [by rewrite registers_failed|rewrite registers_done by done; cbn [mbind option_bind]].
  destruct (RegisterEnvoyApi vm2) as [st3 vm3].
  destruct (decide (status_code st3 <> kOk)) as [Hst3|Hst3];
    [by rewrite registers_failed|by rewrite registers_done].
Qed.

(** C32. The plugin accepts its configuration exactly when the interpreter
    comes up with the libraries, the sandbox and the API, in this order,
    and then runs the script, which is refused when it is compiled code;
    otherwise it keeps the state it had. *)
Theorem LuaRootContext_onConfigure_spec status_text config old v :
  buffers v !! PluginConfiguration = Some config -> (size_of config < 2 ^ 32)%Z ->
  wp (onConfigure status_text luaL_newstate load_and_pcall open_library RegisterEnvoyApi
        (size_of config) old)
    (λ r w, r = match configured config with
                | Some vm => (true, Some vm)
                | None => (false, old)
                end /\ exists ls, w = logged ls v) v.
Proof.
  intros Hb Hs. unfold onConfigure, configured. pose proof Create_spec as HC.
  assert (forall msg, wp (_ ← LOG_ERROR msg; mret (false, old))
    (λ r w, r = (false, old) /\ exists ls, w = logged ls v) v) as Hfail.
  { intros msg. apply wp_bind_2, wp_LOG. split; [done|]. by exists [(Lerror, msg)]. }
  destruct (Create _ _ _ _) as [st|vm]; rewrite HC; [apply Hfail|].
  cbn [mbind option_bind].
  destruct config as [|a config]; [split; [done|]; exists []; by rewrite logged_nil|].
  rewrite (proj2 (Z.ltb_lt 0 _)) by (unfold size_of; cbn [length]; lia).
  apply wp_bind_2. eapply wp_getBufferBytes; [done..|]. intros d Hd. rewrite Hd.
  rewrite (proj2 (Z.eqb_neq _ 0)) by (unfold size_of; cbn [length]; lia).
  pose proof (ExecuteString_spec (a :: config) vm) as HE.
  rewrite (decide_False (P := a :: config = [])) by done. rewrite <- HE.
  destruct (ExecuteString _ _ _) as [st vm'].
  destruct (decide (status_code st <> kOk)) as [Hst|Hst].
  - rewrite registers_failed by done. apply Hfail.
  - rewrite registers_done by done. split; [done|].
    exists []. by rewrite logged_nil.
Qed.
End configuration.
End theorems.

(** ** Witnesses *)

Section witnesses.
Local Existing Instances absl_ref sdk_ref lua_sdk_ref.

Definition no_push_error : LuaValue -> option str := λ _, None.
Definition no_status_text : Status -> str := status_message.

(** A script that waits for the body of a request and replaces it. *)
Definition body_script : str -> option Script := λ name,
  if decide (name = "envoy_on_request"%str)
  then Some (Api HandleBody (replace_body "new"%str)) else None.

Lemma body_script_bound name s : body_script name = Some s -> waits_within 1 s.
Proof.
  unfold body_script. case_decide; [|done]. intros [= <-]. cbn. intros [e|[]]; try done.
  cbn. by intros [e|x].
Qed.

Definition waiting_for_body : LuaStreamCoroutine :=
  waits_at kWaitForBody (replace_body "new"%str) false true.

(** It gets there by its start and the headers. *)
Lemma waiting_for_body_reachable :
  reachable no_push_error 2 body_script waiting_for_body false.
Proof.
  apply (reach_headers _ _ _
    (waits_at kWaitForBody (replace_body "new"%str) false false) false 3 false
    FilterHeadersStatus.StopIteration); [|reflexivity|reflexivity].
  apply (reach_start _ _ _ (new_coroutine kRequest) false _ (inr kYielded)); [constructor|].
  reflexivity.
Qed.




Lemma body_wait_spec_witness :
  wp (HandleBodyEvent no_push_error 2 (Some waiting_for_body) 3 true)
    (λ '(st, o) w, st = FilterDataStatus.Continue /\
       buffers w !! HttpRequestBody = Some "new"%str)
    (body_view HttpRequestBody "old"%str).
Proof.
  destruct (body_wait_spec no_push_error 2 waiting_for_body None "new"%str "old"%str 3
    (body_view HttpRequestBody "old"%str)) as [_ Hw]; [reflexivity..|].
  revert Hw. apply wp_mono. intros [st o] w (-> & -> & _). split; reflexivity.
Defined.

Definition late_script (again : bool) : str -> option Script := λ name,
  if decide (name = "envoy_on_request"%str)
  then Some (late_mutation again "A"%str "2"%str) else None.

Lemma late_mutation_spec_witness :
  wp (headers_then_chunk no_push_error no_status_text 2 (late_script false) 1 1)
    (λ _ w, final_header RequestHeaders "a"%str w = Some "2"%str) lua_view /\
  wp (headers_then_chunk no_push_error no_status_text 2 (late_script true) 1 1)
    (λ _ w, lr_code <$> response w = Some 500%Z) lua_view.
Proof.
  pose proof (late_mutation_spec no_push_error no_status_text 2 (late_script false) false
    "A"%str "2"%str 1 1 _ lua_view (λ _, eq_refl) eq_refl eq_refl eq_refl eq_refl) as H1.
  pose proof (late_mutation_spec no_push_error no_status_text 2 (late_script true) true
    "A"%str "2"%str 1 1 _ lua_view (λ _, eq_refl) eq_refl eq_refl eq_refl eq_refl) as H2.
  split; [revert H1|revert H2]; apply wp_mono.
  - intros [st1 st2] w (_ & _ & ->). reflexivity.
  - intros [st1 st2] w (_ & _ & m' & ->). reflexivity.
Defined.

(** A script with an entry point for requests only. *)
Lemma missing_entry_point_witness :
  wp (onResponseHeaders no_push_error no_status_text 2 body_script
        (mkContext None (Some (new_coroutine kResponse))) 1 false)
    (λ '(st, ctx) w, st = FilterHeadersStatus.StopIteration /\ response w = None) lua_view.
Proof.
  destruct (missing_entry_point no_push_error no_status_text 2 body_script None 1 false lua_view)
    as [_ H2].
  specialize (H2 eq_refl). revert H2. apply wp_mono.
  intros [st ctx] w (-> & -> & _). split; reflexivity.
Defined.

(** An interpreter that records what it ran. *)
Definition recorder (s : str) (vm : list str) : option (option str) * list str :=
  (None, vm ++ [s]).

Lemma LuaRootContext_onConfigure_spec_witness :
  wp (onConfigure no_status_text (Some []) recorder recorder (λ vm, (OkStatus, vm)) 3 None)
    (λ r w, r = (true, Some (kLuaLibs ++ [sandbox_script; "x=1"%str])))
    (body_view PluginConfiguration "x=1"%str) /\
  wp (onConfigure no_status_text (Some []) recorder recorder (λ vm, (OkStatus, vm)) 2 None)
    (λ r w, r = (false, None))
    (body_view PluginConfiguration [LUA_SIGNATURE_0; "L"%char]).
Proof.
  pose proof (LuaRootContext_onConfigure_spec (Some []) recorder recorder
    (λ vm, (OkStatus, vm)) no_status_text "x=1"%str None
    (body_view PluginConfiguration "x=1"%str) eq_refl eq_refl) as H1.
  pose proof (LuaRootContext_onConfigure_spec (Some []) recorder recorder
    (λ vm, (OkStatus, vm)) no_status_text [LUA_SIGNATURE_0; "L"%char] None
    (body_view PluginConfiguration [LUA_SIGNATURE_0; "L"%char]) eq_refl eq_refl) as H2.
  split; [revert H1|revert H2]; apply wp_mono; intros r w [-> _]; vm_compute; reflexivity.
Defined.
End witnesses.
