(* ===== verification/LuaBindings.v ===== *)
(** * What a script's method calls reach

    samples/lua/envoy_lua_api_registration.cc: the tables that bind the
    methods of a script's objects to the members of the C++ classes, and the
    closure that envoy_lua_api_shims.h wraps around every method to unpack
    statuses.  [call_method] is a call [x:key(args)] of a script; LuaStream's
    [api] is proved to be all that such calls can do. *)

From S2P Require Import Prelude Absl Headers Host Rules LuaApi LuaMethods LuaStream.
From S2P Require Import LuaInv.

(** ** The tables *)

Inductive Member : Type :=
  | MHeader (m : HeaderMember)
  | MBuffer (m : BufferMember)
  | MSsl (m : SslConnectionMember)
  | MParsedName (c : ParsedNameCall)
  | MStreamInfo (c : StreamInfoCall)
  | MConnection (m : ConnectionMember)
  | MCounter (m : CounterMember)
  | MGauge (m : GaugeMember)
  | MHistogram (m : HistogramMember)
  | MHandle (c : HandleCall)
  | MLog (m : LogMember).

Record ClassTable : Type := mkClass { class_name : str; functions : list (str * Member) }.

Definition log_functions : list (str * Member) :=
  [("logTrace"%str, MLog LogTrace); ("logDebug"%str, MLog LogDebug);
   ("logInfo"%str, MLog LogInfo); ("logWarn"%str, MLog LogWarn);
   ("logErr"%str, MLog LogErr); ("logCritical"%str, MLog LogCritical)].

(** The metamethod [__pairs] of headers is in LuaRegister. *)
Definition Header_class : ClassTable := mkClass "Header"%str
  [("add"%str, MHeader Header_Add_);
   ("remove"%str, MHeader Header_Remove_);
   ("replace"%str, MHeader Header_Replace_);
   ("setHttp1ReasonPhrase"%str, MHeader Header_SetHttp1ReasonPhrase_);
   ("get"%str, MHeader Header_Get_);
   ("getAtIndex"%str, MHeader Header_GetAtIndex_);
   ("getNumValues"%str, MHeader Header_GetNumValues_);
   ("get_pairs"%str, MHeader Header_GetPairs_)].

Definition ParsedName_class : ClassTable := mkClass "ParsedName"%str
  [("commonName"%str, MParsedName ParsedName_GetCommonName);
   ("organizationName"%str, MParsedName ParsedName_GetOrganizationName)].

Definition SslConnection_class : ClassTable := mkClass "SslConnection"%str
  ([("peerCertificatePresented"%str, MSsl Ssl_PeerCertificatePresented);
    ("peerCertificateValidated"%str, MSsl Ssl_PeerCertificateValidated);
    ("uriSanLocalCertificate"%str, MSsl Ssl_GetUriSanLocalCertificate);
    ("sha256PeerCertificateDigest"%str, MSsl Ssl_GetSha256PeerCertificateDigest);
    ("serialNumberPeerCertificate"%str, MSsl Ssl_GetSerialNumberPeerCertificate);
    ("issuerPeerCertificate"%str, MSsl Ssl_GetIssuerPeerCertificate);
    ("sha256PeerCertificateIssuerDigest"%str, MSsl Ssl_GetSha256PeerCertificateIssuerDigest);
    ("serialNumberPeerCertificateIssuer"%str, MSsl Ssl_GetSerialNumberPeerCertificateIssuer);
    ("subjectPeerCertificate"%str, MSsl Ssl_GetSubjectPeerCertificate);
    ("parsedSubjectPeerCertificate"%str, MSsl Ssl_GetParsedSubjectPeerCertificate);
    ("uriSanPeerCertificate"%str, MSsl Ssl_GetUriSanPeerCertificate);
    ("subjectLocalCertificate"%str, MSsl Ssl_GetSubjectLocalCertificate);
    ("urlEncodedPemEncodedPeerCertificate"%str,
       MSsl Ssl_GetUrlEncodedPemEncodedPeerCertificate);
    ("urlEncodedPemEncodedPeerCertificateChain"%str,
       MSsl Ssl_GetUrlEncodedPemEncodedPeerCertificateChain);
    ("dnsSansPeerCertificate"%str, MSsl Ssl_GetDnsSansPeerCertificate);
    ("dnsSansLocalCertificate"%str, MSsl Ssl_GetDnsSansLocalCertificate);
    ("oidsPeerCertificate"%str, MSsl Ssl_GetOidsPeerCertificate);
    ("oidsLocalCertificate"%str, MSsl Ssl_GetOidsLocalCertificate);
    ("validFromPeerCertificate"%str, MSsl Ssl_GetValidFromPeerCertificate);
    ("expirationPeerCertificate"%str, MSsl Ssl_GetExpirationPeerCertificate);
    ("sessionId"%str, MSsl Ssl_GetSessionId);
    ("ciphersuiteId"%str, MSsl Ssl_GetCiphersuiteId);
    ("ciphersuiteString"%str, MSsl Ssl_GetCiphersuiteString);
    ("tlsVersion"%str, MSsl Ssl_GetTlsVersion)] ++ log_functions).

Definition StreamInfo_class : ClassTable := mkClass "StreamInfo"%str
  (("downstreamSslConnection"%str, MStreamInfo StreamInfo_GetDownstreamSslConnection) ::
   log_functions).

Definition Connection_class : ClassTable := mkClass "Connection"%str
  (("ssl"%str, MConnection Connection_GetSsl_) :: log_functions).

Definition Buffer_class : ClassTable := mkClass "Buffer"%str
  ([("length"%str, MBuffer Buffer_GetLength_);
    ("getBytes"%str, MBuffer Buffer_GetBytes_);
    ("setBytes"%str, MBuffer Buffer_SetBytes_)] ++ log_functions).

Definition Counter_class : ClassTable := mkClass "Counter"%str
  [("inc"%str, MCounter Counter_Inc_); ("add"%str, MCounter Counter_Add_);
   ("value"%str, MCounter Counter_GetValue_)].

Definition Gauge_class : ClassTable := mkClass "Gauge"%str
  [("inc"%str, MGauge Gauge_Inc_); ("dec"%str, MGauge Gauge_Dec_);
   ("add"%str, MGauge Gauge_Add_); ("sub"%str, MGauge Gauge_Sub_);
   ("set"%str, MGauge Gauge_Set_); ("value"%str, MGauge Gauge_GetValue_)].

Definition Histogram_class : ClassTable := mkClass "Histogram"%str
  [("recordValue"%str, MHistogram Histogram_RecordValue_)].

Definition Handle_class : ClassTable := mkClass "Handle"%str
  ([("streamInfo"%str, MHandle Handle_GetStreamInfo);
    ("connection"%str, MHandle Handle_GetConnection)] ++ log_functions).

Definition registered_classes : list ClassTable :=
  [Header_class; ParsedName_class; SslConnection_class; StreamInfo_class; Connection_class;
   Buffer_class; Counter_class; Gauge_class; Histogram_class; Handle_class].

(** The closures that [InjectNativeYieldAccessors] adds to the handle. *)
Inductive Accessor : Type := Abody | Aheaders | Atrailers | AbodyChunks.

Definition accessors : list (str * Accessor) :=
  [("body"%str, Abody); ("headers"%str, Aheaders); ("trailers"%str, Atrailers);
   ("bodyChunks"%str, AbodyChunks)].

(** The classes whose methods are wrapped. *)
Definition unwrapper_classes : list str :=
  ["Handle"%str; "StreamInfo"%str; "Connection"%str; "ConnectionStreamInfo"%str;
   "Buffer"%str; "VirtualHost"%str; "Route"%str; "Counter"%str;
   "Gauge"%str; "Histogram"%str; "StatsScope"%str; "Header"%str].

(** The first entry with the name [key]. *)
Fixpoint entry {A} (key : str) (l : list (str * A)) : option A :=
  match l with
  | [] => None
  | (name, a) :: l => if decide (name = key) then Some a else entry key l
  end.

Definition class_of (x : LuaValue) : option ClassTable :=
  match x with
  | LHandle => Some Handle_class
  | LHeader _ => Some Header_class
  | LBuffer _ => Some Buffer_class
  | LObject StreamInfoObject => Some StreamInfo_class
  | LObject ConnectionObject => Some Connection_class
  | LObject SslConnectionObject => Some SslConnection_class
  | LObject ParsedNameObject => Some ParsedName_class
  | LObject (CounterObject _) => Some Counter_class
  | LObject (GaugeObject _) => Some Gauge_class
  | LObject (HistogramObject _) => Some Histogram_class
  | _ => None
  end.

Lemma entry_Forall {A} (P : A -> Prop) key (l : list (str * A)) a :
  Forall (λ e, P e.2) l -> entry key l = Some a -> P a.
Proof.
  induction 1 as [|[name b] l Hb Hl IH]; simpl; [done|].
  destruct (decide _); [|done]. by intros [= <-].
Qed.

(** ** Statuses as objects: [RegisterStatusOr] and the class [absl_Status] *)

Definition is_userdata (x : LuaValue) : bool :=
  match x with
  | LHeader _ | LBuffer _ | LHandle | LObject _ | LStatus _ | LStatusOr _ => true
  | _ => false
  end.

Definition is_status_node (x : LuaValue) : option bool :=
  match x with LStatus _ | LStatusOr _ => Some true | _ => None end.

Definition has_value (x : LuaValue) : option bool :=
  match x with
  | LStatus _ => Some false
  | LStatusOr r => Some (match r with inr _ => true | inl _ => false end)
  | _ => None
  end.

Definition node_ok (x : LuaValue) : bool :=
  match x with
  | LStatus st => bool_decide (status_code st = kOk)
  | LStatusOr (inr _) => true
  | _ => false
  end.

Definition node_message (x : LuaValue) : str :=
  match x with
  | LStatus st | LStatusOr (inl st) => status_message st
  | _ => []
  end.

Definition node_value (x : LuaValue) : str + LuaValue :=
  match x with
  | LStatusOr (inr x) => inr x
  | LStatusOr (inl st) =>
      inl ("Attempt to get value() from an error absl::StatusOr: "%str ++ status_message st)
  | _ => inr LNil
  end.

(** The closure that the shim puts in the place of a method; [res] is what the
    method returned or the error it raised. *)
Definition unwrapper (res : str + LuaValue) : str + LuaValue :=
  match res with
  | inl e => inl e
  | inr res =>
      if negb (is_userdata res) then inr res
      else
        match is_status_node res with
        | Some true =>
            if negb (node_ok res) then inl (node_message res)
            else
              match has_value res with
              | Some true => node_value res
              | _ => inr LNil
              end
        | _ => inr res
        end
  end.

(** ** A method call

    What LuaBridge makes of a script's values where a member takes a
    [string_view], an [int] and so on is a parameter, like the texts of its
    errors and the host's metrics, whose state is [M]. *)

Section dispatch.
Context `{Absl} `{Sdk} `{LuaSdk}.
Context (to_string_view : LuaValue -> option str) (to_int to_int64 to_size : LuaValue -> option Z)
  (bad_arguments : list LuaValue -> str) (not_callable : str -> str).
Context (ParseTime : str -> option Z).
Context {M : Type} (incrementMetric recordMetric : Z -> Z -> M -> WasmResult * M)
  (getMetric : Z -> M -> HostResult Z).

Definition arg (i : nat) (args : list LuaValue) : LuaValue := default LNil (args !! i).

(** Run [k] on the converted arguments, or report that they do not convert. *)
Definition with_args {A} (args : list LuaValue) (o : option A)
    (k : A -> Prog (str + LuaValue)) : Prog (str + LuaValue) :=
  match o with
  | Some a => k a
  | None => mret (inl (bad_arguments args))
  end.

Definition string1 (args : list LuaValue) : option str := to_string_view (arg 0 args).
Definition string2 (args : list LuaValue) : option (str * str) :=
  a ← to_string_view (arg 0 args); b ← to_string_view (arg 1 args); Some (a, b).
Definition string_int (args : list LuaValue) : option (str * Z) :=
  a ← to_string_view (arg 0 args); b ← to_int (arg 1 args); Some (a, b).
Definition size2 (args : list LuaValue) : option (Z * Z) :=
  a ← to_size (arg 0 args); b ← to_size (arg 1 args); Some (a, b).
Definition int641 (args : list LuaValue) : option Z := to_int64 (arg 0 args).

(** What a member returns, as LuaBridge hands it to the script. *)
Definition pushed_status (st : Status) : str + LuaValue := inr (LStatus st).
Definition pushed_status_or {A} (f : A -> LuaValue) (r : StatusOr A) : str + LuaValue :=
  inr (LStatusOr (match r with inl st => inl st | inr a => inr (f a) end)).
Definition pushed_error (st : Status) : str + LuaValue := inr (LStatusOr (inl st)).
Definition pushed_ok {A} (f : A -> LuaValue) (a : A) : str + LuaValue :=
  inr (LStatusOr (inr (f a))).
Definition optional_ssl (o : option unit) : LuaValue :=
  match o with Some _ => LObject SslConnectionObject | None => LNil end.

Definition call_Header (h : Header) (m : HeaderMember) (passed_on : bool)
    (args : list LuaValue) : Prog (str + LuaValue) :=
  match m with
  | Header_Add_ => with_args args (string2 args) (λ '(key, value),
      st ← Header_Add h passed_on key value; mret (pushed_status st))
  | Header_Remove_ => with_args args (string1 args) (λ key,
      st ← Header_Remove h passed_on key; mret (pushed_status st))
  | Header_Replace_ => with_args args (string2 args) (λ '(key, value),
      st ← Header_Replace h passed_on key value; mret (pushed_status st))
  | Header_SetHttp1ReasonPhrase_ => with_args args (string1 args) (λ reason_phrase,
      st ← Header_SetHttp1ReasonPhrase h reason_phrase; mret (pushed_status st))
  | Header_Get_ => with_args args (string1 args) (λ key,
      r ← Header_Get h key; mret (pushed_status_or optional_string r))
  | Header_GetAtIndex_ => with_args args (string_int args) (λ '(key, index),
      r ← Header_GetAtIndex h key index; mret (pushed_status_or optional_string r))
  | Header_GetNumValues_ => with_args args (string1 args) (λ key,
      r ← Header_GetNumValues h key; mret (pushed_status_or LInteger r))
  | Header_GetPairs_ => r ← Header_GetPairs h; mret (pushed_status_or LPairs r)
  end.

Definition call_Buffer (b : WasmBufferType) (m : BufferMember) (args : list LuaValue)
    : Prog (str + LuaValue) :=
  match m with
  | Buffer_GetLength_ => r ← Buffer_GetLength b; mret (pushed_status_or LInteger r)
  | Buffer_GetBytes_ => with_args args (size2 args) (λ '(index, length),
      r ← Buffer_GetBytes b index length; mret (pushed_status_or LString r))
  | Buffer_SetBytes_ => with_args args (string1 args) (λ string,
      st ← Buffer_SetBytes b string; mret (pushed_status st))
  end.

Definition call_Ssl (m : SslConnectionMember) : Prog (str + LuaValue) :=
  match m with
  | Ssl_PeerCertificatePresented =>
      r ← PeerCertificatePresented; mret (pushed_ok LBoolean r)
  | Ssl_PeerCertificateValidated =>
      r ← PeerCertificateValidated; mret (pushed_ok LBoolean r)
  | Ssl_GetUriSanLocalCertificate =>
      r ← GetUriSanLocalCertificate; mret (pushed_ok LStrings r)
  | Ssl_GetSha256PeerCertificateDigest =>
      r ← GetSha256PeerCertificateDigest; mret (pushed_ok LString r)
  | Ssl_GetSerialNumberPeerCertificate =>
      r ← GetSerialNumberPeerCertificate; mret (pushed_ok LString r)
  | Ssl_GetIssuerPeerCertificate => mret (pushed_error GetIssuerPeerCertificate)
  | Ssl_GetSha256PeerCertificateIssuerDigest =>
      mret (pushed_error GetSha256PeerCertificateIssuerDigest)
  | Ssl_GetSerialNumberPeerCertificateIssuer =>
      mret (pushed_error GetSerialNumberPeerCertificateIssuer)
  | Ssl_GetSubjectPeerCertificate =>
      r ← GetSubjectPeerCertificate; mret (pushed_ok LString r)
  | Ssl_GetParsedSubjectPeerCertificate =>
      mret (pushed_error GetParsedSubjectPeerCertificate)
  | Ssl_GetUriSanPeerCertificate =>
      r ← GetUriSanPeerCertificate; mret (pushed_ok LStrings r)
  | Ssl_GetSubjectLocalCertificate =>
      r ← GetSubjectLocalCertificate; mret (pushed_ok LString r)
  | Ssl_GetUrlEncodedPemEncodedPeerCertificate =>
      r ← GetUrlEncodedPemEncodedPeerCertificate; mret (pushed_ok LString r)
  | Ssl_GetUrlEncodedPemEncodedPeerCertificateChain =>
      r ← GetUrlEncodedPemEncodedPeerCertificateChain; mret (pushed_ok LString r)
  | Ssl_GetDnsSansPeerCertificate =>
      r ← GetDnsSansPeerCertificate; mret (pushed_ok LStrings r)
  | Ssl_GetDnsSansLocalCertificate =>
      r ← GetDnsSansLocalCertificate; mret (pushed_ok LStrings r)
  | Ssl_GetOidsPeerCertificate => mret (pushed_error GetOidsPeerCertificate)
  | Ssl_GetOidsLocalCertificate => mret (pushed_error GetOidsLocalCertificate)
  | Ssl_GetValidFromPeerCertificate =>
      r ← GetValidFromPeerCertificate ParseTime; mret (pushed_ok LInteger r)
  | Ssl_GetExpirationPeerCertificate =>
      r ← GetExpirationPeerCertificate ParseTime; mret (pushed_ok LInteger r)
  | Ssl_GetSessionId => mret (pushed_error GetSessionId)
  | Ssl_GetCiphersuiteId => r ← GetCiphersuiteId; mret (pushed_ok LString r)
  | Ssl_GetCiphersuiteString => mret (pushed_error GetCiphersuiteString)
  | Ssl_GetTlsVersion => r ← GetTlsVersion; mret (pushed_ok LString r)
  end.

Definition call_Counter (metric_id_ : Z) (m : CounterMember) (args : list LuaValue) (s : M)
    : (str + LuaValue) * M :=
  match m with
  | Counter_Inc_ =>
      let '(st, s) := Counter_Inc incrementMetric metric_id_ s in (pushed_status st, s)
  | Counter_Add_ =>
      match int641 args with
      | None => (inl (bad_arguments args), s)
      | Some amount =>
          let '(st, s) := Counter_Add incrementMetric metric_id_ amount s in
          (pushed_status st, s)
      end
  | Counter_GetValue_ =>
      (pushed_status_or LInteger (Counter_GetValue getMetric metric_id_ s), s)
  end.

Definition call_Gauge (metric_id_ : Z) (m : GaugeMember) (args : list LuaValue) (s : M)
    : (str + LuaValue) * M :=
  let amount_of (f : Z -> M -> Status * M) :=
    match int641 args with
    | None => (inl (bad_arguments args), s)
    | Some amount => let '(st, s) := f amount s in (pushed_status st, s)
    end in
  match m with
  | Gauge_Inc_ => let '(st, s) := Gauge_Inc incrementMetric metric_id_ s in (pushed_status st, s)
  | Gauge_Dec_ => let '(st, s) := Gauge_Dec incrementMetric metric_id_ s in (pushed_status st, s)
  | Gauge_Add_ => amount_of (Gauge_Add incrementMetric metric_id_)
  | Gauge_Sub_ => amount_of (Gauge_Sub incrementMetric metric_id_)
  | Gauge_Set_ => amount_of (Gauge_Set recordMetric metric_id_)
  | Gauge_GetValue_ => (pushed_status_or LInteger (Gauge_GetValue getMetric metric_id_ s), s)
  end.

Definition call_Histogram (metric_id_ : Z) (m : HistogramMember) (args : list LuaValue) (s : M)
    : (str + LuaValue) * M :=
  match m, int641 args with
  | Histogram_RecordValue_, None => (inl (bad_arguments args), s)
  | Histogram_RecordValue_, Some value =>
      let '(st, s) := Histogram_RecordValue recordMetric metric_id_ value s in
      (pushed_status st, s)
  end.

(** The member [m] with the object [x]; an object of another class is not
    accepted. *)
Definition call_member (x : LuaValue) (m : Member) (passed_on : bool) (args : list LuaValue)
    (s : M) : Prog ((str + LuaValue) * M) :=
  let pure (p : Prog (str + LuaValue)) : Prog ((str + LuaValue) * M) :=
    r ← p; mret (r, s) in
  match x, m with
  | LHeader h, MHeader m => pure (call_Header h m passed_on args)
  | LBuffer b, MBuffer m => pure (call_Buffer b m args)
  | LObject SslConnectionObject, MSsl m => pure (call_Ssl m)
  | LObject ParsedNameObject, MParsedName c => pure (mret (pushed_error (ParsedName_call c)))
  | LObject StreamInfoObject, MStreamInfo c =>
      pure (r ← StreamInfo_call c; mret (pushed_status_or optional_ssl r))
  | LObject ConnectionObject, MConnection Connection_GetSsl_ =>
      pure (r ← Connection_GetSsl; mret (pushed_ok optional_ssl r))
  | LObject (CounterObject id), MCounter m => mret (call_Counter id m args s)
  | LObject (GaugeObject id), MGauge m => mret (call_Gauge id m args s)
  | LObject (HistogramObject id), MHistogram m => mret (call_Histogram id m args s)
  | LHandle, MHandle c => pure (mret (pushed_error (Handle_call c)))
  | _, MLog m =>
      pure (with_args args (string1 args) (λ msg, _ ← Logger_Log m msg; mret (inr LNil)))
  | _, _ => mret (inl (bad_arguments args), s)
  end.

(** An injected closure: a reason to yield, or what it returns.  The iterator
    that [bodyChunks] returns is [NextBodyChunk] of [api]. *)
Definition call_accessor (a : Accessor) (c : LuaStreamCoroutine) : YieldReason + (str + LuaValue) :=
  match a with
  | Abody =>
      if negb (received_body_ c) then inl kWaitForBody
      else inr (inr (LBuffer (Handle_GetBody (is_request c))))
  | Aheaders =>
      if negb (received_headers_ c) then inl kWaitForHeaders
      else inr (inr (LHeader (Handle_GetHeaders (is_request c))))
  | Atrailers =>
      if negb (received_trailers_ c) then inl kWaitForTrailers
      else inr (inr (LHeader (Handle_GetTrailers (is_request c))))
  | AbodyChunks => inr (inr LFunction)
  end.

Definition unwrapped (t : ClassTable) : bool := bool_decide (class_name t ∈ unwrapper_classes).

(** [x:key(args)] for an object [x] of the API. *)
Definition call_method (x : LuaValue) (key : str) (args : list LuaValue)
    (c : LuaStreamCoroutine) (s : M) : option (Prog ((YieldReason + (str + LuaValue)) * M)) :=
  match class_of x with
  | None => None
  | Some t =>
      let wrap := if unwrapped t then unwrapper else (λ r, r) in
      Some
        match (if bool_decide (class_name t = class_name Handle_class) then entry key accessors
               else None) with
        | Some a =>
            match call_accessor a c with
            | inl reason => mret (inl reason, s)
            | inr r => mret (inr (wrap r), s)
            end
        | None =>
            match entry key (functions t) with
            | None => mret (inr (inl (not_callable key)), s)
            | Some m =>
                '(r, s) ← call_member x m (headers_passed_on_ c) args s;
                mret (inr (wrap r), s)
            end
        end
  end.
End dispatch.

(** ** Programs up to the equality of their continuations at every answer *)

Inductive prog_eq {A} : Prog A -> Prog A -> Prop :=
  | eq_ret a : prog_eq (Ret a) (Ret a)
  | eq_trap : prog_eq Trap Trap
  | eq_call c k k' : (forall r, prog_eq (k r) (k' r)) -> prog_eq (Call c k) (Call c k').

#[export] Instance Prog_equiv {A} : Equiv (Prog A) := prog_eq.

Lemma prog_eq_inv {A} (p q : Prog A) :
  p ≡ q ->
  match p with
  | Ret a => q = Ret a
  | Trap => q = Trap
  | Call c k => exists k', q = Call c k' /\ forall r, k r ≡ k' r
  end.
Proof. destruct 1; eauto. Qed.

#[export] Instance Prog_equivalence {A} : Equivalence (≡@{Prog A}).
Proof.
  split.
  - intros p. induction p as [a| |c k IH]; constructor. exact IH.
  - intros p q He. induction He as [| |c k k' Hk IH]; constructor. exact IH.
  - intros p q r He. revert r. induction He as [| |c k k' Hk IH]; intros r Hr; [exact Hr..|].
    destruct (prog_eq_inv _ _ Hr) as (k'' & -> & Hk''). constructor.
    intros x. apply IH, Hk''.
Qed.

#[export] Instance prog_bind_proper {A B} :
  Proper (pointwise_relation A (≡) ==> (≡) ==> (≡)) (@prog_bind A B).
Proof. intros f g Hfg p q He. induction He as [| |c k k' Hk IH]; simpl; [apply Hfg|constructor..]. exact IH. Qed.

(** What the programs may return is the same. *)
Lemma may_return_equiv {A} (p q : Prog A) x : p ≡ q -> may_return p x -> may_return q x.
Proof. intros He. induction He; simpl; [tauto..|]. naive_solver. Qed.

Lemma may_return_bind {A B} (p : Prog A) (f : A -> Prog B) y :
  may_return (p ≫= f) y -> exists x, may_return p x /\ may_return (f x) y.
Proof. induction p as [a| |c k IH]; simpl; naive_solver. Qed.

(** ** The unwrapper *)

Lemma unwrapper_status st : unwrapper (pushed_status st) = unwrap_status st.
Proof. unfold unwrap_status. simpl. by destruct (decide _); case_bool_decide. Qed.

Lemma unwrapper_status_or {A} (f : A -> LuaValue) r :
  unwrapper (pushed_status_or f r) = unwrap f r.
Proof. by destruct r. Qed.

Lemma unwrapper_error st : unwrapper (pushed_error st) = inl (status_message st).
Proof. done. Qed.

(** A value that is no status passes through, as does the one that a
    suspended call is resumed with. *)
Lemma unwrapper_value x : is_status_node x = None -> unwrapper (inr x) = inr x.
Proof. intros Hx. simpl. rewrite Hx. by destruct (negb _). Qed.

(** ** The calls of a script are those of [api] *)

Section completeness.
Context `{Absl} `{Sdk} `{LuaSdk}.
Context (to_string_view : LuaValue -> option str) (to_int to_int64 to_size : LuaValue -> option Z)
  (bad_arguments : list LuaValue -> str) (not_callable : str -> str).
Context (ParseTime : str -> option Z).
Context {M : Type} (incrementMetric recordMetric : Z -> Z -> M -> WasmResult * M)
  (getMetric : Z -> M -> HostResult Z).

Abbreviation call_method := (call_method to_string_view to_int to_int64 to_size bad_arguments
  not_callable ParseTime incrementMetric recordMetric getMetric).

(** What a method call comes to: a call of [api], an error without effects,
    or the iterator over the chunks of the body. *)
Inductive comes_to (c : LuaStreamCoroutine) (s : M)
    : Prog ((YieldReason + (str + LuaValue)) * M) -> Prop :=
  | comes_to_api call p : p ≡ (r ← api call c; mret (r, s)) -> comes_to c s p
  | comes_to_error message p : p ≡ mret (inr (inl message), s) -> comes_to c s p
  | comes_to_iterator p : p ≡ mret (inr (inr LFunction), s) -> comes_to c s p.

Lemma wrapped_equiv {A} (P : Prog A) f g (s : M) :
  (forall a, unwrapper (f a) = g a) ->
  (x ← (r ← (a ← P; mret (f a)); mret (r, s)); let '(r, s) := x in
   mret (inr (unwrapper r) : YieldReason + _, s)) ≡
  (r ← (a ← P; mret (inr (g a))); mret (r, s)).
Proof.
  intros Hfg. induction P as [a| |c k IH]; cbn; [by rewrite Hfg|constructor..]. exact IH.
Qed.

Definition script_object (x : LuaValue) : bool :=
  match x with LHandle | LHeader _ | LBuffer _ => true | _ => false end.

Ltac no_arguments args := apply (comes_to_error _ _ (bad_arguments args)); reflexivity.
Ltac status_call call := apply (comes_to_api _ _ call), wrapped_equiv, unwrapper_status.
Ltac status_or_call call :=
  apply (comes_to_api _ _ call), wrapped_equiv; intros ?; apply unwrapper_status_or.

Lemma call_Header_comes_to h m c args s :
  comes_to c s (x ← (r ← call_Header to_string_view to_int bad_arguments h m
                           (headers_passed_on_ c) args; mret (r, s));
                let '(r, s) := x in mret (inr (unwrapper r), s)).
Proof.
  destruct m; cbn [call_Header]; unfold with_args.
  1,3: destruct (string2 _ _) as [[key value]|]; [|no_arguments args].
  3-5,7: destruct (string1 _ _) as [key|]; [|no_arguments args].
  7: destruct (string_int _ _ _) as [[key index]|]; [|no_arguments args].
  - status_call (HeaderAdd h key value).
  - status_call (HeaderReplace h key value).
  - status_call (HeaderRemove h key).
  - status_call (HeaderSetHttp1ReasonPhrase h key).
  - status_or_call (HeaderGet h key).
  - status_or_call (HeaderGetNumValues h key).
  - status_or_call (HeaderGetAtIndex h key index).
  - status_or_call (HeaderGetPairs h).
Qed.

Lemma call_Buffer_comes_to b m c args s :
  comes_to c s (x ← (r ← call_Buffer to_string_view to_size bad_arguments b m args;
                     mret (r, s));
                let '(r, s) := x in mret (inr (unwrapper r), s)).
Proof.
  destruct m; cbn [call_Buffer]; unfold with_args.
  - status_or_call (BufferLength b).
  - destruct (size2 _ _) as [[index len]|]; [|no_arguments args].
    status_or_call (BufferGetBytes b index len).
  - destruct (string1 _ _) as [string|]; [|no_arguments args].
    status_call (BufferSetBytes b string).
Qed.

Lemma Logger_Log_comes_to m c args s :
  comes_to c s (x ← (r ← with_args bad_arguments args (string1 to_string_view args)
                           (λ msg, _ ← Logger_Log m msg; mret (inr LNil)); mret (r, s));
                let '(r, s) := x in mret (inr (unwrapper r), s)).
Proof.
  unfold with_args. destruct (string1 _ _) as [msg|]; [|no_arguments args].
  eapply (comes_to_api _ _ (Log (match m with
    | LogTrace => Ltrace | LogDebug => Ldebug | LogInfo => Linfo
    | LogWarn => Lwarn | LogErr => Lerror | LogCritical => Lcritical end) msg)).
  rewrite (wrapped_equiv _ _ (λ _, inr LNil)) by done. by destruct m.
Qed.

(** The members of the three classes, in the order of their tables. *)
Lemma call_member_comes_to x t key m c args s :
  script_object x = true -> class_of x = Some t -> entry key (functions t) = Some m ->
  comes_to c s
    (y ← call_member to_string_view to_int to_int64 to_size bad_arguments ParseTime
           incrementMetric recordMetric getMetric x m (headers_passed_on_ c) args s;
     let '(r, s) := y in mret (inr (unwrapper r), s)).
Proof.
  intros Hx Ht. destruct x as [| | | | |h|b| | | | | |]; try discriminate; injection Ht as <-.
  - intros Hm. assert (exists m', m = MHeader m') as [m' ->].
    { revert Hm. apply (entry_Forall (λ m, exists m', m = MHeader m')).
      cbn. repeat (apply Forall_cons; split; [cbn; eauto|]); done. }
    apply call_Header_comes_to.
  - intros Hm. assert ((exists m', m = MBuffer m') \/ exists m', m = MLog m') as [[m' ->]|[m' ->]].
    { revert Hm. apply (entry_Forall (λ m, (exists m', m = MBuffer m') \/ exists m', m = MLog m')).
      cbn. repeat (apply Forall_cons; split; [cbn; eauto|]); done. }
    + apply call_Buffer_comes_to.
    + apply Logger_Log_comes_to.
  - intros Hm. assert ((exists c', m = MHandle c') \/ exists m', m = MLog m') as [[c' ->]|[m' ->]].
    { revert Hm. apply (entry_Forall (λ m, (exists c', m = MHandle c') \/ exists m', m = MLog m')).
      cbn. repeat (apply Forall_cons; split; [cbn; eauto|]); done. }
    + by apply (comes_to_error _ _ (status_message (Handle_call c'))).
    + apply Logger_Log_comes_to.
Qed.

Lemma call_accessor_comes_to a c s :
  comes_to c s (match call_accessor a c with
                | inl reason => mret (inl reason, s)
                | inr r => mret (inr (unwrapper r), s)
                end).
Proof.
  destruct a; cbn [call_accessor].
  - apply (comes_to_api _ _ HandleBody). cbn. by destruct (received_body_ c).
  - apply (comes_to_api _ _ HandleHeaders). cbn. by destruct (received_headers_ c).
  - apply (comes_to_api _ _ HandleTrailers). cbn. by destruct (received_trailers_ c).
  - by apply comes_to_iterator.
Qed.

Lemma call_method_comes_to x key args c s p :
  script_object x = true -> call_method x key args c s = Some p -> comes_to c s p.
Proof.
  intros Hx. unfold call_method. destruct (class_of x) as [t|] eqn:Ht; [|done]. intros [= <-].
  assert (unwrapped t = true) as ->.
  { destruct x; try discriminate; injection Ht as <-; reflexivity. }
  destruct (if bool_decide _ then _ else _) as [a|]; [apply call_accessor_comes_to|].
  destruct (entry key (functions t)) as [m|] eqn:Hm; [by eapply call_member_comes_to|].
  by apply (comes_to_error _ _ (not_callable key)).
Qed.

(** ** What a script can get hold of *)

Lemma api_returns call c r :
  may_return (api call c) (inr (inr r)) -> script_object r = true \/ is_userdata r = false.
Proof.
  assert (forall st, unwrap_status st = inr r -> r = LNil) as Hst.
  { intros st. unfold unwrap_status. destruct (decide _); congruence. }
  assert (forall A (f : A -> LuaValue) x, unwrap f x = inr r -> exists a, r = f a) as Hsor.
  { intros A f [st|a]; simpl; [done|]. intros [= <-]. eauto. }
  destruct call; cbn [api];
    try (case_match; cbn; intros [= <-]; by left);
    try (intros (x & _ & Hx)%may_return_bind; injection Hx as Hx;
         first [apply Hst in Hx as ->; by right
               |apply Hsor in Hx as [a ->]; right; by destruct a
               |by destruct Hx; right]).
  by intros [=].
Qed.

(** A script is given its handle and the values that it is resumed with; it
    makes data of its own, and has the results of its calls, for any answers of
    the host. *)
Inductive in_hand : LuaValue -> Prop :=
  | hand_handle : in_hand LHandle
  | hand_data x : is_userdata x = false -> in_hand x
  | hand_resumed c x : x = headers_of c \/ x = body_of c \/ x = trailers_of c -> in_hand x
  | hand_result x key args c s p r s' :
      in_hand x -> call_method x key args c s = Some p ->
      may_return p (inr (inr r), s') -> in_hand r.

Lemma comes_to_returns c s p r s' :
  comes_to c s p -> may_return p (inr (inr r), s') ->
  script_object r = true \/ is_userdata r = false.
Proof.
  intros [call q Hq|message q Hq|q Hq] Hr%(may_return_equiv _ _ _ Hq).
  - apply may_return_bind in Hr as ([reason|[e|r']] & Ha & [=]); subst.
    by eapply api_returns.
  - discriminate Hr.
  - injection Hr as <- _. by right.
Qed.

Lemma in_hand_objects x : in_hand x -> script_object x = true \/ is_userdata x = false.
Proof.
  induction 1 as [|x Hx|c x [->|[->| ->]]|x key args c s p r s' _ IH Hp Hr]; auto.
  destruct IH as [Hx|Hx].
  - eapply comes_to_returns; [by eapply call_method_comes_to|done].
  - exfalso. revert Hp. unfold call_method. by destruct x.
Qed.

(** C8. A script never has any object but its handle, headers and bodies: no
    sequence of method calls, whatever the host answers, yields a TLS
    connection, the stream's or the connection's information or a metric,
    because the methods of the handle that would lead to them are not
    implemented. *)
Theorem script_objects x :
  in_hand x -> is_userdata x = true ->
  x = LHandle \/ (exists h, x = LHeader h) \/ (exists b, x = LBuffer b).
Proof.
  intros [Hx|Hx]%in_hand_objects Hu; [|congruence]. destruct x; try discriminate Hx; eauto.
Qed.

(** C7. Every method call of a script is one of the calls [api] of the
    coroutine's model: it has that call's effects and outcome, or it raises an
    error and changes nothing, or it is the one that makes the iterator over
    the chunks of the body. *)
Theorem script_calls x key args c s p :
  in_hand x -> call_method x key args c s = Some p -> comes_to c s p.
Proof.
  intros [Hx|Hx]%in_hand_objects Hp; [by eapply call_method_comes_to|].
  exfalso. revert Hp. unfold call_method. by destruct x.
Qed.

(** The methods of a TLS connection are registered, but its class is not
    among those whose methods are wrapped: a script that had one would get the
    status object in the place of the value or of the error, from every
    method but the loggers. *)
Theorem ssl_not_unwrapped key m args c s :
  entry key (functions SslConnection_class) = Some (MSsl m) ->
  exists p, call_method (LObject SslConnectionObject) key args c s = Some p /\
    forall r s', may_return p (r, s') -> exists x, r = inr (inr (LStatusOr x)).
Proof.
  intros Hm. eexists. split.
  { unfold call_method. cbn [class_of]. rewrite Hm. reflexivity. }
  intros r s' Hp. apply may_return_bind in Hp as ([r1 s1] & Hr & Hp). injection Hp as <- _.
  cbn [call_member] in Hr. apply may_return_bind in Hr as (r2 & Hr & Hp). injection Hp as <- _.
  destruct m; cbn [call_Ssl] in Hr;
    try (apply may_return_bind in Hr as (y & _ & Hr)); cbn in Hr; subst r2;
    eexists; reflexivity.
Qed.

(** ** Every call of [api] can be made *)

(** What LuaBridge documents of its conversions. *)
Context (to_string_view_ok : forall t, to_string_view (LString t) = Some t)
  (to_int_ok : forall z, (- 2 ^ 31 <= z < 2 ^ 31)%Z -> to_int (LInteger z) = Some z)
  (to_size_ok : forall z, (0 <= z < 2 ^ 32)%Z -> to_size (LInteger z) = Some z).

(** The calls whose numbers fit the parameters' types; the iterator is a
    function of its own. *)
Definition representable (call : ApiCall) : Prop :=
  match call with
  | NextBodyChunk => False
  | HeaderGetAtIndex _ _ index => (- 2 ^ 31 <= index < 2 ^ 31)%Z
  | BufferGetBytes _ index length => (0 <= index < 2 ^ 32)%Z /\ (0 <= length < 2 ^ 32)%Z
  | _ => True
  end.

(** The expression of a script that makes a call. *)
Definition expression (call : ApiCall) : LuaValue * str * list LuaValue :=
  match call with
  | HandleHeaders => (LHandle, "headers"%str, [])
  | HandleBody => (LHandle, "body"%str, [])
  | HandleTrailers => (LHandle, "trailers"%str, [])
  | NextBodyChunk => (LFunction, [], [])
  | HeaderAdd h key value => (LHeader h, "add"%str, [LString key; LString value])
  | HeaderRemove h key => (LHeader h, "remove"%str, [LString key])
  | HeaderReplace h key value => (LHeader h, "replace"%str, [LString key; LString value])
  | HeaderSetHttp1ReasonPhrase h phrase => (LHeader h, "setHttp1ReasonPhrase"%str, [LString phrase])
  | HeaderGet h key => (LHeader h, "get"%str, [LString key])
  | HeaderGetAtIndex h key index => (LHeader h, "getAtIndex"%str, [LString key; LInteger index])
  | HeaderGetNumValues h key => (LHeader h, "getNumValues"%str, [LString key])
  | HeaderGetPairs h => (LHeader h, "get_pairs"%str, [])
  | BufferLength b => (LBuffer b, "length"%str, [])
  | BufferGetBytes b index length => (LBuffer b, "getBytes"%str, [LInteger index; LInteger length])
  | BufferSetBytes b string => (LBuffer b, "setBytes"%str, [LString string])
  | Log level msg =>
      (LHandle,
       match level with
       | Ltrace => "logTrace" | Ldebug => "logDebug" | Linfo => "logInfo"
       | Lwarn => "logWarn" | Lerror => "logErr" | Lcritical => "logCritical"
       end%str, [LString msg])
  end.

Lemma call_method_member x t key m args c s :
  class_of x = Some t -> unwrapped t = true ->
  (if bool_decide (class_name t = class_name Handle_class) then entry key accessors else None) = None ->
  entry key (functions t) = Some m ->
  call_method x key args c s =
  Some (y ← call_member to_string_view to_int to_int64 to_size bad_arguments ParseTime
              incrementMetric recordMetric getMetric x m (headers_passed_on_ c) args s;
        let '(r, s) := y in mret (inr (unwrapper r), s)).
Proof. intros Ht Hu Ha Hm. unfold call_method. by rewrite Ht, Ha, Hm, Hu. Qed.

Lemma call_method_accessor key a args c s :
  entry key accessors = Some a ->
  call_method LHandle key args c s =
  Some (match call_accessor a c with
        | inl reason => mret (inl reason, s)
        | inr r => mret (inr (unwrapper r), s)
        end).
Proof. intros Ha. unfold call_method. cbn [class_of]. rewrite bool_decide_true by done. by rewrite Ha. Qed.

Lemma string1_ok t : string1 to_string_view [LString t] = Some t.
Proof. exact (to_string_view_ok t). Qed.
Lemma string2_ok a b : string2 to_string_view [LString a; LString b] = Some (a, b).
Proof. unfold string2, arg. simpl. by rewrite !to_string_view_ok. Qed.
Lemma string_int_ok a z :
  (- 2 ^ 31 <= z < 2 ^ 31)%Z -> string_int to_string_view to_int [LString a; LInteger z] = Some (a, z).
Proof. intros Hz. unfold string_int, arg. simpl. by rewrite to_string_view_ok, to_int_ok. Qed.
Lemma size2_ok i l :
  (0 <= i < 2 ^ 32)%Z /\ (0 <= l < 2 ^ 32)%Z -> size2 to_size [LInteger i; LInteger l] = Some (i, l).
Proof. intros [Hi Hl]. unfold size2, arg. simpl. by rewrite !to_size_ok. Qed.

Ltac reach_member :=
  erewrite call_method_member by reflexivity; eexists; (split; [reflexivity|]);
  cbn [call_member call_Header call_Buffer];
  rewrite ?string1_ok, ?string2_ok, ?string_int_ok, ?size2_ok by assumption;
  cbn [with_args].

(** Conversely each call of [api] whose numbers fit has a method call that
    makes it. *)
Theorem api_calls_reached call c s :
  representable call ->
  exists p, call_method (expression call).1.1 (expression call).1.2 (expression call).2 c s = Some p /\
    p ≡ (r ← api call c; mret (r, s)).
Proof.
  intros Hr. destruct call as [| | | | | | | | | | | | | | |level msg]; try done; cbn [expression fst snd].
  1-3: erewrite call_method_accessor by reflexivity; eexists; (split; [reflexivity|]);
    cbn; by destruct (_ c).
  12: destruct level.
  all: reach_member; apply wrapped_equiv; eauto using unwrapper_status, unwrapper_status_or.
Qed.
End completeness.

(** ** Witnesses *)

Section witnesses.
Local Existing Instances absl_ref sdk_ref lua_sdk_ref.

Definition string_ref (x : LuaValue) : option str :=
  match x with LString s => Some s | _ => None end.
Definition number_ref (x : LuaValue) : option Z :=
  match x with LInteger z => Some z | _ => None end.

(** The call of a method over a host without metrics. *)
Definition call_ref (x : LuaValue) (key : str) (args : list LuaValue) (c : LuaStreamCoroutine) :=
  call_method string_ref number_ref number_ref number_ref (λ _, "bad argument"%str)
    (λ _, "not callable"%str) (λ _, None) (λ _ _ m, (NotFound, m)) (λ _ _ m, (NotFound, m))
    (λ _ _, Failed NotFound) x key args c tt.

Definition in_hand_ref : LuaValue -> Prop :=
  in_hand string_ref number_ref number_ref number_ref (λ _, "bad argument"%str)
    (λ _, "not callable"%str) (λ _, None) (λ _ _ (m : unit), (NotFound, m))
    (λ _ _ m, (NotFound, m)) (λ _ _, Failed NotFound).

(** A stream whose headers have arrived. *)
Definition with_headers : LuaStreamCoroutine :=
  set_flags true false false false false false (new_coroutine kRequest).

(** [handle:headers()] puts a header object in the script's hand, and
    [handle:streamInfo()] raises an error. *)
Lemma headers_in_hand : in_hand_ref (LHeader (Handle_GetHeaders true)).
Proof.
  eapply hand_result with (x := LHandle) (key := "headers"%str) (args := []) (c := with_headers)
    (s := tt); [apply hand_handle|reflexivity|reflexivity].
Qed.

Lemma script_objects_witness :
  in_hand_ref (LHeader (Handle_GetHeaders true)) /\
  (LHeader (Handle_GetHeaders true) = LHandle \/
   (exists h, LHeader (Handle_GetHeaders true) = LHeader h) \/
   (exists b, LHeader (Handle_GetHeaders true) = LBuffer b)).
Proof.
  split; [exact headers_in_hand|].
  eapply script_objects; [exact headers_in_hand|reflexivity].
Defined.

Lemma script_calls_witness :
  call_ref LHandle "streamInfo"%str [] with_headers =
    Some (mret (inr (inl "unimplemented"%str), tt)) /\
  comes_to with_headers tt
    (mret (inr (inl "unimplemented"%str), tt) : Prog ((YieldReason + (str + LuaValue)) * unit)).
Proof.
  split; [reflexivity|].
  eapply (script_calls string_ref number_ref number_ref number_ref (λ _, "bad argument"%str)
    (λ _, "not callable"%str) (λ _, None) (λ _ _ m, (NotFound, m)) (λ _ _ m, (NotFound, m))
    (λ _ _, Failed NotFound) LHandle "streamInfo"%str []); [apply hand_handle|reflexivity].
Defined.

Lemma ssl_not_unwrapped_witness :
  exists p, call_ref (LObject SslConnectionObject) "sessionId"%str [] with_headers = Some p /\
    forall r s', may_return p (r, s') -> exists x, r = inr (inr (LStatusOr x)).
Proof. eapply ssl_not_unwrapped. reflexivity. Defined.
End witnesses.
