(* ===== verification/LuaRegister.v ===== *)
(** * The registration of the Lua plugin's API

    [RegisterEnvoyApi] of samples/lua/envoy_lua_api_registration.cc: in what
    order the classes, the accessors and the Lua code of envoy_lua_api_shims.h
    reach a new interpreter, and the global function that exists only
    meanwhile ([ScopedGlobalFunction] of lua_state.h).  [pairs] over headers is
    here, too. *)

From S2P Require Import Prelude Absl Headers Host Rules LuaApi LuaMethods LuaStream LuaInv.
From S2P Require Import LuaProps LuaBindings.

(** ** The Lua code *)

Definition dq : str := [ascii_of_nat 34].

Definition kLua51CompatShims : str :=
  nl ++ "  if table then"%str ++
  nl ++ "    _G.unpack = table.unpack"%str ++
  nl ++ "    if not table.maxn then"%str ++
  nl ++ "      table.maxn = function(t)"%str ++
  nl ++ "        local max = 0"%str ++
  nl ++ "        for k, v in pairs(t) do"%str ++
  nl ++ "          if type(k) == "%str ++ dq ++ "number"%str ++ dq ++ " and k > max then"%str ++
  nl ++ "            max = k"%str ++
  nl ++ "          end"%str ++
  nl ++ "        end"%str ++
  nl ++ "        return max"%str ++
  nl ++ "      end"%str ++
  nl ++ "    end"%str ++
  nl ++ "    if not table.getn then"%str ++
  nl ++ "      table.getn = function(t) return #t end"%str ++
  nl ++ "    end"%str ++
  nl ++ "  end"%str ++
  nl ++ "  if math then"%str ++
  nl ++ "    if not math.pow then"%str ++
  nl ++ "      math.pow = function(x, y) return x^y end"%str ++
  nl ++
  nl ++ "    end"%str ++
  nl ++ "    if not math.log10 then"%str ++
  nl ++ "      math.log10 = function(x) return math.log(x, 10) end"%str ++
  nl ++ "    end"%str ++
  nl ++ "    if not math.mod then"%str ++
  nl ++ "      math.mod = math.fmod"%str ++
  nl ++ "    end"%str ++
  nl ++ "  end"%str ++
  nl.

Definition kStatusUnwrapperFunctionShim : str :=
  nl ++ "  function attach_status_unwrapper(class_name)"%str ++
  nl ++ "      local class_table = _G[class_name]"%str ++
  nl ++ "      if not class_table then return end"%str ++
  nl ++
  nl ++ "      local getter = __raw_getmetatable or getmetatable"%str ++
  nl ++ "      local class_meta = getter(class_table)"%str ++
  nl ++ "      if not class_meta then return end"%str ++
  nl ++
  nl ++ "      local function wrap_index(meta)"%str ++
  nl ++ "          local orig_index = meta.__index"%str ++
  nl ++ "          if type(orig_index) ~= "%str ++ dq ++ "function"%str ++ dq ++
    " then return end"%str ++
  nl ++
  nl ++ "          meta.__index = function(self, key)"%str ++
  nl ++ "              local property = orig_index(self, key)"%str ++
  nl ++ "              if type(property) ~= "%str ++ dq ++ "function"%str ++ dq ++
    " then return property end"%str ++
  nl ++
  nl ++ "              return function(self_arg, ...)"%str ++
  nl ++ "                  local res = property(self_arg, ...)"%str ++
  nl ++ "                  if type(res) ~= "%str ++ dq ++ "userdata"%str ++ dq ++
    " then return res end"%str ++
  nl ++
  nl ++ "                  local ok, is_status = pcall(function() return res.is_status_node end)"%str ++
  nl ++ "                  if not (ok and is_status) then return res end"%str ++
  nl ++
  nl ++ "                  if not res:ok() then error(res:message(), 2) end"%str ++
  nl ++
  nl ++ "                  local ok_val, has_val = pcall(function() return res.has_value end)"%str ++
  nl ++ "                  if ok_val and has_val then return res:value() end"%str ++
  nl ++ "                  return nil"%str ++
  nl ++ "              end"%str ++
  nl ++ "          end"%str ++
  nl ++ "      end"%str ++
  nl ++
  nl ++ "      -- Wrap static methods"%str ++
  nl ++ "      wrap_index(class_meta)"%str ++
  nl ++
  nl ++ "      -- Wrap instance methods by scanning the metatable for instance metatables"%str ++
  nl ++ "      for k, v in pairs(class_meta) do"%str ++
  nl ++ "          if type(v) == "%str ++ dq ++ "table"%str ++ dq ++
    " and type(v.__index) == "%str ++ dq ++ "function"%str ++ dq ++ " then"%str ++
  nl ++ "              wrap_index(v)"%str ++
  nl ++ "          end"%str ++
  nl ++ "      end"%str ++
  nl ++ "  end"%str ++
  nl.

(** The classes of [RegisterStatusOr]. *)
Definition status_classes : list str :=
  ["StatusOr_BodyIterator"%str; "StatusOr_bool"%str; "StatusOr_Buffer"%str;
   "StatusOr_Connection"%str; "StatusOr_ConnectionStreamInfo"%str; "StatusOr_Counter"%str;
   "StatusOr_DynamicMetadata"%str; "StatusOr_ExecutionState"%str; "StatusOr_FilterState"%str;
   "StatusOr_Gauge"%str; "StatusOr_Header"%str; "StatusOr_Histogram"%str;
   "StatusOr_HttpCallResult"%str; "StatusOr_int"%str; "StatusOr_int64_t"%str;
   "StatusOr_Metadata"%str; "StatusOr_PublicKey"%str; "StatusOr_Route"%str;
   "StatusOr_size_t"%str; "StatusOr_StatsScope"%str; "StatusOr_string"%str;
   "StatusOr_StreamInfo"%str; "StatusOr_uint64_t"%str; "StatusOr_VerifySignatureResult"%str;
   "StatusOr_VirtualHost"%str; "StatusOr_flat_hash_map_string_string"%str;
   "StatusOr_optional_ParsedName"%str; "StatusOr_optional_SslConnection"%str;
   "StatusOr_optional_string"%str; "StatusOr_vector_pair_string_string"%str;
   "StatusOr_vector_string"%str].

(** ** The registration

    The interpreter and LuaBridge are parameters: [register_class] and
    [register_status] are the calls from [beginClass] to [endClass];
    [handle_metatable] is whether LuaBridge has attached a metatable to the
    handle that is pushed, [inject] a [lua_rawset] into it. *)

Section registration.
Context {VM CFunction : Type}
  (register_class : ClassTable -> VM -> VM) (register_status : str -> VM -> VM)
  (handle_metatable : VM -> bool) (inject : str -> VM -> VM)
  (set_global : str -> option CFunction -> VM -> VM)
  (load_and_pcall : str -> VM -> option (option str) * VM)
  (raw_getmetatable : CFunction).

(** [LuaState::RegisterFunction] of a [lua_CFunction]. *)
Definition RegisterFunction (name : str) (func : CFunction) (vm : VM) : VM :=
  set_global name (Some func) vm.

Definition InjectNativeYieldAccessors (vm : VM) : Status * VM :=
  if negb (handle_metatable vm) then
    (InternalError "Failed to get metatable for Handle in LuaBridge"%str, vm)
  else (OkStatus, foldl (λ vm a, inject a.1 vm) vm accessors).

Definition attach_script (cls : str) : str := "attach_status_unwrapper('"%str ++ cls ++ "')"%str.

(** The scripts, one after the other, up to the first that fails. *)
Fixpoint execute_all (scripts : list str) (vm : VM) : Status * VM :=
  match scripts with
  | [] => (OkStatus, vm)
  | s :: scripts =>
      let '(st, vm) := ExecuteString load_and_pcall s vm in
      if decide (status_code st <> kOk) then (st, vm) else execute_all scripts vm
  end.

(** The life of a [ScopedGlobalFunction]: the destructor runs however the
    block is left. *)
Definition with_scoped_global (name : str) (func : CFunction) (block : VM -> Status * VM)
    (vm : VM) : Status * VM :=
  let '(st, vm) := block (RegisterFunction name func vm) in
  (st, set_global name None vm).

Definition raw_name : str := "__raw_getmetatable"%str.

Definition RegisterEnvoyApi (vm : VM) : Status * VM :=
  let vm := foldl (λ vm t, register_class t vm) vm registered_classes in
  let vm := register_status "absl_Status"%str vm in
  let vm := foldl (λ vm name, register_status name vm) vm status_classes in
  let '(st, vm) := InjectNativeYieldAccessors vm in
  if decide (status_code st <> kOk) then (st, vm)
  else
    let '(st, vm) := ExecuteString load_and_pcall kLua51CompatShims vm in
    if decide (status_code st <> kOk) then (st, vm)
    else
      with_scoped_global raw_name raw_getmetatable (λ vm,
        let '(st, vm) := ExecuteString load_and_pcall kStatusUnwrapperFunctionShim vm in
        if decide (status_code st <> kOk) then (st, vm)
        else execute_all (attach_script <$> unwrapper_classes) vm) vm.

(** ** Its outcome *)

Lemma execute_all_spec scripts vm :
  registers (execute_all scripts vm) =
  foldl (λ o s, vm ← o; registers (ExecuteString load_and_pcall s vm)) (Some vm) scripts.
Proof.
  assert (forall scripts, foldl (λ o s, vm ← o; registers (ExecuteString load_and_pcall s vm))
                            None scripts = None) as HN by (clear; induction scripts; done).
  revert vm. induction scripts as [|s scripts IH]; intros vm; [done|]. cbn [execute_all foldl].
  change (mbind (M := option) ?f (Some vm)) with (f vm). cbv beta.
  destruct (ExecuteString _ s vm) as [st vm'].
  destruct (decide (status_code st <> kOk)) as [Hst|Hst].
  - rewrite registers_failed by done. by rewrite HN.
  - rewrite registers_done by done. apply IH.
Qed.

(** The state in which the Lua code begins to run. *)
Definition registered (vm : VM) : VM :=
  foldl (λ vm name, register_status name vm)
    (register_status "absl_Status"%str
       (foldl (λ vm t, register_class t vm) vm registered_classes)) status_classes.

Definition with_accessors (vm : VM) : VM := foldl (λ vm a, inject a.1 vm) vm accessors.

Definition unwrapping_scripts : list str :=
  kStatusUnwrapperFunctionShim :: (attach_script <$> unwrapper_classes).

(** The registration succeeds exactly when every step does, in this order. *)
Lemma RegisterEnvoyApi_spec vm :
  registers (RegisterEnvoyApi vm) =
  if handle_metatable (registered vm) then
    vm ← registers (ExecuteString load_and_pcall kLua51CompatShims (with_accessors (registered vm)));
    vm ← foldl (λ o s, vm ← o; registers (ExecuteString load_and_pcall s vm))
           (Some (set_global raw_name (Some raw_getmetatable) vm)) unwrapping_scripts;
    Some (set_global raw_name None vm)
  else None.
Proof.
  unfold RegisterEnvoyApi. fold (registered vm). unfold InjectNativeYieldAccessors.
  destruct (handle_metatable _); [|done]. cbn [negb]. fold (with_accessors (registered vm)).
  destruct (ExecuteString _ kLua51CompatShims _) as [st vm1]. cbn [status_code OkStatus].
  rewrite decide_False by tauto.
  destruct (decide (status_code st <> kOk)) as [Hst|Hst];
    [by rewrite registers_failed|rewrite (registers_done st vm1) by done; cbn [mbind option_bind]].
  rewrite <- (execute_all_spec unwrapping_scripts). unfold with_scoped_global, unwrapping_scripts.
  cbn [execute_all]. unfold RegisterFunction.
  destruct (ExecuteString _ kStatusUnwrapperFunctionShim _) as [st2 vm2].
  destruct (decide (status_code st2 <> kOk)) as [Hst2|Hst2];
    [by rewrite !registers_failed|].
  destruct (execute_all _ _) as [st3 vm3].
  destruct (decide (status_code st3 <> kOk)) as [Hst3|Hst3];
    [by rewrite !registers_failed|by rewrite !registers_done].
Qed.

(** C9. A script of the configuration never sees the function that reads any
    metatable: while the plugin's own code uses it to wrap the classes it is a
    global, and it is gone when [Create] hands out the state; it is gone, too,
    when one of these scripts fails, and it does not exist yet when an
    earlier step does. *)
Theorem raw_getmetatable_hidden (get_global : str -> VM -> option CFunction)
    luaL_newstate open_library :
  (forall name x vm, get_global name (set_global name x vm) = x) ->
  (forall vm, Create luaL_newstate load_and_pcall open_library RegisterEnvoyApi = inr vm ->
    get_global raw_name vm = None) /\
  (forall vm, let '(st, vm') := RegisterEnvoyApi vm in
    get_global raw_name vm' = None \/
    (status_code st <> kOk /\
     (vm' = registered vm \/
      vm' = (ExecuteString load_and_pcall kLua51CompatShims (with_accessors (registered vm))).2))).
Proof.
  intros Hget. split.
  - intros vm HC. pose proof (Create_spec luaL_newstate load_and_pcall open_library RegisterEnvoyApi)
      as Hs. rewrite HC in Hs. unfold created in Hs.
    apply bind_Some in Hs as (vm0 & _ & Hs).
    apply bind_Some in Hs as (vm1 & _ & Hs). apply bind_Some in Hs as (vm2 & _ & Hs).
    rewrite RegisterEnvoyApi_spec in Hs. destruct (handle_metatable _); [|done].
    apply bind_Some in Hs as (vm3 & _ & Hs). apply bind_Some in Hs as (vm4 & _ & [= <-]).
    apply Hget.
  - intros vm. unfold RegisterEnvoyApi. fold (registered vm). unfold InjectNativeYieldAccessors.
    destruct (handle_metatable _); cbn [negb status_code OkStatus]; [|by right; split; [|left]].
    rewrite decide_False by tauto. fold (with_accessors (registered vm)).
    destruct (ExecuteString _ kLua51CompatShims _) as [st vm1].
    destruct (decide (status_code st <> kOk)) as [Hst|Hst]; [right; eauto|].
    unfold with_scoped_global. destruct (ExecuteString _ _ _) as [st2 vm2].
    destruct (decide _); [left; apply Hget|].
    destruct (execute_all _ _) as [st3 vm3]. left. apply Hget.
Qed.
End registration.

(** ** C++ functions as globals

    The overload of [RegisterFunction] for functions that may yield keeps the
    function in [closures_] and makes a global of a trampoline with a pointer
    to it: [trampoline n] points to the n-th, which the vector of
    [unique_ptr]s does not move. *)

Section closures.
Context {VM CFunction Function : Type} (set_global : str -> option CFunction -> VM -> VM)
  (trampoline : nat -> CFunction).

(** The overloads for a function without arguments that yields a string or
    an integer: [addFunction] wraps it. *)
Definition RegisterFunctionImpl (addFunction : Function -> CFunction) (name : str) (func : Function)
    (vm : VM) : VM :=
  set_global name (Some (addFunction func)) vm.

Record LuaState : Type := mkLuaState { closures_ : list Function; vm_ : VM }.

Definition RegisterFunction_closure (name : str) (func : Function) (l : LuaState) : LuaState :=
  mkLuaState (closures_ l ++ [func])
    (RegisterFunction set_global name (trampoline (length (closures_ l))) (vm_ l)).

(** What a global comes to when it is called: the function it points to. *)
Definition called (points_to : CFunction -> option nat) (f : option CFunction) (l : LuaState)
    : option Function :=
  n ← f ≫= points_to; closures_ l !! n.

Definition register_all (l : LuaState) (fs : list (str * Function)) : LuaState :=
  foldl (λ l f, RegisterFunction_closure f.1 f.2 l) l fs.

(** A name calls the function that was last registered under it, whatever is
    registered before and afterwards under other names. *)
Lemma registered_function_called (get_global : str -> VM -> option CFunction) points_to
    l fs name func fs' :
  (forall name x vm, get_global name (set_global name x vm) = x) ->
  (forall name name' x vm, name <> name' ->
     get_global name (set_global name' x vm) = get_global name vm) ->
  (forall n, points_to (trampoline n) = Some n) ->
  name ∉ fs'.*1 ->
  let l' := register_all l (fs ++ (name, func) :: fs') in
  called points_to (get_global name (vm_ l')) l' = Some func.
Proof.
  intros Hsame Hother Hpoint. unfold register_all. rewrite foldl_app. cbn [foldl fst snd].
  set (l1 := foldl _ l fs). clearbody l1. intros Hfs.
  assert (forall l2, closures_ l2 !! length (closures_ l1) = Some func ->
    get_global name (vm_ l2) = Some (trampoline (length (closures_ l1))) ->
    let l' := foldl (λ l f, RegisterFunction_closure f.1 f.2 l) l2 fs' in
    called points_to (get_global name (vm_ l')) l' = Some func) as Hgen.
  { induction fs' as [|[name' func'] fs' IH]; intros l2 Hl2 Hg; cbn [foldl fst snd].
    - unfold called. rewrite Hg. cbn. by rewrite Hpoint.
    - apply not_elem_of_cons in Hfs as [Hne Hfs]. apply IH; [exact Hfs| |].
      + cbn. by rewrite lookup_app_l by (eapply lookup_lt_Some; exact Hl2).
      + cbn. unfold RegisterFunction. by rewrite Hother. }
  apply Hgen; cbn.
  - rewrite lookup_app_r, Nat.sub_diag by lia. reflexivity.
  - apply Hsame.
Qed.
End closures.

(** ** [pairs] over the headers

    [push_pairs] is [luabridge::push] of what [GetPairs] returns: an error, or
    what is found in the pushed object at an integer. *)

Section pairs.
Context `{Absl} `{Sdk} `{LuaSdk}.
Context (push_pairs : StatusOr (list (str * str)) -> str + (Z -> option (str * str))).

(** The upvalues of the closure. *)
Record PairsIterator : Type := mkIterator { table : Z -> option (str * str); index : Z }.

Definition Header_pairs (h : Header) : Prog (str + PairsIterator) :=
  r ← Header_GetPairs h;
  match push_pairs r with
  | inl message => mret (inl ("Failed to push headers: "%str ++ message))
  | inr table => mret (inr (mkIterator table 0))
  end.

Definition pairs_next (it : PairsIterator) : option (str * str) * PairsIterator :=
  let idx := to_int (index it + 1) in
  (table it idx, mkIterator (table it) idx).

(** The rounds of a [for] loop, until the iterator returns nothing. *)
Fixpoint for_loop (fuel : nat) (it : PairsIterator) : option (list (str * str)) :=
  match fuel with
  | 0 => None
  | S fuel =>
      match pairs_next it with
      | (None, _) => Some []
      | (Some kv, it) => (kv ::.) <$> for_loop fuel it
      end
  end.

(** The elements of [l], from 1 on. *)
Definition as_array (l : list (str * str)) (i : Z) : option (str * str) :=
  if (0 <? i)%Z then l !! Z.to_nat (i - 1) else None.

Lemma for_loop_S fuel it :
  for_loop (S fuel) it =
  match table it (to_int (index it + 1)) with
  | None => Some []
  | Some kv => (kv ::.) <$> for_loop fuel (mkIterator (table it) (to_int (index it + 1)))
  end.
Proof. cbn. by destruct (table it _). Qed.

Lemma for_loop_drop l k :
  (Z.of_nat (length l) < 2 ^ 31 - 1)%Z -> k <= length l ->
  for_loop (S (length l - k)) (mkIterator (as_array l) (Z.of_nat k)) = Some (drop k l).
Proof.
  intros Hl. remember (length l - k) as n eqn:Hn. revert k Hn.
  induction n as [|n IH]; intros k Hn Hk; rewrite for_loop_S; cbn [table index];
    (assert (to_int (Z.of_nat k + 1) = Z.of_nat k + 1)%Z as -> by (apply to_int_id; lia));
    (assert (as_array l (Z.of_nat k + 1) = l !! k) as ->
       by (unfold as_array; rewrite (proj2 (Z.ltb_lt _ _)) by lia; f_equal; lia)).
  - rewrite lookup_ge_None_2 by lia. by rewrite drop_ge by lia.
  - destruct (lookup_lt_is_Some_2 l k) as [kv Hkv]; [lia|]. rewrite Hkv.
    replace (Z.of_nat k + 1)%Z with (Z.of_nat (S k)) by lia. rewrite IH by lia.
    cbn. by rewrite (drop_S _ _ _ Hkv).
Qed.

(** A loop over [pairs(headers)] ends after one round for each header of the
    host, provided that the pairs are pushed as an array. *)
Lemma Header_pairs_spec `{!AbslOk _} `{!SdkOk _} h m v :
  (forall l, push_pairs (inr l) = inr (as_array l)) ->
  maps v !! type_ h = Some m -> (Z.of_nat (size m) < 2 ^ 31 - 1)%Z ->
  wp (Header_pairs h) (λ r w, w = v /\ exists it l, r = inr it /\
    l ≡ₚ (map_to_list m).*2 /\ for_loop (S (size m)) it = Some l) v.
Proof.
  intros Hpush Hm Hsz. unfold Header_pairs, Header_GetPairs. apply wp_bind_2, wp_bind_2.
  eapply wp_callPairs; [done|]. intros l Hl. apply wp_ret. rewrite Hpush. apply wp_ret.
  split; [done|]. exists (mkIterator (as_array l) 0), l. split_and!; [done..|].
  assert (length l = size m) as Hlen.
  { rewrite Hl, length_fmap. by rewrite length_map_to_list. }
  rewrite <- Hlen. pose proof (for_loop_drop l 0) as HL. rewrite Nat.sub_0_r in HL.
  apply HL; lia.
Qed.
End pairs.

(** ** Witnesses *)

Section witnesses.

(** An interpreter that keeps its globals and what it has run. *)
Definition RecordingVm : Type := gmap str unit * list str.
Definition rec_set (name : str) (x : option unit) (vm : RecordingVm) : RecordingVm :=
  (partial_alter (λ _, x) name vm.1, vm.2).
Definition rec_get (name : str) (vm : RecordingVm) : option unit := vm.1 !! name.
Definition rec_run (s : str) (vm : RecordingVm) : option (option str) * RecordingVm :=
  (None, (vm.1, vm.2 ++ [s])).

Definition rec_register : RecordingVm -> Status * RecordingVm :=
  RegisterEnvoyApi (λ _ vm, vm) (λ _ vm, vm) (λ _, true) (λ _ vm, vm) rec_set rec_run tt.

(** The same with a shim that fails. *)
Definition failing_run (s : str) (vm : RecordingVm) : option (option str) * RecordingVm :=
  if decide (s = kStatusUnwrapperFunctionShim) then (Some (Some "error"%str), vm)
  else rec_run s vm.

Lemma raw_getmetatable_hidden_witness :
  (exists vm, Create (Some (∅, [])) rec_run rec_run rec_register = inr vm /\
     rec_get raw_name vm = None /\ length vm.2 = 20) /\
  (let '(st, vm) := RegisterEnvoyApi (λ _ vm, vm) (λ _ vm, vm) (λ _, true) (λ _ vm, vm) rec_set
                      failing_run tt (∅, []) in
   st = InternalError "error"%str /\
   (rec_get raw_name vm = None \/
    (status_code st <> kOk /\
     (vm = registered (λ _ vm, vm) (λ _ vm, vm) (∅, []) \/
      vm = (ExecuteString failing_run kLua51CompatShims
              (with_accessors (λ _ vm, vm) (registered (λ _ vm, vm) (λ _ vm, vm) (∅, [])))).2)))).
Proof.
  assert (forall name x vm, rec_get name (rec_set name x vm) = x) as Hget.
  { intros name x vm. unfold rec_get, rec_set. simpl. by rewrite lookup_partial_alter_eq. }
  pose proof (raw_getmetatable_hidden (λ _ vm, vm) (λ _ vm, vm) (λ _, true) (λ _ vm, vm) rec_set
    rec_run tt rec_get (Some (∅, [])) rec_run Hget) as [H1 _].
  pose proof (raw_getmetatable_hidden (λ _ vm, vm) (λ _ vm, vm) (λ _, true) (λ _ vm, vm) rec_set
    failing_run tt rec_get (Some (∅, [])) rec_run Hget) as [_ H2].
  split.
  - eexists. split; [vm_compute; reflexivity|]. split; [apply H1|]; vm_compute; reflexivity.
  - specialize (H2 (∅, [])). revert H2. destruct (RegisterEnvoyApi _ _ _ _ _ _ _ _) as [st vm] eqn:He.
    intros H2. split; [|exact H2]. assert (st = (st, vm).1) as -> by reflexivity.
    rewrite <- He. vm_compute. reflexivity.
Defined.
End witnesses.
