(* ===== verification/LuaPlugin.v ===== *)
(** * The Lua plugin in the test framework

    The contexts of samples/lua/lua_plugin.cc as the plugin of a VM that the
    runner of plugins/test loads: a configuration is the text of a script, and
    what holds of the coroutine against any host holds of the streams of a test
    and of a benchmark. *)

From S2P Require Import Prelude Absl Headers Host Framework Rules ThirdParty LuaApi LuaStream LuaInv LuaProps.
From S2P Require Import Pb Gtest Expect Inputs Vm Runner Bench BenchRuns.

(** ** The plugin *)

Section lua_plugin.
Context `{!Caseless} `{!Absl} `{!HostAbi} `{!Sdk} `{!LuaSdk} `{!WasmHost}.
(** The interpreter: its operations as in LuaStream.v, and the global functions
    it has after it has run the script. *)
Context {VM : Type} (luaL_newstate : option VM)
  (load_and_pcall open_library : str -> VM -> option (option str) * VM)
  (RegisterEnvoyApi : VM -> Status * VM) (functions : VM -> str -> option Script)
  (push_error : LuaValue -> option str) (status_text : Status -> str) (fuel : nat).

(** The root context of the framework, which has a configuration and a log. *)
Definition root_context (config : str) (clock : Z) : TestHttpContext :=
  Framework.mkContext [] config clock [] 0 0 false initial_phase empty_result false [] initial_callback 0.

(** [LuaRootContext::onConfigure] in this context; [None]: the VM fails. *)
Definition configured_root (config : str) (clock : Z) : option (bool * option VM * TestHttpContext) :=
  run (onConfigure status_text luaL_newstate load_and_pcall open_library RegisterEnvoyApi
         (size_of config) None) (root_context config clock).

(** The field [lua_state_] after the configuration. *)
Definition lua_state (config : str) (clock : Z) : option VM :=
  match configured_root config clock with Some (_, vm, _) => vm | None => None end.

Definition globals_of (config : str) (clock : Z) : str -> option Script :=
  match lua_state config clock with Some vm => functions vm | None => λ _, None end.

(** [LuaHttpContext] and [LuaRootContext] in a VM; the handlers that they do not
    override do nothing. *)
Definition lua_plugin (config : str) (clock : Z) : Plugin := {|
  Stream := LuaHttpContext;
  start := true;
  configure := match configured_root config clock with Some (ok, _, _) => ok | None => false end;
  root_logs := Some (match configured_root config clock with
                     | Some (_, _, s) => phase_logs s
                     | None => []
                     end);
  init_fails := bool_decide (configured_root config clock = None);
  onCreate := LuaStream.onCreate status_text (bool_decide (lua_state config clock <> None)) false false;
  onRequestHeaders := LuaStream.onRequestHeaders push_error status_text fuel (globals_of config clock);
  onRequestBody := LuaStream.onRequestBody push_error fuel;
  onResponseHeaders := LuaStream.onResponseHeaders push_error status_text fuel (globals_of config clock);
  onResponseBody := LuaStream.onResponseBody push_error fuel;
  onDone _ := mret tt;
  onDelete _ := mret tt;
  shutdown_fails := false;
|}.
End lua_plugin.

(** ** Runs in the framework *)

Lemma ends_run `{!Caseless} `{!Absl} `{!HostAbi} {A} (Q : A -> Prop) (p : Prog A) s :
  ends Q p -> exists a s', run p s = Some (a, s') /\ Q a.
Proof.
  revert s. induction p as [a| |c k IH]; intros s He; [by exists a, s|done|].
  cbn. destruct (exec c s) as [r s1]. apply IH, He.
Qed.

(** ** One direction of a stream *)

Section direction.
Context `{!Absl} `{!Sdk} `{!LuaSdk}.
Context (push_error : LuaValue -> option str) (status_text : Status -> str) (fuel : nat)
  (globals : str -> option Script).
Context (push_ok : forall x, push_error x = None) (n : nat) (fuel_enough : n < fuel).
Context (globals_bound : forall name s, globals name = Some s -> waits_within n s).
Implicit Types c : LuaStreamCoroutine.

(** Before its headers. *)
Definition unstarted c : Prop := fresh c /\ stream_ended_ c = false.

(** Afterwards, or in a direction without headers. *)
Definition under_way c : Prop :=
  fresh c \/ exited c \/ (co_inv n c /\ received_headers_ c = true).

(** What an event leaves. *)
Definition leaves_under_way {T} (x : T * option LuaStreamCoroutine) : Prop :=
  exists c, x.2 = Some c /\ under_way c.

Lemma unstarted_inv c : unstarted c -> co_inv n c.
Proof. intros [Hf He]. split; [by right; left|]. by rewrite He. Qed.

Lemma unstarted_under_way c : unstarted c -> under_way c.
Proof. intros [Hf _]. by left. Qed.

(** A start that fails leaves a coroutine that has exited. *)
Lemma Start_error_exits c :
  unstarted c ->
  co_ends (λ c' r, forall st, r = inl st -> state_ c' = kExited) (Start push_error fuel globals) c.
Proof.
  intros [(Hy & Hw & Ht) He]. unfold Start. apply co_ends_get.
  rewrite decide_False by (intros [Hx|Hx]; by apply Hx). apply co_ends_try.
  apply (co_ends_mono (λ c' r, stream_ended_ c' = false)).
  { intros c' [st|st] He'; [by apply co_ends_modify, co_ends_fail|]. apply co_ends_modify.
    unfold finish_if_ended. apply co_ends_get. cbn [set_state stream_ended_]. by rewrite He'. }
  unfold ExecuteFunction, ExecuteFunctionImpl.
  apply co_ends_bind, CanExecuteFunction_ends; [done|].
  destruct (globals _) as [s|] eqn:Hs; [|by apply co_ends_fail].
  cbn [first_push_error]. rewrite push_ok. apply co_ends_modify. unfold push_value, push_args.
  do 2 apply co_ends_modify.
  cbn [set_thread lua_thread_ stack callee suspended is_finished_ is_running_]. rewrite Ht.
  cbn [new_thread stack callee suspended is_finished_ is_running_ app].
  eapply co_ends_mono; [|eapply (Thread_Resume_ends 1 n _ s); cbn; first [done|lia|by eapply globals_bound]].
  intros c' r ((_ & _ & _ & _ & _ & ->) & _). exact He.
Qed.

Lemma start_under_way what num_headers c :
  unstarted c ->
  ends leaves_under_way
    (start_and_handle push_error status_text what fuel globals (Some c) num_headers false).
Proof.
  intros Hc. unfold start_and_handle. apply ends_bind.
  pose proof (Start_error_exits c Hc) as Hx. unfold co_ends in Hx.
  assert (ends (λ '(c', r), same_stream c c' /\ co_inv n c') (Start push_error fuel globals c)) as Hs
    by (apply Start_ends; [done..|by apply unstarted_inv]).
  eapply ends_mono; [|exact (ends_and _ _ _ Hx Hs)]. intros [c' [st|st]] [He [_ Hi]].
  - unfold LOG_ERROR, LOG. apply ends_bind, ends_call. intros _. apply ends_ret. exists c'. split; [done|].
    right. left. specialize (He st eq_refl).
    destruct Hi as [[?|[[Hy _]|[[Hy _] _]]] _]; [done|congruence..].
  - eapply ends_mono; [|by apply (HandleHeadersEvent_ends push_error fuel push_ok n)].
    intros x (c2 & Hx2 & Hi2 & Hr2 & _). exists c2. split; [exact Hx2|]. right. by right.
Qed.

(** A body for a coroutine that was not started, or has exited: nothing is run. *)
Lemma idle_body k end_of_stream c (I : LuaStreamCoroutine -> Prop) :
  (forall c', state_ c' = state_ c -> yield_reason_ c' = yield_reason_ c ->
     lua_thread_ c' = lua_thread_ c -> I c') ->
  state_ c = kExited \/ fresh c -> n < fuel ->
  ends (λ x, exists c', x.2 = Some c' /\ I c')
    (HandleBodyEvent push_error fuel (Some c) k end_of_stream).
Proof.
  intros HI Hc Hn. unfold HandleBodyEvent. apply ends_bind.
  assert (co_ends (λ c' r, I (MarkHeadersPassedOn c') /\ I c') (HandleBody_ push_error fuel k end_of_stream) c) as Hb.
  { unfold HandleBody_. apply co_ends_get. destruct (stream_ended_ c); [apply co_ends_fail; by split; apply HI|].
    cbv zeta. apply co_ends_modify, co_ends_get. destruct Hc as [Hc|(Hs & Hy & Ht)].
    - rewrite decide_True by exact Hc. apply co_ends_get, co_ends_ret. by split; apply HI.
    - rewrite decide_False by (cbn; congruence).
      rewrite decide_False by (cbn; intros [Hx|[Hx _]]; congruence).
      apply co_ends_bind, co_ends_ret. unfold finish_if_ended. apply co_ends_get. cbn [set_flags stream_ended_].
      destruct end_of_stream; [|apply co_ends_bind, co_ends_ret, co_ends_get, co_ends_ret; by split; apply HI].
      destruct fuel as [|fuel']; [lia|]. cbn [RunToCompletion]. apply co_ends_bind, co_ends_get.
      rewrite decide_False by (cbn; congruence). cbn [set_flags yield_reason_]. rewrite Hy.
      apply co_ends_ret, co_ends_get, co_ends_ret. by split; apply HI. }
  eapply ends_mono; [|exact Hb]. intros [c' [st|st]] [Hm Hi].
  - apply ends_bind, HandleEventError_ends. by exists c'.
  - destruct (yield_reason_ c'); apply ends_ret; by eexists.
Qed.

Lemma body_under_way k end_of_stream c :
  under_way c ->
  ends leaves_under_way (HandleBodyEvent push_error fuel (Some c) k end_of_stream).
Proof.
  intros [Hf|[Hx|[Hi Hr]]].
  - apply idle_body; [|by right|done]. intros c' Hs Hy Ht. left. destruct Hf as (? & ? & ?).
    unfold fresh. by rewrite Hs, Hy, Ht.
  - apply idle_body; [|left; apply Hx|done]. intros c' Hs Hy Ht. right. left.
    destruct Hx as (? & ? & ?). unfold exited. by rewrite Hs, Hy, Ht.
  - eapply ends_mono; [|by apply (HandleBodyEvent_ends push_error fuel push_ok n)].
    intros x (c2 & Hx2 & Hi2 & Hr2 & _). exists c2. split; [exact Hx2|]. right. by right.
Qed.
End direction.

(** ** Streams of the plugin in the framework *)

Section streams.
Context `{!Caseless} `{!Absl} `{!HostAbi} `{!Sdk} `{!LuaSdk} `{!Re2} `{!RunnerLibs} `{!HttpParser}.
Context `{!WasmHost} `{!BenchHost}.
Context {VM : Type} (luaL_newstate : option VM)
  (load_and_pcall open_library : str -> VM -> option (option str) * VM)
  (RegisterEnvoyApi : VM -> Status * VM) (functions : VM -> str -> option Script)
  (push_error : LuaValue -> option str) (status_text : Status -> str) (fuel : nat).
Context (config : str) (opt : ContextOptions) (cfg : pb.Test).

Definition lua_handle : PluginHandle :=
  mkHandle (lua_plugin luaL_newstate load_and_pcall open_library RegisterEnvoyApi functions push_error
              status_text fuel config (opt_clock_time opt)) config opt.

Abbreviation stream := (stream lua_handle).
Abbreviation acts := (acts lua_handle cfg false).

(** The configuration was accepted, and a script waits within [n]. *)
Context (push_ok : forall x, push_error x = None) (n : nat) (fuel_enough : n < fuel).
Context (vm : VM).
Hypothesis configured_vm : lua_state luaL_newstate load_and_pcall open_library RegisterEnvoyApi
  status_text config (opt_clock_time opt) = Some vm.
Hypothesis functions_bound : forall name s, functions vm name = Some s -> waits_within n s.

Lemma globals_bound name s :
  globals_of luaL_newstate load_and_pcall open_library RegisterEnvoyApi functions status_text
    config (opt_clock_time opt) name = Some s -> waits_within n s.
Proof. unfold globals_of. rewrite configured_vm. apply functions_bound. Qed.

(** What the two coroutines of a stream are. *)
Definition context_of (P Q : LuaStreamCoroutine -> Prop) (ctx : LuaHttpContext) : Prop :=
  exists c c', request_coroutine_ ctx = Some c /\ P c /\ response_coroutine_ ctx = Some c' /\ Q c'.
Definition coroutines (P Q : LuaStreamCoroutine -> Prop) (st : stream) : Prop := context_of P Q st.1.

Lemma coroutines_mono (P P' Q Q' : LuaStreamCoroutine -> Prop) st :
  (forall c, P c -> P' c) -> (forall c, Q c -> Q' c) -> coroutines P Q st -> coroutines P' Q' st.
Proof. intros HP HQ (c & c' & ? & ? & ? & ?). exists c, c'. auto. Qed.

(** The calls succeed on every stream of the first kind and leave the second. *)
Definition lives (l : list (Action lua_handle)) (I J : stream -> Prop) : Prop :=
  forall st, I st -> exists st', acts l (Live st) = inr (Live st') /\ J st'.

Lemma lives_nil (I J : stream -> Prop) : (forall st, I st -> J st) -> lives [] I J.
Proof. intros HIJ st Hst. exists st. auto. Qed.

Lemma lives_app l l' (I J K : stream -> Prop) : lives l I J -> lives l' J K -> lives (l ++ l') I K.
Proof.
  intros Hl Hl' st Hst. destruct (Hl st Hst) as (st1 & Ha & HJ). destruct (Hl' st1 HJ) as (st2 & Ha' & HK).
  exists st2. by rewrite acts_app, Ha.
Qed.

Lemma lives_send send (I J : stream -> Prop) :
  (forall st, I st -> exists r st', send st = Some (r, st') /\ J st') ->
  lives [Sends lua_handle send] I J.
Proof.
  intros Hs st Hst. destruct (Hs st Hst) as (r & st' & Hsend & HJ). exists st'. cbn. unfold in_vm.
  by rewrite Hsend.
Qed.

Lemma new_lua_stream :
  exists st, new_stream cfg lua_handle = Some st /\ coroutines unstarted unstarted st.
Proof.
  unfold new_stream, lua_handle. cbn [plugin onCreate lua_plugin]. rewrite configured_vm.
  rewrite bool_decide_true by discriminate. eexists. split; [reflexivity|].
  eexists _, _. repeat split.
Qed.

(** The handler that is run ends with [P] of what it returns. *)
Local Ltac run_ends P :=
  let He := fresh in let x := fresh in let s := fresh in let Hrun := fresh in let Hx := fresh in
  match goal with
  | |- context [@run _ _ _ ?A ?p ?s0] =>
      assert (@ends A P p) as He;
      [|destruct (@ends_run _ _ _ A P p s0 He) as ([? x] & s & Hrun & Hx); rewrite Hrun; cbn;
        eexists _, _; split; [reflexivity|exact Hx]]
  end.

Lemma lua_request_headers m Q :
  lives [Sends lua_handle (send_request_headers lua_handle m)] (coroutines unstarted Q)
    (coroutines (under_way n) Q).
Proof.
  apply lives_send. intros [ctx s] (c & c' & Hc & HP & Hc' & HQ). cbn [fst snd] in *. unfold send_request_headers, SendRequestHeaders.
  run_ends (λ x : FilterHeadersStatus.t * LuaHttpContext, context_of (under_way n) Q x.2).
  cbn [plugin lua_handle onRequestHeaders lua_plugin]. unfold LuaStream.onRequestHeaders.
  cbn [fst]. rewrite Hc. apply ends_bind.
  eapply ends_mono; [|by apply (start_under_way push_error status_text fuel _ push_ok n fuel_enough globals_bound)].
  intros [status o] (c1 & Ho & Hc1). cbn in Ho. subst o. apply ends_ret. cbn. by exists c1, c'.
Qed.

Lemma lua_response_headers m P :
  lives [Sends lua_handle (send_response_headers lua_handle m)] (coroutines P unstarted)
    (coroutines P (under_way n)).
Proof.
  apply lives_send. intros [ctx s] (c & c' & Hc & HP & Hc' & HQ). cbn [fst snd] in *. unfold send_response_headers, SendResponseHeaders.
  destruct (sent_local_response _).
  { cbn. eexists _, _. split; [reflexivity|]. exists c, c'. split_and!; [done..|by apply unstarted_under_way]. }
  run_ends (λ x : FilterHeadersStatus.t * LuaHttpContext, context_of P (under_way n) x.2).
  cbn [plugin lua_handle onResponseHeaders lua_plugin]. unfold LuaStream.onResponseHeaders.
  cbn [fst]. rewrite Hc'. apply ends_bind.
  eapply ends_mono; [|by apply (start_under_way push_error status_text fuel _ push_ok n fuel_enough globals_bound)].
  intros [status o] (c1 & Ho & Hc1). cbn in Ho. subst o. apply ends_ret. cbn. by exists c, c1.
Qed.

Lemma lua_request_body chunk e Q :
  lives [Sends lua_handle (send_request_body lua_handle chunk e)] (coroutines (under_way n) Q)
    (coroutines (under_way n) Q).
Proof.
  apply lives_send. intros [ctx s] (c & c' & Hc & HP & Hc' & HQ). cbn [fst snd] in *. unfold send_request_body, SendRequestBody.
  destruct (sent_local_response _).
  { cbn. eexists _, _. split; [reflexivity|]. by exists c, c'. }
  run_ends (λ x : FilterDataStatus.t * LuaHttpContext, context_of (under_way n) Q x.2).
  cbn [plugin lua_handle onRequestBody lua_plugin]. unfold LuaStream.onRequestBody.
  cbn [fst]. rewrite Hc. apply ends_bind.
  eapply ends_mono; [|by apply (body_under_way push_error fuel push_ok n fuel_enough)].
  intros [status o] (c1 & Ho & Hc1). cbn in Ho. subst o. apply ends_ret. cbn. by exists c1, c'.
Qed.

Lemma lua_response_body chunk e P :
  lives [Sends lua_handle (send_response_body lua_handle chunk e)] (coroutines P (under_way n))
    (coroutines P (under_way n)).
Proof.
  apply lives_send. intros [ctx s] (c & c' & Hc & HP & Hc' & HQ). cbn [fst snd] in *. unfold send_response_body, SendResponseBody.
  destruct (sent_local_response _).
  { cbn. eexists _, _. split; [reflexivity|]. by exists c, c'. }
  run_ends (λ x : FilterDataStatus.t * LuaHttpContext, context_of P (under_way n) x.2).
  cbn [plugin lua_handle onResponseBody lua_plugin]. unfold LuaStream.onResponseBody.
  cbn [fst]. rewrite Hc'. apply ends_bind.
  eapply ends_mono; [|by apply (body_under_way push_error fuel push_ok n fuel_enough)].
  intros [status o] (c1 & Ho & Hc1). cbn in Ho. subst o. apply ends_ret. cbn. by exists c, c1.
Qed.

Lemma lives_headers send m (I J : stream -> Prop) :
  (forall st, I st -> J st) -> (forall m, lives [Sends lua_handle (send m)] I J) ->
  lives (headers_actions lua_handle send m) I J.
Proof. intros HIJ Hs. destruct m as [m|]; [apply Hs|by apply lives_nil]. Qed.

Lemma lives_body send chunks (I : stream -> Prop) :
  (forall chunk e, lives [Sends lua_handle (send chunk e)] I I) ->
  lives (body_actions lua_handle send chunks) I I.
Proof.
  intros Hs. induction chunks as [|chunk chunks IH]; [by apply lives_nil|].
  rewrite body_actions_cons. exact (lives_app [_] _ _ _ _ (Hs _ _) IH).
Qed.

(** Whatever a test or a benchmark sends, a stream lives to its end. *)
Lemma lua_script m m' c c' : acts (script lua_handle m m' c c') NoStream = inr NoStream.
Proof.
  destruct new_lua_stream as (st & Hnew & Hst).
  assert (lives (sends lua_handle m m' c c') (coroutines unstarted unstarted) (λ _, True)) as Hl.
  { unfold sends.
    apply (lives_app _ _ _ (coroutines (under_way n) unstarted)).
    { apply lives_headers; [intros ?; apply coroutines_mono; [apply unstarted_under_way|done]|].
      intros; apply lua_request_headers. }
    apply (lives_app _ _ _ (coroutines (under_way n) unstarted)).
    { apply lives_body. intros; apply lua_request_body. }
    apply (lives_app _ _ _ (coroutines (under_way n) (under_way n))).
    { apply lives_headers; [intros ?; apply coroutines_mono; [done|apply unstarted_under_way]|].
      intros; apply lua_response_headers. }
    intros st1 Hst1. edestruct (lives_body (send_response_body lua_handle)) as (st2 & Ha & _);
      [intros; apply lua_response_body|exact Hst1|]. by exists st2. }
  destruct (Hl st Hst) as (st' & Ha & _).
  rewrite script_measured, acts_app, measured_sends. cbn [Bench.acts act]. unfold in_vm at 1.
  rewrite Hnew, Ha. cbn. unfold in_vm, tear_down, TearDown. by destruct (torn_down st'.2).
Qed.

End streams.

(** ** The script of the README in the runner

    [envoy_on_request] adds a header; a test expects a value of it. *)

Definition add_header (key v : str) : Script :=
  Api HandleHeaders (λ r,
    match r with
    | inr (LHeader h) =>
        Api (HeaderAdd h key v) (λ r, match r with inl e => Error (Some e) | inr _ => Return end)
    | inr _ => Error None
    | inl e => Error (Some e)
    end).

Definition expects_header (key x : str) : pb.Expectation :=
  pb.mkExpectation [pb.mkHeader key x] [] [] [] None [].
Definition headers_test (name : str) (inv : pb.Invocation) : pb.Test :=
  pb.mkTest name false None [] (Some inv) [] None [] pb.no_expectation pb.no_expectation
    pb.no_expectation.

Section readme.
Context `{!Caseless} `{!CaselessOk _} `{!Absl} `{!AbslOk _} `{!HostAbi} `{!HostAbiOk _} `{!Sdk} `{!LuaSdk}.
Context (push_error : LuaValue -> option str) (status_text : Status -> str) (fuel : nat)
  (globals : str -> option Script) (key v : str).
Context (push_ok : forall x, push_error x = None).
Hypothesis script : globals "envoy_on_request"%str = Some (add_header key v).

(** What the handler does: one call of the host. *)
Lemma add_header_handler response num_headers :
  exists c (k : WasmResult -> Prog (FilterHeadersStatus.t * LuaHttpContext)),
    LuaStream.onRequestHeaders push_error status_text fuel globals
      (LuaStream.mkContext (Some (new_coroutine kRequest)) response) num_headers false =
    Call (AddHeaderMapValue RequestHeaders key v) k /\
    k Ok = Ret (FilterHeadersStatus.Continue, LuaStream.mkContext (Some c) response).
Proof.
  pose proof script as Hs. clear script. lazy in Hs. lazy. rewrite Hs. clear Hs.
  pose proof push_ok as Hp. clear push_ok. lazy. rewrite !Hp. lazy.
  eexists _, _. split; [reflexivity|]. lazy. reflexivity.
Qed.
End readme.

Section readme_test.
Context `{!Caseless} `{!CaselessOk _} `{!Absl} `{!AbslOk _} `{!HostAbi} `{!HostAbiOk _} `{!Sdk} `{!LuaSdk}.
Context `{!Re2} `{!RunnerLibs} `{!HttpParser} `{!WasmHost}.
Context {VM : Type} (luaL_newstate : option VM)
  (load_and_pcall open_library : str -> VM -> option (option str) * VM)
  (RegisterEnvoyApi : VM -> Status * VM) (functions : VM -> str -> option Script)
  (push_error : LuaValue -> option str) (status_text : Status -> str) (fuel : nat).
Context (config : str) (opt : ContextOptions).

Abbreviation handle := (lua_handle luaL_newstate load_and_pcall open_library RegisterEnvoyApi functions
  push_error status_text fuel config opt).

(** The request headers are sent to a new stream. *)
Lemma send_to_readme cfg vm key v m :
  (forall x, push_error x = None) ->
  lua_state luaL_newstate load_and_pcall open_library RegisterEnvoyApi status_text config
    (opt_clock_time opt) = Some vm ->
  functions vm "envoy_on_request"%str = Some (add_header key v) ->
  exists st0 r st1, new_stream cfg handle = Some st0 /\ phase_logs st0.2 = [] /\
    send_request_headers handle m st0 = Some (r, st1) /\ phase_logs st1.2 = [] /\
    r_headers r = InsertOrAppend key v m /\ http_code r = 0%Z /\
    header_status r = FilterHeadersStatus.Continue /\ torn_down st1.2 = false.
Proof.
  intros Hpush Hvm Hf. unfold new_stream, send_request_headers, SendRequestHeaders.
  cbn [plugin lua_handle onCreate onRequestHeaders lua_plugin]. rewrite Hvm.
  rewrite bool_decide_true by discriminate. eexists _. 
  destruct (add_header_handler push_error status_text fuel (functions vm) key v Hpush Hf
    (Some (new_coroutine kResponse)) (Z.of_nat (length m))) as (c & k & Hh & Hk).
  eexists _, _. split; [reflexivity|]. split; [reflexivity|].
  unfold globals_of. rewrite Hvm. cbn [fst snd].
  match goal with |- context [LuaStream.onRequestHeaders _ _ _ _ ?ctx _ _] =>
    change ctx with (LuaStream.mkContext (Some (new_coroutine kRequest)) (Some (new_coroutine kResponse)))
  end.
  rewrite Hh. cbn [run exec]. unfold fw_addHeaderMapValue. 
  rewrite decide_True by reflexivity. cbv beta iota zeta. rewrite Hk. cbn.
  split; [reflexivity|]. cbn. rewrite abi_continue_ok. by repeat split.
Qed.
(** The value of a header after a value was added. *)
Definition appended (old v : str) : str := if decide (old = []) then v else old ++ ", "%str ++ v.

Lemma logs_meet_nothing env logs : logs_meet env pb.no_expectation logs.
Proof. intros e He. by apply not_elem_of_nil in He. Qed.

(** C13. A test of the script in the README passes exactly if the value that it
    expects is the one the script adds, joined to the value that the request
    had, whatever the request, the name, the value and the engine are: nothing
    between the configuration of the plugin and the verdict of the runner
    changes it. *)
Theorem readme_script_test engine env name input key v x m vm :
  (forall a, push_error a = None) ->
  lua_state luaL_newstate load_and_pcall open_library RegisterEnvoyApi status_text config
    (opt_clock_time opt) = Some vm ->
  functions vm "envoy_on_request"%str = Some (add_header key v) -> key <> [] ->
  LoadWasm engine env false = inr handle -> InitializePlugin handle = inr tt ->
  ParseHeaders env input true = inr m ->
  test_meets engine env (headers_test name (pb.mkInvocation input (expects_header key x))) <->
  x = appended (default [] (hm_get key (headers_map m))) v.
Proof.
  intros Hpush Hvm Hf Hkey Hload Hinit Hm. set (cfg := headers_test _ _).
  destruct (send_to_readme cfg vm key v m Hpush Hvm Hf)
    as (st0 & r & st1 & Hnew & Hlogs0 & Hsend & Hlogs1 & Hr & Hcode & Hstatus & Htorn).
  assert (meets env (expects_header key x) (phase_logs st1.2) r <->
    x = appended (default [] (hm_get key (headers_map m))) v) as Hmeets.
  { apply ParseHeaders_ordered in Hm.
    assert (hm_get key (headers_map (r_headers r)) =
      Some (appended (default [] (hm_get key (headers_map m))) v)) as Hget.
    { rewrite Hr, headers_map_append by done. unfold hm_append. by rewrite hm_get_update_eq. }
    split.
    - intros [Hhas _ _ _ _ _]. destruct (Hhas (pb.mkHeader key x)) as [_ Hx]; [left|].
      cbn in Hx. congruence.
    - intros ->. split; try (intros ? Hin; by apply not_elem_of_nil in Hin).
      + intros h Hh. apply list_elem_of_singleton in Hh as ->. by split.
      + split; [by left|done]. }
  rewrite <- Hmeets. unfold test_meets. split.
  - intros (h & logs & Hh & _ & _ & _ & _ & Hst). rewrite Hload in Hh. injection Hh as <-.
    destruct Hst as (s0 & s1 & s2 & s3 & s4 & s5 & Hn & _ & (m1 & r1 & Hm1 & Hs1 & Hok) & _).
    cbn [pb.input] in Hm1. rewrite Hm in Hm1. injection Hm1 as <-. rewrite Hnew in Hn. injection Hn as <-.
    rewrite Hsend in Hs1. injection Hs1 as <- <-. exact Hok.
  - intros Hok. eexists handle, _. split; [exact Hload|]. split; [exact Hinit|]. split; [reflexivity|].
    split. { apply bool_decide_false. intros Hc. unfold lua_state in Hvm. by rewrite Hc in Hvm. }
    split; [apply logs_meet_nothing|].
    destruct (tear_down handle st1) as [st5|] eqn:Ht.
    2: { unfold tear_down, TearDown in Ht. rewrite Htorn in Ht. discriminate Ht. }
    exists st0, st1, st1, st1, st1, st5. split; [exact Hnew|]. split; [apply logs_meet_nothing|].
    assert (forall invoke st, body_phase env cfg handle invoke [] st st) as Hbody
      by (intros invoke st; split; [cbn; lia|constructor]).
    split; [by exists m, r|]. split; [apply Hbody|]. split; [reflexivity|]. split; [apply Hbody|].
    split; [exact Ht|]. split; [apply logs_meet_nothing|reflexivity].
Qed.
End readme_test.

(** ** Witnesses *)

Section witnesses.
#[local] Existing Instances caseless_ref absl_ref abi_ref sdk_ref re2_ref runner_ref http_ref lua_sdk_ref.
#[local] Existing Instance bench_host_ref.

Definition quoted (s : str) : str := [ascii_of_nat 34] ++ s ++ [ascii_of_nat 34].
Definition readme_text : str :=
  "function envoy_on_request(request_handle)"%str ++ nl ++
  "  request_handle:headers():add("%str ++ quoted "foo"%str ++ ", "%str ++ quoted "bar"%str ++ ")"%str ++
  nl ++ "end"%str.

(** An interpreter that knows one script; its state is whether it has run it. *)
Definition readme_globals (name : str) : option Script :=
  if decide (name = "envoy_on_request"%str) then Some (add_header "foo"%str "bar"%str) else None.
Definition readme_load (s : str) (vm : bool) : option (option str) * bool :=
  (None, bool_decide (s = readme_text) || vm).
Definition readme_open (s : str) (vm : bool) : option (option str) * bool := (None, vm).
Definition readme_register (vm : bool) : Status * bool := (OkStatus, vm).
Definition readme_functions (vm : bool) (name : str) : option Script :=
  if vm then readme_globals name else None.

(** VMs that hold the Lua plugin with this interpreter. *)
Definition lua_wasm_ref : WasmHost := {|
  TestVm := ContextOptions;
  makeVm _ := mkOptions None 0;
  setLogLevel _ vm := vm;
  load opt _ _ := Some opt;
  initialize vm := Some vm;
  plugin_of opt config :=
    @lua_plugin _ _ _ _ _ wasm_ref _ (Some false) readme_load readme_open readme_register
      readme_functions no_push_error no_status_text 2 config (opt_clock_time opt);
  initial_phase := None;
  initial_callback := CbNone;
|}.
#[local] Existing Instance lua_wasm_ref.

Abbreviation readme_handle opt :=
  (lua_handle (Some false) readme_load readme_open readme_register readme_functions no_push_error
     no_status_text 2 readme_text opt).

(** A file is its name here. *)
Definition readme_env : pb.Env := pb.mkEnv [] "lua.wasm"%str readme_text 0 [] 0 2 1.
Definition readme_input : pb.Input := pb.mkInput [pb.mkHeader "FOO"%str "a"%str] [] [].
Definition readme_test : pb.Test :=
  headers_test "AddsFoo"%str (pb.mkInvocation readme_input (expects_header "foo"%str "a, bar"%str)).

Lemma readme_script_test_witness : test_meets "v8"%str readme_env readme_test.
Proof.
  pose proof (readme_script_test (Some false) readme_load readme_open readme_register
    readme_functions no_push_error no_status_text 2 readme_text (mkOptions None default_clock_time)
    "v8"%str readme_env "AddsFoo"%str readme_input "foo"%str "bar"%str "a, bar"%str
    [("FOO"%str, "a"%str)] true) as Hw.
  apply Hw; first [reflexivity|discriminate|vm_compute; reflexivity].
Defined.

End witnesses.
