(* ===== verification/LuaStubs.v ===== *)
(** * The test stubs of the Lua plugin

    samples/lua/proxy_wasm_test_stubs.cc and .h: the unit tests of the Lua
    plugin are linked against functions with the names of the host calls, which
    hand each call to the mock of the running test.  The mock is a parameter,
    since its methods are made by gmock; its lifetime, the stubs and the actions
    that answer for it are modelled, with the memory that the answers are
    written to. *)

From S2P Require Import Prelude Absl Headers Host.

(** ** Memory

    [nullptr] is [None].  A block of [malloc] holds bytes that were not written
    yet as [None]; [pointers] and [sizes] are the variables of a caller that the
    out-parameters of a call point to.  [MemOp] is an operation that may be
    undefined. *)

Abbreviation pointer := (option positive).

Record Mem : Type := mkMem {
  blocks : gmap positive (list (option ascii));
  pointers : gmap positive pointer;
  sizes : gmap positive nat;
}.

Definition with_blocks (b : gmap positive (list (option ascii))) (h : Mem) : Mem :=
  mkMem b (pointers h) (sizes h).

Definition MemOp (A : Type) : Type := Mem -> option (A * Mem).

#[export] Instance MemOp_ret : MRet MemOp := λ A a h, Some (a, h).
#[export] Instance MemOp_bind : MBind MemOp := λ A B f m h,
  r ← m h; f r.1 r.2.

(** [std::malloc], which finds memory in these tests. *)
Definition malloc (n : nat) : MemOp pointer := λ h,
  let l := fresh (dom (blocks h)) in
  Some (Some l, with_blocks (<[l := replicate n None]> (blocks h)) h).

(** [std::memcpy(p, s.data(), s.size())] *)
Definition memcpy (p : pointer) (s : str) : MemOp unit := λ h,
  match p with
  | None => None
  | Some l =>
      b ← blocks h !! l;
      if decide (length s <= length b)
      then Some ((), with_blocks (<[l := map Some s ++ drop (length s) b]> (blocks h)) h)
      else None
  end.

Fixpoint until_nul (s : str) : str :=
  match s with
  | [] => []
  | c :: s => if decide (c = zero) then [] else c :: until_nul s
  end.

(** [strdup(s.c_str())]: up to the first NUL, which is copied too. *)
Definition strdup (s : str) : MemOp pointer :=
  let t := until_nul s ++ [zero] in
  p ← malloc (length t); _ ← memcpy p t; mret p.

(** [*a = p] for an out-parameter, and its counterpart for sizes. *)
Definition store_pointer (a p : pointer) : MemOp unit := λ h,
  match a with
  | None => None
  | Some a =>
      _ ← pointers h !! a;
      Some ((), mkMem (blocks h) (<[a := p]> (pointers h)) (sizes h))
  end.

Definition store_size (a : pointer) (n : nat) : MemOp unit := λ h,
  match a with
  | None => None
  | Some a =>
      _ ← sizes h !! a;
      Some ((), mkMem (blocks h) (pointers h) (<[a := n]> (sizes h)))
  end.

(** The characters of [std::string_view(p, n)]; undefined beyond the block and
    for bytes that were never written. *)
Definition view (h : Mem) (p : pointer) (n : nat) : option str :=
  if decide (n = 0) then Some []
  else
    b ← p ≫= (blocks h !!.);
    if decide (n <= length b) then mapM id (take n b) else None.

(** What a caller reads from its out-parameters after a call. *)
Definition read_out (h : Mem) (a_data a_size : positive) : option str :=
  p ← pointers h !! a_data; n ← sizes h !! a_size; view h p n.

(** ** The actions and matchers of the mock *)

(** The end of each action: the pointer and the size are stored. *)
Definition store_out (a_data a_size p : pointer) (n : nat) : MemOp WasmResult :=
  _ ← store_pointer a_data p; _ ← store_size a_size n; mret Ok.

Definition SetWasmString (value : str) (arg3 arg4 : pointer) : MemOp WasmResult :=
  p ← malloc (length value); _ ← memcpy p value;
  store_out arg3 arg4 p (length value).

Definition SetWasmPairs (bytes_str : str) (arg1 arg2 : pointer) : MemOp WasmResult :=
  p ← malloc (length bytes_str); _ ← memcpy p bytes_str;
  store_out arg1 arg2 p (length bytes_str).

Definition SetWasmProperty (value : str) (arg2 arg3 : pointer) : MemOp WasmResult :=
  match value with
  | [] => store_out arg2 arg3 None 0
  | _ :: _ =>
      p ← malloc (length value); _ ← memcpy p value;
      store_out arg2 arg3 p (length value)
  end.

Definition SetWasmBufferBytes (s : str) (arg3 arg4 : pointer) : MemOp WasmResult :=
  match s with
  | [] => store_out arg3 arg4 None 0
  | _ :: _ => p ← strdup s; store_out arg3 arg4 p (length s)
  end.

Definition WasmStrEq (expected_str : str) (p : pointer) (n : nat) (h : Mem) :
    option bool :=
  (λ s, bool_decide (s = expected_str)) <$> view h p n.

Definition WasmHasSubstr (expected_substr : str) (p : pointer) (n : nat) (h : Mem) :
    option bool :=
  contains expected_substr <$> view h p n.

(** ** The calls

    The host calls by name, with the arguments of the C functions: the numbers
    of enumerations and machine integers, which the stubs only hand on, and
    pointers.  These are the methods of [MockProxyWasmAbi]. *)

Inductive AbiCall : Type :=
  | Cproxy_log (level : Z) (logMessage : pointer) (messageSize : nat)
  | Cproxy_get_property (path_ptr : pointer) (path_size : nat) (value_ptr_ptr
      value_size_ptr : pointer)
  | Cproxy_send_local_response (response_code : Z) (response_code_details_ptr : pointer)
      (response_code_details_size : nat) (body_ptr : pointer) (body_size : nat)
      (additional_response_header_pairs_ptr : pointer)
      (additional_response_header_pairs_size : nat) (grpc_status : Z)
  | Cproxy_get_configuration (configuration_ptr configuration_size : pointer)
  | Cproxy_get_status (status_code_ptr message_ptr message_size : pointer)
  | Cproxy_get_log_level (level : pointer)
  | Cproxy_set_tick_period_milliseconds (millisecond : Z)
  | Cproxy_get_current_time_nanoseconds (nanoseconds : pointer)
  | Cproxy_set_property (path_ptr : pointer) (path_size : nat) (value_ptr : pointer)
      (value_size : nat)
  | Cproxy_continue_stream (stream_type : Z)
  | Cproxy_close_stream (stream_type : Z)
  | Cproxy_clear_route_cache
  | Cproxy_get_shared_data (key_ptr : pointer) (key_size : nat) (value_ptr value_size
      cas : pointer)
  | Cproxy_set_shared_data (key_ptr : pointer) (key_size : nat) (value_ptr : pointer)
      (value_size : nat) (cas : Z)
  | Cproxy_register_shared_queue (queue_name_ptr : pointer) (queue_name_size : nat)
      (token : pointer)
  | Cproxy_resolve_shared_queue (vm_id : pointer) (vm_id_size : nat) (queue_name_ptr :
      pointer) (queue_name_size : nat) (token : pointer)
  | Cproxy_dequeue_shared_queue (token : Z) (data_ptr data_size : pointer)
  | Cproxy_enqueue_shared_queue (token : Z) (data_ptr : pointer) (data_size : nat)
  | Cproxy_add_header_map_value (type : Z) (key_ptr : pointer) (key_size : nat)
      (value_ptr : pointer) (value_size : nat)
  | Cproxy_get_header_map_value (type : Z) (key_ptr : pointer) (key_size : nat)
      (value_ptr value_size : pointer)
  | Cproxy_get_header_map_pairs (type : Z) (ptr size : pointer)
  | Cproxy_set_header_map_pairs (type : Z) (ptr : pointer) (size : nat)
  | Cproxy_replace_header_map_value (type : Z) (key_ptr : pointer) (key_size : nat)
      (value_ptr : pointer) (value_size : nat)
  | Cproxy_remove_header_map_value (type : Z) (key_ptr : pointer) (key_size : nat)
  | Cproxy_get_header_map_size (type : Z) (size : pointer)
  | Cproxy_get_buffer_bytes (type start length : Z) (ptr size : pointer)
  | Cproxy_get_buffer_status (type : Z) (length_ptr flags_ptr : pointer)
  | Cproxy_set_buffer_bytes (type start length : Z) (ptr : pointer) (size : nat)
  | Cproxy_http_call (uri_ptr : pointer) (uri_size : nat) (header_pairs_ptr : pointer)
      (header_pairs_size : nat) (body_ptr : pointer) (body_size : nat)
      (trailer_pairs_ptr : pointer) (trailer_pairs_size : nat) (timeout_milliseconds :
      Z) (token_ptr : pointer)
  | Cproxy_grpc_call (service_ptr : pointer) (service_size : nat) (service_name_ptr :
      pointer) (service_name_size : nat) (method_name_ptr : pointer) (method_name_size :
      nat) (initial_metadata_ptr : pointer) (initial_metadata_size : nat) (request_ptr :
      pointer) (request_size : nat) (timeout_milliseconds : Z) (token_ptr : pointer)
  | Cproxy_grpc_stream (service_ptr : pointer) (service_size : nat) (service_name_ptr :
      pointer) (service_name_size : nat) (method_name_ptr : pointer) (method_name_size :
      nat) (initial_metadata : pointer) (initial_metadata_size : nat) (token_ptr :
      pointer)
  | Cproxy_grpc_cancel (token : Z)
  | Cproxy_grpc_close (token : Z)
  | Cproxy_grpc_send (token : Z) (message_ptr : pointer) (message_size : nat)
      (end_stream : Z)
  | Cproxy_define_metric (type : Z) (name_ptr : pointer) (name_size : nat) (metric_id :
      pointer)
  | Cproxy_increment_metric (metric_id offset : Z)
  | Cproxy_record_metric (metric_id value : Z)
  | Cproxy_get_metric (metric_id : Z) (result : pointer)
  | Cproxy_set_effective_context (effective_context_id : Z)
  | Cproxy_done
  | Cproxy_call_foreign_function (function_name : pointer) (function_name_size : nat)
      (arguments : pointer) (arguments_size : nat) (results results_size : pointer).

(** ** The mock and its lifetime

    [method m c h] is what the method of the mock at address [m] does when it is
    called by [c] in memory [h]: what the test has told gmock. *)

Record World : Type := mkWorld {
  current_mock_proxy_wasm_abi : pointer;
  live : gset positive;
  mem : Mem;
}.

Definition with_mem (w : World) (h : Mem) : World :=
  mkWorld (current_mock_proxy_wasm_abi w) (live w) h.

(** The constructor and the destructor of the mock at [this]. *)
Definition MockProxyWasmAbi (this : positive) (w : World) : World :=
  mkWorld (Some this) ({[this]} ∪ live w) (mem w).

Definition delete_MockProxyWasmAbi (this : positive) (w : World) : World :=
  mkWorld None (live w ∖ {[this]}) (mem w).

Definition Stub (A : Type) : Type := World -> option (A * World).

Section stubs.
Context (method : positive -> AbiCall -> MemOp WasmResult).

(** A call of the method of an object that is not alive is undefined. *)
Definition call_mock (m : positive) (c : AbiCall) : Stub WasmResult := λ w,
  if decide (m ∈ live w)
  then (λ r, (r.1, with_mem w r.2)) <$> method m c (mem w)
  else None.

(** The body that the stubs share. *)
Definition forward (c : AbiCall) (otherwise : WasmResult) : Stub WasmResult := λ w,
  match current_mock_proxy_wasm_abi w with
  | Some m => call_mock m c w
  | None => Some (otherwise, w)
  end.

Definition proxy_log (level : Z) (logMessage : pointer) (messageSize : nat) : Stub
    WasmResult :=
  forward (Cproxy_log level logMessage messageSize) Ok.

Definition proxy_get_property (path_ptr : pointer) (path_size : nat) (value_ptr_ptr
    value_size_ptr : pointer) : Stub WasmResult :=
  forward (Cproxy_get_property path_ptr path_size value_ptr_ptr value_size_ptr)
    NotFound.

Definition proxy_send_local_response (response_code : Z) (response_code_details_ptr :
    pointer) (response_code_details_size : nat) (body_ptr : pointer) (body_size : nat)
    (additional_response_header_pairs_ptr : pointer)
    (additional_response_header_pairs_size : nat) (grpc_status : Z) : Stub WasmResult :=
  forward (Cproxy_send_local_response response_code response_code_details_ptr
    response_code_details_size body_ptr body_size additional_response_header_pairs_ptr
    additional_response_header_pairs_size grpc_status) Ok.

Definition proxy_get_configuration (configuration_ptr configuration_size : pointer) :
    Stub WasmResult :=
  forward (Cproxy_get_configuration configuration_ptr configuration_size) Ok.

Definition proxy_get_status (status_code_ptr message_ptr message_size : pointer) : Stub
    WasmResult :=
  forward (Cproxy_get_status status_code_ptr message_ptr message_size) Ok.

Definition proxy_get_log_level (level : pointer) : Stub WasmResult :=
  forward (Cproxy_get_log_level level) Ok.

Definition proxy_set_tick_period_milliseconds (millisecond : Z) : Stub WasmResult :=
  forward (Cproxy_set_tick_period_milliseconds millisecond) Ok.

Definition proxy_get_current_time_nanoseconds (nanoseconds : pointer) : Stub WasmResult
    :=
  forward (Cproxy_get_current_time_nanoseconds nanoseconds) Ok.

Definition proxy_set_property (path_ptr : pointer) (path_size : nat) (value_ptr :
    pointer) (value_size : nat) : Stub WasmResult :=
  forward (Cproxy_set_property path_ptr path_size value_ptr value_size) Ok.

Definition proxy_continue_stream (stream_type : Z) : Stub WasmResult :=
  forward (Cproxy_continue_stream stream_type) Ok.

Definition proxy_close_stream (stream_type : Z) : Stub WasmResult :=
  forward (Cproxy_close_stream stream_type) Ok.

Definition proxy_clear_route_cache : Stub WasmResult :=
  forward Cproxy_clear_route_cache Ok.

Definition proxy_get_shared_data (key_ptr : pointer) (key_size : nat) (value_ptr
    value_size cas : pointer) : Stub WasmResult :=
  forward (Cproxy_get_shared_data key_ptr key_size value_ptr value_size cas) Ok.

Definition proxy_set_shared_data (key_ptr : pointer) (key_size : nat) (value_ptr :
    pointer) (value_size : nat) (cas : Z) : Stub WasmResult :=
  forward (Cproxy_set_shared_data key_ptr key_size value_ptr value_size cas) Ok.

Definition proxy_register_shared_queue (queue_name_ptr : pointer) (queue_name_size :
    nat) (token : pointer) : Stub WasmResult :=
  forward (Cproxy_register_shared_queue queue_name_ptr queue_name_size token) Ok.

Definition proxy_resolve_shared_queue (vm_id : pointer) (vm_id_size : nat)
    (queue_name_ptr : pointer) (queue_name_size : nat) (token : pointer) : Stub
    WasmResult :=
  forward (Cproxy_resolve_shared_queue vm_id vm_id_size queue_name_ptr queue_name_size
    token) Ok.

Definition proxy_dequeue_shared_queue (token : Z) (data_ptr data_size : pointer) : Stub
    WasmResult :=
  forward (Cproxy_dequeue_shared_queue token data_ptr data_size) Ok.

Definition proxy_enqueue_shared_queue (token : Z) (data_ptr : pointer) (data_size : nat)
    : Stub WasmResult :=
  forward (Cproxy_enqueue_shared_queue token data_ptr data_size) Ok.

Definition proxy_add_header_map_value (type : Z) (key_ptr : pointer) (key_size : nat)
    (value_ptr : pointer) (value_size : nat) : Stub WasmResult :=
  forward (Cproxy_add_header_map_value type key_ptr key_size value_ptr value_size) Ok.

Definition proxy_get_header_map_value (type : Z) (key_ptr : pointer) (key_size : nat)
    (value_ptr value_size : pointer) : Stub WasmResult :=
  forward (Cproxy_get_header_map_value type key_ptr key_size value_ptr value_size) Ok.

Definition proxy_get_header_map_pairs (type : Z) (ptr size : pointer) : Stub WasmResult
    :=
  forward (Cproxy_get_header_map_pairs type ptr size) Ok.

Definition proxy_set_header_map_pairs (type : Z) (ptr : pointer) (size : nat) : Stub
    WasmResult :=
  forward (Cproxy_set_header_map_pairs type ptr size) Ok.

Definition proxy_replace_header_map_value (type : Z) (key_ptr : pointer) (key_size :
    nat) (value_ptr : pointer) (value_size : nat) : Stub WasmResult :=
  forward (Cproxy_replace_header_map_value type key_ptr key_size value_ptr value_size)
    Ok.

Definition proxy_remove_header_map_value (type : Z) (key_ptr : pointer) (key_size : nat)
    : Stub WasmResult :=
  forward (Cproxy_remove_header_map_value type key_ptr key_size) Ok.

Definition proxy_get_header_map_size (type : Z) (size : pointer) : Stub WasmResult :=
  forward (Cproxy_get_header_map_size type size) Ok.

Definition proxy_get_buffer_bytes (type start length : Z) (ptr size : pointer) : Stub
    WasmResult :=
  forward (Cproxy_get_buffer_bytes type start length ptr size) Ok.

Definition proxy_get_buffer_status (type : Z) (length_ptr flags_ptr : pointer) : Stub
    WasmResult :=
  forward (Cproxy_get_buffer_status type length_ptr flags_ptr) Ok.

Definition proxy_set_buffer_bytes (type start length : Z) (ptr : pointer) (size : nat) :
    Stub WasmResult :=
  forward (Cproxy_set_buffer_bytes type start length ptr size) Ok.

Definition proxy_http_call (uri_ptr : pointer) (uri_size : nat) (header_pairs_ptr :
    pointer) (header_pairs_size : nat) (body_ptr : pointer) (body_size : nat)
    (trailer_pairs_ptr : pointer) (trailer_pairs_size : nat) (timeout_milliseconds : Z)
    (token_ptr : pointer) : Stub WasmResult :=
  forward (Cproxy_http_call uri_ptr uri_size header_pairs_ptr header_pairs_size body_ptr
    body_size trailer_pairs_ptr trailer_pairs_size timeout_milliseconds token_ptr) Ok.

Definition proxy_grpc_call (service_ptr : pointer) (service_size : nat)
    (service_name_ptr : pointer) (service_name_size : nat) (method_name_ptr : pointer)
    (method_name_size : nat) (initial_metadata_ptr : pointer) (initial_metadata_size :
    nat) (request_ptr : pointer) (request_size : nat) (timeout_milliseconds : Z)
    (token_ptr : pointer) : Stub WasmResult :=
  forward (Cproxy_grpc_call service_ptr service_size service_name_ptr service_name_size
    method_name_ptr method_name_size initial_metadata_ptr initial_metadata_size
    request_ptr request_size timeout_milliseconds token_ptr) Ok.

Definition proxy_grpc_stream (service_ptr : pointer) (service_size : nat)
    (service_name_ptr : pointer) (service_name_size : nat) (method_name_ptr : pointer)
    (method_name_size : nat) (initial_metadata : pointer) (initial_metadata_size : nat)
    (token_ptr : pointer) : Stub WasmResult :=
  forward (Cproxy_grpc_stream service_ptr service_size service_name_ptr
    service_name_size method_name_ptr method_name_size initial_metadata
    initial_metadata_size token_ptr) Ok.

Definition proxy_grpc_cancel (token : Z) : Stub WasmResult :=
  forward (Cproxy_grpc_cancel token) Ok.

Definition proxy_grpc_close (token : Z) : Stub WasmResult :=
  forward (Cproxy_grpc_close token) Ok.

Definition proxy_grpc_send (token : Z) (message_ptr : pointer) (message_size : nat)
    (end_stream : Z) : Stub WasmResult :=
  forward (Cproxy_grpc_send token message_ptr message_size end_stream) Ok.

Definition proxy_define_metric (type : Z) (name_ptr : pointer) (name_size : nat)
    (metric_id : pointer) : Stub WasmResult :=
  forward (Cproxy_define_metric type name_ptr name_size metric_id) Ok.

Definition proxy_increment_metric (metric_id offset : Z) : Stub WasmResult :=
  forward (Cproxy_increment_metric metric_id offset) Ok.

Definition proxy_record_metric (metric_id value : Z) : Stub WasmResult :=
  forward (Cproxy_record_metric metric_id value) Ok.

Definition proxy_get_metric (metric_id : Z) (result : pointer) : Stub WasmResult :=
  forward (Cproxy_get_metric metric_id result) Ok.

Definition proxy_set_effective_context (effective_context_id : Z) : Stub WasmResult :=
  forward (Cproxy_set_effective_context effective_context_id) Ok.

Definition proxy_done : Stub WasmResult :=
  forward Cproxy_done Ok.

Definition proxy_call_foreign_function (function_name : pointer) (function_name_size :
    nat) (arguments : pointer) (arguments_size : nat) (results results_size : pointer) :
    Stub WasmResult :=
  forward (Cproxy_call_foreign_function function_name function_name_size arguments
    arguments_size results results_size) Ok.

(** The function that the linker finds for a call of the SDK. *)
Definition exported (c : AbiCall) : Stub WasmResult :=
  match c with
  | Cproxy_log a1 a2 a3 => proxy_log a1 a2 a3
  | Cproxy_get_property a1 a2 a3 a4 => proxy_get_property a1 a2 a3 a4
  | Cproxy_send_local_response a1 a2 a3 a4 a5 a6 a7 a8 => proxy_send_local_response a1
      a2 a3 a4 a5 a6 a7 a8
  | Cproxy_get_configuration a1 a2 => proxy_get_configuration a1 a2
  | Cproxy_get_status a1 a2 a3 => proxy_get_status a1 a2 a3
  | Cproxy_get_log_level a1 => proxy_get_log_level a1
  | Cproxy_set_tick_period_milliseconds a1 => proxy_set_tick_period_milliseconds a1
  | Cproxy_get_current_time_nanoseconds a1 => proxy_get_current_time_nanoseconds a1
  | Cproxy_set_property a1 a2 a3 a4 => proxy_set_property a1 a2 a3 a4
  | Cproxy_continue_stream a1 => proxy_continue_stream a1
  | Cproxy_close_stream a1 => proxy_close_stream a1
  | Cproxy_clear_route_cache => proxy_clear_route_cache
  | Cproxy_get_shared_data a1 a2 a3 a4 a5 => proxy_get_shared_data a1 a2 a3 a4 a5
  | Cproxy_set_shared_data a1 a2 a3 a4 a5 => proxy_set_shared_data a1 a2 a3 a4 a5
  | Cproxy_register_shared_queue a1 a2 a3 => proxy_register_shared_queue a1 a2 a3
  | Cproxy_resolve_shared_queue a1 a2 a3 a4 a5 => proxy_resolve_shared_queue a1 a2 a3 a4
      a5
  | Cproxy_dequeue_shared_queue a1 a2 a3 => proxy_dequeue_shared_queue a1 a2 a3
  | Cproxy_enqueue_shared_queue a1 a2 a3 => proxy_enqueue_shared_queue a1 a2 a3
  | Cproxy_add_header_map_value a1 a2 a3 a4 a5 => proxy_add_header_map_value a1 a2 a3 a4
      a5
  | Cproxy_get_header_map_value a1 a2 a3 a4 a5 => proxy_get_header_map_value a1 a2 a3 a4
      a5
  | Cproxy_get_header_map_pairs a1 a2 a3 => proxy_get_header_map_pairs a1 a2 a3
  | Cproxy_set_header_map_pairs a1 a2 a3 => proxy_set_header_map_pairs a1 a2 a3
  | Cproxy_replace_header_map_value a1 a2 a3 a4 a5 => proxy_replace_header_map_value a1
      a2 a3 a4 a5
  | Cproxy_remove_header_map_value a1 a2 a3 => proxy_remove_header_map_value a1 a2 a3
  | Cproxy_get_header_map_size a1 a2 => proxy_get_header_map_size a1 a2
  | Cproxy_get_buffer_bytes a1 a2 a3 a4 a5 => proxy_get_buffer_bytes a1 a2 a3 a4 a5
  | Cproxy_get_buffer_status a1 a2 a3 => proxy_get_buffer_status a1 a2 a3
  | Cproxy_set_buffer_bytes a1 a2 a3 a4 a5 => proxy_set_buffer_bytes a1 a2 a3 a4 a5
  | Cproxy_http_call a1 a2 a3 a4 a5 a6 a7 a8 a9 a10 => proxy_http_call a1 a2 a3 a4 a5 a6
      a7 a8 a9 a10
  | Cproxy_grpc_call a1 a2 a3 a4 a5 a6 a7 a8 a9 a10 a11 a12 => proxy_grpc_call a1 a2 a3
      a4 a5 a6 a7 a8 a9 a10 a11 a12
  | Cproxy_grpc_stream a1 a2 a3 a4 a5 a6 a7 a8 a9 => proxy_grpc_stream a1 a2 a3 a4 a5 a6
      a7 a8 a9
  | Cproxy_grpc_cancel a1 => proxy_grpc_cancel a1
  | Cproxy_grpc_close a1 => proxy_grpc_close a1
  | Cproxy_grpc_send a1 a2 a3 a4 => proxy_grpc_send a1 a2 a3 a4
  | Cproxy_define_metric a1 a2 a3 a4 => proxy_define_metric a1 a2 a3 a4
  | Cproxy_increment_metric a1 a2 => proxy_increment_metric a1 a2
  | Cproxy_record_metric a1 a2 => proxy_record_metric a1 a2
  | Cproxy_get_metric a1 a2 => proxy_get_metric a1 a2
  | Cproxy_set_effective_context a1 => proxy_set_effective_context a1
  | Cproxy_done => proxy_done
  | Cproxy_call_foreign_function a1 a2 a3 a4 a5 a6 => proxy_call_foreign_function a1 a2
      a3 a4 a5 a6
  end.

(** ** Histories of a test *)

Inductive Event : Type :=
  | Construct (m : positive)
  | Destroy (m : positive)
  | StubCall (c : AbiCall).

Inductive step : World -> Event -> World -> Prop :=
  | step_construct m w :
      m ∉ live w -> step w (Construct m) (MockProxyWasmAbi m w)
  | step_destroy m w :
      m ∈ live w -> step w (Destroy m) (delete_MockProxyWasmAbi m w)
  | step_call c w r w' :
      exported c w = Some (r, w') -> step w (StubCall c) w'.

(** The worlds that a program of a test reaches, from one without mocks. *)
Inductive history : list Event -> World -> Prop :=
  | history_nil h : history [] (mkWorld None ∅ h)
  | history_snoc evs w e w' :
      history evs w -> step w e w' -> history (evs ++ [e]) w'.

End stubs.

(** [__wasi_random_get(buf, buf_len)] leaves its buffer alone. *)
Definition __wasi_random_get (buf : pointer) (buf_len : nat) : MemOp Z := mret 0%Z.

(** ** The stubs *)

Section dispatch.
Context (method : positive -> AbiCall -> MemOp WasmResult).

(** What a host call answers while there is no mock. *)
Definition default_result (c : AbiCall) : WasmResult :=
  match c with Cproxy_get_property _ _ _ _ => NotFound | _ => Ok end.

Lemma exported_forward c : exported method c = forward method c (default_result c).
Proof. by destruct c. Qed.

Lemma exported_no_mock c w :
  current_mock_proxy_wasm_abi w = None ->
  exported method c w = Some (default_result c, w).
Proof. intros Hw. rewrite exported_forward. unfold forward. by rewrite Hw. Qed.

Lemma exported_mock c w m :
  current_mock_proxy_wasm_abi w = Some m -> m ∈ live w ->
  exported method c w = (λ r, (r.1, with_mem w r.2)) <$> method m c (mem w).
Proof.
  intros Hw Hm. rewrite exported_forward. unfold forward. rewrite Hw.
  unfold call_mock. by rewrite decide_True.
Qed.

(** A call changes neither the mock nor which mocks are alive. *)
Lemma exported_mocks c w r w' :
  exported method c w = Some (r, w') ->
  current_mock_proxy_wasm_abi w' = current_mock_proxy_wasm_abi w /\ live w' = live w.
Proof.
  rewrite exported_forward. unfold forward, call_mock. intros H.
  repeat case_match; simplify_option_eq; try done.
Qed.

Definition is_call (e : Event) : Prop := exists c, e = StubCall c.

(** The mock of a history: the one constructed last, if nothing but calls
    followed. *)
Definition latest (evs : list Event) (m : positive) : Prop :=
  exists pre post, evs = pre ++ Construct m :: post /\ Forall is_call post.

Lemma latest_snoc evs e m :
  latest (evs ++ [e]) m <-> e = Construct m \/ is_call e /\ latest evs m.
Proof.
  split.
  - intros (pre & post & Heq & Hpost).
    destruct post as [|e' post _] using rev_ind.
    + apply app_inj_tail in Heq as [_ ->]. by left.
    + rewrite app_comm_cons, app_assoc in Heq. apply app_inj_tail in Heq as [-> <-].
      apply Forall_app in Hpost as [? [? _]%Forall_cons]. right. split; [done|].
      by exists pre, post.
  - intros [->|[He (pre & post & -> & Hpost)]]; [by exists evs, []|].
    exists pre, (post ++ [e]). split; [by simplify_list_eq|].
    apply Forall_app. split; [done|by apply Forall_singleton].
Qed.

(** The invariant of the pointer: it is the mock constructed last, which is
    alive. *)
Lemma history_current evs w :
  history method evs w ->
  (forall m, current_mock_proxy_wasm_abi w = Some m <-> latest evs m) /\
  (forall m, current_mock_proxy_wasm_abi w = Some m -> m ∈ live w).
Proof.
  induction 1 as [h|evs w e w' _ [IHc IHl] Hstep].
  - split; intros m; [|done]. split; [done|].
    intros (pre & post & Heq & _). by destruct pre.
  - destruct Hstep as [m w|m w|c w r w' Hc]; simpl.
    + split; intros m'; [|set_solver]. rewrite latest_snoc. unfold is_call. naive_solver.
    + split; intros m'; [|done]. rewrite latest_snoc. unfold is_call. naive_solver.
    + apply exported_mocks in Hc as [-> ->]. split; intros m; [|apply IHl].
      rewrite latest_snoc, IHc. unfold is_call. naive_solver.
Qed.


(** A test with one mock at a time: the mock that is alive is the one called. *)
Lemma history_alone evs w :
  history method evs w ->
  (forall pre m post w', evs = pre ++ Construct m :: post -> history method pre w' ->
    live w' = ∅) ->
  live w = from_option singleton ∅ (current_mock_proxy_wasm_abi w).
Proof.
  induction 1 as [h|evs w e w' Hw IH Hstep]; intros Halone; [done|].
  assert (live w = from_option singleton ∅ (current_mock_proxy_wasm_abi w)) as IHw.
  { apply IH. intros pre m post w0 -> Hw0.
    apply (Halone pre m (post ++ [e])); [by rewrite <- app_assoc|done]. }
  destruct Hstep as [m w|m w Hm|c w r w' Hc]; simpl.
  - rewrite (Halone evs m [] w) by done. set_solver.
  - rewrite IHw in Hm |- *. clear -Hm.
    destruct (current_mock_proxy_wasm_abi w) as [m'|]; simpl in *; set_solver.
  - by apply exported_mocks in Hc as [-> ->].
Qed.

(** C40. Whatever a test does with its mocks, a host call never reaches one that
    is gone: in every world that a program reaches, each of the 41 exported
    functions hands the call, with its arguments, to the mock that was
    constructed last, which is alive, if nothing but calls has followed; in
    every other case no mock is asked, memory stays as it is, and the answer is
    [Ok], or [NotFound] for a property. *)
Theorem stubs_call_latest_mock evs w c :
  history method evs w ->
  match current_mock_proxy_wasm_abi w with
  | Some m =>
      latest evs m /\ m ∈ live w /\
      exported method c w = (λ r, (r.1, with_mem w r.2)) <$> method m c (mem w)
  | None =>
      (forall m, ~ latest evs m) /\ exported method c w = Some (default_result c, w)
  end.
Proof.
  intros [Hc Hl]%history_current. destruct (current_mock_proxy_wasm_abi w) as [m|] eqn:Hw.
  - split; [by apply Hc|]. split; [by apply Hl|]. apply exported_mock; auto.
  - split; [by intros m ?%Hc|]. by apply exported_no_mock.
Qed.

End dispatch.

(** ** What the actions of a mock leave to be read *)

Lemma malloc_spec n h :
  exists l, blocks h !! l = None /\
    malloc n h = Some (Some l, with_blocks (<[l := replicate n None]> (blocks h)) h).
Proof.
  exists (fresh (dom (blocks h))). split; [|done]. apply not_elem_of_dom, is_fresh.
Qed.

(** A block for a text, with the text. *)
Lemma malloc_memcpy {A} s (k : pointer -> MemOp A) h :
  exists l, blocks h !! l = None /\
    (p ← malloc (length s); _ ← memcpy p s; k p) h =
      k (Some l) (with_blocks (<[l := map Some s]> (blocks h)) h).
Proof.
  destruct (malloc_spec (length s) h) as (l & Hl & Hm). exists l. split; [done|].
  unfold mbind, MemOp_bind. rewrite Hm. cbn. rewrite lookup_insert_eq. cbn.
  rewrite length_replicate, decide_True by lia. cbn. unfold with_blocks. cbn.
  rewrite insert_insert_eq.
  by rewrite drop_ge, app_nil_r by (by rewrite length_replicate).
Qed.

Lemma store_out_spec a b p n h :
  is_Some (pointers h !! a) -> is_Some (sizes h !! b) ->
  store_out (Some a) (Some b) p n h =
    Some (Ok, mkMem (blocks h) (<[a := p]> (pointers h)) (<[b := n]> (sizes h))).
Proof.
  intros [p0 Hp] [n0 Hn]. unfold store_out, mbind, MemOp_bind. simpl.
  rewrite Hp. simpl. by rewrite Hn.
Qed.

Lemma mapM_written (s : str) : mapM id (map Some s) = Some s.
Proof. induction s as [|c s IH]; [done|]. simpl. by rewrite IH. Qed.

(** What [read_out] finds in a block that holds [t] with a size of [n]. *)
Lemma read_out_block bl ps ss a b l t n :
  read_out (mkMem (<[l := map Some t]> bl) (<[a := Some l]> ps) (<[b := n]> ss)) a b =
    if decide (n <= length t) then Some (take n t) else None.
Proof.
  unfold read_out, view. simpl. rewrite !lookup_insert_eq. simpl.
  destruct (decide (n = 0)) as [->|Hn]; [by rewrite decide_True by lia|].
  rewrite lookup_insert_eq. simpl. rewrite length_map. case_decide; [|done].
  by rewrite firstn_map, mapM_written.
Qed.

Lemma until_nul_short s :
  zero ∈ removelast s -> S (length (until_nul s)) < length s.
Proof.
  induction s as [|c [|d s] IH]; cbn [removelast]; [set_solver..|].
  intros [<-|Hs]%elem_of_cons; cbn [until_nul]; [rewrite decide_True by done; simpl; lia|].
  case_decide; [simpl; lia|]. apply IH in Hs. simpl in *. lia.
Qed.

Lemma until_nul_full s :
  zero ∉ removelast s -> take (length s) (until_nul s ++ [zero]) = s.
Proof.
  induction s as [|c [|d s] IH]; [done|..].
  - intros _. simpl. by case_decide; subst.
  - cbn [removelast]. intros [Hc Hs]%not_elem_of_cons. cbn [until_nul].
    rewrite decide_False by congruence. cbn -[until_nul]. f_equal. by apply IH.
Qed.

Lemma until_nul_read s :
  (if decide (length s <= length (until_nul s ++ [zero]))
   then Some (take (length s) (until_nul s ++ [zero])) else None) =
  (if decide (zero ∈ removelast s) then None else Some s).
Proof.
  destruct (decide (zero ∈ removelast s)) as [Hs|Hs].
  - apply until_nul_short in Hs. rewrite decide_False; [done|]. rewrite length_app. simpl. lia.
  - apply until_nul_full in Hs. rewrite Hs, decide_True; [done|].
    apply (f_equal length) in Hs. rewrite length_take in Hs. lia.
Qed.

Section actions.
Context (a b : positive) (h : Mem).
Context (Ha : is_Some (pointers h !! a)) (Hb : is_Some (sizes h !! b)).

(** What is common to the answers: the variables of the caller change, and a
    new block may come. *)
Definition answers (op : MemOp WasmResult) (s : option str) : Prop :=
  exists h', op h = Some (Ok, h') /\ read_out h' a b = s /\ blocks h ⊆ blocks h'.

Lemma answers_copy (s : str) :
  answers (p ← malloc (length s); _ ← memcpy p s;
           store_out (Some a) (Some b) p (length s)) (Some s).
Proof.
  destruct (malloc_memcpy s (λ p, store_out (Some a) (Some b) p (length s)) h)
    as (l & Hl & Hm).
  unfold answers. rewrite Hm, store_out_spec by done. eexists. split; [done|].
  simpl. rewrite read_out_block, decide_True, firstn_all by done. split; [done|].
  by apply insert_subseteq.
Qed.

Lemma answers_null :
  answers (store_out (Some a) (Some b) None 0) (Some []).
Proof.
  eexists. split; [by apply store_out_spec|]. split; [|done].
  unfold read_out. simpl. by rewrite !lookup_insert_eq.
Qed.

Lemma SetWasmString_answers s : answers (SetWasmString s (Some a) (Some b)) (Some s).
Proof. apply answers_copy. Qed.

Lemma SetWasmPairs_answers s : answers (SetWasmPairs s (Some a) (Some b)) (Some s).
Proof. apply answers_copy. Qed.

Lemma SetWasmProperty_answers s :
  answers (SetWasmProperty s (Some a) (Some b)) (Some s).
Proof. destruct s; [apply answers_null|apply answers_copy]. Qed.

(** [strdup] stops at a NUL that [s.length()] counts: a text with a NUL before
    its last character cannot be read back, the view ends beyond the block. *)
Lemma SetWasmBufferBytes_answers s :
  answers (SetWasmBufferBytes s (Some a) (Some b))
    (if decide (zero ∈ removelast s) then None else Some s).
Proof.
  destruct s as [|c s]; [apply answers_null|]. cbn [SetWasmBufferBytes].
  destruct (malloc_memcpy (until_nul (c :: s) ++ [zero])
    (λ p, store_out (Some a) (Some b) p (length (c :: s))) h) as (l & Hl & Hm).
  unfold answers, strdup. eexists. split; [|split].
  - etrans; [|etrans; [apply Hm|by apply store_out_spec]].
    unfold mbind, MemOp_bind. cbn -[until_nul memcpy].
    by destruct (memcpy _ _ _) as [[[] ?]|].
  - cbn [blocks pointers sizes with_blocks]. rewrite read_out_block.
    apply until_nul_read.
  - by apply insert_subseteq.
Qed.

End actions.

(** ** A test *)

(** A mock that answers for the body, as in envoy_lua_api_test.cc. *)
Definition demo_method (m : positive) (c : AbiCall) : MemOp WasmResult :=
  match c with
  | Cproxy_get_buffer_bytes _ _ _ p n => SetWasmBufferBytes "abc"%str p n
  | _ => mret NotFound
  end.

Definition demo_mem : Mem := mkMem ∅ {[1%positive := None]} {[2%positive := 0]}.

Definition demo_call : AbiCall := Cproxy_get_buffer_bytes 0 0 10 (Some 1%positive) (Some 2%positive).

Definition demo_world (h : Mem) : World := mkWorld (Some 3%positive) {[3%positive]} h.

Lemma demo_history :
  history demo_method [StubCall demo_call; Construct 3%positive; StubCall demo_call]
    (demo_world (mkMem {[1%positive := map Some ("abc"%str ++ [zero])]}
      {[1%positive := Some 1%positive]} {[2%positive := 3]})).
Proof.
  change [StubCall demo_call; Construct 3%positive; StubCall demo_call]
    with ((([] ++ [StubCall demo_call]) ++ [Construct 3%positive]) ++ [StubCall demo_call]).
  eapply history_snoc with (w := demo_world demo_mem);
    [eapply history_snoc with (w := mkWorld None ∅ demo_mem)|].
  - eapply history_snoc; [apply history_nil|]. by eapply step_call.
  - replace (demo_world demo_mem) with (MockProxyWasmAbi 3%positive (mkWorld None ∅ demo_mem))
      by (vm_compute; reflexivity).
    apply step_construct. set_solver.
  - apply step_call with (r := Ok). vm_compute. reflexivity.
Qed.

(** The second call of the test is answered by the mock, and the caller reads
    the body. *)
Lemma stubs_call_latest_mock_witness :
  exists w, history demo_method
      [StubCall demo_call; Construct 3%positive; StubCall demo_call] w /\
    read_out (mem w) 1 2 = Some "abc"%str /\
    latest [StubCall demo_call; Construct 3%positive; StubCall demo_call] 3%positive /\
    3%positive ∈ live w /\
    exported demo_method demo_call w =
      (λ r, (r.1, with_mem w r.2)) <$> demo_method 3 demo_call (mem w).
Proof.
  eexists. split; [apply demo_history|]. split; [vm_compute; reflexivity|].
  apply (stubs_call_latest_mock demo_method _ _ demo_call demo_history).
Defined.
